(** * LyricalEditorPlus: time codec and subtitle parser

    A shallow embedding of [utils/timeUtils.ts] (both revisions that the
    repository carries) and of [services/subtitleParser.ts], followed by
    the properties of the specification stated over that embedding.

    Modelling conventions.
    - A JavaScript string is a [string]: one [ascii] per UTF-16 code
      unit, so the development covers the code units 0..255.
    - A JavaScript number is an IEEE-754 binary64 value, a [spec_float]
      of the Rocq core library used at precision 53 and [emax] 1024.
    - Built-ins of the platform ([String.prototype.trim], [parseFloat],
      [parseInt], regular expressions, [Date], ...) are written out from
      ECMA-262 in the modules [Js] and [Regex]. *)

From Stdlib Require Import ZArith Lia Bool List Ascii String Permutation.
From Stdlib Require Import SpecFloat.
Import ListNotations.

Local Open Scope string_scope.
Local Open Scope Z_scope.

Set Warnings "-register-all".

(* ================================================================= *)
(** ** Code units and strings *)

Module Js.

Definition code (c : ascii) : nat := nat_of_ascii c.

(** [\d] *)
Definition isDigit (c : ascii) : bool :=
  (Nat.leb 48 (code c) && Nat.leb (code c) 57)%bool.

(** ECMA-262 [LineTerminator], within 0..255: LF and CR. *)
Definition isLineTerminator (c : ascii) : bool :=
  (Nat.eqb (code c) 10 || Nat.eqb (code c) 13)%bool.

(** ECMA-262 [WhiteSpace] or [LineTerminator], within 0..255: TAB, LF,
    VT, FF, CR, SP and NBSP.  This is [\s] and what [trim] removes. *)
Definition isSpace (c : ascii) : bool :=
  (Nat.leb 9 (code c) && Nat.leb (code c) 13
   || Nat.eqb (code c) 32 || Nat.eqb (code c) 160)%bool.

Definition isChar (a : ascii) (c : ascii) : bool := Ascii.eqb a c.
Arguments isChar a%_char c%_char.

Fixpoint dropWhile (p : ascii -> bool) (s : string) : string :=
  match s with
  | String c s' => if p c then dropWhile p s' else s
  | EmptyString => EmptyString
  end.

Fixpoint rev_onto (s acc : string) : string :=
  match s with
  | String c s' => rev_onto s' (String c acc)
  | EmptyString => acc
  end.

Definition rev (s : string) : string := rev_onto s EmptyString.

Definition trimStart (s : string) : string := dropWhile isSpace s.
Definition trimEnd (s : string) : string := rev (dropWhile isSpace (rev s)).

(** [s.trim()] *)
Definition trim (s : string) : string := trimEnd (trimStart s).

(** [p] is a prefix of [s]. *)
Fixpoint isPrefix (p s : string) : bool :=
  match p with
  | EmptyString => true
  | String a p' =>
      match s with
      | String b s' => if Ascii.eqb a b then isPrefix p' s' else false
      | EmptyString => false
      end
  end.

(** [s.startsWith(p)] *)
Definition startsWith (s p : string) : bool := isPrefix p s.

(** [s.endsWith(p)] *)
Definition endsWith (s p : string) : bool := isPrefix (rev p) (rev s).

(** [s.includes(p)] *)
Fixpoint includes (s p : string) : bool :=
  if isPrefix p s then true
  else match s with
       | String _ s' => includes s' p
       | EmptyString => false
       end.

(** [s.slice(0, -n)] for a positive [n]. *)
Definition dropLast (n : nat) (s : string) : string :=
  String.substring 0 (String.length s - n) s.

(** The first [k] characters of [filler] repeated for ever, [cur]
    being what is left of the current copy. *)
Fixpoint fill (k : nat) (filler cur : string) : string :=
  match k with
  | O => EmptyString
  | S k' =>
      match cur with
      | String c cur' => String c (fill k' filler cur')
      | EmptyString =>
          match filler with
          | String c rest => String c (fill k' filler rest)
          | EmptyString => EmptyString
          end
      end
  end.

(** [s.padStart(n, filler)] and [s.padEnd(n, filler)] *)
Definition padStart (n : nat) (filler s : string) : string :=
  fill (n - String.length s) filler filler ++ s.

Definition padEnd (n : nat) (filler s : string) : string :=
  s ++ fill (n - String.length s) filler filler.

(** [parts.join(sep)] *)
Fixpoint join (sep : string) (parts : list string) : string :=
  match parts with
  | [] => EmptyString
  | [p] => p
  | p :: rest => p ++ sep ++ join sep rest
  end.

(** A string is truthy when it is not empty. *)
Definition truthy (s : string) : bool :=
  match s with EmptyString => false | _ => true end.

(** [s.split(sep)] for a non-empty separator text: [skip] counts the
    characters of a separator still to be dropped, [cur] holds the
    current piece in reverse. *)
Fixpoint splitOnFrom (sep s : string) (skip : nat) (cur : string)
  : list string :=
  match skip with
  | S k =>
      match s with
      | String _ s' => splitOnFrom sep s' k cur
      | EmptyString => [rev cur]
      end
  | O =>
      match s with
      | String c s' =>
          if isPrefix sep s
          then rev cur :: splitOnFrom sep s' (String.length sep - 1) EmptyString
          else splitOnFrom sep s' 0 (String c cur)
      | EmptyString => [rev cur]
      end
  end.

Definition splitOn (sep s : string) : list string :=
  splitOnFrom sep s 0 EmptyString.

(** [s.replace(pat, by)] for a non-empty pattern text: the first
    occurrence only. *)
Fixpoint replaceFirst (pat by_ s : string) : string :=
  if isPrefix pat s
  then by_ ++ String.substring (String.length pat) (String.length s) s
  else match s with
       | String c s' => String c (replaceFirst pat by_ s')
       | EmptyString => EmptyString
       end.

(** [s.toLowerCase()] within 0..255. *)
Definition lowerChar (c : ascii) : ascii :=
  let n := code c in
  if (Nat.leb 65 n && Nat.leb n 90
      || Nat.leb 192 n && Nat.leb n 222 && negb (Nat.eqb n 215))%bool
  then ascii_of_nat (n + 32) else c.

Fixpoint toLowerCase (s : string) : string :=
  match s with
  | String c s' => String (lowerChar c) (toLowerCase s')
  | EmptyString => EmptyString
  end.

(** *** Decimal digits *)

Definition digitChar (d : Z) : ascii := ascii_of_nat (48 + Z.to_nat d).
Definition digitVal (c : ascii) : Z := Z.of_nat (code c - 48).

Fixpoint digitsOnto (fuel : nat) (n : Z) (acc : string) : string :=
  match fuel with
  | O => acc
  | S fuel' =>
      let acc' := String (digitChar (n mod 10)) acc in
      if n <? 10 then acc' else digitsOnto fuel' (n / 10) acc'
  end.

(** Decimal digits of a non-negative integer, most significant first. *)
Definition digits (n : Z) : string :=
  digitsOnto (S (Z.to_nat (Z.log2 n))) n EmptyString.

(** [n.toString()] for an integer-valued number below 10^21 in
    magnitude. *)
Definition intToString (n : Z) : string :=
  if n <? 0 then String "-" (digits (- n)) else digits n.

Definition natToString (n : nat) : string := digits (Z.of_nat n).

(** Value of a run of decimal digits read left to right. *)
Fixpoint digitsValue (acc : Z) (s : string) : Z :=
  match s with
  | String c s' => digitsValue (10 * acc + digitVal c) s'
  | EmptyString => acc
  end.

(** The longest prefix of [s] whose characters satisfy [p], and the
    rest. *)
Fixpoint span (p : ascii -> bool) (s : string) : string * string :=
  match s with
  | String c s' =>
      if p c then let (a, b) := span p s' in (String c a, b)
      else (EmptyString, s)
  | EmptyString => (EmptyString, EmptyString)
  end.

End Js.

(* ================================================================= *)
(** ** Numbers *)

Module Num.

Definition prec : Z := 53.
Definition emax : Z := 1024.

(** A JavaScript number. *)
Definition number : Type := spec_float.

Definition NaN : number := S754_nan.
Definition Infinity : number := S754_infinity false.

(** The number nearest to the integer [z] (exact below 2^53). *)
Definition ofZ (z : Z) : number := binary_normalize prec emax z 0 false.

Definition add (x y : number) : number := SFadd prec emax x y.
Definition sub (x y : number) : number := SFsub prec emax x y.
Definition mul (x y : number) : number := SFmul prec emax x y.
Definition div (x y : number) : number := SFdiv prec emax x y.
Definition neg (x : number) : number := SFopp x.

(** [ToBoolean]: NaN and both zeros are falsy. *)
Definition truthy (x : number) : bool :=
  match x with
  | S754_nan | S754_zero _ => false
  | _ => true
  end.

(** The number nearest to [n / d] for integers [n] and [d > 0], ties to
    even; [s] is the sign given to a zero result. *)
Definition ofRatio (s : bool) (n d : Z) : number :=
  match n with
  | Z0 => S754_zero s
  | Zpos p =>
      let '(q, e, l) := SFdiv_core_binary prec emax (Zpos p) 0 d 0 in
      binary_round_aux prec emax false q e l
  | Zneg p =>
      let '(q, e, l) := SFdiv_core_binary prec emax (Zpos p) 0 d 0 in
      binary_round_aux prec emax true q e l
  end.

(** The number nearest to [m * 10^e]. *)
Definition ofDecimal (s : bool) (m e : Z) : number :=
  let m' := if s then - m else m in
  if 0 <=? e then binary_normalize prec emax (m' * 10 ^ e) 0 s
  else ofRatio s m' (10 ^ (- e)).

(** [Math.floor(x)] *)
Definition Math_floor (x : number) : number :=
  match x with
  | S754_finite s m (Zneg k) =>
      binary_normalize prec emax
        (cond_Zopp s (Zpos m) / 2 ^ Zpos k) 0 s
  | _ => x
  end.

(** [Math.round(x)]: the nearest integer, a tie going towards
    +Infinity. *)
Definition Math_round (x : number) : number :=
  match x with
  | S754_finite s m (Zneg k) =>
      binary_normalize prec emax
        ((2 * cond_Zopp s (Zpos m) + 2 ^ Zpos k) / (2 * 2 ^ Zpos k)) 0 s
  | _ => x
  end.

(** [x % y] (ECMA-262 Number::remainder): exact, with the sign of the
    dividend. *)
Definition rem (x y : number) : number :=
  match x, y with
  | S754_nan, _ | _, S754_nan => NaN
  | S754_infinity _, _ => NaN
  | _, S754_zero _ => NaN
  | _, S754_infinity _ => x
  | S754_zero _, _ => x
  | S754_finite sx mx ex, S754_finite _ my ey =>
      let e := Z.min ex ey in
      let n := Zpos mx * 2 ^ (ex - e) in
      let d := Zpos my * 2 ^ (ey - e) in
      binary_normalize prec emax (cond_Zopp sx (n mod d)) e sx
  end.

(** [Math.max(x, y)] *)
Definition Math_max (x y : number) : number :=
  match x, y with
  | S754_nan, _ | _, S754_nan => NaN
  | S754_zero sx, S754_zero sy => S754_zero (sx && sy)
  | _, _ => if SFltb x y then y else x
  end.

(** Structural equality of numbers (same class, sign, mantissa and
    exponent). *)
Definition same (x y : number) : bool :=
  match x, y with
  | S754_nan, S754_nan => true
  | S754_zero a, S754_zero b => Bool.eqb a b
  | S754_infinity a, S754_infinity b => Bool.eqb a b
  | S754_finite a m e, S754_finite b m' e' =>
      (Bool.eqb a b && Pos.eqb m m' && Z.eqb e e')%bool
  | _, _ => false
  end.

(** *** [parseInt(s, 10)] and [parseFloat(s)] *)

Definition signOf (s : string) : bool * string :=
  match s with
  | String "-" s' => (true, s')
  | String "+" s' => (false, s')
  | _ => (false, s)
  end.

(** ECMA-262 parseInt with radix 10: leading white space, a sign, then
    the longest run of decimal digits; NaN when that run is empty. *)
Definition parseInt (s : string) : number :=
  let (sg, body) := signOf (Js.trimStart s) in
  let (ds, _) := Js.span Js.isDigit body in
  match ds with
  | EmptyString => NaN
  | _ => binary_normalize prec emax (cond_Zopp sg (Js.digitsValue 0 ds)) 0 sg
  end.

(** The exponent part [e[+-]digits] of a StrDecimalLiteral, 0 when the
    text does not start with one. *)
Definition exponentPart (s : string) : Z :=
  match s with
  | String c s' =>
      if (Js.isChar "e" c || Js.isChar "E" c)%bool then
        let (sg, body) := signOf s' in
        let (ds, _) := Js.span Js.isDigit body in
        match ds with
        | EmptyString => 0
        | _ => cond_Zopp sg (Js.digitsValue 0 ds)
        end
      else 0
  | EmptyString => 0
  end.

(** ECMA-262 parseFloat: leading white space is skipped, then the
    longest prefix that is a StrDecimalLiteral is converted; NaN when
    there is none. *)
Definition parseFloat (s : string) : number :=
  let (sg, body) := signOf (Js.trimStart s) in
  if Js.startsWith body "Infinity" then S754_infinity sg
  else
    let (ip, rest) := Js.span Js.isDigit body in
    let '(fp, rest') :=
      match rest with
      | String "." r => Js.span Js.isDigit r
      | _ => (EmptyString, rest)
      end in
    match ip, fp with
    | EmptyString, EmptyString => NaN
    | _, _ =>
        ofDecimal sg (Js.digitsValue 0 (ip ++ fp))
          (exponentPart rest' - Z.of_nat (String.length fp))
    end.

(** *** [Number.prototype.toString()] *)

(** The [n] with [10^(n-1) <= num/den < 10^n], searched from [n]. *)
Fixpoint decimalExponent (fuel : nat) (num den n : Z) : Z :=
  match fuel with
  | O => n
  | S fuel' =>
      let lowOk :=
        if 0 <? n then 10 ^ (n - 1) * den <=? num
        else den <=? num * 10 ^ (1 - n) in
      let highOk :=
        if 0 <=? n then num <? 10 ^ n * den
        else num * 10 ^ (- n) <? den in
      if negb lowOk then decimalExponent fuel' num den (n - 1)
      else if negb highOk then decimalExponent fuel' num den (n + 1)
      else n
  end.

(** ECMA-262 Number::toString step 5: the shortest digit string [s] of
    [k] digits and the exponent [n] with [s * 10^(n-k)] converting back
    to [x]; of two candidates the one closer to [x]. *)
Fixpoint shortest (fuel : nat) (k : Z) (x : number) (num den n : Z)
  : Z * Z * Z :=
  match fuel with
  | O => (0, 1, n)
  | S fuel' =>
      let p := k - n in
      let '(a, b) :=
        if 0 <=? p then (num * 10 ^ p, den) else (num, den * 10 ^ (- p)) in
      let lo := a / b in
      let r := a mod b in
      let hi := lo + 1 in
      let okLo := same (ofDecimal false lo (n - k)) x in
      let okHi := same (ofDecimal false hi (n - k)) x in
      let pickHi := if hi =? 10 ^ k then (1, 1, n + 1) else (hi, k, n) in
      if (okLo && okHi)%bool then
        if 2 * r <? b then (lo, k, n)
        else if b <? 2 * r then pickHi
        else if Z.even lo then (lo, k, n) else pickHi
      else if okLo then (lo, k, n)
      else if okHi then pickHi
      else shortest fuel' (k + 1) x num den n
  end.

Definition zeros (n : Z) : string := Js.fill (Z.to_nat n) "0" "0".

Definition positiveToString (m : positive) (e : Z) : string :=
  let '(num, den) :=
    if 0 <=? e then (Zpos m * 2 ^ e, 1) else (Zpos m, 2 ^ (- e)) in
  let n0 := decimalExponent 800 num den 0 in
  let '(s, k, n) := shortest 17 1 (S754_finite false m e) num den n0 in
  let ds := Js.digits s in
  if ((k <=? n) && (n <=? 21))%bool then ds ++ zeros (n - k)
  else if ((0 <? n) && (n <=? 21))%bool then
    String.substring 0 (Z.to_nat n) ds ++ "." ++
    String.substring (Z.to_nat n) (Z.to_nat (k - n)) ds
  else if ((-6 <? n) && (n <=? 0))%bool then "0." ++ zeros (- n) ++ ds
  else
    let ex := (if n - 1 <? 0 then "e-" else "e+") ++ Js.digits (Z.abs (n - 1)) in
    if k =? 1 then ds ++ ex
    else String.substring 0 1 ds ++ "." ++
         String.substring 1 (Z.to_nat (k - 1)) ds ++ ex.

(** [x.toString()] *)
Definition toString (x : number) : string :=
  match x with
  | S754_nan => "NaN"
  | S754_zero _ => "0"
  | S754_infinity s => if s then "-Infinity" else "Infinity"
  | S754_finite s m e =>
      (if s then "-" else "") ++ positiveToString m e
  end.

End Num.

(* ================================================================= *)
(** ** Regular expressions

    A backtracking matcher for the fragment of ECMA-262 patterns that
    the sources use: character classes, concatenation, greedy and lazy
    quantifiers, capture groups and the assertions [^] and [$] (no [m]
    flag).  Each pattern of the sources is transcribed below as a value
    of [regex]. *)

Module Regex.

Local Open Scope nat_scope.

Inductive regex : Type :=
| Eps                                   (* the empty pattern *)
| Cls (p : ascii -> bool)               (* one character of a class *)
| Cat (r1 r2 : regex)                   (* r1 r2 *)
| Rep (greedy : bool) (lo : nat) (hi : option nat) (r : regex)
                                        (* r{lo,hi} and r{lo,hi}? *)
| Grp (i : nat) (r : regex)             (* the i-th capture group *)
| Bol                                   (* ^ *)
| Eol.                                  (* $ *)

(** Captures: group number with the positions where its text starts
    and ends, the latest first. *)
Definition captures : Type := list (nat * (nat * nat)).

(** A successful match: where it ends and what it captured. *)
Definition result : Type := (nat * captures)%type.

(** A continuation receives the position reached, what is left of the
    input and the captures so far. *)
Definition cont : Type := nat -> string -> captures -> option result.

Definition orElse {A : Type} (a b : option A) : option A :=
  match a with
  | Some _ => a
  | None => b
  end.

Definition canRepeat (hi : option nat) : bool :=
  match hi with
  | Some O => false
  | _ => true
  end.

(** The quantifier: [step] matches one iteration.  An iteration that
    consumes nothing is rejected, as ECMA-262 does, which also bounds
    the number of iterations by the length of the input ([fuel]). *)
Fixpoint repeat (step : nat -> string -> captures -> cont -> option result)
  (fuel : nat) (greedy : bool) (lo : nat) (hi : option nat)
  (pos : nat) (s : string) (c : captures) (k : cont) : option result :=
  match fuel with
  | O => None
  | S fuel' =>
      let more :=
        if canRepeat hi then
          step pos s c (fun pos' s' c' =>
            if Nat.eqb pos' pos then None
            else repeat step fuel' greedy (Nat.pred lo)
                   (option_map Nat.pred hi) pos' s' c' k)
        else None in
      match lo with
      | S _ => more
      | O => if greedy then orElse more (k pos s c)
             else orElse (k pos s c) more
      end
  end.

(** [run r pos s c k]: match [r] at position [pos], where [s] is the
    input from [pos] on, then go on with [k]. *)
Fixpoint run (r : regex) (pos : nat) (s : string) (c : captures) (k : cont)
  : option result :=
  match r with
  | Eps => k pos s c
  | Cls p =>
      match s with
      | String a s' => if p a then k (S pos) s' c else None
      | EmptyString => None
      end
  | Cat r1 r2 => run r1 pos s c (fun pos' s' c' => run r2 pos' s' c' k)
  | Rep greedy lo hi r1 =>
      repeat (run r1) (S (String.length s)) greedy lo hi pos s c k
  | Grp i r1 =>
      run r1 pos s c (fun pos' s' c' => k pos' s' ((i, (pos, pos')) :: c'))
  | Bol => if Nat.eqb pos 0 then k pos s c else None
  | Eol =>
      match s with
      | EmptyString => k pos s c
      | _ => None
      end
  end.

(** A match of [r] that starts exactly at [pos], [s] being the input
    from [pos] on. *)
Definition matchAt (r : regex) (pos : nat) (s : string) : option result :=
  run r pos s [] (fun pos' _ c' => Some (pos', c')).

(** The leftmost match at or after [pos]: where it starts, where it
    ends and what it captured. *)
Fixpoint searchFrom (r : regex) (pos : nat) (s : string)
  : option (nat * result) :=
  match matchAt r pos s with
  | Some res => Some (pos, res)
  | None =>
      match s with
      | String _ s' => searchFrom r (S pos) s'
      | EmptyString => None
      end
  end.

(** What [exec] reports: start index, matched text, captured texts. *)
Record found : Type := mkFound {
  index : nat;
  matched : string;
  groups : list (nat * string)
}.

(** [input.slice(a, b)] *)
Definition slice (input : string) (a b : nat) : string :=
  String.substring a (b - a) input.

Definition toFound (input : string) (m : nat * result) : found :=
  let '(from, (to, c)) := m in
  mkFound from (slice input from to)
          (map (fun g => (fst g, slice input (fst (snd g)) (snd (snd g)))) c).

(** [s.match(r)] / [r.exec(s)] for a pattern without the [g] flag. *)
Definition exec (r : regex) (s : string) : option found :=
  option_map (toFound s) (searchFrom r 0 s).

(** [r.test(s)] *)
Definition test (r : regex) (s : string) : bool :=
  match searchFrom r 0 s with
  | Some _ => true
  | None => false
  end.

(** [m[i]]: the text of group [i], [None] for [undefined]. *)
Fixpoint group (i : nat) (c : list (nat * string)) : option string :=
  match c with
  | [] => None
  | (j, t) :: c' => if Nat.eqb i j then Some t else group i c'
  end.

(** Drop the first [n] characters. *)
Fixpoint skip (n : nat) (s : string) : string :=
  match n, s with
  | S n', String _ s' => skip n' s'
  | _, _ => s
  end.

(** All matches of a [g] pattern from left to right, as [exec] in a
    loop, [replace] and [split] see them; [s] is the input from [pos]
    on and an empty match advances by one character. *)
Fixpoint allMatches (fuel : nat) (r : regex) (pos : nat) (s : string)
  : list (nat * result) :=
  match fuel with
  | O => []
  | S fuel' =>
      match searchFrom r pos s with
      | None => []
      | Some (from, (to, c)) =>
          let next := Nat.max to (from + 1) in
          (from, (to, c)) ::
          (if Nat.ltb (pos + String.length s) next then []
           else allMatches fuel' r next (skip (next - pos) s))
      end
  end.

Definition matches (r : regex) (s : string) : list found :=
  map (toFound s) (allMatches (S (String.length s)) r 0 s).

(** [s.replace(r, by)] for a [g] pattern and a replacement text without
    [$] patterns; [s] is the input from [pos] on. *)
Fixpoint replaceWalk (ms : list found) (pos : nat) (s : string) (by_ : string)
  : string :=
  match ms with
  | [] => s
  | f :: ms' =>
      String.substring 0 (index f - pos) s ++ by_ ++
      replaceWalk ms' (index f + String.length (matched f))
        (skip (index f + String.length (matched f) - pos) s) by_
  end.

Definition replaceAll (r : regex) (by_ : string) (s : string) : string :=
  replaceWalk (matches r s) 0 s by_.

(** [s.split(r)] for a pattern without capture groups that never
    matches the empty string. *)
Fixpoint splitWalk (ms : list found) (pos : nat) (s : string) : list string :=
  match ms with
  | [] => [s]
  | f :: ms' =>
      String.substring 0 (index f - pos) s ::
      splitWalk ms' (index f + String.length (matched f))
        (skip (index f + String.length (matched f) - pos) s)
  end.

Definition split (r : regex) (s : string) : list string :=
  splitWalk (matches r s) 0 s.

(** *** Notation for patterns *)

Definition chr (a : ascii) : regex := Cls (Js.isChar a).
Definition digit : regex := Cls Js.isDigit.                (* \d *)
Definition space : regex := Cls Js.isSpace.                (* \s *)
Definition dot : regex := Cls (fun c => negb (Js.isLineTerminator c)). (* . *)
Definition notChr (a : ascii) : regex := Cls (fun c => negb (Js.isChar a c)).
Definition oneOf (a b : ascii) : regex :=
  Cls (fun c => (Js.isChar a c || Js.isChar b c)%bool).
Arguments chr a%_char.
Arguments notChr a%_char.
Arguments oneOf a%_char b%_char.

Definition times (n : nat) (r : regex) : regex := Rep true n (Some n) r.
Definition between (lo hi : nat) (r : regex) : regex := Rep true lo (Some hi) r.
Definition opt (r : regex) : regex := Rep true 0 (Some 1) r.
Definition star (r : regex) : regex := Rep true 0 None r.
Definition plus (r : regex) : regex := Rep true 1 None r.
Definition lazyStar (r : regex) : regex := Rep false 0 None r.

Fixpoint lit (s : string) : regex :=
  match s with
  | EmptyString => Eps
  | String a EmptyString => chr a
  | String a s' => Cat (chr a) (lit s')
  end.

Fixpoint seq (rs : list regex) : regex :=
  match rs with
  | [] => Eps
  | [r] => r
  | r :: rs' => Cat r (seq rs')
  end.

End Regex.

(* ================================================================= *)
(** ** [utils/timeUtils.ts], the earlier revision *)

Module Legacy.

Import Num.

(** The time value of [new Date(ms)], [None] for an invalid date
    (ECMA-262 TimeClip). *)
Definition newDate (ms : number) : option Z :=
  let clip t := if Z.abs t <=? 8640000000000000 then Some t else None in
  match ms with
  | S754_zero _ => Some 0
  | S754_finite s m (Zneg k) => clip (Z.quot (cond_Zopp s (Zpos m)) (2 ^ Zpos k))
  | S754_finite s m e => clip (cond_Zopp s (Zpos m) * 2 ^ e)
  | _ => None
  end.

Definition field (f : Z -> Z) (date : option Z) : number :=
  match date with
  | Some t => ofZ (f t)
  | None => NaN
  end.

(** ECMA-262 MinFromTime, SecFromTime and msFromTime. *)
Definition getUTCMinutes : option Z -> number :=
  field (fun t => (t / 60000) mod 60).
Definition getUTCSeconds : option Z -> number :=
  field (fun t => (t / 1000) mod 60).
Definition getUTCMilliseconds : option Z -> number :=
  field (fun t => t mod 1000).

Definition msToSrt (ms : number) : string :=
  let date := newDate ms in
  let h := Js.padStart 2 "0" (toString (Math_floor (div ms (ofZ 3600000)))) in
  let m := Js.padStart 2 "0" (toString (getUTCMinutes date)) in
  let s := Js.padStart 2 "0" (toString (getUTCSeconds date)) in
  let mis := Js.padStart 3 "0" (toString (getUTCMilliseconds date)) in
  h ++ ":" ++ m ++ ":" ++ s ++ "," ++ mis.

Definition msToLrc (ms : number) : string :=
  let date := newDate ms in
  let m := Js.padStart 2 "0" (toString (Math_floor (div ms (ofZ 60000)))) in
  let s := Js.padStart 2 "0" (toString (getUTCSeconds date)) in
  let centis :=
    Js.padStart 2 "0"
      (toString (Math_floor (div (getUTCMilliseconds date) (ofZ 10)))) in
  m ++ ":" ++ s ++ "." ++ centis.

Definition msToVtt (ms : number) : string :=
  let date := newDate ms in
  let h := Js.padStart 2 "0" (toString (Math_floor (div ms (ofZ 3600000)))) in
  let m := Js.padStart 2 "0" (toString (getUTCMinutes date)) in
  let s := Js.padStart 2 "0" (toString (getUTCSeconds date)) in
  let mis := Js.padStart 3 "0" (toString (getUTCMilliseconds date)) in
  h ++ ":" ++ m ++ ":" ++ s ++ "." ++ mis.

End Legacy.

(* ================================================================= *)
(** ** [utils/timeUtils.ts], the current revision *)

Module TimeUtils.

Import Num.
Import Regex.

Definition msToSrt (ms : number) : string :=
  let roundedMs := Math_round ms in
  let h := Js.padStart 2 "0"
             (toString (Math_floor (div roundedMs (ofZ 3600000)))) in
  let m := Js.padStart 2 "0"
             (toString (Math_floor (div (rem roundedMs (ofZ 3600000)) (ofZ 60000)))) in
  let s := Js.padStart 2 "0"
             (toString (Math_floor (div (rem roundedMs (ofZ 60000)) (ofZ 1000)))) in
  let mis := Js.padStart 3 "0" (toString (rem roundedMs (ofZ 1000))) in
  h ++ ":" ++ m ++ ":" ++ s ++ "," ++ mis.

Definition msToLrc (ms : number) : string :=
  let roundedMs := mul (Math_round (div ms (ofZ 10))) (ofZ 10) in
  let m := Js.padStart 2 "0"
             (toString (Math_floor (div roundedMs (ofZ 60000)))) in
  let s := Js.padStart 2 "0"
             (toString (Math_floor (div (rem roundedMs (ofZ 60000)) (ofZ 1000)))) in
  let centis := Js.padStart 2 "0"
             (toString (Math_floor (div (rem roundedMs (ofZ 1000)) (ofZ 10)))) in
  m ++ ":" ++ s ++ "." ++ centis.

Definition msToMmSsMmm (ms : number) : string :=
  let roundedMs := Math_round ms in
  let m := Js.padStart 2 "0"
             (toString (Math_floor (div roundedMs (ofZ 60000)))) in
  let s := Js.padStart 2 "0"
             (toString (Math_floor (div (rem roundedMs (ofZ 60000)) (ofZ 1000)))) in
  let mmm := Js.padStart 3 "0" (toString (rem roundedMs (ofZ 1000))) in
  m ++ ":" ++ s ++ "." ++ mmm.

Definition msToVtt (ms : number) : string :=
  let roundedMs := Math_round ms in
  let h := Js.padStart 2 "0"
             (toString (Math_floor (div roundedMs (ofZ 3600000)))) in
  let m := Js.padStart 2 "0"
             (toString (Math_floor (div (rem roundedMs (ofZ 3600000)) (ofZ 60000)))) in
  let s := Js.padStart 2 "0"
             (toString (Math_floor (div (rem roundedMs (ofZ 60000)) (ofZ 1000)))) in
  let mis := Js.padStart 3 "0" (toString (rem roundedMs (ofZ 1000))) in
  h ++ ":" ++ m ++ ":" ++ s ++ "." ++ mis.

(** [/^(\d{1,2}):(\d{2})(?:\.(\d{1,3}))?$/] *)
Definition lrcPattern : regex :=
  seq [Bol; Grp 1 (between 1 2 digit); chr ":"; Grp 2 (times 2 digit);
       opt (Cat (chr ".") (Grp 3 (between 1 3 digit))); Eol].

(** [/^(?:(\d{1,2}):)?(\d{1,2}):(\d{1,2})[.,](\d{1,3})$/] *)
Definition fullPattern : regex :=
  seq [Bol; opt (Cat (Grp 1 (between 1 2 digit)) (chr ":"));
       Grp 2 (between 1 2 digit); chr ":"; Grp 3 (between 1 2 digit);
       oneOf "." ","; Grp 4 (between 1 3 digit); Eol].

(** [/^\d+(\.\d+)?$/] *)
Definition numericPattern : regex :=
  seq [Bol; plus digit; opt (Grp 1 (Cat (chr ".") (plus digit))); Eol].

(** [m[i]] where a string is expected: [undefined] reads as its name. *)
Definition captured (i : nat) (m : found) : string :=
  match group i (groups m) with
  | Some t => t
  | None => "undefined"
  end.

(** [m[i] || d] *)
Definition capturedOr (i : nat) (m : found) (d : string) : string :=
  match group i (groups m) with
  | Some t => if Js.truthy t then t else d
  | None => d
  end.

(** [m[i]] as a condition. *)
Definition participated (i : nat) (m : found) : bool :=
  match group i (groups m) with
  | Some t => Js.truthy t
  | None => false
  end.

Definition timeToMs (timeStr : string) : number :=
  if negb (Js.truthy timeStr) then ofZ 0
  else
    let cleanStr := Js.trim timeStr in
    if Js.endsWith cleanStr "ms" then parseFloat (Js.dropLast 2 cleanStr)
    else if Js.endsWith cleanStr "s" then
      mul (parseFloat (Js.dropLast 1 cleanStr)) (ofZ 1000)
    else
      match exec lrcPattern cleanStr with
      | Some lrcMatch =>
          let m := parseInt (captured 1 lrcMatch) in
          let s := parseInt (captured 2 lrcMatch) in
          let msStr := capturedOr 3 lrcMatch "0" in
          let ms :=
            if Nat.eqb (String.length msStr) 3 then parseInt msStr
            else if Nat.eqb (String.length msStr) 2 then
              mul (parseInt msStr) (ofZ 10)
            else if Nat.eqb (String.length msStr) 1 then
              mul (parseInt msStr) (ofZ 100)
            else parseInt msStr in
          add (add (mul m (ofZ 60000)) (mul s (ofZ 1000))) ms
      | None =>
          match exec fullPattern cleanStr with
          | Some fullMatch =>
              let h := if participated 1 fullMatch
                       then parseInt (captured 1 fullMatch) else ofZ 0 in
              let m := parseInt (captured 2 fullMatch) in
              let s := parseInt (captured 3 fullMatch) in
              let msStr := captured 4 fullMatch in
              let ms := parseInt msStr in
              let ms :=
                if Nat.eqb (String.length msStr) 1 then mul ms (ofZ 100)
                else if Nat.eqb (String.length msStr) 2 then mul ms (ofZ 10)
                else ms in
              add (add (add (mul h (ofZ 3600000)) (mul m (ofZ 60000)))
                     (mul s (ofZ 1000))) ms
          | None =>
              if test numericPattern cleanStr then
                mul (parseFloat cleanStr) (ofZ 1000)
              else ofZ 0
          end
      end.

End TimeUtils.

(* ================================================================= *)
(** ** The decoder of the earlier revision *)

Module LegacyDecoder.

Import Num.
Import Regex.
Import TimeUtils.

(** [/^(\d{1,2}):(\d{2})(?:\.(\d{1,3}))?$/] *)
Definition lrcPattern : regex :=
  seq [Bol; Grp 1 (between 1 2 digit); chr ":"; Grp 2 (times 2 digit);
       opt (Cat (chr ".") (Grp 3 (between 1 3 digit))); Eol].

(** [/^(\d{1,2}):(\d{2}):(\d{2})[.,](\d{1,3})$/] *)
Definition fullPattern : regex :=
  seq [Bol; Grp 1 (between 1 2 digit); chr ":"; Grp 2 (times 2 digit);
       chr ":"; Grp 3 (times 2 digit); oneOf "." ",";
       Grp 4 (between 1 3 digit); Eol].

Definition timeToMs (timeStr : string) : number :=
  if negb (Js.truthy timeStr) then ofZ 0
  else
    let cleanStr := Js.trim timeStr in
    match exec lrcPattern cleanStr with
    | Some lrcMatch =>
        let m := parseInt (captured 1 lrcMatch) in
        let s := parseInt (captured 2 lrcMatch) in
        let msStr := capturedOr 3 lrcMatch "0" in
        let ms :=
          if Nat.eqb (String.length msStr) 2 then mul (parseInt msStr) (ofZ 10)
          else if Nat.eqb (String.length msStr) 1 then
            mul (parseInt msStr) (ofZ 100)
          else parseInt msStr in
        add (add (mul m (ofZ 60000)) (mul s (ofZ 1000))) ms
    | None =>
        match exec fullPattern cleanStr with
        | Some fullMatch =>
            let h := parseInt (captured 1 fullMatch) in
            let m := parseInt (captured 2 fullMatch) in
            let s := parseInt (captured 3 fullMatch) in
            let ms := parseInt (Js.padEnd 3 "0" (captured 4 fullMatch)) in
            add (add (add (mul h (ofZ 3600000)) (mul m (ofZ 60000)))
                   (mul s (ofZ 1000))) ms
        | None => ofZ 0
        end
    end.

End LegacyDecoder.

(* ================================================================= *)
(** ** [types.ts] *)

Record Word : Type := mkWord {
  w_id : string;
  w_text : string;
  w_start : option Num.number;
  w_end : option Num.number
}.

Record Cue : Type := mkCue {
  id : string;
  start : Num.number;
  end_ : Num.number;
  text : string;
  words : option (list Word)
}.

Inductive SubtitleFormat : Type :=
| LRC | LRC_ENHANCED | SRT | VTT | VTT_KARAOKE
| TTML | TTML_KARAOKE | TXT | JSON.

Record Metadata : Type := mkMetadata {
  title : option string;
  artist : option string;
  album : option string;
  by_ : option string
}.

(** [{}] *)
Definition noMetadata : Metadata := mkMetadata None None None None.

(* ================================================================= *)
(** ** What the platform provides: XML documents and JSON values *)

Module Dom.

(** A node of a parsed XML document.  [OtherNode] stands for the nodes
    that are neither text nor elements (comments, CDATA sections,
    processing instructions). *)
Inductive node : Type :=
| TextNode (data : string)
| ElementNode (tagName localName : string)
    (attributes : list (string * string)) (childNodes : list node)
| OtherNode.

(** [el.getAttribute(name)], [None] for [null]. *)
Fixpoint getAttribute (name : string) (attrs : list (string * string))
  : option string :=
  match attrs with
  | [] => None
  | (k, v) :: rest => if String.eqb k name then Some v else getAttribute name rest
  end.

(** [getElementsByTagName(name)]: the elements of that qualified name
    below the given nodes, in document order. *)
Fixpoint elementsByTagName (name : string) (n : node) : list node :=
  match n with
  | ElementNode tag _ _ children =>
      ((if String.eqb tag name then [n] else []) ++
       (fix below (l : list node) : list node :=
          match l with
          | [] => []
          | c :: l' => elementsByTagName name c ++ below l'
          end) children)%list
  | _ => []
  end.

Definition getElementsByTagName (name : string) (doc : list node) : list node :=
  flat_map (elementsByTagName name) doc.

(** The attributes of an element. *)
Definition attributesOf (p : Dom.node) : list (string * string) :=
  match p with
  | ElementNode _ _ attributes _ => attributes
  | _ => []
  end.

End Dom.

Module Json.

Inductive value : Type :=
| JNull
| JBool (b : bool)
| JNumber (n : Num.number)
| JString (s : string)
| JArray (items : list value)
| JObject (members : list (string * value)).

(** The member [k] of an object, the last one when the text repeated
    the key. *)
Fixpoint member (k : string) (ms : list (string * value)) : option value :=
  match ms with
  | [] => None
  | (k', v) :: rest =>
      match member k rest with
      | Some v' => Some v'
      | None => if String.eqb k' k then Some v else None
      end
  end.

(** [ToBoolean] *)
Definition truthy (v : value) : bool :=
  match v with
  | JNull => false
  | JBool b => b
  | JNumber n => Num.truthy n
  | JString s => Js.truthy s
  | JArray _ | JObject _ => true
  end.

(** [String(v)] *)
Fixpoint toString (v : value) : string :=
  match v with
  | JNull => "null"
  | JBool b => if b then "true" else "false"
  | JNumber n => Num.toString n
  | JString s => s
  | JArray items =>
      Js.join ","
        ((fix each (l : list value) : list string :=
            match l with
            | [] => []
            | JNull :: l' => EmptyString :: each l'
            | x :: l' => toString x :: each l'
            end) items)
  | JObject _ => "[object Object]"
  end.

(** *** A reader of JSON texts

    [JSON.parse] over the modelled code units (ECMA-404 grammar), for
    concrete inputs only.  Strings here hold code units 0 to 255, so a
    [\u] escape that denotes a code unit above 255 has no value in the
    model: the reader answers [None] for it, as for a malformed text,
    although [JSON.parse] accepts it.  On a text without such an
    escape the reader is [JSON.parse].  No property below is about
    this reader: the public operations take [JSON.parse] as a
    parameter, and the reader only supplies it at concrete texts
    without escapes. *)

Definition isWs (c : ascii) : bool :=
  (Nat.eqb (Js.code c) 32 || Nat.eqb (Js.code c) 9
   || Nat.eqb (Js.code c) 10 || Nat.eqb (Js.code c) 13)%bool.

Definition skipWs (s : string) : string := Js.dropWhile isWs s.

Definition hexVal (c : ascii) : option nat :=
  let n := Js.code c in
  if (Nat.leb 48 n && Nat.leb n 57)%bool then Some (n - 48)%nat
  else if (Nat.leb 65 n && Nat.leb n 70)%bool then Some (n - 55)%nat
  else if (Nat.leb 97 n && Nat.leb n 102)%bool then Some (n - 87)%nat
  else None.

(** The characters of a string literal after its opening quote, [acc]
    holding the text read so far in reverse. *)
Fixpoint readString (s acc : string) : option (string * string) :=
  match s with
  | EmptyString => None
  | String c r =>
      if Nat.eqb (Js.code c) 34 then Some (Js.rev acc, r)
      else if Nat.eqb (Js.code c) 92 then
        match r with
        | String "u" (String h1 (String h2 (String h3 (String h4 r')))) =>
            match hexVal h1, hexVal h2, hexVal h3, hexVal h4 with
            | Some 0%nat, Some 0%nat, Some a, Some b =>
                readString r' (String (ascii_of_nat (16 * a + b)) acc)
            | _, _, _, _ => None
            end
        | String e r' =>
            let plain (x : ascii) := readString r' (String x acc) in
            if Nat.eqb (Js.code e) 34 then plain e
            else if Nat.eqb (Js.code e) 92 then plain e
            else if Js.isChar "/" e then plain e
            else if Js.isChar "b" e then plain "008"%char
            else if Js.isChar "f" e then plain "012"%char
            else if Js.isChar "n" e then plain "010"%char
            else if Js.isChar "r" e then plain "013"%char
            else if Js.isChar "t" e then plain "009"%char
            else None
        | EmptyString => None
        end
      else if Nat.ltb (Js.code c) 32 then None
      else readString r (String c acc)
  end.

(** A number literal: [-? int frac? exp?]. *)
Definition readNumber (s : string) : option (Num.number * string) :=
  let (sg, body) :=
    match s with
    | String "-" r => (true, r)
    | _ => (false, s)
    end in
  let (ip, rest) := Js.span Js.isDigit body in
  let intOk :=
    match ip with
    | EmptyString => false
    | String "0" (String _ _) => false
    | _ => true
    end in
  if negb intOk then None
  else
    let fracPart :=
      match rest with
      | String "." r =>
          let (fp, r') := Js.span Js.isDigit r in
          match fp with
          | EmptyString => None
          | _ => Some (fp, r')
          end
      | _ => Some (EmptyString, rest)
      end in
    match fracPart with
    | None => None
    | Some (fp, rest') =>
        let expPart :=
          match rest' with
          | String c r =>
              if (Js.isChar "e" c || Js.isChar "E" c)%bool then
                let (es, r1) := Num.signOf r in
                let (ds, r2) := Js.span Js.isDigit r1 in
                match ds with
                | EmptyString => None
                | _ => Some (cond_Zopp es (Js.digitsValue 0 ds), r2)
                end
              else Some (0, rest')
          | EmptyString => Some (0, rest')
          end in
        match expPart with
        | None => None
        | Some (ex, rest'') =>
            Some (Num.ofDecimal sg (Js.digitsValue 0 (ip ++ fp))
                    (ex - Z.of_nat (String.length fp)),
                  rest'')
        end
    end.

Fixpoint readValue (fuel : nat) (s : string) : option (value * string) :=
  match fuel with
  | O => None
  | S fuel' =>
      match skipWs s with
      | String "{" r =>
          match skipWs r with
          | String "}" r' => Some (JObject [], r')
          | r1 => readMembers fuel' r1 []
          end
      | String "[" r =>
          match skipWs r with
          | String "]" r' => Some (JArray [], r')
          | r1 => readElements fuel' r1 []
          end
      | String c r as s' =>
          if Nat.eqb (Js.code c) 34 then
            match readString r EmptyString with
            | Some (t, r') => Some (JString t, r')
            | None => None
            end
          else if Js.isPrefix "true" s' then Some (JBool true, Regex.skip 4 s')
          else if Js.isPrefix "false" s' then Some (JBool false, Regex.skip 5 s')
          else if Js.isPrefix "null" s' then Some (JNull, Regex.skip 4 s')
          else
            match readNumber s' with
            | Some (n, r') => Some (JNumber n, r')
            | None => None
            end
      | EmptyString => None
      end
  end
with readElements (fuel : nat) (s : string) (acc : list value)
  : option (value * string) :=
  match fuel with
  | O => None
  | S fuel' =>
      match readValue fuel' s with
      | Some (v, r) =>
          match skipWs r with
          | String "," r' => readElements fuel' r' (v :: acc)
          | String "]" r' => Some (JArray (List.rev (v :: acc)), r')
          | _ => None
          end
      | None => None
      end
  end
with readMembers (fuel : nat) (s : string) (acc : list (string * value))
  : option (value * string) :=
  match fuel with
  | O => None
  | S fuel' =>
      match skipWs s with
      | String q r =>
          if Nat.eqb (Js.code q) 34 then
            match readString r EmptyString with
            | Some (k, r1) =>
                match skipWs r1 with
                | String ":" r2 =>
                    match readValue fuel' r2 with
                    | Some (v, r3) =>
                        match skipWs r3 with
                        | String "," r4 => readMembers fuel' r4 ((k, v) :: acc)
                        | String "}" r4 =>
                            Some (JObject (List.rev ((k, v) :: acc)), r4)
                        | _ => None
                        end
                    | None => None
                    end
                | _ => None
                end
            | None => None
            end
          else None
      | EmptyString => None
      end
  end.

Definition parse (s : string) : option value :=
  match readValue (2 * String.length s + 2) s with
  | Some (v, r) =>
      match skipWs r with
      | EmptyString => Some v
      | _ => None
      end
  | None => None
  end.

End Json.

(* ================================================================= *)
(** ** [services/subtitleParser.ts] *)

Module Parser.

Import Num.
Import Regex.
Import TimeUtils.

Record ParseResult : Type := mkResult {
  cues : list Cue;
  metadata : Metadata
}.

Definition LF : string := String "010" EmptyString.
Definition CRLF : string := String "013" (String "010" EmptyString).
Definition quote : string := String "034" EmptyString.

(** [l.map((x, i) => ...)]: the elements with their indices. *)
Definition indexed {A : Type} (l : list A) : list (nat * A) :=
  combine (List.seq 0 (List.length l)) l.

(** [l.map(f).filter(Boolean)] for an [f] that returns an object or
    [null]. *)
Fixpoint filterMap {A B : Type} (f : A -> option B) (l : list A) : list B :=
  match l with
  | [] => []
  | x :: l' =>
      match f x with
      | Some y => y :: filterMap f l'
      | None => filterMap f l'
      end
  end.

(** The index of a loop or of an array, as a number. *)
Definition ofNat (n : nat) : number := ofZ (Z.of_nat n).

(** *** detectFormat *)

(** [/^\[\d{2}:\d{2}\.\d{2}\]/] *)
Definition lrcHeadPattern : regex :=
  seq [Bol; chr "["; times 2 digit; chr ":"; times 2 digit; chr ".";
       times 2 digit; chr "]"].

Definition detectFormat (filename content : string) : SubtitleFormat :=
  if Js.endsWith filename ".lrc" then LRC
  else if Js.endsWith filename ".srt" then SRT
  else if Js.endsWith filename ".vtt" then VTT
  else if (Js.endsWith filename ".xml" || Js.endsWith filename ".ttml")%bool
  then TTML
  else if Js.endsWith filename ".json" then JSON
  else if Js.endsWith filename ".txt" then TXT
  else
    let trimmed := Js.trim content in
    if (Js.startsWith trimmed "{" || Js.startsWith trimmed "[")%bool then JSON
    else if Js.startsWith trimmed "WEBVTT" then VTT
    else if Js.includes content "http://www.w3.org/ns/ttml" then TTML
    else if test lrcHeadPattern content then LRC
    else SRT.

(** *** parseLRC *)

(** [\d{2}:\d{2}(?:\.\d{2,3})?] *)
Definition lrcStamp : regex :=
  seq [times 2 digit; chr ":"; times 2 digit;
       opt (Cat (chr ".") (between 2 3 digit))].

(** [/\[(\d{2}:\d{2}(?:\.\d{2,3})?)\](.{0,})/], the source writing
    the last group with a star. *)
Definition lrcLinePattern : regex :=
  seq [chr "["; Grp 1 lrcStamp; chr "]"; Grp 2 (star dot)].

(** [/<(\d{2}:\d{2}(?:\.\d{2,3})?)>([^<]{0,})/g], the source writing
    the last group with a star. *)
Definition lrcWordPattern : regex :=
  seq [chr "<"; Grp 1 lrcStamp; chr ">"; Grp 2 (star (notChr "<"))].

(** [/<[^>]+>/g] *)
Definition tagPattern : regex := seq [chr "<"; plus (notChr ">"); chr ">"].

(** [/\r?\n/] *)
Definition newlinePattern : regex := Cat (opt (chr "013")) (chr "010").

(** [/\[ti:(.*?)\]/] and its siblings for [ar], [al] and [by]. *)
Definition headerPattern (key : string) : regex :=
  seq [lit ("[" ++ key ++ ":"); Grp 1 (lazyStar dot); chr "]"].

Definition header (key content : string) : option string :=
  match exec (headerPattern key) content with
  | Some m => Some (Js.trim (captured 1 m))
  | None => None
  end.

Definition lrcWord (index : nat) (wordMatch : found) : Word :=
  mkWord ("w-" ++ Js.natToString index ++ "-" ++ Js.natToString (Regex.index wordMatch))
         (Js.trim (captured 2 wordMatch))
         (Some (timeToMs (captured 1 wordMatch)))
         None.

(** The body of [lines.forEach((line, index) => ...)]: the cue pushed
    for a line, if any. *)
Definition lrcCue (entry : nat * string) : option Cue :=
  let (index, line) := entry in
  match exec lrcLinePattern line with
  | Some m =>
      let start := timeToMs (captured 1 m) in
      let rawText := captured 2 m in
      let '(text, words) :=
        if (Js.includes rawText "<" && Js.includes rawText ">")%bool then
          (Js.trim (replaceAll tagPattern "" rawText),
           map (lrcWord index) (matches lrcWordPattern rawText))
        else (Js.trim rawText, []) in
      Some (mkCue ("lrc-" ++ Js.natToString index) start
                  (add start (ofZ 3000)) text
                  (match words with [] => None | _ => Some words end))
  | None => None
  end.

Definition setEnd (v : number) (c : Cue) : Cue :=
  mkCue (id c) (start c) v (text c) (words c).

(** [l[i] = f(l[i])], nothing when [i] is out of range. *)
Fixpoint updateAt {A : Type} (i : nat) (f : A -> A) (l : list A) : list A :=
  match l, i with
  | [], _ => []
  | x :: l', O => f x :: l'
  | x :: l', S i' => x :: updateAt i' f l'
  end.

(** One turn of the loop: [cues[i].end = cues[i + 1].start]. *)
Definition inferEnd (cues : list Cue) (i : nat) : list Cue :=
  match nth_error cues (i + 1) with
  | Some next => updateAt i (setEnd (start next)) cues
  | None => cues
  end.

(** [for (let i = 0; i < cues.length - 1; i++) ...] *)
Definition inferEnds (cues : list Cue) : list Cue :=
  fold_left inferEnd (List.seq 0 (List.length cues - 1)) cues.

Definition parseLRC (content : string) : ParseResult :=
  let lines := split newlinePattern content in
  let metadata :=
    mkMetadata (header "ti" content) (header "ar" content)
               (header "al" content) (header "by" content) in
  let cues := filterMap lrcCue (indexed lines) in
  mkResult (inferEnds cues) metadata.

(** *** parseSRT *)

(** [/^\d+$/] *)
Definition indexPattern : regex := seq [Bol; plus digit; Eol].

Definition srtCue (entry : nat * string) : option Cue :=
  let (index, chunk) := entry in
  let lines := Js.splitOn LF chunk in
  if Nat.ltb (List.length lines) 2 then None
  else
    let timeLineIndex :=
      if test indexPattern (nth 0 lines EmptyString) then 1%nat else 0%nat in
    match nth_error lines timeLineIndex with
    | None => None
    | Some timeLine =>
        if negb (Js.truthy timeLine) then None
        else
          match Js.splitOn "-->" timeLine with
          | [t0; t1] =>
              Some (mkCue ("srt-" ++ Js.natToString index)
                          (timeToMs (Js.trim t0)) (timeToMs (Js.trim t1))
                          (Js.join LF (List.skipn (timeLineIndex + 1) lines))
                          None)
          | _ => None
          end
    end.

Definition parseSRT (content : string) : ParseResult :=
  let chunks :=
    Js.splitOn (LF ++ LF) (replaceAll (lit CRLF) LF (Js.trim content)) in
  mkResult (filterMap srtCue (indexed chunks)) noMetadata.

(** *** parseVTT *)

(** [/<(\d{2}:\d{2}(?::\d{2})?[.,]\d{3})>/g] *)
Definition vttStampPattern : regex :=
  seq [chr "<";
       Grp 1 (seq [times 2 digit; chr ":"; times 2 digit;
                   opt (Cat (chr ":") (times 2 digit));
                   oneOf "." ","; times 3 digit]);
       chr ">"].

(** [/\s+/] *)
Definition spacesPattern : regex := plus space.

(** [s.split(r)] for a pattern with one capture group: the pieces
    alternate with the captured texts. *)
Fixpoint splitGroupWalk (ms : list found) (pos : nat) (s : string)
  : list string :=
  match ms with
  | [] => [s]
  | f :: ms' =>
      String.substring 0 (Regex.index f - pos) s :: captured 1 f ::
      splitGroupWalk ms' (Regex.index f + String.length (matched f))
        (skip (Regex.index f + String.length (matched f) - pos) s)
  end.

Definition splitGroup (r : regex) (s : string) : list string :=
  splitGroupWalk (matches r s) 0 s.

(** The cue under construction: [currentCue] with its [id], [start]
    and [end]. *)
Record Pending : Type := mkPending {
  p_id : string;
  p_start : number;
  p_end : number
}.

Record VttState : Type := mkVtt {
  v_cues : list Cue;
  currentCue : option Pending;
  textBuffer : list string;
  wordBuffer : list Word
}.

(** [currentCue.text = textBuffer.join('\n'); if (wordBuffer.length > 0)
    currentCue.words = wordBuffer; cues.push(currentCue)] *)
Definition flush (cur : Pending) (st : VttState) : list Cue :=
  (v_cues st ++
   [mkCue (p_id cur) (p_start cur) (p_end cur) (Js.join LF (textBuffer st))
          (Some (wordBuffer st))])%list.

(** [wordsInPart.forEach((w, wIdx) => wordBuffer.push(...))] *)
Fixpoint pushWords (i : nat) (currentTime durationPerWord : number)
  (wIdx : nat) (wordsInPart : list string) (buffer : list Word) : list Word :=
  match wordsInPart with
  | [] => buffer
  | w :: rest =>
      pushWords i currentTime durationPerWord (S wIdx) rest
        (buffer ++
         [mkWord ("vtt-w-" ++ Js.natToString i ++ "-" ++
                  Js.natToString (List.length buffer))
                 w
                 (Some (add currentTime (mul durationPerWord (ofNat wIdx))))
                 None])%list
  end.

(** [for (let k = 0; k < parts.length; k += 2) ...] over the pieces of
    a line: a text piece and the time stamp that follows it, if any. *)
Fixpoint wordLoop (fuel : nat) (i : nat) (parts : list string)
  (currentTime : number) (buffer : list Word) : list Word :=
  match fuel, parts with
  | S fuel', textPart :: rest =>
      let timePart := nth_error rest 0 in
      let hasTime :=
        match timePart with Some t => Js.truthy t | None => false end in
      let stamp :=
        match timePart with Some t => timeToMs t | None => NaN end in
      let cleanText := Js.trim (replaceAll tagPattern "" textPart) in
      let buffer' :=
        if Js.truthy cleanText then
          let wordsInPart := split spacesPattern cleanText in
          let durationPerWord :=
            div (if hasTime then sub stamp currentTime else ofZ 0)
                (ofNat (List.length wordsInPart)) in
          pushWords i currentTime durationPerWord 0 wordsInPart buffer
        else buffer in
      wordLoop fuel' i (List.skipn 1 rest)
        (if hasTime then stamp else currentTime) buffer'
  | _, _ => buffer
  end.

(** The body of the scanning loop for line [i]. *)
Definition vttStep (st : VttState) (entry : nat * string) : VttState :=
  let (i, rawLine) := entry in
  let line := Js.trim rawLine in
  if Js.includes line "-->" then
    let st' :=
      match currentCue st with
      | Some cur =>
          if Nat.ltb 0 (List.length (textBuffer st))
          then mkVtt (flush cur st) (currentCue st) [] []
          else st
      | None => st
      end in
    let times := Js.splitOn "-->" line in
    let field (k : nat) :=
      nth 0 (Js.splitOn " " (Js.trim (nth k times EmptyString))) EmptyString in
    mkVtt (v_cues st')
          (Some (mkPending ("vtt-" ++ Js.natToString i)
                           (timeToMs (field 0%nat)) (timeToMs (field 1%nat))))
          (textBuffer st') (wordBuffer st')
  else
    match currentCue st with
    | None => st
    | Some cur =>
        if negb (Js.truthy line) then
          if Nat.ltb 0 (List.length (textBuffer st))
          then mkVtt (flush cur st) None [] []
          else st
        else
          let cleanLine := Js.trim (replaceAll tagPattern "" line) in
          let texts := (textBuffer st ++ [cleanLine])%list in
          if test vttStampPattern line then
            let parts := splitGroup vttStampPattern line in
            let currentTime :=
              if truthy (p_start cur) then p_start cur else ofZ 0 in
            mkVtt (v_cues st) (currentCue st) texts
                  (wordLoop (List.length parts) i parts currentTime (wordBuffer st))
          else mkVtt (v_cues st) (currentCue st) texts (wordBuffer st)
    end.

(** [lines.forEach(line => { if (line.startsWith('Note Title:')) ... })]:
    the last such line wins. *)
Definition noteTitle (lines : list string) : option string :=
  fold_left
    (fun t line =>
       if Js.startsWith line "Note Title:"
       then Some (Js.trim (Js.replaceFirst "Note Title:" "" line))
       else t)
    lines None.

Definition parseVTT (content : string) : ParseResult :=
  let lines := Js.splitOn LF (replaceAll (lit CRLF) LF (Js.trim content)) in
  let metadata := mkMetadata (noteTitle lines) None None None in
  let first := if Js.startsWith (nth 0 lines EmptyString) "WEBVTT" then 1%nat else 0%nat in
  let st :=
    fold_left vttStep (List.skipn first (indexed lines)) (mkVtt [] None [] []) in
  let cues :=
    match currentCue st with
    | Some cur =>
        if Nat.ltb 0 (List.length (textBuffer st)) then flush cur st
        else v_cues st
    | None => v_cues st
    end in
  mkResult cues metadata.

(** *** parseTTML *)

(** [extractText(node)] *)
Fixpoint extractText (n : Dom.node) : string :=
  match n with
  | Dom.ElementNode _ _ _ children =>
      (fix scan (l : list Dom.node) : string :=
         match l with
         | [] => EmptyString
         | child :: l' =>
             match child with
             | Dom.TextNode data => data
             | Dom.ElementNode tagName localName _ _ =>
                 let tagName :=
                   if Js.truthy localName then Js.toLowerCase localName
                   else Js.toLowerCase tagName in
                 if String.eqb tagName "br" then LF
                 else if (negb (String.eqb tagName "metadata")
                          && negb (String.eqb tagName "head")
                          && negb (String.eqb tagName "style"))%bool
                 then extractText child
                 else EmptyString
             | Dom.OtherNode => EmptyString
             end ++ scan l'
         end) children
  | _ => EmptyString
  end.

(** An attribute read as a condition: [null] and the empty text are
    falsy. *)
Definition given (a : option string) : option string :=
  match a with
  | Some v => if Js.truthy v then Some v else None
  | None => None
  end.

(** The body of the loop over the [<p>] elements. *)
Definition ttmlCue (entry : nat * Dom.node) : Cue :=
  let (i, p) := entry in
  let attrs :=
    match p with
    | Dom.ElementNode _ _ attributes _ => attributes
    | _ => []
    end in
  let begin_ := Dom.getAttribute "begin" attrs in
  let end_ := Dom.getAttribute "end" attrs in
  let dur := Dom.getAttribute "dur" attrs in
  let rawText := extractText p in
  let text := Js.trim (replaceAll spacesPattern " " rawText) in
  let startMs :=
    timeToMs (match given begin_ with Some b => b | None => "0" end) in
  let endMs :=
    match given end_ with
    | Some e => timeToMs e
    | None => add startMs (ofZ 2000)
    end in
  let endMs :=
    match given dur with
    | Some d => add startMs (timeToMs d)
    | None => endMs
    end in
  mkCue ("ttml-" ++ Js.natToString i) startMs endMs text None.

(** [parseTTML] from the document that [DOMParser] returns. *)
Definition parseTTMLDocument (xmlDoc : list Dom.node) : ParseResult :=
  let ps := Dom.getElementsByTagName "p" xmlDoc in
  mkResult (map ttmlCue (indexed ps)) noMetadata.

(** *** parseJSON *)

(** The outcome of the code inside [try]: it throws, or it completes
    with a value.  [typed] is [false] when some field of the document
    had a type that the TypeScript interfaces exclude (a number given as
    [id], say): the code keeps such a field as it is, so what it returns
    is then not a [ParseResult]. *)
Inductive attempt (A : Type) : Type :=
| Thrown
| Done (a : A) (typed : bool).
Arguments Thrown {A}.
Arguments Done {A} a typed.

Definition bind {A B : Type} (x : attempt A) (f : A -> attempt B) : attempt B :=
  match x with
  | Thrown => Thrown
  | Done a t =>
      match f a with
      | Thrown => Thrown
      | Done b t' => Done b (t && t')
      end
  end.

Fixpoint each {A B : Type} (f : A -> attempt B) (l : list A) : attempt (list B) :=
  match l with
  | [] => Done [] true
  | x :: l' =>
      bind (f x) (fun y => bind (each f l') (fun ys => Done (y :: ys) true))
  end.

(** [v.k]: reading a property of [null] throws; values other than
    objects have none of the properties read here. *)
Definition prop (v : Json.value) (k : string) : attempt (option Json.value) :=
  match v with
  | Json.JNull => Thrown
  | Json.JObject ms => Done (Json.member k ms) true
  | _ => Done None true
  end.

Definition truthyProp (o : option Json.value) : bool :=
  match o with
  | Some v => Json.truthy v
  | None => false
  end.

(** [typeof x === 'number' ? x : timeToMs(String(x || '0'))] *)
Definition numberOrTime (o : option Json.value) : number :=
  match o with
  | Some (Json.JNumber n) => n
  | Some v => timeToMs (if Json.truthy v then Json.toString v else "0")
  | None => timeToMs "0"
  end.

(** [typeof x === 'number' ? x : (x ? timeToMs(String(x)) : undefined)] *)
Definition numberOrTimeOpt (o : option Json.value) : option number :=
  match o with
  | Some (Json.JNumber n) => Some n
  | Some v => if Json.truthy v then Some (timeToMs (Json.toString v)) else None
  | None => None
  end.

(** [x || d] where a string is declared. *)
Definition textOr (o : option Json.value) (d : string) : attempt string :=
  match o with
  | Some (Json.JString s) => Done (if Js.truthy s then s else d) true
  | Some v => if Json.truthy v then Done EmptyString false else Done d true
  | None => Done d true
  end.

Definition jsonWord (i : nat) (entry : nat * Json.value) : attempt Word :=
  let (wi, w) := entry in
  bind (prop w "id") (fun wid =>
  bind (textOr wid ("json-w-" ++ Js.natToString i ++ "-" ++ Js.natToString wi))
    (fun id =>
  bind (prop w "text") (fun wtext =>
  bind (textOr wtext "") (fun text =>
  bind (prop w "start") (fun wstart =>
  bind (prop w "end") (fun wend =>
  Done (mkWord id text (Some (numberOrTime wstart)) (numberOrTimeOpt wend))
       true)))))).

Definition jsonCue (entry : nat * Json.value) : attempt Cue :=
  let (i, c) := entry in
  bind (prop c "start") (fun cstart =>
  bind (prop c "end") (fun cend =>
  bind (prop c "words") (fun cwords =>
  bind (match cwords with
        | Some (Json.JArray ws) =>
            bind (each (jsonWord i) (indexed ws)) (fun l => Done (Some l) true)
        | _ => Done None true
        end) (fun words =>
  bind (prop c "id") (fun cid =>
  bind (textOr cid ("json-" ++ Js.natToString i)) (fun id =>
  bind (prop c "text") (fun ctext =>
  bind (textOr ctext "") (fun text =>
  Done (mkCue id (numberOrTime cstart) (numberOrTime cend) text words)
       true)))))))).

(** A field of the [metadata] object, kept as it is. *)
Definition metadataField (k : string) (ms : list (string * Json.value))
  : attempt (option string) :=
  match Json.member k ms with
  | None => Done None true
  | Some (Json.JString s) => Done (Some s) true
  | Some _ => Done None false
  end.

Definition knownField (entry : string * Json.value) : bool :=
  let k := fst entry in
  (String.eqb k "title" || String.eqb k "artist"
   || String.eqb k "album" || String.eqb k "by")%bool.

(** [parsed.metadata], kept as it is. *)
Definition jsonMetadata (v : Json.value) : attempt Metadata :=
  match v with
  | Json.JObject ms =>
      bind (metadataField "title" ms) (fun t =>
      bind (metadataField "artist" ms) (fun ar =>
      bind (metadataField "album" ms) (fun al =>
      bind (metadataField "by" ms) (fun b =>
      Done (mkMetadata t ar al b) (forallb knownField ms)))))
  | _ => Done noMetadata false
  end.

(** The statements inside [try], from the value that [JSON.parse]
    returned. *)
Definition sanitize (parsed : Json.value) : attempt ParseResult :=
  bind (match parsed with
        | Json.JArray items => Done items true
        | _ =>
            bind (prop parsed "cues") (fun pc =>
              match pc with
              | Some (Json.JArray items) => Done items true
              | Some v => if Json.truthy v then Thrown else Done [] true
              | None => Done [] true
              end)
        end) (fun cuesRaw =>
  bind (match parsed with
        | Json.JArray _ =>
            Done (mkMetadata (Some "") (Some "") (Some "") (Some "")) true
        | _ =>
            bind (prop parsed "metadata") (fun pm =>
              match pm with
              | Some v =>
                  if Json.truthy v then jsonMetadata v
                  else Done (mkMetadata (Some "") (Some "") (Some "") (Some "")) true
              | None =>
                  Done (mkMetadata (Some "") (Some "") (Some "") (Some "")) true
              end)
        end) (fun metadata =>
  bind (each jsonCue (indexed cuesRaw)) (fun cues =>
  Done (mkResult cues metadata) true))).

(** *** Serializers *)

(** [w.start || cue.start] *)
Definition wordStart (cue : Cue) (w : Word) : number :=
  match w_start w with
  | Some x => if truthy x then x else start cue
  | None => start cue
  end.

(** [w.end || ((w.start || cue.start) + 300)] *)
Definition wordEnd (cue : Cue) (w : Word) : number :=
  match w_end w with
  | Some x => if truthy x then x else add (wordStart cue w) (ofZ 300)
  | None => add (wordStart cue w) (ofZ 300)
  end.

(** [cue.words && cue.words.length > 0] *)
Definition wordsOf (cue : Cue) : list Word :=
  match words cue with
  | Some ws => ws
  | None => []
  end.

Definition hasWords (cue : Cue) : bool :=
  match wordsOf cue with
  | [] => false
  | _ => true
  end.

(** A header line [[tag:value]] when the field is present and not
    empty. *)
Definition headerLine (tag : string) (field : option string) : string :=
  match field with
  | Some v => if Js.truthy v then "[" ++ tag ++ ":" ++ v ++ "]" ++ LF else ""
  | None => ""
  end.

Definition lrcWordToken (cue : Cue) (w : Word) : string :=
  "<" ++ msToLrc (wordStart cue w) ++ ">" ++ w_text w.

Definition lrcLine (enhanced : bool) (cue : Cue) : string :=
  let line := "[" ++ msToLrc (start cue) ++ "]" in
  if (enhanced && hasWords cue)%bool
  then line ++ Js.join " " (map (lrcWordToken cue) (wordsOf cue))
  else line ++ text cue.

Definition stringifyLRC (cues : list Cue) (enhanced : bool)
  (metadata : option Metadata) : string :=
  let header :=
    match metadata with
    | Some md =>
        headerLine "ti" (title md) ++ headerLine "ar" (artist md) ++
        headerLine "al" (album md) ++ headerLine "by" (by_ md)
    | None => ""
    end in
  let body := Js.join LF (map (lrcLine enhanced) cues) in
  header ++ body.

Definition srtBlock (entry : nat * Cue) : string :=
  let (index, cue) := entry in
  Js.natToString (index + 1) ++ LF ++
  msToSrt (start cue) ++ " --> " ++ msToSrt (end_ cue) ++ LF ++
  text cue ++ LF.

Definition stringifySRT (cues : list Cue) : string :=
  Js.join LF (map srtBlock (indexed cues)).

Definition vttWordToken (cue : Cue) (w : Word) : string :=
  "<" ++ msToVtt (wordStart cue w) ++ ">" ++ w_text w.

Definition vttBlock (karaoke : bool) (cue : Cue) : string :=
  let text :=
    if (karaoke && hasWords cue)%bool
    then Js.join " " (map (vttWordToken cue) (wordsOf cue))
    else text cue in
  msToVtt (start cue) ++ " --> " ++ msToVtt (end_ cue) ++ LF ++ text ++ LF.

Definition stringifyVTT (cues : list Cue) (karaoke : bool)
  (metadata : option Metadata) : string :=
  let header := "WEBVTT" ++ LF in
  let header :=
    match metadata with
    | Some md =>
        match title md with
        | Some t => if Js.truthy t then header ++ "Note Title: " ++ t ++ LF
                    else header
        | None => header
        end
    | None => header
    end in
  let header := header ++ LF in
  header ++ Js.join LF (map (vttBlock karaoke) cues).

Definition ttmlSpan (cue : Cue) (w : Word) : string :=
  let startOffset := Math_max (ofZ 0) (sub (wordStart cue w) (start cue)) in
  let endOffset := Math_max (ofZ 0) (sub (wordEnd cue w) (start cue)) in
  "<span begin=" ++ quote ++ msToVtt startOffset ++ quote ++
  " end=" ++ quote ++ msToVtt endOffset ++ quote ++ ">" ++
  w_text w ++ "</span>".

Definition ttmlParagraph (karaoke : bool) (cue : Cue) : string :=
  let content := replaceAll (chr "010") "<br/>" (text cue) in
  let content :=
    if (karaoke && hasWords cue)%bool then
      let spans := map (ttmlSpan cue) (wordsOf cue) in
      LF ++ Js.join LF (map (fun s => "        " ++ s) spans) ++ LF ++ "      "
    else content in
  "      <p begin=" ++ quote ++ msToVtt (start cue) ++ quote ++
  " end=" ++ quote ++ msToVtt (end_ cue) ++ quote ++ ">" ++ content ++ "</p>".

Definition stringifyTTML (cues : list Cue) (karaoke : bool) : string :=
  let body := Js.join LF (map (ttmlParagraph karaoke) cues) in
  "<?xml version=" ++ quote ++ "1.0" ++ quote ++ " encoding=" ++ quote ++
  "UTF-8" ++ quote ++ "?>" ++ LF ++
  "<tt xmlns=" ++ quote ++ "http://www.w3.org/ns/ttml" ++ quote ++
  " lang=" ++ quote ++ "en" ++ quote ++ ">" ++ LF ++
  "  <body>" ++ LF ++
  "    <div>" ++ LF ++
  body ++ LF ++
  "    </div>" ++ LF ++
  "  </body>" ++ LF ++
  "</tt>".

(** [STANZA_BREAK_THRESHOLD] *)
Definition stanzaBreakThreshold : number := ofZ 2000.

(** The loop of [stringifyTXT]: one line per cue, and a blank line
    when the gap to the next cue reaches the threshold. *)
Fixpoint txtLines (cues : list Cue) : string :=
  match cues with
  | [] => ""
  | cue :: rest =>
      text cue ++ LF ++
      match rest with
      | next :: _ =>
          let gap := sub (start next) (end_ cue) in
          if SFleb stanzaBreakThreshold gap then LF else ""
      | [] => ""
      end ++ txtLines rest
  end.

Definition stringifyTXT (cues : list Cue) : string := Js.trim (txtLines cues).

(** *** The public operations

    [DOMParser], [JSON.parse] and [JSON.stringify] belong to the
    platform: the operations are stated for any of them. *)

Section PublicApi.

(** [new DOMParser().parseFromString(content, "text/xml")]: the child
    nodes of the document. *)
Variable parseXml : string -> list Dom.node.

(** [JSON.parse(content)], [None] when it throws. *)
Variable JSON_parse : string -> option Json.value.

(** [JSON.stringify({ metadata, cues }, null, 2)] *)
Variable JSON_stringify : option Metadata -> list Cue -> string.

Definition parseTTML (content : string) : ParseResult :=
  parseTTMLDocument (parseXml content).

(** [parseJSON]; [None] only when the document is valid JSON that does
    not fit the declared types (see [attempt]). *)
Definition parseJSON (content : string) : option ParseResult :=
  match JSON_parse content with
  | Some parsed =>
      match sanitize parsed with
      | Done r true => Some r
      | Done _ false => None
      | Thrown => Some (mkResult [] noMetadata)
      end
  | None => Some (mkResult [] noMetadata)
  end.

Definition stringifyJSON (cues : list Cue) (metadata : option Metadata) : string :=
  JSON_stringify metadata cues.

Definition txtCue (entry : nat * string) : Cue :=
  let (i, l) := entry in
  mkCue ("txt-" ++ Js.natToString i)
        (mul (ofNat i) (ofZ 2000))
        (mul (add (ofNat i) (ofZ 1)) (ofZ 2000))
        (Js.trim l) None.

Definition parseContent (content : string) (format : SubtitleFormat)
  : option ParseResult :=
  match format with
  | LRC | LRC_ENHANCED => Some (parseLRC content)
  | SRT => Some (parseSRT content)
  | VTT => Some (parseVTT content)
  | TTML => Some (parseTTML content)
  | JSON => parseJSON content
  | TXT =>
      Some (mkResult
              (map txtCue
                 (indexed
                    (filter (fun l => Js.truthy (Js.trim l))
                            (split newlinePattern content))))
              noMetadata)
  | _ => Some (parseSRT content)
  end.

Definition stringifyContent (cues : list Cue) (format : SubtitleFormat)
  (metadata : option Metadata) : string :=
  match format with
  | LRC => stringifyLRC cues false metadata
  | LRC_ENHANCED => stringifyLRC cues true metadata
  | SRT => stringifySRT cues
  | VTT => stringifyVTT cues false metadata
  | VTT_KARAOKE => stringifyVTT cues true metadata
  | TTML => stringifyTTML cues false
  | TTML_KARAOKE => stringifyTTML cues true
  | TXT => stringifyTXT cues
  | JSON => stringifyJSON cues metadata
  end.

End PublicApi.

End Parser.

(* ================================================================= *)
(** ** [components/CueList.tsx]: what the handlers compute

    The handlers of the list take the cues and the current time from
    the properties of the component and the dragged row from its state;
    here these are arguments, and what a handler passes to [onChange]
    is its result. *)

Module CueList.

Import Num.
Import Regex.
Import TimeUtils.

(** [x === 0] *)
Definition isZero (x : number) : bool :=
  match x with
  | S754_zero _ => true
  | _ => false
  end.

(** [/[^\d]/g] *)
Definition notDigitPattern : regex := Cls (fun c => negb (Js.isDigit c)).

(** [Number(digits)] for a text of decimal digits that is not empty. *)
Definition Number_ofDigits (digits : string) : number :=
  ofDecimal false (Js.digitsValue 0 digits) 0.

(** What [commitChange] of a time input does: it reverts the text, or
    it passes a value to [onChange]. *)
Inductive committed : Type :=
| Reverted (localText : string)
| Changed (val : number).

(** [commitChange] of [TimeInput], [localText] being the text in the
    input and [ms] the value shown before. *)
Definition commitChange (localText : string) (ms : number) : committed :=
  let val := timeToMs localText in
  if (isZero val && negb (isZero ms))%bool then
    let digits := replaceAll notDigitPattern "" localText in
    let allZero :=
      (Nat.ltb 0 (String.length digits) && isZero (Number_ofDigits digits))%bool in
    if (negb allZero && negb (String.eqb (Js.trim localText) ""))%bool
    then Reverted (msToVtt ms)
    else Changed val
  else Changed val.




(** [removeCue(index)]: [cues.filter((_, i) => i !== index)]. *)
Definition removeCue (cues : list Cue) (index : nat) : list Cue :=
  map snd
    (filter (fun e => negb (Nat.eqb (fst e) index))
       (combine (List.seq 0 (List.length cues)) cues)).

(** [l.splice(k, 1)]: the list without its element at [k]. *)
Definition removeAt {A : Type} (k : nat) (l : list A) : list A :=
  (List.firstn k l ++ List.skipn (S k) l)%list.

(** [l.splice(k, 0, x)]: [x] inserted before position [k], at the end
    when [k] is past it. *)
Definition insertAt {A : Type} (k : nat) (x : A) (l : list A) : list A :=
  (List.firstn k l ++ x :: List.skipn k l)%list.

(** [handleDrop(e, dropIndex)]: [None] when the handler returns early,
    else the array passed to [onChange], where [None] stands for the
    [undefined] that a dragged index past the end moves. *)
Definition handleDrop (cues : list Cue) (draggedIndex : option nat)
  (dropIndex : nat) : option (list (option Cue)) :=
  match draggedIndex with
  | None => None
  | Some dragged =>
      if Nat.eqb dragged dropIndex then None
      else
        let newCues := map Some cues in
        let movedItem :=
          match nth_error newCues dragged with
          | Some item => item
          | None => None
          end in
        Some (insertAt dropIndex movedItem (removeAt dragged newCues))
  end.

(** The word made from the [i]-th piece of a cue's text. *)
Definition generatedWord (cue : Cue) (entry : nat * string) : Word :=
  let (i, text) := entry in
  mkWord ("gen-" ++ id cue ++ "-" ++ Js.natToString i) text
    (Some (add (start cue) (mul (Parser.ofNat i) (ofZ 200))))
    (Some (add (start cue) (mul (add (Parser.ofNat i) (ofZ 1)) (ofZ 200)))).

(** [getDisplayWords(cue, index)] *)
Definition getDisplayWords (cue : Cue) : list Word :=
  if Parser.hasWords cue then Parser.wordsOf cue
  else
    map (generatedWord cue)
      (Parser.indexed
         (filter Js.truthy (split Parser.spacesPattern (Js.trim (text cue))))).

End CueList.

(* ================================================================= *)
(** ** The specification's wording, where a property compares the code
    with it *)

Module Stated.

Import Num.
Import Parser.

(** "Extension match takes precedence (.lrc, .srt, .vtt, .xml/.ttml,
    .json, .txt)". *)
Definition byExtension (filename : string) : option SubtitleFormat :=
  if Js.endsWith filename ".lrc" then Some LRC
  else if Js.endsWith filename ".srt" then Some SRT
  else if Js.endsWith filename ".vtt" then Some VTT
  else if Js.endsWith filename ".xml" then Some TTML
  else if Js.endsWith filename ".ttml" then Some TTML
  else if Js.endsWith filename ".json" then Some JSON
  else if Js.endsWith filename ".txt" then Some TXT
  else None.

(** The sniffing rules in their order, [text] being what "leading" is
    judged on for the first two rules. *)
Definition sniff (text content : string) : SubtitleFormat :=
  if (Js.startsWith text "{" || Js.startsWith text "[")%bool then JSON
  else if Js.startsWith text "WEBVTT" then VTT
  else if Js.includes content "http://www.w3.org/ns/ttml" then TTML
  else if Regex.test lrcHeadPattern content then LRC
  else SRT.

(** The rules read to the letter: "leading" is the start of the
    content. *)
Definition detectAsStated (filename content : string) : SubtitleFormat :=
  match byExtension filename with
  | Some format => format
  | None => sniff content content
  end.

(** The rules with "leading" judged after white space is trimmed. *)
Definition detectTrimmed (filename content : string) : SubtitleFormat :=
  match byExtension filename with
  | Some format => format
  | None => sniff (Js.trim content) content
  end.

(** "end = dur attribute added to start if present, else the end
    attribute via the Time Codec, else start + 2000 ms", [present]
    telling when an attribute counts as present. *)
Definition ttmlEnd (present : option string -> option string)
  (startMs : number) (end_ dur : option string) : number :=
  match present dur with
  | Some d => add startMs (TimeUtils.timeToMs d)
  | None =>
      match present end_ with
      | Some e => TimeUtils.timeToMs e
      | None => add startMs (ofZ 2000)
      end
  end.

(** "Start = begin attribute (via the Time Codec, defaulting to 0 if
    absent)". *)
Definition ttmlStart (begin_ : option string) : number :=
  match begin_ with
  | Some b => TimeUtils.timeToMs b
  | None => ofZ 0
  end.

(** [ms] rounded to the nearest multiple of 10, a tie going up. *)
Definition roundToTen (ms : Z) : Z := (ms + 5) / 10 * 10.

(** The structural reading of the end-time inference: every cue but
    the last takes the start of its successor. *)
Fixpoint chainEnds (cues : list Cue) : list Cue :=
  match cues with
  | c :: ((next :: _) as rest) => setEnd (start next) c :: chainEnds rest
  | _ => cues
  end.

(** A word time that is absent or exactly 0. *)
Definition absentOrZero (t : option number) : Prop :=
  t = None \/ t = Some (ofZ 0).

End Stated.

(* ================================================================= *)
(** ** Sample inputs *)

Module Samples.

Import Num.
Import Parser.

Definition lrcTwoLines : string :=
  "[00:01.00]one" ++ LF ++ "[00:02.50]two".

(** [<p dur="">x</p>] *)
Definition onlyEmptyDur : list Dom.node :=
  [Dom.ElementNode "p" "p" [("dur", "")] [Dom.TextNode "x"]].

(** [<p begin="1s" end="9s" dur="500ms">x</p>] *)
Definition endAndDur : list Dom.node :=
  [Dom.ElementNode "p" "p" [("begin", "1s"); ("end", "9s"); ("dur", "500ms")]
     [Dom.TextNode "x"]].

(** An enhanced LRC line with two words. *)
Definition lrcWithWords : string := "[00:01.00]<00:01.00>la <00:01.50>li".

(** Two lines of text around a blank one. *)
Definition txtTwoLines : string := " one " ++ LF ++ LF ++ "two".

Definition wordAtZero : Word := mkWord "w0" "la" (Some (ofZ 0)) None.
Definition cueAtZero : Cue := mkCue "c0" (ofZ 0) (ofZ 2000) "la" (Some [wordAtZero]).
Definition cueAtFive : Cue := mkCue "c5" (ofZ 5000) (ofZ 7000) "la" (Some [wordAtZero]).

(** A cue without words whose text has two. *)
Definition cueTwoWords : Cue := mkCue "c" (ofZ 1000) (ofZ 2000) " la  li " None.

End Samples.

(* ================================================================= *)
(** ** Auxiliary definitions of the proofs about numbers *)

Module NumAux.

Import Num.

(** The number of sign [s] whose magnitude is [m * 2^e], for
    [0 < m < 2^53]. *)
Definition canon (s : bool) (m e : Z) : number :=
  S754_finite s (Z.to_pos (m * 2 ^ (52 - Z.log2 m))) (e - (52 - Z.log2 m)).

(** The second half of [binary_round_aux]: the mantissa [m], already
    rounded, is brought back to 53 bits. *)
Definition finish (s : bool) (m e : Z) : number :=
  let '(mrs, e') := shr_fexp prec emax m e loc_Exact in
  match shr_m mrs with
  | Z0 => S754_zero s
  | Zpos p => if e' <=? emax - prec then S754_finite s p e' else S754_infinity s
  | Zneg _ => S754_nan
  end.

End NumAux.

(* ================================================================= *)
(** ** Auxiliary definitions of the proofs about patterns and the
    decoder *)

Module RegexAux.

Import Regex.

(** Two texts of the same length whose characters are related by [E]
    one by one. *)
Fixpoint related (E : ascii -> ascii -> Prop) (s s' : string) : Prop :=
  match s, s' with
  | EmptyString, EmptyString => True
  | String c t, String c' t' => E c c' /\ related E t t'
  | _, _ => False
  end.

(** Every class of [r] gives the same answer on related characters. *)
Fixpoint respects (E : ascii -> ascii -> Prop) (r : regex) : Prop :=
  match r with
  | Cls p => forall c c', E c c' -> p c = p c'
  | Cat r1 r2 => respects E r1 /\ respects E r2
  | Rep _ _ _ r1 => respects E r1
  | Grp _ r1 => respects E r1
  | _ => True
  end.

(** Continuations that agree on related texts. *)
Definition sameCont (E : ascii -> ascii -> Prop) (k k' : cont) : Prop :=
  forall pos t t' c, related E t t' -> k pos t c = k' pos t' c.

(** A decimal digit stands for any other one: [0] is the one chosen. *)
Definition digitLike (c c' : ascii) : Prop :=
  c = c' \/ (Js.isDigit c = true /\ c' = "0"%char).

End RegexAux.

Module CodecAux.

Import Num.
Import Regex.
Import TimeUtils.

(** What the LRC-like rule of [timeToMs] computes from its match. *)
Definition lrcValue (lrcMatch : found) : number :=
  let m := parseInt (captured 1 lrcMatch) in
  let s := parseInt (captured 2 lrcMatch) in
  let msStr := capturedOr 3 lrcMatch "0" in
  let ms :=
    if Nat.eqb (String.length msStr) 3 then parseInt msStr
    else if Nat.eqb (String.length msStr) 2 then mul (parseInt msStr) (ofZ 10)
    else if Nat.eqb (String.length msStr) 1 then mul (parseInt msStr) (ofZ 100)
    else parseInt msStr in
  add (add (mul m (ofZ 60000)) (mul s (ofZ 1000))) ms.

(** What the full-timestamp rule of [timeToMs] computes from its
    match. *)
Definition fullValue (fullMatch : found) : number :=
  let h := if participated 1 fullMatch
           then parseInt (captured 1 fullMatch) else ofZ 0 in
  let m := parseInt (captured 2 fullMatch) in
  let s := parseInt (captured 3 fullMatch) in
  let msStr := captured 4 fullMatch in
  let ms := parseInt msStr in
  let ms :=
    if Nat.eqb (String.length msStr) 1 then mul ms (ofZ 100)
    else if Nat.eqb (String.length msStr) 2 then mul ms (ofZ 10)
    else ms in
  add (add (add (mul h (ofZ 3600000)) (mul m (ofZ 60000))) (mul s (ofZ 1000))) ms.

(** Every character is a decimal digit. *)
Fixpoint allDigits (s : string) : bool :=
  match s with
  | String c s' => (Js.isDigit c && allDigits s')%bool
  | EmptyString => true
  end.

(** The factor applied to a fraction of one, two or three digits. *)
Definition fractionScale (f : string) : Z :=
  match String.length f with
  | 1%nat => 100
  | 2%nat => 10
  | _ => 1
  end.

(** The text [H:M:S.f], or [M:S.f] when [h] is empty. *)
Definition colonText (h m s : string) (sep : ascii) (f : string) : string :=
  match h with
  | EmptyString => EmptyString
  | _ => h ++ ":"
  end ++ m ++ ":" ++ s ++ String sep f.

(** The milliseconds that the fields of [colonText] stand for. *)
Definition colonValue (h m s f : string) : Z :=
  Js.digitsValue 0 h * 3600000 + Js.digitsValue 0 m * 60000
  + Js.digitsValue 0 s * 1000 + Js.digitsValue 0 f * fractionScale f.

(** The integers from 0 to [n - 1]. *)
Definition upTo (n : nat) : list Z := map Z.of_nat (List.seq 0 n).

(** A field of an encoded time: an integer written in decimal and
    padded with zeros to [width]. *)
Definition field (width : nat) (k : Z) : string :=
  Js.padStart width "0" (toString (ofZ k)).

(** The field of [k] has [width] digits that read [k]. *)
Definition fieldOk (width : nat) (k : Z) : bool :=
  (allDigits (field width k)
   && Nat.eqb (String.length (field width k)) width
   && Z.eqb (Js.digitsValue 0 (field width k)) k)%bool.

End CodecAux.

(* ================================================================= *)
(** ** Auxiliary definitions of the further properties *)

Module Written.

Import Num.

(** Two and three decimal digits of a small integer. *)
Definition pad2 (k : Z) : string :=
  String (Js.digitChar (k / 10)) (String (Js.digitChar (k mod 10)) EmptyString).

Definition pad3 (k : Z) : string :=
  String (Js.digitChar (k / 100)) (pad2 (k mod 100)).

(** [hh:mm:ss] followed by [sep] and the milliseconds. *)
Definition clock (sep : ascii) (ms : Z) : string :=
  pad2 (ms / 3600000) ++ ":" ++ pad2 (ms / 60000 mod 60) ++ ":"
  ++ pad2 (ms / 1000 mod 60) ++ String sep (pad3 (ms mod 1000)).

(** [mm:ss.cc] for a multiple of 10 ms. *)
Definition lrcClock (ms : Z) : string :=
  pad2 (ms / 60000) ++ ":" ++ pad2 (ms / 1000 mod 60) ++ "."
  ++ pad2 (ms mod 1000 / 10).

(** [mm:ss.mmm] *)
Definition minuteClock (ms : Z) : string :=
  pad2 (ms / 60000) ++ ":" ++ pad2 (ms / 1000 mod 60) ++ "."
  ++ pad3 (ms mod 1000).

Definition sameAsPad (width : nat) (k : Z) : bool :=
  String.eqb (CodecAux.field width k)
    (match width with 2%nat => pad2 k | _ => pad3 k end).

(** The ids that a state of the VTT scan holds: those of the cues
    pushed so far, then that of the cue under construction. *)
Definition heldIds (st : Parser.VttState) : list string :=
  (map id (Parser.v_cues st)
   ++ match Parser.currentCue st with
      | Some cur => [Parser.p_id cur]
      | None => []
      end)%list.

(** Ids without repetition that all come from lines before [k]. *)
Definition idsBelow (k : nat) (ids : list string) : Prop :=
  NoDup ids
  /\ forall s, In s ids -> exists j, (j < k)%nat /\ s = "vtt-" ++ Js.natToString j.

(** No character of [s] satisfies [p]. *)
Fixpoint noneOf (p : ascii -> bool) (s : string) : bool :=
  match s with
  | EmptyString => true
  | String c s' => (negb (p c) && noneOf p s')%bool
  end.

(** The separator [sep] starts at no position of [x], whatever follows
    [x]. *)
Fixpoint clearOf (sep x : string) : Prop :=
  match x with
  | EmptyString => True
  | String c x' =>
      (forall rest, Js.isPrefix sep (String c x' ++ rest) = false)
      /\ clearOf sep x'
  end.

(** A text that ends in a character other than white space. *)
Definition endsClean (t : string) : bool :=
  match Js.rev t with
  | String d _ => negb (Js.isSpace d)
  | EmptyString => false
  end.

(** A text of one line that does not end in white space. *)
Definition oneLine (t : string) : bool :=
  (noneOf Js.isLineTerminator t && endsClean t)%bool.

(** A whole number of milliseconds below 100 hours. *)
Definition wholeTime (x : Num.number) : Prop :=
  exists ms, 0 <= ms < 360000000 /\ x = ofZ ms.

(** A cue that the SRT form can carry: whole times and a text of one
    line. *)
Definition srtSafe (c : Cue) : Prop :=
  wholeTime (start c) /\ wholeTime (end_ c) /\ oneLine (text c) = true.

(** The cue as a parser returns it: numbered by its rank, without
    words. *)
Definition renumbered (prefix : string) (entry : nat * Cue) : Cue :=
  let (i, c) := entry in
  mkCue (prefix ++ Js.natToString i) (start c) (end_ c) (text c) None.

(** The time line of an SRT block. *)
Definition timeLine (a b : string) : string := a ++ " --> " ++ b.

(** A block without the line break that ends it. *)
Definition chunkOf (entry : nat * Cue) : string :=
  let (index, cue) := entry in
  Js.natToString (index + 1) ++ Parser.LF
  ++ timeLine (TimeUtils.msToSrt (start cue)) (TimeUtils.msToSrt (end_ cue))
  ++ Parser.LF ++ text cue.

(** What the scan of a document needs to know of a block: it starts
    and ends with something other than white space and holds neither
    a carriage return nor a blank line. *)
Record chunkFacts (x : string) : Prop := {
  starts_clean : exists c r, x = String c r /\ Js.isSpace c = false;
  ends_clean : endsClean x = true;
  no_CR : noneOf (Ascii.eqb "013") x = true;
  no_blank_line : clearOf (Parser.LF ++ Parser.LF) x
}.

(** A text that starts with a character other than white space. *)
Definition startsClean (t : string) : bool :=
  match t with
  | String c _ => negb (Js.isSpace c)
  | EmptyString => false
  end.

(** A text that a VTT cue can carry as it is: one line without white
    space around it, without a tag and without an arrow. *)
Definition plainText (t : string) : bool :=
  (oneLine t && startsClean t && noneOf (Ascii.eqb "<") t
   && negb (Js.includes t "-->"))%bool.

(** A title that fits in a line of the header. *)
Definition plainTitle (t : string) : bool :=
  (oneLine t && negb (Js.includes t "-->"))%bool.

(** A cue that the VTT form can carry. *)
Definition vttSafe (c : Cue) : Prop :=
  wholeTime (start c) /\ wholeTime (end_ c) /\ plainText (text c) = true.

(** The title that [stringifyVTT] writes, if it writes one. *)
Definition writtenTitle (metadata : option Metadata) : option string :=
  match metadata with
  | Some md =>
      match title md with
      | Some t => if Js.truthy t then Some t else None
      | None => None
      end
  | None => None
  end.

Definition titleLines (metadata : option Metadata) : list string :=
  match writtenTitle metadata with
  | Some t => ["Note Title: " ++ t]
  | None => []
  end.

(** The line of the first time line of a VTT document. *)
Definition firstCueLine (metadata : option Metadata) : nat :=
  match writtenTitle metadata with
  | Some _ => 3%nat
  | None => 2%nat
  end.

(** The cue as [parseVTT] returns it: named by the line of its time
    line, with an empty list of words. *)
Definition vttRead (first : nat) (entry : nat * Cue) : Cue :=
  let (i, c) := entry in
  mkCue ("vtt-" ++ Js.natToString (first + 3 * i)) (start c) (end_ c) (text c)
        (Some []).

Definition vttTimeLine (c : Cue) : string :=
  timeLine (TimeUtils.msToVtt (start c)) (TimeUtils.msToVtt (end_ c)).

(** The lines of the cues of a VTT document, a blank line between two
    cues. *)
Fixpoint bodyLines (cues : list Cue) : list string :=
  match cues with
  | [] => []
  | c :: rest =>
      vttTimeLine c :: text c ::
      match rest with
      | [] => []
      | _ :: _ => EmptyString :: bodyLines rest
      end
  end.

(** The lines of a VTT document once trimmed. *)
Definition vttLines (metadata : option Metadata) (cues : list Cue) : list string :=
  ("WEBVTT" :: titleLines metadata
   ++ match cues with
      | [] => []
      | _ :: _ => EmptyString :: bodyLines cues
      end)%list.

(** The cues of [parseVTT] once the lines are scanned. *)
Definition vttFinish (st : Parser.VttState) : list Cue :=
  match Parser.currentCue st with
  | Some cur =>
      if Nat.ltb 0 (List.length (Parser.textBuffer st)) then Parser.flush cur st
      else Parser.v_cues st
  | None => Parser.v_cues st
  end.

(** A line without white space around it. *)
Definition trimmedLine (t : string) : bool := (oneLine t && startsClean t)%bool.

(** The lines that [stringifyTXT] writes: the texts, and a blank line
    where the gap to the next cue reaches the threshold. *)
Fixpoint txtDocument (cues : list Cue) : list string :=
  match cues with
  | [] => []
  | cue :: rest =>
      text cue ::
      match rest with
      | next :: _ =>
          if SFleb Parser.stanzaBreakThreshold (sub (start next) (end_ cue))
          then EmptyString :: txtDocument rest
          else txtDocument rest
      | [] => []
      end
  end.

(** The cue that plain text gives for the text of a cue: two seconds
    per line. *)
Definition txtRead (entry : nat * Cue) : Cue :=
  let (i, c) := entry in
  mkCue ("txt-" ++ Js.natToString i)
        (mul (Parser.ofNat i) (ofZ 2000))
        (mul (add (Parser.ofNat i) (ofZ 1)) (ofZ 2000))
        (text c) None.

(** [Math.round(ms / 10) * 10]: the time that [msToLrc] writes. *)
Definition nearestTen (ms : Num.number) : Num.number :=
  mul (Math_round (div ms (ofZ 10))) (ofZ 10).

(** A text without white space around it, the empty text included. *)
Definition trimmed (t : string) : bool :=
  match t with
  | EmptyString => true
  | _ => (startsClean t && endsClean t)%bool
  end.

(** A text that an LRC line can carry as it is: one line without white
    space around it and without a tag. *)
Definition plainLyric (t : string) : bool :=
  (noneOf Js.isLineTerminator t && trimmed t && noneOf (Ascii.eqb "<") t)%bool.

(** A cue that the LRC form can carry: a whole start time that is
    written with two digits of minutes, and a plain text. *)
Definition lrcSafe (c : Cue) : Prop :=
  (exists ms, 0 <= ms < 5999995 /\ start c = ofZ ms) /\ plainLyric (text c) = true.

(** The cue that [parseLRC] pushes for the line of a cue, before the
    end times are inferred; [first] is the line of the first cue. *)
Definition lrcRead (first : nat) (entry : nat * Cue) : Cue :=
  let (i, c) := entry in
  mkCue ("lrc-" ++ Js.natToString (first + i)) (nearestTen (start c))
        (add (nearestTen (start c)) (ofZ 3000)) (text c) None.

(** The value of a header field that [stringifyLRC] writes, if it
    writes the field. *)
Definition writtenField (field : option string) : option string :=
  match field with
  | Some v => if Js.truthy v then Some v else None
  | None => None
  end.

Definition fieldLine (tag : string) (field : option string) : list string :=
  match writtenField field with
  | Some v => ["[" ++ tag ++ ":" ++ v ++ "]"]
  | None => []
  end.

(** The header lines of an LRC document. *)
Definition headerLines (metadata : option Metadata) : list string :=
  match metadata with
  | Some md =>
      (fieldLine "ti" (title md) ++ fieldLine "ar" (artist md)
       ++ fieldLine "al" (album md) ++ fieldLine "by" (by_ md))%list
  | None => []
  end.

(** The lines of an LRC document. *)
Definition lrcDocument (metadata : option Metadata) (cues : list Cue) : list string :=
  (headerLines metadata
   ++ match cues with
      | [] => [EmptyString]
      | _ :: _ => map (Parser.lrcLine false) cues
      end)%list.

(** A header value of one line without square brackets. *)
Definition plainValue (v : string) : bool :=
  (noneOf Js.isLineTerminator v && noneOf (Ascii.eqb "[") v
   && noneOf (Ascii.eqb "]") v)%bool.

Definition plainField (field : option string) : Prop :=
  forall v, writtenField field = Some v -> plainValue v = true.

Definition plainHeader (metadata : option Metadata) : Prop :=
  match metadata with
  | Some md =>
      plainField (title md) /\ plainField (artist md)
      /\ plainField (album md) /\ plainField (by_ md)
  | None => True
  end.

(** The metadata that [parseLRC] reads from the header written for
    [metadata]. *)
Definition readField (field : option string) : option string :=
  option_map Js.trim (writtenField field).

Definition readHeader (metadata : option Metadata) : Metadata :=
  match metadata with
  | Some md =>
      mkMetadata (readField (title md)) (readField (artist md))
                 (readField (album md)) (readField (by_ md))
  | None => noMetadata
  end.

(** A line in which the opening of a header field does not occur: the
    line is empty, or a bracket starts it, is its only one, and does
    not start the opening. *)
Definition lineClear (opening line : string) : Prop :=
  line = EmptyString
  \/ exists body,
       line = String "[" body
       /\ noneOf (Ascii.eqb "[") body = true
       /\ forall rest, Js.isPrefix opening (line ++ rest) = false.

(** The lines with a line break after each. *)
Fixpoint linesBefore (lines : list string) : string :=
  match lines with
  | [] => EmptyString
  | l :: rest => l ++ Parser.LF ++ linesBefore rest
  end.

(** What follows a line of a document. *)
Definition linesAfter (lines : list string) : string :=
  match lines with
  | [] => EmptyString
  | _ :: _ => Parser.LF ++ Js.join Parser.LF lines
  end.



(** Neither a line feed nor a carriage return. *)
Definition noBreak (x : string) : bool :=
  (noneOf (Ascii.eqb "010") x && noneOf (Ascii.eqb "013") x)%bool.

(** The texts of the cues, one per line. *)
Fixpoint plainLines (cues : list Cue) : string :=
  match cues with
  | [] => EmptyString
  | c :: rest => text c ++ Parser.LF ++ plainLines rest
  end.

End Written.

(* ================================================================= *)
(** * Properties *)

Import Num.
Import NumAux.

(** ** Binary64 arithmetic on integers *)

Lemma Zdigits2_log2 (z : Z) : 0 < z -> Zdigits2 z = Z.log2 z + 1.
Proof.
  destruct z as [|p|p]; try lia. intros _. simpl.
  assert (H : forall q, digits2_pos q = Pos.size q).
  { induction q; simpl; congruence. }
  rewrite H. destruct p; simpl; lia.
Qed.

Lemma shr_1_double (z : Z) :
  0 < z ->
  shr_1 (Build_shr_record (2 * z) false false) = Build_shr_record z false false.
Proof. destruct z; try lia. reflexivity. Qed.

Lemma pow2_xI (n : positive) : 2 ^ Zpos n~1 = 2 * (2 ^ Zpos n * 2 ^ Zpos n).
Proof.
  replace (Zpos n~1) with (1 + (Zpos n + Zpos n)) by lia.
  rewrite !Z.pow_add_r by lia. reflexivity.
Qed.

Lemma pow2_xO (n : positive) : 2 ^ Zpos n~0 = 2 ^ Zpos n * 2 ^ Zpos n.
Proof.
  replace (Zpos n~0) with (Zpos n + Zpos n) by lia.
  rewrite Z.pow_add_r by lia. reflexivity.
Qed.

Lemma iter_shr_exact (n : positive) :
  forall z, 0 < z ->
  iter_pos shr_1 n (Build_shr_record (z * 2 ^ Zpos n) false false)
  = Build_shr_record z false false.
Proof.
  induction n as [n IH|n IH|]; intros z Hz.
  - change (iter_pos shr_1 n~1 ?x) with (iter_pos shr_1 n (iter_pos shr_1 n (shr_1 x))).
    rewrite pow2_xI.
    replace (z * (2 * (2 ^ Zpos n * 2 ^ Zpos n))) with (2 * ((z * 2 ^ Zpos n) * 2 ^ Zpos n)) by ring.
    assert (0 < 2 ^ Zpos n) by (apply Z.pow_pos_nonneg; lia).
    rewrite shr_1_double by nia. rewrite IH by nia. apply IH; lia.
  - change (iter_pos shr_1 n~0 ?x) with (iter_pos shr_1 n (iter_pos shr_1 n x)).
    rewrite pow2_xO, Z.mul_assoc.
    assert (0 < 2 ^ Zpos n) by (apply Z.pow_pos_nonneg; lia).
    rewrite IH by nia. apply IH; lia.
  - change (iter_pos shr_1 1 ?x) with (shr_1 x).
    rewrite Z.pow_1_r, Z.mul_comm. apply shr_1_double; lia.
Qed.


Lemma round_aux_exact (s : bool) (m k e : Z) :
  0 < m -> Z.log2 m <= 52 -> 52 - Z.log2 m <= k ->
  -1074 <= e + k - (52 - Z.log2 m) <= 971 ->
  binary_round_aux prec emax s (m * 2 ^ k) e loc_Exact
  = S754_finite s (Z.to_pos (m * 2 ^ (52 - Z.log2 m))) (e + k - (52 - Z.log2 m)).
Proof.
  intros Hm Hl Hk He.
  assert (Hl0 : 0 <= Z.log2 m) by apply Z.log2_nonneg.
  assert (Hp : 0 < 2 ^ k) by (apply Z.pow_pos_nonneg; lia).
  assert (Hd : Zdigits2 (m * 2 ^ k) = Z.log2 m + k + 1).
  { rewrite Zdigits2_log2 by nia. rewrite Z.log2_mul_pow2 by lia. lia. }
  unfold binary_round_aux, shr_fexp. rewrite Hd.
  unfold fexp, emin, prec, emax.
  replace (Z.max (Z.log2 m + k + 1 + e - 53) (3 - 1024 - 53) - e)
    with (k - (52 - Z.log2 m)) by lia.
  set (n := k - (52 - Z.log2 m)).
  assert (Hmk : m * 2 ^ k = (m * 2 ^ (52 - Z.log2 m)) * 2 ^ n).
  { unfold n. rewrite <- Z.mul_assoc, <- Z.pow_add_r by lia. f_equal. f_equal. lia. }
  assert (Hq : 0 < m * 2 ^ (52 - Z.log2 m)).
  { assert (0 < 2 ^ (52 - Z.log2 m)) by (apply Z.pow_pos_nonneg; lia). nia. }
  set (q := m * 2 ^ (52 - Z.log2 m)) in *.
  assert (Hdq : Zdigits2 q = 53).
  { rewrite Zdigits2_log2 by lia. unfold q. rewrite Z.log2_mul_pow2 by lia. lia. }
  assert (Hstep : shr (shr_record_of_loc (m * 2 ^ k) loc_Exact) e n
                  = (Build_shr_record q false false, e + n)).
  { unfold shr. destruct n as [|pn|pn] eqn:En; try lia.
    - rewrite Hmk. simpl. rewrite Z.mul_1_r, Z.add_0_r. reflexivity.
    - rewrite Hmk. simpl shr_record_of_loc. rewrite iter_shr_exact by lia. reflexivity. }
  rewrite Hstep. cbn [shr_m loc_of_shr_record round_nearest_even].
  rewrite Hdq.
  replace (Z.max (53 + (e + n) - 53) (3 - 1024 - 53) - (e + n)) with 0 by lia.
  simpl shr. cbn [shr_m shr_record_of_loc].
  destruct q as [|pq|pq] eqn:Eq; try lia.
  replace (e + n <=? 1024 - 53) with true by (symmetry; apply Z.leb_le; lia).
  f_equal. unfold n; lia.
Qed.


Lemma round_aux_canon (s : bool) (m k e : Z) :
  0 < m -> Z.log2 m <= 52 -> 52 - Z.log2 m <= k ->
  -1074 <= e + k - (52 - Z.log2 m) <= 971 ->
  binary_round_aux prec emax s (m * 2 ^ k) e loc_Exact = canon s m (e + k).
Proof. apply round_aux_exact. Qed.

Lemma iter_xO_pow (d p : positive) : Zpos (Pos.iter xO p d) = Zpos p * 2 ^ Zpos d.
Proof.
  induction d as [|d IH] using Pos.peano_ind.
  - simpl. lia.
  - rewrite Pos.iter_succ, Pos2Z.inj_xO, IH, Pos2Z.inj_succ, Z.pow_succ_r by lia. ring.
Qed.

Lemma normalize_canon (m k e : Z) :
  0 < m -> Z.log2 m <= 52 -> 0 <= k ->
  -1074 <= e + k - (52 - Z.log2 m) <= 971 ->
  binary_normalize prec emax (m * 2 ^ k) e false = canon false m (e + k).
Proof.
  intros Hm Hl Hk He.
  assert (Hl0 : 0 <= Z.log2 m) by apply Z.log2_nonneg.
  assert (Hp : 0 < 2 ^ k) by (apply Z.pow_pos_nonneg; lia).
  assert (Hd : Zdigits2 (m * 2 ^ k) = Z.log2 m + k + 1).
  { rewrite Zdigits2_log2 by nia. rewrite Z.log2_mul_pow2 by lia. lia. }
  destruct (m * 2 ^ k) as [|p|p] eqn:Ep; try nia.
  unfold binary_normalize, binary_round.
  change (Zpos (digits2_pos p)) with (Zdigits2 (Zpos p)). rewrite Hd.
  unfold fexp, emin, shl_align.
  replace (Z.max (Z.log2 m + k + 1 + e - prec) (3 - emax - prec) - e)
    with (k - (52 - Z.log2 m)) by (unfold prec, emax; lia).
  destruct (k - (52 - Z.log2 m)) as [|d|d] eqn:Ed.
  - rewrite <- Ep. apply round_aux_canon; lia.
  - rewrite <- Ep. apply round_aux_canon; lia.
  - rewrite iter_xO_pow, <- Ep.
    replace (m * 2 ^ k * 2 ^ Zpos d) with (m * 2 ^ (52 - Z.log2 m)).
    + rewrite round_aux_canon; try lia.
      * f_equal. unfold prec, emax. lia.
      * unfold prec, emax. lia.
    + rewrite <- Z.mul_assoc, <- Z.pow_add_r by lia. f_equal. f_equal. lia.
Qed.

Lemma ofZ_canon (z : Z) : 0 < z < 2 ^ 53 -> ofZ z = canon false z 0.
Proof.
  intros Hz. unfold ofZ.
  assert (Z.log2 z < 53) by (apply Z.log2_lt_pow2; lia).
  assert (0 <= Z.log2 z) by apply Z.log2_nonneg.
  rewrite <- (Z.mul_1_r z) at 1. change 1 with (2 ^ 0) at 1.
  rewrite normalize_canon; try lia. reflexivity.
Qed.

(** The mantissa and the exponent of [canon]. *)
Lemma canon_mantissa (m : Z) :
  0 < m -> Z.log2 m <= 52 ->
  Zpos (Z.to_pos (m * 2 ^ (52 - Z.log2 m))) = m * 2 ^ (52 - Z.log2 m).
Proof.
  intros. apply Z2Pos.id.
  assert (0 < 2 ^ (52 - Z.log2 m)) by (apply Z.pow_pos_nonneg; lia). nia.
Qed.

Lemma add_ofZ (a b : Z) :
  0 <= a -> 0 <= b -> a + b < 2 ^ 53 ->
  add (ofZ a) (ofZ b) = ofZ (a + b).
Proof.
  intros Ha Hb Hab.
  destruct (Z.eq_dec a 0) as [->|Na].
  { simpl (ofZ 0). destruct (Z.eq_dec b 0) as [->|Nb]; [reflexivity|].
    rewrite Z.add_0_l. rewrite ofZ_canon by lia. reflexivity. }
  destruct (Z.eq_dec b 0) as [->|Nb].
  { simpl (ofZ 0). rewrite Z.add_0_r. rewrite ofZ_canon by lia. reflexivity. }
  assert (La : Z.log2 a < 53) by (apply Z.log2_lt_pow2; lia).
  assert (Lb : Z.log2 b < 53) by (apply Z.log2_lt_pow2; lia).
  assert (Lab : Z.log2 (a + b) < 53) by (apply Z.log2_lt_pow2; lia).
  assert (0 <= Z.log2 a) by apply Z.log2_nonneg.
  assert (0 <= Z.log2 b) by apply Z.log2_nonneg.
  assert (0 <= Z.log2 (a + b)) by apply Z.log2_nonneg.
  rewrite (ofZ_canon a), (ofZ_canon b), (ofZ_canon (a + b)) by lia.
  unfold add, canon, SFadd.
  set (ez := Z.min (0 - (52 - Z.log2 a)) (0 - (52 - Z.log2 b))).
  assert (Hal : forall x, 0 < x -> Z.log2 x <= 52 ->
            Zpos (fst (shl_align (Z.to_pos (x * 2 ^ (52 - Z.log2 x))) (0 - (52 - Z.log2 x)) ez))
            = x * 2 ^ (- ez) \/ (0 - (52 - Z.log2 x)) < ez).
  { intros x Hx Lx. unfold shl_align.
    destruct (ez - (0 - (52 - Z.log2 x))) as [|d|d] eqn:Ed.
    - left. simpl fst. rewrite canon_mantissa by lia. f_equal. f_equal. lia.
    - right. lia.
    - left. simpl fst. rewrite iter_xO_pow, canon_mantissa by lia.
      rewrite <- Z.mul_assoc, <- Z.pow_add_r by lia. f_equal. f_equal. lia. }
  destruct (Hal a) as [Ea|]; [lia|lia| |unfold ez in *; lia].
  destruct (Hal b) as [Eb|]; [lia|lia| |unfold ez in *; lia].
  unfold cond_Zopp. rewrite Ea, Eb.
  rewrite <- Z.mul_add_distr_r.
  rewrite normalize_canon; try (unfold ez; lia).
  unfold canon. f_equal. lia.
Qed.

Lemma sub_ofZ (a b : Z) :
  0 <= b -> b < a -> a < 2 ^ 53 -> sub (ofZ a) (ofZ b) = ofZ (a - b).
Proof.
  intros Hb Hab Ha.
  destruct (Z.eq_dec b 0) as [->|Nb].
  { simpl (ofZ 0). rewrite Z.sub_0_r. rewrite ofZ_canon by lia. reflexivity. }
  assert (La : Z.log2 a < 53) by (apply Z.log2_lt_pow2; lia).
  assert (Lb : Z.log2 b < 53) by (apply Z.log2_lt_pow2; lia).
  assert (Lab : Z.log2 (a - b) < 53) by (apply Z.log2_lt_pow2; lia).
  assert (0 <= Z.log2 a) by apply Z.log2_nonneg.
  assert (0 <= Z.log2 b) by apply Z.log2_nonneg.
  assert (0 <= Z.log2 (a - b)) by apply Z.log2_nonneg.
  rewrite (ofZ_canon a), (ofZ_canon b), (ofZ_canon (a - b)) by lia.
  unfold sub, canon, SFsub.
  set (ez := Z.min (0 - (52 - Z.log2 a)) (0 - (52 - Z.log2 b))).
  assert (Hal : forall x, 0 < x -> Z.log2 x <= 52 ->
            Zpos (fst (shl_align (Z.to_pos (x * 2 ^ (52 - Z.log2 x))) (0 - (52 - Z.log2 x)) ez))
            = x * 2 ^ (- ez) \/ (0 - (52 - Z.log2 x)) < ez).
  { intros x Hx Lx. unfold shl_align.
    destruct (ez - (0 - (52 - Z.log2 x))) as [|d|d] eqn:Ed.
    - left. simpl fst. rewrite canon_mantissa by lia. f_equal. f_equal. lia.
    - right. lia.
    - left. simpl fst. rewrite iter_xO_pow, canon_mantissa by lia.
      rewrite <- Z.mul_assoc, <- Z.pow_add_r by lia. f_equal. f_equal. lia. }
  destruct (Hal a) as [Ea|]; [lia|lia| |unfold ez in *; lia].
  destruct (Hal b) as [Eb|]; [lia|lia| |unfold ez in *; lia].
  unfold cond_Zopp. rewrite Ea, Eb.
  rewrite <- Z.mul_sub_distr_r.
  rewrite normalize_canon; try (unfold ez; lia).
  unfold canon. f_equal. lia.
Qed.

Lemma sub_self_ofZ (s : Z) : 0 <= s < 2 ^ 53 -> sub (ofZ s) (ofZ s) = ofZ 0.
Proof.
  intros H. destruct (Z.eq_dec s 0) as [->|N]; [reflexivity|].
  rewrite ofZ_canon by lia. unfold sub, canon, SFsub. rewrite Z.sub_diag. reflexivity.
Qed.

Lemma mul_ofZ (a b : Z) :
  0 <= a < 2 ^ 53 -> 0 <= b < 2 ^ 53 -> a * b < 2 ^ 53 ->
  mul (ofZ a) (ofZ b) = ofZ (a * b).
Proof.
  intros Ha Hb Hab.
  destruct (Z.eq_dec a 0) as [->|Na].
  { simpl (ofZ 0). destruct (Z.eq_dec b 0) as [->|Nb]; [reflexivity|].
    rewrite (ofZ_canon b) by lia. reflexivity. }
  destruct (Z.eq_dec b 0) as [->|Nb].
  { rewrite Z.mul_0_r. simpl (ofZ 0). rewrite (ofZ_canon a) by lia. reflexivity. }
  assert (Pab : 0 < a * b) by nia.
  assert (La : Z.log2 a < 53) by (apply Z.log2_lt_pow2; lia).
  assert (Lb : Z.log2 b < 53) by (apply Z.log2_lt_pow2; lia).
  assert (Lab : Z.log2 (a * b) < 53) by (apply Z.log2_lt_pow2; lia).
  assert (0 <= Z.log2 a) by apply Z.log2_nonneg.
  assert (0 <= Z.log2 b) by apply Z.log2_nonneg.
  assert (Z.log2 a + Z.log2 b <= Z.log2 (a * b)) by (apply Z.log2_mul_below; lia).
  rewrite (ofZ_canon a), (ofZ_canon b), (ofZ_canon (a * b)) by lia.
  unfold mul, canon, SFmul. cbn [xorb].
  rewrite Pos2Z.inj_mul, !canon_mantissa by lia.
  replace (a * 2 ^ (52 - Z.log2 a) * (b * 2 ^ (52 - Z.log2 b)))
    with ((a * b) * 2 ^ (104 - Z.log2 a - Z.log2 b)).
  - rewrite round_aux_canon; try lia. unfold canon. f_equal. lia.
  - replace (104 - Z.log2 a - Z.log2 b) with ((52 - Z.log2 a) + (52 - Z.log2 b)) by lia.
    rewrite Z.pow_add_r by lia. ring.
Qed.

Lemma rem_ofZ (a b : Z) :
  0 <= a < 2 ^ 53 -> 0 < b < 2 ^ 53 ->
  rem (ofZ a) (ofZ b) = ofZ (a mod b).
Proof.
  intros Ha Hb.
  assert (Lb : Z.log2 b < 53) by (apply Z.log2_lt_pow2; lia).
  assert (0 <= Z.log2 b) by apply Z.log2_nonneg.
  rewrite (ofZ_canon b) by lia.
  destruct (Z.eq_dec a 0) as [->|Na]; [reflexivity|].
  assert (La : Z.log2 a < 53) by (apply Z.log2_lt_pow2; lia).
  assert (0 <= Z.log2 a) by apply Z.log2_nonneg.
  rewrite (ofZ_canon a) by lia.
  unfold rem, canon.
  set (e := Z.min (0 - (52 - Z.log2 a)) (0 - (52 - Z.log2 b))).
  rewrite !canon_mantissa by lia.
  replace (a * 2 ^ (52 - Z.log2 a) * 2 ^ (0 - (52 - Z.log2 a) - e)) with (a * 2 ^ (- e)).
  2:{ rewrite <- Z.mul_assoc, <- Z.pow_add_r by (unfold e; lia). f_equal. f_equal. lia. }
  replace (b * 2 ^ (52 - Z.log2 b) * 2 ^ (0 - (52 - Z.log2 b) - e)) with (b * 2 ^ (- e)).
  2:{ rewrite <- Z.mul_assoc, <- Z.pow_add_r by (unfold e; lia). f_equal. f_equal. lia. }
  assert (Hp : 0 < 2 ^ (- e)) by (apply Z.pow_pos_nonneg; unfold e; lia).
  rewrite Z.mul_mod_distr_r by lia.
  assert (Hm : 0 <= a mod b < b) by (apply Z.mod_pos_bound; lia).
  unfold cond_Zopp.
  destruct (Z.eq_dec (a mod b) 0) as [->|Nm]; [reflexivity|].
  assert (Z.log2 (a mod b) < 53) by (apply Z.log2_lt_pow2; lia).
  assert (0 <= Z.log2 (a mod b)) by apply Z.log2_nonneg.
  rewrite normalize_canon; try (unfold e; lia).
  rewrite ofZ_canon by lia. unfold canon. f_equal. lia.
Qed.

Lemma Math_floor_finite (s : bool) (m : positive) (e : Z) :
  e < 0 ->
  Math_floor (S754_finite s m e)
  = binary_normalize prec emax (cond_Zopp s (Zpos m) / 2 ^ (- e)) 0 s.
Proof. destruct e; try lia. reflexivity. Qed.

Lemma Math_round_finite (s : bool) (m : positive) (e : Z) :
  e < 0 ->
  Math_round (S754_finite s m e)
  = binary_normalize prec emax
      ((2 * cond_Zopp s (Zpos m) + 2 ^ (- e)) / (2 * 2 ^ (- e))) 0 s.
Proof. destruct e; try lia. reflexivity. Qed.

Lemma round_ofZ (z : Z) : 0 <= z < 2 ^ 53 -> Math_round (ofZ z) = ofZ z.
Proof.
  intros Hz. destruct (Z.eq_dec z 0) as [->|Nz]; [reflexivity|].
  assert (Lz : Z.log2 z < 53) by (apply Z.log2_lt_pow2; lia).
  assert (0 <= Z.log2 z) by apply Z.log2_nonneg.
  rewrite ofZ_canon by lia.
  destruct (Z.eq_dec (Z.log2 z) 52) as [E|N].
  - unfold canon. rewrite E. reflexivity.
  - unfold canon. rewrite Math_round_finite by lia.
    rewrite canon_mantissa by lia. unfold cond_Zopp.
    replace (- (0 - (52 - Z.log2 z))) with (52 - Z.log2 z) by lia.
    assert (Hp : 0 < 2 ^ (52 - Z.log2 z)) by (apply Z.pow_pos_nonneg; lia).
    replace ((2 * (z * 2 ^ (52 - Z.log2 z)) + 2 ^ (52 - Z.log2 z)) / (2 * 2 ^ (52 - Z.log2 z)))
      with z.
    + change (binary_normalize prec emax z 0 false) with (ofZ z).
      rewrite ofZ_canon by lia. reflexivity.
    + apply Z.div_unique with (r := 2 ^ (52 - Z.log2 z)); lia.
Qed.

(** *** Division *)


Lemma round_aux_finish (s : bool) (q e : Z) (l : location) :
  binary_round_aux prec emax s q e l
  = let '(mrs, e') := shr_fexp prec emax q e l in
    finish s (round_nearest_even (shr_m mrs) (loc_of_shr_record mrs)) e'.
Proof. reflexivity. Qed.

Lemma finish_normal (s : bool) (m e : Z) :
  2 ^ 52 <= m < 2 ^ 53 -> -1074 <= e <= 971 ->
  finish s m e = S754_finite s (Z.to_pos m) e.
Proof.
  intros Hm He. unfold finish, shr_fexp.
  assert (Hd : Zdigits2 m = 53).
  { rewrite Zdigits2_log2 by lia. rewrite (Z.log2_unique m 52); lia. }
  rewrite Hd. unfold fexp, emin, prec, emax.
  replace (Z.max (53 + e - 53) (3 - 1024 - 53) - e) with 0 by lia.
  cbn [shr shr_record_of_loc shr_m].
  destruct m as [|p|p]; try lia.
  replace (e <=? 1024 - 53) with true by (symmetry; apply Z.leb_le; lia).
  reflexivity.
Qed.

Lemma finish_carry (s : bool) (e : Z) :
  -1074 <= e <= 970 ->
  finish s (2 ^ 53) e = S754_finite s (Z.to_pos (2 ^ 52)) (e + 1).
Proof.
  intros He. unfold finish, shr_fexp.
  change (Zdigits2 (2 ^ 53)) with 54. unfold fexp, emin, prec, emax.
  replace (Z.max (54 + e - 53) (3 - 1024 - 53) - e) with 1 by lia.
  cbn [shr shr_record_of_loc shr_m iter_pos shr_1].
  replace (e + 1 <=? 1024 - 53) with true by (symmetry; apply Z.leb_le; lia).
  reflexivity.
Qed.

Lemma loc_of_record_of (m : Z) (l : location) :
  loc_of_shr_record (shr_record_of_loc m l) = l.
Proof. destruct l as [|[]]; reflexivity. Qed.

Lemma round_nearest_even_bounds (m : Z) (l : location) :
  m <= round_nearest_even m l <= m + 1.
Proof. destruct l as [|[]]; simpl; try destruct (Z.even m); lia. Qed.

Lemma shr_1_round (q : Z) (l : location) :
  2 <= q ->
  let mrs := shr_1 (shr_record_of_loc q l) in
  let m1 := round_nearest_even (shr_m mrs) (loc_of_shr_record mrs) in
  q - 1 <= 2 * m1 <= q + 1.
Proof.
  intros Hq. destruct q as [|p|p]; try lia.
  destruct p as [p|p|]; try lia; destruct l as [|[]];
    cbn -[Z.even Z.add Z.mul]; try destruct (Z.even (Zpos p)) eqn:Ev; lia.
Qed.

(** The result of rounding a quotient [q] of 53 or 54 bits at exponent
    [e]: the mantissa kept is within one unit of [q] at its scale. *)
Lemma round_aux_near (q e : Z) (l : location) :
  2 ^ 52 <= q < 2 ^ 54 -> -1074 <= e <= 960 ->
  exists M E,
    binary_round_aux prec emax false q e l = S754_finite false (Z.to_pos M) E
    /\ 0 < M
    /\ ((E = e /\ q <= M <= q + 1)
        \/ (E = e + 1 /\ q - 1 <= 2 * M <= q + 1)
        \/ (E = e + 2 /\ 4 * M = q + 1)).
Proof.
  intros Hq He. rewrite round_aux_finish.
  destruct (Z.lt_ge_cases q (2 ^ 53)) as [Hlt|Hge].
  - assert (Hd : Zdigits2 q = 53).
    { rewrite Zdigits2_log2 by lia. rewrite (Z.log2_unique q 52); lia. }
    unfold shr_fexp. rewrite Hd. unfold fexp, emin, prec, emax.
    replace (Z.max (53 + e - 53) (3 - 1024 - 53) - e) with 0 by lia.
    cbn [shr]. rewrite loc_of_record_of.
    replace (shr_m (shr_record_of_loc q l)) with q by (destruct l as [|[]]; reflexivity).
    pose proof (round_nearest_even_bounds q l) as Hb.
    set (m1 := round_nearest_even q l) in *.
    destruct (Z.eq_dec m1 (2 ^ 53)) as [E1|N1].
    + rewrite E1. exists (2 ^ 52), (e + 1). rewrite finish_carry by lia.
      split; [reflexivity|]. split; [lia|]. right. left. lia.
    + exists m1, e. rewrite finish_normal by lia.
      split; [reflexivity|]. split; [lia|]. left. lia.
  - assert (Hd : Zdigits2 q = 54).
    { rewrite Zdigits2_log2 by lia. rewrite (Z.log2_unique q 53); lia. }
    unfold shr_fexp. rewrite Hd. unfold fexp, emin, prec, emax.
    replace (Z.max (54 + e - 53) (3 - 1024 - 53) - e) with 1 by lia.
    cbn [shr iter_pos].
    pose proof (shr_1_round q l ltac:(lia)) as Hb. cbv zeta in Hb.
    set (m1 := round_nearest_even _ _) in *.
    destruct (Z.eq_dec m1 (2 ^ 53)) as [E1|N1].
    + rewrite E1. exists (2 ^ 52), (e + 1 + 1). rewrite finish_carry by lia.
      split; [reflexivity|]. split; [lia|]. right. right. lia.
    + exists m1, (e + 1). rewrite finish_normal by lia.
      split; [reflexivity|]. split; [lia|]. right. left. lia.
Qed.

(** The quotient of two integers, as a number: [g/2] being a lower
    bound of [a/b] and [g/2 + 1] a strict upper bound, the number lies
    in the same interval. *)
Lemma div_ofZ_sandwich (a b g : Z) :
  0 < a < 2 ^ 51 -> 0 < b < 2 ^ 51 ->
  g * b <= 2 * a < (g + 2) * b ->
  exists M E,
    div (ofZ a) (ofZ b) = S754_finite false (Z.to_pos M) E
    /\ 0 < M /\ E < 0
    /\ g * 2 ^ (- E) <= 2 * M < (g + 2) * 2 ^ (- E).
Proof.
  intros Ha Hb Hg.
  assert (La : Z.log2 a < 51) by (apply Z.log2_lt_pow2; lia).
  assert (Lb : Z.log2 b < 51) by (apply Z.log2_lt_pow2; lia).
  assert (La0 : 0 <= Z.log2 a) by apply Z.log2_nonneg.
  assert (Lb0 : 0 <= Z.log2 b) by apply Z.log2_nonneg.
  destruct (Z.log2_spec a) as [Al Au]; [lia|].
  destruct (Z.log2_spec b) as [Bl Bu]; [lia|].
  rewrite (ofZ_canon a), (ofZ_canon b) by lia.
  unfold div, canon, SFdiv, SFdiv_core_binary. cbn [xorb].
  rewrite !canon_mantissa by lia.
  assert (Hda : Zdigits2 (a * 2 ^ (52 - Z.log2 a)) = 53).
  { assert (0 < 2 ^ (52 - Z.log2 a)) by (apply Z.pow_pos_nonneg; lia).
    rewrite Zdigits2_log2 by nia. rewrite Z.log2_mul_pow2 by lia. lia. }
  assert (Hdb : Zdigits2 (b * 2 ^ (52 - Z.log2 b)) = 53).
  { assert (0 < 2 ^ (52 - Z.log2 b)) by (apply Z.pow_pos_nonneg; lia).
    rewrite Zdigits2_log2 by nia. rewrite Z.log2_mul_pow2 by lia. lia. }
  rewrite Hda, Hdb.
  set (S := 53 + Z.log2 b - Z.log2 a).
  unfold fexp, emin.
  replace (Z.min (Z.max (53 + (0 - (52 - Z.log2 a)) - (53 + (0 - (52 - Z.log2 b))) - prec)
                    (3 - emax - prec))
                 (0 - (52 - Z.log2 a) - (0 - (52 - Z.log2 b))))
    with (- S) by (unfold S, prec, emax; lia).
  replace (0 - (52 - Z.log2 a) - (0 - (52 - Z.log2 b)) - - S) with 53 by (unfold S; lia).
  cbv iota. rewrite Z.shiftl_mul_pow2 by lia.
  unfold Z.div_eucl at 1.
  fold (Z.div_eucl (a * 2 ^ (52 - Z.log2 a) * 2 ^ 53) (b * 2 ^ (52 - Z.log2 b))).
  pose proof (Z.div_eucl_eq (a * 2 ^ (52 - Z.log2 a) * 2 ^ 53) (b * 2 ^ (52 - Z.log2 b))) as Heq.
  pose proof (Z.mod_pos_bound (a * 2 ^ (52 - Z.log2 a) * 2 ^ 53) (b * 2 ^ (52 - Z.log2 b))) as Hr.
  unfold Z.modulo, Z.div in *.
  destruct (Z.div_eucl (a * 2 ^ (52 - Z.log2 a) * 2 ^ 53) (b * 2 ^ (52 - Z.log2 b))) as [q r] eqn:Eqr.
  assert (HA : 0 < 2 ^ (52 - Z.log2 a)) by (apply Z.pow_pos_nonneg; lia).
  assert (HB : 0 < 2 ^ (52 - Z.log2 b)) by (apply Z.pow_pos_nonneg; lia).
  assert (HT4 : 0 < 2 ^ (S - 2)) by (apply Z.pow_pos_nonneg; unfold S; lia).
  assert (HT2 : 2 ^ (S - 1) = 2 * 2 ^ (S - 2)).
  { replace (S - 1) with (Z.succ (S - 2)) by lia. apply Z.pow_succ_r. unfold S; lia. }
  assert (HT : 2 ^ S = 4 * 2 ^ (S - 2)).
  { replace S with (Z.succ (S - 1)) at 1 by lia. rewrite Z.pow_succ_r, HT2 by (unfold S; lia). ring. }
  assert (HAB : 2 ^ (52 - Z.log2 a) * 2 ^ 53 = 2 ^ S * 2 ^ (52 - Z.log2 b)).
  { rewrite <- !Z.pow_add_r by (unfold S; lia). f_equal. unfold S. lia. }
  assert (HLa : 2 ^ S * 2 ^ Z.log2 a = 2 ^ 53 * 2 ^ Z.log2 b).
  { rewrite <- !Z.pow_add_r by (unfold S; lia). f_equal. unfold S. lia. }
  assert (HLb : 2 ^ (S - 2) = 2 ^ (50 - Z.log2 a) * (2 * 2 ^ Z.log2 b)).
  { rewrite <- Z.pow_succ_r, <- Z.pow_add_r by lia. f_equal. unfold S. lia. }
  assert (HC : 0 < 2 ^ (50 - Z.log2 a)) by (apply Z.pow_pos_nonneg; lia).
  rewrite Z.pow_succ_r in Au, Bu by lia.
  specialize (Heq ltac:(nia)). specialize (Hr ltac:(nia)).
  rewrite <- Z.mul_assoc, HAB in Heq.
  set (T4 := 2 ^ (S - 2)) in *. set (A := 2 ^ (52 - Z.log2 a)) in *.
  set (B := 2 ^ (52 - Z.log2 b)) in *. set (Pa := 2 ^ Z.log2 a) in *.
  set (Pb := 2 ^ Z.log2 b) in *. set (C := 2 ^ (50 - Z.log2 a)) in *.
  rewrite HT in Heq, HLa.
  assert (Hq1 : b * q <= a * (4 * T4)) by nia.
  assert (Hq2 : a * (4 * T4) < b * (q + 1)) by nia.
  assert (Hbt : b < T4) by nia.
  assert (Hq52 : 2 ^ 52 <= q) by nia.
  assert (Hq54 : q < 2 ^ 54) by nia.
  assert (Hi : g * (2 * T4) <= q) by nia.
  assert (Hii : q + 1 < (g + 2) * (2 * T4)) by nia.
  destruct (round_aux_near q (- S) (new_location (b * B) r)) as (M & E & HR & HM & Hcase);
    [lia | unfold S; lia |].
  exists M, E. split; [exact HR|]. split; [exact HM|].
  destruct Hcase as [[-> Hc]|[[-> Hc]|[-> Hc]]].
  - split; [unfold S; lia|]. rewrite Z.opp_involutive, HT. nia.
  - split; [unfold S; lia|].
    replace (- (- S + 1)) with (S - 1) by lia. rewrite HT2. fold T4. nia.
  - split; [unfold S; lia|].
    replace (- (- S + 2)) with (S - 2) by lia. fold T4. nia.
Qed.

Lemma floor_div_ofZ (a b : Z) :
  0 <= a < 2 ^ 51 -> 0 < b < 2 ^ 51 ->
  Math_floor (div (ofZ a) (ofZ b)) = ofZ (a / b).
Proof.
  intros Ha Hb.
  destruct (Z.eq_dec a 0) as [->|Na].
  { rewrite (ofZ_canon b) by lia. reflexivity. }
  pose proof (Z.div_mod a b ltac:(lia)) as Hdm.
  pose proof (Z.mod_pos_bound a b ltac:(lia)) as Hmb.
  destruct (div_ofZ_sandwich a b (2 * (a / b))) as (M & E & HD & HM & HE & Hs);
    [lia | lia | nia |].
  rewrite HD, Math_floor_finite by exact HE.
  unfold cond_Zopp. rewrite Z2Pos.id by exact HM.
  assert (HP : 0 < 2 ^ (- E)) by (apply Z.pow_pos_nonneg; lia).
  replace (M / 2 ^ (- E)) with (a / b); [reflexivity|].
  apply Z.div_unique with (r := M - (a / b) * 2 ^ (- E)); nia.
Qed.

Lemma round_div_ofZ (a b : Z) :
  0 <= a < 2 ^ 51 -> 0 < b < 2 ^ 51 ->
  Math_round (div (ofZ a) (ofZ b)) = ofZ ((2 * a + b) / (2 * b)).
Proof.
  intros Ha Hb.
  destruct (Z.eq_dec a 0) as [->|Na].
  { rewrite (ofZ_canon b) by lia. cbn [div SFdiv ofZ binary_normalize canon Math_round].
    rewrite Z.div_small by lia. reflexivity. }
  pose proof (Z.div_mod (2 * a + b) (2 * b) ltac:(lia)) as Hdm.
  pose proof (Z.mod_pos_bound (2 * a + b) (2 * b) ltac:(lia)) as Hmb.
  destruct (div_ofZ_sandwich a b (2 * ((2 * a + b) / (2 * b)) - 1)) as (M & E & HD & HM & HE & Hs);
    [lia | lia | nia |].
  rewrite HD, Math_round_finite by exact HE.
  unfold cond_Zopp. rewrite Z2Pos.id by exact HM.
  assert (HP : 0 < 2 ^ (- E)) by (apply Z.pow_pos_nonneg; lia).
  replace ((2 * M + 2 ^ (- E)) / (2 * 2 ^ (- E))) with ((2 * a + b) / (2 * b)); [reflexivity|].
  apply Z.div_unique with
    (r := 2 * M + 2 ^ (- E) - ((2 * a + b) / (2 * b)) * (2 * 2 ^ (- E))); nia.
Qed.

(** ** Patterns look at characters only through their classes *)

Import Regex.
Import RegexAux.

Section Transfer.

Variable E : ascii -> ascii -> Prop.

Lemma related_length (s s' : string) :
  related E s s' -> String.length s = String.length s'.
Proof.
  revert s'. induction s as [|c s IH]; intros [|c' s'] H; simpl in *; try tauto.
  f_equal. apply IH. tauto.
Qed.

Lemma repeat_related
  (step step' : nat -> string -> captures -> cont -> option result) :
  (forall pos s s' c k k',
      related E s s' -> sameCont E k k' -> step pos s c k = step' pos s' c k') ->
  forall fuel greedy lo hi pos s s' c k k',
    related E s s' -> sameCont E k k' ->
    repeat step fuel greedy lo hi pos s c k
    = repeat step' fuel greedy lo hi pos s' c k'.
Proof.
  intros Hstep. induction fuel as [|fuel IH]; intros greedy lo hi pos s s' c k k' Hs Hk;
    [reflexivity|].
  cbn [repeat].
  assert (Hmore :
    (if canRepeat hi then
       step pos s c (fun pos' s0 c' =>
         if Nat.eqb pos' pos then None
         else repeat step fuel greedy (Nat.pred lo) (option_map Nat.pred hi) pos' s0 c' k)
     else None)
    = (if canRepeat hi then
       step' pos s' c (fun pos' s0 c' =>
         if Nat.eqb pos' pos then None
         else repeat step' fuel greedy (Nat.pred lo) (option_map Nat.pred hi) pos' s0 c' k')
     else None)).
  { destruct (canRepeat hi); [|reflexivity].
    apply Hstep; [exact Hs|].
    intros pos' t t' c' Ht. destruct (Nat.eqb pos' pos); [reflexivity|].
    apply IH; assumption. }
  rewrite Hmore, (Hk pos s s' c Hs). reflexivity.
Qed.

Lemma run_related (r : regex) :
  respects E r ->
  forall pos s s' c k k',
    related E s s' -> sameCont E k k' -> run r pos s c k = run r pos s' c k'.
Proof.
  induction r as [|p|r1 IH1 r2 IH2|greedy lo hi r1 IH1|i r1 IH1| |];
    intros Hr pos s s' c k k' Hs Hk; cbn [run respects] in *.
  - apply Hk, Hs.
  - destruct s as [|a t], s' as [|a' t']; simpl in Hs; try tauto.
    destruct Hs as [Ha Ht]. rewrite (Hr a a' Ha).
    destruct (p a'); [apply Hk, Ht|reflexivity].
  - destruct Hr as [H1 H2]. apply IH1; [exact H1|exact Hs|].
    intros pos' t t' c' Ht. apply IH2; assumption.
  - rewrite (related_length s s' Hs).
    apply repeat_related; [|exact Hs|exact Hk].
    intros. apply IH1; assumption.
  - apply IH1; [exact Hr|exact Hs|].
    intros pos' t t' c' Ht. apply Hk, Ht.
  - destruct (Nat.eqb pos 0); [apply Hk, Hs|reflexivity].
  - destruct s, s'; simpl in Hs; try tauto. apply Hk. exact I.
Qed.

Lemma searchFrom_related (r : regex) :
  respects E r ->
  forall s s' pos, related E s s' -> searchFrom r pos s = searchFrom r pos s'.
Proof.
  intros Hr. induction s as [|a t IH]; intros [|a' t'] pos Hs; simpl in Hs; try tauto.
  cbn [searchFrom]. unfold matchAt.
  rewrite (run_related r Hr pos (String a t) (String a' t') []
             (fun pos' _ c' => Some (pos', c')) (fun pos' _ c' => Some (pos', c')));
    [|simpl; exact Hs|intros ? ? ? ? ?; reflexivity].
  destruct (run r pos (String a' t') [] _); [reflexivity|].
  apply IH. tauto.
Qed.

End Transfer.

(** ** The decoder *)

Import TimeUtils.
Import CodecAux.

Lemma digit_tests (c : ascii) :
  Js.isDigit c = true ->
  Js.isSpace c = false
  /\ Js.isLineTerminator c = false
  /\ Js.isChar ":" c = false /\ Js.isChar "." c = false /\ Js.isChar "," c = false
  /\ Ascii.eqb "s" c = false /\ Ascii.eqb "m" c = false
  /\ Ascii.eqb "-" c = false /\ Ascii.eqb "+" c = false
  /\ 0 <= Js.digitVal c < 10.
Proof.
  destruct c as [[] [] [] [] [] [] [] []]; vm_compute; intuition congruence.
Qed.

Ltac respects_class :=
  let c := fresh "c" in let c' := fresh "c'" in let H := fresh "H" in
  intros c c' [H|[H ->]]; [rewrite H; reflexivity|];
  destruct (digit_tests c H) as (? & ? & ? & ? & ? & ? & ? & ? & ? & ?);
  unfold Js.isChar in *;
  repeat match goal with
         | Hx : ?t = _ |- context [?t] => rewrite Hx
         end; reflexivity.

Ltac respects_pattern :=
  cbv [lrcPattern fullPattern numericPattern seq between times opt chr digit
       oneOf plus star respects];
  repeat split; respects_class.

Lemma lrcPattern_respects : respects digitLike lrcPattern.
Proof. respects_pattern. Qed.

Lemma fullPattern_respects : respects digitLike fullPattern.
Proof. respects_pattern. Qed.

Lemma numericPattern_respects : respects digitLike numericPattern.
Proof. respects_pattern. Qed.

(** The suffix rules. *)
Lemma timeToMs_suffix_ms (timeStr : string) :
  Js.endsWith (Js.trim timeStr) "ms" = true ->
  timeToMs timeStr = parseFloat (Js.dropLast 2 (Js.trim timeStr)).
Proof.
  intros H2. unfold timeToMs. destruct timeStr as [|c t]; [discriminate|].
  cbn [Js.truthy negb]. cbv zeta. rewrite H2. reflexivity.
Qed.

Lemma timeToMs_suffix_s (timeStr : string) :
  Js.endsWith (Js.trim timeStr) "ms" = false ->
  Js.endsWith (Js.trim timeStr) "s" = true ->
  timeToMs timeStr = mul (parseFloat (Js.dropLast 1 (Js.trim timeStr))) (ofZ 1000).
Proof.
  intros H2 H3. unfold timeToMs. destruct timeStr as [|c t]; [discriminate|].
  cbn [Js.truthy negb]. cbv zeta. rewrite H2, H3. reflexivity.
Qed.

(** The rules that follow the suffix rules, on a text that needs no
    trimming. *)
Lemma timeToMs_unsuffixed (timeStr : string) :
  Js.truthy timeStr = true ->
  Js.trim timeStr = timeStr ->
  Js.endsWith timeStr "ms" = false ->
  Js.endsWith timeStr "s" = false ->
  timeToMs timeStr =
    match exec lrcPattern timeStr with
    | Some lrcMatch => lrcValue lrcMatch
    | None =>
        match exec fullPattern timeStr with
        | Some fullMatch => fullValue fullMatch
        | None =>
            if test numericPattern timeStr
            then mul (parseFloat timeStr) (ofZ 1000) else ofZ 0
        end
    end.
Proof.
  intros H1 H2 H3 H4. unfold timeToMs. rewrite H1. cbv zeta.
  rewrite H2, H3, H4. reflexivity.
Qed.

Lemma span_allDigits (ds : string) :
  allDigits ds = true -> Js.span Js.isDigit ds = (ds, "").
Proof.
  induction ds as [|c ds IH]; [reflexivity|]. cbn. intros H.
  apply andb_prop in H as [Hc Hd]. rewrite Hc, (IH Hd). reflexivity.
Qed.

Lemma parseInt_allDigits (ds : string) :
  allDigits ds = true -> ds <> "" ->
  parseInt ds = ofZ (Js.digitsValue 0 ds).
Proof.
  intros Hd Hne. destruct ds as [|c ds]; [congruence|].
  pose proof Hd as Hd'. cbn in Hd'. apply andb_prop in Hd' as [Hc _].
  destruct (digit_tests c Hc) as (Hs & _ & _ & _ & _ & _ & _ & Hm & Hp & _).
  unfold parseInt, Js.trimStart. cbn [Js.dropWhile]. rewrite Hs.
  assert (Hsign : signOf (String c ds) = (false, String c ds)).
  { unfold signOf. destruct c as [[] [] [] [] [] [] [] []]; try reflexivity;
      vm_compute in Hm, Hp; congruence. }
  rewrite Hsign, (span_allDigits _ Hd). reflexivity.
Qed.

Lemma mul_small (a k : Z) :
  0 <= a < 1000 -> 0 <= k <= 3600000 -> mul (ofZ a) (ofZ k) = ofZ (a * k).
Proof. intros. apply mul_ofZ; try lia. nia. Qed.

Lemma add_small (a b : Z) :
  0 <= a < 2 ^ 40 -> 0 <= b < 2 ^ 40 -> add (ofZ a) (ofZ b) = ofZ (a + b).
Proof. intros. apply add_ofZ; lia. Qed.

(** The tactics below settle [timeToMs] on a text of a given shape,
    its digits being variables: the patterns are run on the text where
    every digit is 0, which [searchFrom_related] allows. *)

Ltac rw_facts :=
  repeat match goal with
         | H : ?t = false |- context [?t] => rewrite H
         | H : ?t = true |- context [?t] => rewrite H
         end.

Ltac all_digit_facts :=
  repeat match goal with
  | H : Js.isDigit ?c = true |- _ =>
      lazymatch goal with
      | _ : Js.isSpace c = false |- _ => fail
      | _ => let H' := fresh in
             pose proof (digit_tests c H) as H';
             destruct H' as (? & ? & ? & ? & ? & ? & ? & ? & ? & ?)
      end
  end.

Ltac representative s :=
  lazymatch s with
  | String ?c ?t =>
      let t' := representative t in
      match c with
      | _ => let _ := match goal with _ => is_var c end in
             constr:(String "0"%char t')
      | _ => constr:(String c t')
      end
  | EmptyString => constr:(EmptyString)
  end.

Ltac prove_related :=
  cbn [related]; repeat split;
  first [left; reflexivity | right; split; [assumption | reflexivity]].

Ltac eval_search pat Hres str :=
  let str0 := representative str in
  let v := eval vm_compute in (searchFrom pat 0 str0) in
  replace (searchFrom pat 0 str) with v
    by (rewrite (searchFrom_related digitLike pat Hres str str0 0 ltac:(prove_related));
        vm_compute; reflexivity).

Ltac eval_patterns :=
  repeat match goal with
  | |- context [exec ?pat ?str] => unfold exec
  | |- context [test ?pat ?str] => unfold test
  | |- context [searchFrom lrcPattern 0 ?str] =>
      eval_search lrcPattern lrcPattern_respects str
  | |- context [searchFrom fullPattern 0 ?str] =>
      eval_search fullPattern fullPattern_respects str
  | |- context [searchFrom numericPattern 0 ?str] =>
      eval_search numericPattern numericPattern_respects str
  end.

Ltac parse_ints :=
  repeat match goal with
  | |- context [parseInt ?ds] =>
      rewrite (parseInt_allDigits ds) by
        (first [cbn [allDigits]; rw_facts; reflexivity | discriminate])
  end.

Ltac arith :=
  cbn [Js.digitsValue];
  repeat (first [rewrite mul_small by lia | rewrite add_small by lia]);
  f_equal; try lia.

Ltac solve_shape :=
  all_digit_facts;
  rewrite timeToMs_unsuffixed;
  [ eval_patterns;
    cbn [option_map toFound slice String.substring map fst snd Nat.sub];
    unfold lrcValue, fullValue, captured, capturedOr, participated; cbv zeta;
    cbn [group groups Nat.eqb String.length Js.truthy];
    parse_ints; unfold colonValue, fractionScale;
    cbn [String.length]; arith
  | reflexivity
  | unfold Js.trim, Js.trimStart, Js.trimEnd, Js.rev;
    repeat (cbn [Js.dropWhile Js.rev_onto]; rw_facts); reflexivity
  | unfold Js.endsWith, Js.rev; cbn [Js.rev_onto Js.isPrefix]; rw_facts; reflexivity
  | unfold Js.endsWith, Js.rev; cbn [Js.rev_onto Js.isPrefix]; rw_facts; reflexivity ].

Ltac split_digits :=
  cbn [allDigits] in *;
  repeat match goal with
  | H : (_ && _)%bool = true |- _ => apply andb_prop in H; destruct H
  | H : true = true |- _ => clear H
  end.

Ltac by_length s H :=
  destruct s as [|? [|? [|? [|? ?]]]]; cbn [String.length] in H; try lia; clear H.

(** The colon formats, hours being optional, minutes and seconds of
    one or two digits and the fraction of one to three digits after a
    dot or a comma: the fraction counts in units of 100, 10 or 1 ms. *)
Lemma timeToMs_colon_formats (h m s f : string) (sep : ascii) :
  allDigits h = true -> allDigits m = true ->
  allDigits s = true -> allDigits f = true ->
  (String.length h <= 2)%nat ->
  (1 <= String.length m <= 2)%nat ->
  (1 <= String.length s <= 2)%nat ->
  (1 <= String.length f <= 3)%nat ->
  sep = "."%char \/ sep = ","%char ->
  timeToMs (colonText h m s sep f) = ofZ (colonValue h m s f).
Proof.
  intros Dh Dm Ds Df Lh Lm Ls Lf Hsep.
  by_length h Lh; by_length m Lm; by_length s Ls; by_length f Lf;
    destruct Hsep as [-> | ->]; split_digits;
    unfold colonText; cbn [append]; solve_shape.
Qed.

(** ** What the encoders write *)

Lemma upTo_In (n : nat) (k : Z) : 0 <= k < Z.of_nat n -> In k (upTo n).
Proof.
  intros H. unfold upTo. apply in_map_iff. exists (Z.to_nat k).
  split; [lia|]. apply in_seq. lia.
Qed.

Lemma field_two_checked : forallb (fieldOk 2) (upTo 100) = true.
Proof. vm_compute. reflexivity. Qed.

Lemma field_three_checked : forallb (fieldOk 3) (upTo 1000) = true.
Proof. vm_compute. reflexivity. Qed.

Lemma field_checked (width n : nat) (k : Z) :
  forallb (fieldOk width) (upTo n) = true -> 0 <= k < Z.of_nat n ->
  allDigits (field width k) = true /\ String.length (field width k) = width
  /\ Js.digitsValue 0 (field width k) = k.
Proof.
  intros Hall H. rewrite forallb_forall in Hall.
  specialize (Hall k (upTo_In n k H)).
  unfold fieldOk in Hall. apply andb_prop in Hall as [Hall H3].
  apply andb_prop in Hall as [H1 H2].
  split; [exact H1|]. split; [now apply Nat.eqb_eq|now apply Z.eqb_eq].
Qed.

Lemma field_two (k : Z) :
  0 <= k < 100 ->
  allDigits (field 2 k) = true /\ String.length (field 2 k) = 2%nat
  /\ Js.digitsValue 0 (field 2 k) = k.
Proof. intros H. apply (field_checked 2 100 k field_two_checked). lia. Qed.

Lemma field_three (k : Z) :
  0 <= k < 1000 ->
  allDigits (field 3 k) = true /\ String.length (field 3 k) = 3%nat
  /\ Js.digitsValue 0 (field 3 k) = k.
Proof. intros H. apply (field_checked 3 1000 k field_three_checked). lia. Qed.

Lemma msToSrt_fields (ms : Z) :
  0 <= ms < 86400000 ->
  msToSrt (ofZ ms)
  = field 2 (ms / 3600000) ++ ":" ++ field 2 (ms mod 3600000 / 60000) ++ ":"
    ++ field 2 (ms mod 60000 / 1000) ++ "," ++ field 3 (ms mod 1000).
Proof.
  intros H. unfold msToSrt, field. cbv zeta.
  pose proof (Z.mod_pos_bound ms 3600000 ltac:(lia)).
  pose proof (Z.mod_pos_bound ms 60000 ltac:(lia)).
  pose proof (Z.mod_pos_bound ms 1000 ltac:(lia)).
  rewrite round_ofZ by lia.
  rewrite !rem_ofZ by lia.
  rewrite !floor_div_ofZ; try lia; reflexivity.
Qed.

Lemma msToVtt_fields (ms : Z) :
  0 <= ms < 86400000 ->
  msToVtt (ofZ ms)
  = field 2 (ms / 3600000) ++ ":" ++ field 2 (ms mod 3600000 / 60000) ++ ":"
    ++ field 2 (ms mod 60000 / 1000) ++ "." ++ field 3 (ms mod 1000).
Proof.
  intros H. unfold msToVtt, field. cbv zeta.
  pose proof (Z.mod_pos_bound ms 3600000 ltac:(lia)).
  pose proof (Z.mod_pos_bound ms 60000 ltac:(lia)).
  pose proof (Z.mod_pos_bound ms 1000 ltac:(lia)).
  rewrite round_ofZ by lia.
  rewrite !rem_ofZ by lia.
  rewrite !floor_div_ofZ; try lia; reflexivity.
Qed.

Lemma append_assoc (a b c : string) : (a ++ b) ++ c = a ++ (b ++ c).
Proof. induction a as [|x a IH]; [reflexivity|]. cbn. now rewrite IH. Qed.

Lemma append_empty (s : string) : s ++ "" = s.
Proof. induction s as [|c s IH]; [reflexivity|]. cbn. now rewrite IH. Qed.

Lemma colonText_hours (h m s f : string) (sep : ascii) :
  h <> "" ->
  h ++ ":" ++ m ++ ":" ++ s ++ String sep f = colonText h m s sep f.
Proof.
  intros Hne. unfold colonText. destruct h as [|c h]; [congruence|].
  rewrite append_assoc. reflexivity.
Qed.

Lemma length_nonempty (s : string) (n : nat) :
  String.length s = S n -> s <> "".
Proof. destruct s; [discriminate|congruence]. Qed.

Ltac divlia := Z.div_mod_to_equations; lia.

Lemma timeToMs_hms (ms : Z) (sep : ascii) :
  0 <= ms < 86400000 -> sep = "."%char \/ sep = ","%char ->
  timeToMs (field 2 (ms / 3600000) ++ ":" ++ field 2 (ms mod 3600000 / 60000) ++ ":"
            ++ field 2 (ms mod 60000 / 1000) ++ String sep (field 3 (ms mod 1000)))
  = ofZ ms.
Proof.
  intros H Hsep.
  pose proof (Z.mod_pos_bound ms 3600000 ltac:(lia)).
  pose proof (Z.mod_pos_bound ms 60000 ltac:(lia)).
  pose proof (Z.mod_pos_bound ms 1000 ltac:(lia)).
  assert (Bh : 0 <= ms / 3600000 < 100) by divlia.
  assert (Bm : 0 <= ms mod 3600000 / 60000 < 100) by divlia.
  assert (Bs : 0 <= ms mod 60000 / 1000 < 100) by divlia.
  destruct (field_two _ Bh) as (Dh & Lh & Vh).
  destruct (field_two _ Bm) as (Dm & Lm & Vm).
  destruct (field_two _ Bs) as (Ds & Ls & Vs).
  destruct (field_three (ms mod 1000) ltac:(lia)) as (Df & Lf & Vf).
  rewrite colonText_hours by (eapply length_nonempty; exact Lh).
  rewrite timeToMs_colon_formats; try assumption; try lia.
  unfold colonValue, fractionScale. rewrite Vh, Vm, Vs, Vf, Lf.
  f_equal. divlia.
Qed.

(** C1.  Round trip of SRT and VTT time stamps: for every integer [ms]
    with [0 <= ms < 86400000], decoding the SRT text of [ms] gives [ms]
    back, and so does decoding its VTT text. *)
Theorem timeToMs_msToSrt_msToVtt (ms : Z) :
  0 <= ms < 86400000 ->
  timeToMs (msToSrt (ofZ ms)) = ofZ ms /\ timeToMs (msToVtt (ofZ ms)) = ofZ ms.
Proof.
  intros H. rewrite msToSrt_fields, msToVtt_fields by exact H. split.
  - apply (timeToMs_hms ms ","%char H). now right.
  - apply (timeToMs_hms ms "."%char H). now left.
Qed.

Lemma timeToMs_msToSrt_msToVtt_witness :
  timeToMs (msToSrt (ofZ 3661001)) = ofZ 3661001
  /\ timeToMs (msToVtt (ofZ 3661001)) = ofZ 3661001.
Proof. apply (timeToMs_msToSrt_msToVtt 3661001). lia. Defined.

Lemma msToLrc_fields (ms : Z) :
  0 <= ms < 2 ^ 40 ->
  let r := Stated.roundToTen ms in
  msToLrc (ofZ ms)
  = field 2 (r / 60000) ++ ":" ++ field 2 (r mod 60000 / 1000) ++ "."
    ++ field 2 (r mod 1000 / 10).
Proof.
  intros H r. unfold msToLrc, field. cbv zeta.
  rewrite round_div_ofZ by lia.
  replace ((2 * ms + 10) / (2 * 10)) with ((ms + 5) / 10) by divlia.
  assert (Hq : 0 <= (ms + 5) / 10 < 2 ^ 40) by divlia.
  rewrite mul_ofZ by lia. fold (Stated.roundToTen ms). fold r.
  assert (Hr : 0 <= r < 2 ^ 44) by (unfold r, Stated.roundToTen; lia).
  pose proof (Z.mod_pos_bound r 60000 ltac:(lia)).
  pose proof (Z.mod_pos_bound r 1000 ltac:(lia)).
  rewrite !rem_ofZ by lia.
  rewrite !floor_div_ofZ; try lia; reflexivity.
Qed.

(** C2 with its range shortened.  Round trip of LRC time stamps: for
    every integer [ms] with [0 <= ms < 5999995], decoding the LRC text
    of [ms] gives [ms] rounded to the nearest multiple of 10, a tie
    going up.  The bound is where the rounded value reaches 100
    minutes. *)
Theorem timeToMs_msToLrc (ms : Z) :
  0 <= ms < 5999995 ->
  timeToMs (msToLrc (ofZ ms)) = ofZ (Stated.roundToTen ms).
Proof.
  intros H. rewrite msToLrc_fields by lia. cbv zeta.
  set (r := Stated.roundToTen ms).
  assert (Hr : 0 <= r < 6000000 /\ r mod 10 = 0)
    by (unfold r, Stated.roundToTen; divlia).
  pose proof (Z.mod_pos_bound r 60000 ltac:(lia)).
  pose proof (Z.mod_pos_bound r 1000 ltac:(lia)).
  assert (Bm : 0 <= r / 60000 < 100) by divlia.
  assert (Bs : 0 <= r mod 60000 / 1000 < 100) by divlia.
  assert (Bc : 0 <= r mod 1000 / 10 < 100) by divlia.
  destruct (field_two _ Bm) as (Dm & Lm & Vm).
  destruct (field_two _ Bs) as (Ds & Ls & Vs).
  destruct (field_two _ Bc) as (Dc & Lc & Vc).
  change (field 2 (r / 60000) ++ ":" ++ field 2 (r mod 60000 / 1000) ++ "."
          ++ field 2 (r mod 1000 / 10))
    with (colonText "" (field 2 (r / 60000)) (field 2 (r mod 60000 / 1000)) "."
            (field 2 (r mod 1000 / 10))).
  rewrite timeToMs_colon_formats; try assumption; try reflexivity; try lia;
    [|simpl; lia|now left].
  unfold colonValue, fractionScale. rewrite Vm, Vs, Vc, Lc.
  f_equal. cbn [Js.digitsValue]. divlia.
Qed.

Lemma timeToMs_msToLrc_witness :
  timeToMs (msToLrc (ofZ 83454)) = ofZ (Stated.roundToTen 83454).
Proof. apply (timeToMs_msToLrc 83454). lia. Defined.

(** C2 over the range [0, 6000000) fails in its last five
    milliseconds: 5999999 rounds to 100 minutes, written with three
    digits of minutes, which the decoder does not read and answers with
    0. *)
Lemma timeToMs_msToLrc_fails_at_100_minutes :
  msToLrc (ofZ 5999999) = "100:00.00"
  /\ timeToMs (msToLrc (ofZ 5999999)) = ofZ 0
  /\ Stated.roundToTen 5999999 = 6000000
  /\ timeToMs (msToLrc (ofZ 5999999)) <> ofZ (Stated.roundToTen 5999999).
Proof.
  split; [vm_compute; reflexivity|]. split; [vm_compute; reflexivity|].
  split; [reflexivity|]. vm_compute. discriminate.
Qed.

(** ** The two encoders of SRT *)

Lemma newDate_ofZ (z : Z) : 0 <= z < 2 ^ 52 -> Legacy.newDate (ofZ z) = Some z.
Proof.
  intros H. destruct (Z.eq_dec z 0) as [->|Nz]; [reflexivity|].
  assert (Lz : Z.log2 z < 52) by (apply Z.log2_lt_pow2; lia).
  assert (L0 : 0 <= Z.log2 z) by apply Z.log2_nonneg.
  rewrite ofZ_canon by lia. unfold canon, Legacy.newDate.
  destruct (0 - (52 - Z.log2 z)) as [|e|e] eqn:Ee; try lia.
  rewrite canon_mantissa by lia. unfold cond_Zopp.
  replace (Zpos e) with (52 - Z.log2 z) by lia.
  assert (0 < 2 ^ (52 - Z.log2 z)) by (apply Z.pow_pos_nonneg; lia).
  rewrite Z.quot_mul by lia.
  replace (Z.abs z <=? 8640000000000000) with true; [reflexivity|].
  symmetry. apply Z.leb_le. lia.
Qed.

(** C9.  The two SRT encoders of the source agree below 24 hours: for
    every integer [ms] with [0 <= ms < 86400000], the encoder that goes
    through [Date] and the one that divides the milliseconds return the
    same text. *)
Theorem msToSrt_revisions_agree (ms : Z) :
  0 <= ms < 86400000 -> Legacy.msToSrt (ofZ ms) = msToSrt (ofZ ms).
Proof.
  intros H. rewrite msToSrt_fields by exact H.
  unfold Legacy.msToSrt, field. cbv zeta.
  rewrite newDate_ofZ by lia.
  unfold Legacy.getUTCMinutes, Legacy.getUTCSeconds, Legacy.getUTCMilliseconds,
    Legacy.field.
  rewrite floor_div_ofZ by lia.
  replace (ms / 60000 mod 60) with (ms mod 3600000 / 60000) by divlia.
  replace (ms / 1000 mod 60) with (ms mod 60000 / 1000) by divlia.
  reflexivity.
Qed.

Lemma msToSrt_revisions_agree_witness :
  Legacy.msToSrt (ofZ 3600000) = msToSrt (ofZ 3600000).
Proof. apply (msToSrt_revisions_agree 3600000). lia. Defined.

(** ** The scaling rules of the decoder *)

(** C4.  The scaling rules of [timeToMs]: a text that ends in [ms]
    is its prefix read by [parseFloat], unscaled; a text that ends in
    [s] is its prefix times 1000; in the colon formats a fraction of one
    digit counts hundreds of milliseconds, of two digits tens, of three
    digits units.  In particular [500ms] is 500, [10.5s] is 10500 and
    [01:23.45] is 83450. *)
Theorem timeToMs_scaling_rules :
  (forall timeStr,
      Js.endsWith (Js.trim timeStr) "ms" = true ->
      timeToMs timeStr = parseFloat (Js.dropLast 2 (Js.trim timeStr)))
  /\ (forall timeStr,
      Js.endsWith (Js.trim timeStr) "ms" = false ->
      Js.endsWith (Js.trim timeStr) "s" = true ->
      timeToMs timeStr
      = mul (parseFloat (Js.dropLast 1 (Js.trim timeStr))) (ofZ 1000))
  /\ (forall h m s f sep,
      allDigits h = true -> allDigits m = true ->
      allDigits s = true -> allDigits f = true ->
      (String.length h <= 2)%nat ->
      (1 <= String.length m <= 2)%nat ->
      (1 <= String.length s <= 2)%nat ->
      (1 <= String.length f <= 3)%nat ->
      sep = "."%char \/ sep = ","%char ->
      timeToMs (colonText h m s sep f)
      = ofZ (Js.digitsValue 0 h * 3600000 + Js.digitsValue 0 m * 60000
             + Js.digitsValue 0 s * 1000
             + Js.digitsValue 0 f
               * match String.length f with
                 | 1%nat => 100
                 | 2%nat => 10
                 | _ => 1
                 end))
  /\ timeToMs "500ms" = ofZ 500
  /\ timeToMs "10.5s" = ofZ 10500
  /\ timeToMs "01:23.45" = ofZ 83450.
Proof.
  split; [exact timeToMs_suffix_ms|].
  split; [exact timeToMs_suffix_s|].
  split; [exact timeToMs_colon_formats|].
  repeat split; vm_compute; reflexivity.
Qed.

Lemma timeToMs_scaling_rules_witness :
  timeToMs "  250ms " = parseFloat "250"
  /\ timeToMs "1.5s" = mul (parseFloat "1.5") (ofZ 1000)
  /\ timeToMs "1:02:03,4" = ofZ 3723400.
Proof.
  destruct timeToMs_scaling_rules as (Hms & Hs & Hcolon & _).
  split; [exact (Hms "  250ms " eq_refl)|].
  split; [exact (Hs "1.5s" eq_refl eq_refl)|].
  apply (Hcolon "1" "02" "03" "4" ","%char); try reflexivity; simpl; try lia.
  now right.
Defined.

Import Parser.

(** ** End times of LRC cues *)

Lemma updateAt_app {A : Type} (f : A -> A) (pre : list A) (x : A) (l : list A) :
  updateAt (List.length pre) f (pre ++ x :: l) = (pre ++ f x :: l)%list.
Proof. induction pre as [|y pre IH]; simpl; [reflexivity|]. now rewrite IH. Qed.

Lemma inferEnds_from (l pre : list Cue) :
  fold_left inferEnd (List.seq (List.length pre) (List.length l - 1)) (pre ++ l)%list
  = (pre ++ Stated.chainEnds l)%list.
Proof.
  revert pre. induction l as [|c l IH]; intros pre; [reflexivity|].
  destruct l as [|next rest]; [reflexivity|].
  replace (List.length (c :: next :: rest) - 1)%nat
    with (S (List.length (next :: rest) - 1)) by (simpl; lia).
  cbn [List.seq fold_left].
  assert (Hstep : inferEnd (pre ++ c :: next :: rest) (List.length pre)
                  = ((pre ++ [setEnd (start next) c]) ++ next :: rest)%list).
  { unfold inferEnd.
    replace (List.length pre + 1)%nat with (List.length (pre ++ [c])) by (rewrite length_app; reflexivity).
    replace (pre ++ c :: next :: rest)%list with ((pre ++ [c]) ++ next :: rest)%list
      by (rewrite <- app_assoc; reflexivity).
    rewrite nth_error_app2, Nat.sub_diag by lia. cbn [nth_error].
    rewrite <- app_assoc. cbn [app]. rewrite updateAt_app.
    rewrite <- app_assoc. reflexivity. }
  rewrite Hstep.
  replace (S (List.length pre)) with (List.length (pre ++ [setEnd (start next) c]))
    by (rewrite length_app; simpl; lia).
  rewrite IH. rewrite <- app_assoc. reflexivity.
Qed.

Lemma inferEnds_chainEnds (l : list Cue) : inferEnds l = Stated.chainEnds l.
Proof. exact (inferEnds_from l []). Qed.

Lemma chainEnds_next (l : list Cue) :
  forall i c c',
    nth_error (Stated.chainEnds l) i = Some c ->
    nth_error (Stated.chainEnds l) (S i) = Some c' ->
    end_ c = start c'.
Proof.
  induction l as [|x l IH]; intros i c c' Hc Hc'.
  - destruct i; discriminate.
  - destruct l as [|y l'].
    + destruct i as [|[|i]]; discriminate.
    + cbn [Stated.chainEnds] in Hc, Hc'. destruct i as [|i].
      * cbn [nth_error] in Hc, Hc'. injection Hc as <-.
        destruct l' as [|z l'']; cbn in Hc'; injection Hc' as <-; reflexivity.
      * cbn [nth_error] in Hc. change (nth_error (Stated.chainEnds (y :: l')) (S i) = Some c') in Hc'.
        exact (IH i c c' Hc Hc').
Qed.

Lemma chainEnds_length (l : list Cue) :
  List.length (Stated.chainEnds l) = List.length l.
Proof.
  induction l as [|x l IH]; [reflexivity|].
  destruct l as [|y l']; [reflexivity|].
  cbn [Stated.chainEnds List.length] in *. now rewrite IH.
Qed.

Lemma chainEnds_final (l : list Cue) :
  nth_error (Stated.chainEnds l) (List.length l - 1)
  = nth_error l (List.length l - 1).
Proof.
  induction l as [|x l IH]; [reflexivity|].
  destruct l as [|y l']; [reflexivity|].
  cbn [Stated.chainEnds].
  replace (List.length (x :: y :: l') - 1)%nat
    with (S (List.length (y :: l') - 1)) by (simpl; lia).
  cbn [nth_error]. exact IH.
Qed.

Lemma filterMap_nth {A B : Type} (f : A -> option B) (l : list A) (i : nat) (y : B) :
  nth_error (filterMap f l) i = Some y -> exists x, f x = Some y.
Proof.
  revert i. induction l as [|x l IH]; intros i H.
  - destruct i; discriminate.
  - simpl in H. destruct (f x) eqn:E.
    + destruct i as [|i]; [injection H as <-; eauto|]. exact (IH i H).
    + exact (IH i H).
Qed.

Lemma lrcCue_placeholder (entry : nat * string) (c : Cue) :
  lrcCue entry = Some c -> end_ c = add (start c) (ofZ 3000).
Proof.
  unfold lrcCue. destruct entry as [index line].
  destruct (Regex.exec lrcLinePattern line) as [m|]; [|discriminate].
  destruct (Js.includes _ _ && Js.includes _ _)%bool; intros H; injection H as <-; reflexivity.
Qed.

(** C7.  End times of LRC cues: in the cues that [parseLRC] returns,
    in order, every cue that has a successor ends where the successor
    starts, and the last cue ends 3000 ms after its own start. *)
Theorem parseLRC_end_times (content : string) :
  let cs := cues (parseLRC content) in
  (forall i c next,
      nth_error cs i = Some c -> nth_error cs (S i) = Some next ->
      end_ c = start next)
  /\ (forall c,
        nth_error cs (List.length cs - 1) = Some c ->
        end_ c = add (start c) (ofZ 3000)).
Proof.
  cbv zeta. unfold parseLRC. cbn [cues].
  rewrite inferEnds_chainEnds. split.
  - apply chainEnds_next.
  - intros c. rewrite chainEnds_length, chainEnds_final. intros H.
    destruct (filterMap_nth _ _ _ _ H) as (entry & He).
    exact (lrcCue_placeholder entry c He).
Qed.


Lemma parseLRC_end_times_witness :
  exists c next,
    nth_error (cues (parseLRC Samples.lrcTwoLines)) 0 = Some c
    /\ nth_error (cues (parseLRC Samples.lrcTwoLines)) 1 = Some next
    /\ end_ c = start next
    /\ end_ next = add (start next) (ofZ 3000).
Proof.
  pose proof (parseLRC_end_times Samples.lrcTwoLines) as [Hnext Hlast].
  assert (H0 : nth_error (cues (parseLRC Samples.lrcTwoLines)) 0
               = Some (mkCue "lrc-0" (ofZ 1000) (ofZ 2500) "one" None))
    by (vm_compute; reflexivity).
  assert (H1 : nth_error (cues (parseLRC Samples.lrcTwoLines)) 1
               = Some (mkCue "lrc-1" (ofZ 2500) (ofZ 5500) "two" None))
    by (vm_compute; reflexivity).
  eexists. eexists. split; [exact H0|]. split; [exact H1|]. split.
  - exact (Hnext 0%nat _ _ H0 H1).
  - apply Hlast. vm_compute. reflexivity.
Defined.

(** ** Malformed JSON *)

(** C5.  Malformed JSON: when [JSON.parse] rejects the content,
    [parseContent] for the JSON format returns normally, with no cues
    and the empty metadata. *)
Theorem parseContent_malformed_json
  (parseXml : string -> list Dom.node)
  (JSON_parse : string -> option Json.value) (content : string) :
  JSON_parse content = None ->
  parseContent parseXml JSON_parse content JSON = Some (mkResult [] noMetadata).
Proof.
  intros H. unfold parseContent, parseJSON. rewrite H. reflexivity.
Qed.

Lemma parseContent_malformed_json_witness :
  Json.parse "{" = None
  /\ parseContent (fun _ => []) Json.parse "{" JSON = Some (mkResult [] noMetadata).
Proof.
  split; [reflexivity|].
  apply (parseContent_malformed_json (fun _ => []) Json.parse "{").
  reflexivity.
Defined.

(** [parseJSON] also swallows what the statements inside [try] throw. *)
Lemma parseJSON_thrown
  (JSON_parse : string -> option Json.value) (content : string) (v : Json.value) :
  JSON_parse content = Some v -> sanitize v = Thrown ->
  parseJSON JSON_parse content = Some (mkResult [] noMetadata).
Proof. intros H H'. unfold parseJSON. rewrite H, H'. reflexivity. Qed.

(** ** TTML timing *)

Lemma nth_error_indexed_from {A : Type} (l : list A) (k i : nat) :
  nth_error (combine (List.seq k (List.length l)) l) i
  = option_map (fun x => ((k + i)%nat, x)) (nth_error l i).
Proof.
  revert k i. induction l as [|x l IH]; intros k i.
  - destruct i; reflexivity.
  - destruct i as [|i]; cbn [List.length List.seq combine nth_error option_map].
    + now rewrite Nat.add_0_r.
    + rewrite IH. destruct (nth_error l i); cbn; [|reflexivity].
      do 2 f_equal. lia.
Qed.

Lemma nth_error_indexed {A : Type} (l : list A) (i : nat) :
  nth_error (indexed l) i = option_map (fun x => (i, x)) (nth_error l i).
Proof. apply nth_error_indexed_from. Qed.

Lemma timeToMs_zero_text : TimeUtils.timeToMs "0" = ofZ 0.
Proof. vm_compute. reflexivity. Qed.

Lemma timeToMs_empty : TimeUtils.timeToMs "" = ofZ 0.
Proof. reflexivity. Qed.


(** C8 with "present" made precise.  Timing of TTML cues: every [p]
    element of the document yields the cue of its rank; the start of
    that cue is the decoded [begin], or 0 without one; its end is the
    start plus the decoded [dur] when [dur] is given, else the decoded
    [end] when [end] is given, else the start plus 2000 ms, where an
    attribute is given when it is present and not empty. *)
Theorem parseTTML_timing
  (parseXml : string -> list Dom.node) (content : string) (i : nat) (p : Dom.node) :
  nth_error (Dom.getElementsByTagName "p" (parseXml content)) i = Some p ->
  exists c,
    nth_error (cues (parseTTML parseXml content)) i = Some c
    /\ start c = Stated.ttmlStart (Dom.getAttribute "begin" (Dom.attributesOf p))
    /\ end_ c = Stated.ttmlEnd given (start c)
                  (Dom.getAttribute "end" (Dom.attributesOf p))
                  (Dom.getAttribute "dur" (Dom.attributesOf p)).
Proof.
  intros Hp. unfold parseTTML, parseTTMLDocument. cbn [cues].
  rewrite nth_error_map, nth_error_indexed, Hp. cbn [option_map].
  eexists. split; [reflexivity|].
  unfold ttmlCue. fold (Dom.attributesOf p). cbn [start end_].
  split.
  - unfold Stated.ttmlStart, given.
    destruct (Dom.getAttribute "begin" (Dom.attributesOf p)) as [[|ch b]|];
      cbn [Js.truthy]; try reflexivity; apply timeToMs_zero_text.
  - unfold Stated.ttmlEnd.
    destruct (given (Dom.getAttribute "dur" (Dom.attributesOf p)));
      destruct (given (Dom.getAttribute "end" (Dom.attributesOf p))); reflexivity.
Qed.

Lemma parseTTML_timing_witness :
  exists c,
    nth_error (cues (parseTTML (fun _ => Samples.endAndDur) "")) 0 = Some c
    /\ start c = ofZ 1000 /\ end_ c = ofZ 1500.
Proof.
  destruct (parseTTML_timing (fun _ => Samples.endAndDur) "" 0 _ eq_refl)
    as (c & Hc & Hs & He).
  exists c. split; [exact Hc|].
  assert (Hs' : start c = ofZ 1000) by (rewrite Hs; vm_compute; reflexivity).
  split; [exact Hs'|]. rewrite He, Hs'. vm_compute. reflexivity.
Defined.

(** C8 with "present" read as the attribute being there fails: for a
    [p] whose only attribute is an empty [dur] the code gives
    start + 2000 ms, the rule as written start + decode(dur), which is
    the start. *)
Lemma parseTTML_timing_as_stated_fails :
  exists c p,
    nth_error (Dom.getElementsByTagName "p" Samples.onlyEmptyDur) 0 = Some p
    /\ nth_error (cues (parseTTMLDocument Samples.onlyEmptyDur)) 0 = Some c
    /\ Dom.getAttribute "dur" (Dom.attributesOf p) = Some ""
    /\ end_ c = ofZ 2000
    /\ Stated.ttmlEnd (fun a => a) (start c)
         (Dom.getAttribute "end" (Dom.attributesOf p))
         (Dom.getAttribute "dur" (Dom.attributesOf p)) = ofZ 0
    /\ end_ c <> Stated.ttmlEnd (fun a => a) (start c)
                   (Dom.getAttribute "end" (Dom.attributesOf p))
                   (Dom.getAttribute "dur" (Dom.attributesOf p)).
Proof.
  eexists. eexists. split; [reflexivity|].
  split; [vm_compute; reflexivity|].
  split; [reflexivity|].
  split; [vm_compute; reflexivity|].
  split; [vm_compute; reflexivity|].
  vm_compute. discriminate.
Qed.

(** ** Word times in the karaoke serializers *)


Lemma wordStart_fallback (cue : Cue) (w : Word) :
  Stated.absentOrZero (w_start w) -> wordStart cue w = start cue.
Proof. unfold wordStart. intros [-> | ->]; reflexivity. Qed.

Lemma wordEnd_fallback (cue : Cue) (w : Word) :
  Stated.absentOrZero (w_end w) -> wordEnd cue w = add (wordStart cue w) (ofZ 300).
Proof. unfold wordEnd. intros [-> | ->]; reflexivity. Qed.

(** The offsets that karaoke TTML writes for a word whose start fell
    back to a whole start of its cue: 0, and 300 ms for an end that
    fell back too. *)
Lemma offsets_of_whole_start (s : Z) :
  0 <= s < 2 ^ 52 ->
  msToVtt (Math_max (ofZ 0) (sub (ofZ s) (ofZ s))) = "00:00:00.000"
  /\ msToVtt (Math_max (ofZ 0) (sub (add (ofZ s) (ofZ 300)) (ofZ s)))
     = "00:00:00.300".
Proof.
  intros H. split.
  - rewrite sub_self_ofZ by lia. vm_compute. reflexivity.
  - rewrite add_ofZ by lia. rewrite sub_ofZ by lia.
    replace (s + 300 - s) with 300 by lia. vm_compute. reflexivity.
Qed.

(** C10 without its last clause.  Word times in the karaoke
    serializers.  Each of them writes every word with a time that is
    the start of its cue when the word's own start is absent or 0, and
    the word's own start when that is a number other than 0 and NaN:
    enhanced LRC and karaoke VTT write that time in the token of the
    word, karaoke TTML writes its offset from the cue's start, cut at
    0, which is 00:00:00.000 when the time is the start of a cue that
    starts at a whole number of milliseconds.  In karaoke TTML the end
    of a word whose end is absent or 0 is that time plus 300 ms,
    written as its offset from the cue's start, cut at 0, which is
    00:00:00.300 when the start fell back too.  The outputs are given
    in full, for every list of cues and every metadata. *)
Theorem karaoke_word_start_fallback
  (JSON_stringify : option Metadata -> list Cue -> string)
  (cues : list Cue) (metadata : option Metadata) :
  exists time finish : Cue -> Word -> number,
    (forall c w, Stated.absentOrZero (w_start w) -> time c w = start c)
    /\ (forall c w x, w_start w = Some x -> Num.truthy x = true -> time c w = x)
    /\ (forall c w, Stated.absentOrZero (w_end w) ->
          finish c w = add (time c w) (ofZ 300))
    /\ (forall c w x, w_end w = Some x -> Num.truthy x = true -> finish c w = x)
    /\ stringifyContent JSON_stringify cues LRC_ENHANCED metadata
       = stringifyContent JSON_stringify [] LRC_ENHANCED metadata
         ++ Js.join LF
              (map (fun c =>
                      "[" ++ msToLrc (start c) ++ "]"
                      ++ (if hasWords c
                          then Js.join " "
                                 (map (fun w => "<" ++ msToLrc (time c w) ++ ">" ++ w_text w)
                                      (wordsOf c))
                          else text c))
                   cues)
    /\ stringifyContent JSON_stringify cues VTT_KARAOKE metadata
       = stringifyContent JSON_stringify [] VTT_KARAOKE metadata
         ++ Js.join LF
              (map (fun c =>
                      msToVtt (start c) ++ " --> " ++ msToVtt (end_ c) ++ LF
                      ++ (if hasWords c
                          then Js.join " "
                                 (map (fun w => "<" ++ msToVtt (time c w) ++ ">" ++ w_text w)
                                      (wordsOf c))
                          else text c)
                      ++ LF)
                   cues)
    /\ stringifyContent JSON_stringify cues TTML_KARAOKE metadata
       = "<?xml version=" ++ quote ++ "1.0" ++ quote ++ " encoding=" ++ quote
         ++ "UTF-8" ++ quote ++ "?>" ++ LF
         ++ "<tt xmlns=" ++ quote ++ "http://www.w3.org/ns/ttml" ++ quote
         ++ " lang=" ++ quote ++ "en" ++ quote ++ ">" ++ LF
         ++ "  <body>" ++ LF ++ "    <div>" ++ LF
         ++ Js.join LF
              (map (fun c =>
                      "      <p begin=" ++ quote ++ msToVtt (start c) ++ quote
                      ++ " end=" ++ quote ++ msToVtt (end_ c) ++ quote ++ ">"
                      ++ (if hasWords c
                          then LF
                               ++ Js.join LF
                                    (map (fun w =>
                                            "        " ++ "<span begin=" ++ quote
                                            ++ msToVtt
                                                 (Math_max (ofZ 0)
                                                    (sub (time c w) (start c)))
                                            ++ quote ++ " end=" ++ quote
                                            ++ msToVtt
                                                 (Math_max (ofZ 0)
                                                    (sub (finish c w) (start c)))
                                            ++ quote ++ ">" ++ w_text w ++ "</span>")
                                         (wordsOf c))
                               ++ LF ++ "      "
                          else replaceAll (chr "010") "<br/>" (text c))
                      ++ "</p>")
                   cues)
         ++ LF ++ "    </div>" ++ LF ++ "  </body>" ++ LF ++ "</tt>"
    /\ forall s, 0 <= s < 2 ^ 52 ->
         msToVtt (Math_max (ofZ 0) (sub (ofZ s) (ofZ s))) = "00:00:00.000"
         /\ msToVtt (Math_max (ofZ 0) (sub (add (ofZ s) (ofZ 300)) (ofZ s)))
            = "00:00:00.300".
Proof.
  exists wordStart, wordEnd.
  split; [exact wordStart_fallback|].
  split; [intros c w x E T; unfold wordStart; now rewrite E, T|].
  split; [exact wordEnd_fallback|].
  split; [intros c w x E T; unfold wordEnd; now rewrite E, T|].
  unfold stringifyContent. split; [|split; [|split]].
  - unfold stringifyLRC. cbv zeta. cbn [map Js.join]. rewrite append_empty.
    match goal with
    | |- _ = ?rhs =>
        match rhs with
        | context [Js.join LF (map ?g cues)] =>
            assert (E : map (lrcLine true) cues = map g cues)
        end
    end.
    { apply map_ext. intros c. unfold lrcLine. cbv zeta. cbn [andb].
      destruct (hasWords c); now rewrite !append_assoc. }
    rewrite E. reflexivity.
  - unfold stringifyVTT. cbv zeta. cbn [map Js.join]. rewrite append_empty.
    match goal with
    | |- _ = ?rhs =>
        match rhs with
        | context [Js.join LF (map ?g cues)] =>
            assert (E : map (vttBlock true) cues = map g cues)
        end
    end.
    { apply map_ext. intros c. unfold vttBlock. cbv zeta. cbn [andb]. reflexivity. }
    rewrite E. reflexivity.
  - unfold stringifyTTML. cbv zeta.
    match goal with
    | |- _ = ?rhs =>
        match rhs with
        | context [Js.join LF (map ?g cues)] =>
            assert (E : map (ttmlParagraph true) cues = map g cues)
        end
    end.
    { apply map_ext. intros c. unfold ttmlParagraph. cbv zeta. cbn [andb].
      destruct (hasWords c); [|reflexivity]. rewrite map_map. reflexivity. }
    rewrite E. reflexivity.
  - exact offsets_of_whole_start.
Qed.

Lemma karaoke_word_start_fallback_witness :
  stringifyContent (fun _ _ => "") [Samples.cueAtFive] LRC_ENHANCED None
  = "[00:05.00]<00:05.00>la"
  /\ stringifyContent (fun _ _ => "") [Samples.cueAtFive] VTT_KARAOKE None
     = "WEBVTT" ++ LF ++ LF ++ "00:00:05.000 --> 00:00:07.000" ++ LF
       ++ "<00:00:05.000>la" ++ LF
  /\ stringifyContent (fun _ _ => "") [Samples.cueAtFive] TTML_KARAOKE None
     = "<?xml version=" ++ quote ++ "1.0" ++ quote ++ " encoding=" ++ quote
       ++ "UTF-8" ++ quote ++ "?>" ++ LF
       ++ "<tt xmlns=" ++ quote ++ "http://www.w3.org/ns/ttml" ++ quote
       ++ " lang=" ++ quote ++ "en" ++ quote ++ ">" ++ LF
       ++ "  <body>" ++ LF ++ "    <div>" ++ LF
       ++ "      <p begin=" ++ quote ++ "00:00:05.000" ++ quote
       ++ " end=" ++ quote ++ "00:00:07.000" ++ quote ++ ">" ++ LF
       ++ "        <span begin=" ++ quote ++ "00:00:00.000" ++ quote
       ++ " end=" ++ quote ++ "00:00:00.300" ++ quote ++ ">la</span>" ++ LF
       ++ "      </p>" ++ LF
       ++ "    </div>" ++ LF ++ "  </body>" ++ LF ++ "</tt>".
Proof.
  destruct (karaoke_word_start_fallback (fun _ _ => "") [Samples.cueAtFive] None)
    as (time & finish & Ht & _ & Hf & _ & El & Ev & Et & Ho).
  pose proof (Ht Samples.cueAtFive Samples.wordAtZero (or_intror eq_refl)) as H1.
  pose proof (Hf Samples.cueAtFive Samples.wordAtZero (or_introl eq_refl)) as H2.
  rewrite H1 in H2.
  destruct (Ho 5000 ltac:(lia)) as [O1 O2].
  rewrite El, Ev, Et. cbn [map Js.join].
  change (hasWords Samples.cueAtFive) with true. cbv iota.
  change (wordsOf Samples.cueAtFive) with [Samples.wordAtZero]. cbn [map Js.join].
  rewrite H1, H2.
  change (start Samples.cueAtFive) with (ofZ 5000). rewrite O1, O2.
  repeat split; vm_compute; reflexivity.
Defined.

(** The last clause of C10 fails: a word that starts at 0 ms in a cue
    that starts at 0 ms is written with the time 0. *)
Lemma karaoke_zero_is_emitted :
  w_start Samples.wordAtZero = Some (ofZ 0)
  /\ start Samples.cueAtZero = ofZ 0
  /\ stringifyLRC [Samples.cueAtZero] true None = "[00:00.00]<00:00.00>la"
  /\ stringifyVTT [Samples.cueAtZero] true None
     = "WEBVTT" ++ LF ++ LF ++ "00:00:00.000 --> 00:00:02.000" ++ LF
       ++ "<00:00:00.000>la" ++ LF
  /\ ttmlSpan Samples.cueAtZero Samples.wordAtZero
     = "<span begin=" ++ quote ++ "00:00:00.000" ++ quote
       ++ " end=" ++ quote ++ "00:00:00.300" ++ quote ++ ">la</span>"
  /\ TimeUtils.timeToMs "00:00.00" = ofZ 0
  /\ TimeUtils.timeToMs "00:00:00.000" = ofZ 0
  /\ stringifyTTML [Samples.cueAtZero] true
     = "<?xml version=" ++ quote ++ "1.0" ++ quote ++ " encoding=" ++ quote
       ++ "UTF-8" ++ quote ++ "?>" ++ LF
       ++ "<tt xmlns=" ++ quote ++ "http://www.w3.org/ns/ttml" ++ quote
       ++ " lang=" ++ quote ++ "en" ++ quote ++ ">" ++ LF
       ++ "  <body>" ++ LF ++ "    <div>" ++ LF
       ++ "      <p begin=" ++ quote ++ "00:00:00.000" ++ quote
       ++ " end=" ++ quote ++ "00:00:02.000" ++ quote ++ ">" ++ LF
       ++ "        <span begin=" ++ quote ++ "00:00:00.000" ++ quote
       ++ " end=" ++ quote ++ "00:00:00.300" ++ quote ++ ">la</span>" ++ LF
       ++ "      </p>" ++ LF
       ++ "    </div>" ++ LF ++ "  </body>" ++ LF ++ "</tt>".
Proof. repeat split; vm_compute; reflexivity. Qed.

(** ** Format detection *)

Lemma byExtension_detect (filename content : string) (format : SubtitleFormat) :
  Stated.byExtension filename = Some format -> detectFormat filename content = format.
Proof.
  unfold Stated.byExtension, detectFormat.
  destruct (Js.endsWith filename ".lrc"); [congruence|].
  destruct (Js.endsWith filename ".srt"); [congruence|].
  destruct (Js.endsWith filename ".vtt"); [congruence|].
  destruct (Js.endsWith filename ".xml"); [cbn; congruence|].
  destruct (Js.endsWith filename ".ttml"); [cbn; congruence|].
  destruct (Js.endsWith filename ".json"); [cbn; congruence|].
  destruct (Js.endsWith filename ".txt"); [cbn; congruence|].
  discriminate.
Qed.

(** C6 with "leading" made precise.  Format detection: a matching
    extension decides; otherwise the content is sniffed in order: a
    leading brace or bracket gives JSON and a leading [WEBVTT] gives
    VTT, both judged after white space is trimmed from the content; the
    TTML namespace anywhere in the content gives TTML; a bracketed time
    stamp at the very start of the content gives LRC; SRT is the
    default. *)
Theorem detectFormat_rules (filename content : string) :
  detectFormat filename content = Stated.detectTrimmed filename content.
Proof.
  unfold Stated.detectTrimmed.
  destruct (Stated.byExtension filename) as [format|] eqn:E.
  - exact (byExtension_detect filename content format E).
  - revert E. unfold Stated.byExtension, detectFormat, Stated.sniff.
    destruct (Js.endsWith filename ".lrc"); [discriminate|].
    destruct (Js.endsWith filename ".srt"); [discriminate|].
    destruct (Js.endsWith filename ".vtt"); [discriminate|].
    destruct (Js.endsWith filename ".xml"); [discriminate|].
    destruct (Js.endsWith filename ".ttml"); [discriminate|].
    destruct (Js.endsWith filename ".json"); [discriminate|].
    destruct (Js.endsWith filename ".txt"); [discriminate|].
    reflexivity.
Qed.

(** C6 with "leading" read as the start of the content fails when the
    content starts with white space: a space and a pair of braces is
    JSON for the code and SRT for the rules as written. *)
Lemma detectFormat_as_stated_fails :
  detectFormat "lyrics" " {}" = JSON
  /\ Stated.detectAsStated "lyrics" " {}" = SRT
  /\ detectFormat "lyrics" " {}" <> Stated.detectAsStated "lyrics" " {}".
Proof.
  split; [vm_compute; reflexivity|]. split; [vm_compute; reflexivity|].
  vm_compute. discriminate.
Qed.

(** ** The sniffing rule for LRC *)

Lemma lrcHeadPattern_later (s : string) (pos : nat) :
  searchFrom lrcHeadPattern (S pos) s = None.
Proof.
  revert pos. induction s as [|a s IH]; intros pos; cbn [searchFrom].
  - reflexivity.
  - change (matchAt lrcHeadPattern (S pos) (String a s)) with (@None result).
    apply IH.
Qed.

Lemma lrcHeadPattern_bracket (content : string) :
  test lrcHeadPattern content = true -> exists rest, content = String "[" rest.
Proof.
  unfold test. destruct content as [|a s]; [discriminate|].
  cbn [searchFrom]. rewrite lrcHeadPattern_later.
  unfold matchAt, lrcHeadPattern. cbn [seq run Nat.eqb chr].
  unfold Js.isChar. destruct (Ascii.eqb_spec "[" a) as [<-|]; [|discriminate].
  intros _. now exists s.
Qed.

Lemma rev_onto_append (u v acc : string) :
  Js.rev_onto (u ++ v) acc = Js.rev_onto v (Js.rev_onto u acc).
Proof. revert acc. induction u as [|c u IH]; intros acc; [reflexivity|]. apply IH. Qed.

Lemma rev_onto_acc (s acc : string) : Js.rev_onto s acc = Js.rev s ++ acc.
Proof.
  unfold Js.rev. revert acc. induction s as [|c s IH]; intros acc; [reflexivity|].
  cbn [Js.rev_onto]. rewrite IH, (IH (String c EmptyString)).
  rewrite append_assoc. reflexivity.
Qed.

Lemma dropWhile_keeps_last (p : ascii -> bool) (c : ascii) (x : string) :
  p c = false ->
  exists u, Js.dropWhile p (x ++ String c "") = u ++ String c "".
Proof.
  intros Hc. induction x as [|a x IH]; cbn [append Js.dropWhile].
  - rewrite Hc. now exists "".
  - destruct (p a); [exact IH|]. now exists (String a x).
Qed.

Lemma trimEnd_head (c : ascii) (s : string) :
  Js.isSpace c = false -> exists u, Js.trimEnd (String c s) = String c u.
Proof.
  intros Hc. unfold Js.trimEnd.
  replace (Js.rev (String c s)) with (Js.rev s ++ String c "")
    by (unfold Js.rev at 2; cbn [Js.rev_onto]; now rewrite rev_onto_acc).
  destruct (dropWhile_keeps_last Js.isSpace c (Js.rev s) Hc) as (u & ->).
  unfold Js.rev at 1. rewrite rev_onto_append. cbn [Js.rev_onto].
  now exists (Js.rev u).
Qed.

Lemma lrc_sniff_is_json (content : string) :
  test lrcHeadPattern content = true ->
  Js.startsWith (Js.trim content) "[" = true.
Proof.
  intros H. destruct (lrcHeadPattern_bracket content H) as (rest & ->).
  unfold Js.trim, Js.trimStart. cbn [Js.dropWhile].
  change (Js.isSpace "[") with false. cbv iota.
  destruct (trimEnd_head "[" rest eq_refl) as (u & ->). reflexivity.
Qed.

(** Content alone never makes a document LRC: a text that starts with a
    bracketed time stamp starts with a bracket, which the first
    sniffing rule takes for JSON. *)
Lemma detectFormat_LRC (filename content : string) :
  detectFormat filename content = LRC -> Js.endsWith filename ".lrc" = true.
Proof.
  unfold detectFormat.
  destruct (Js.endsWith filename ".lrc"); [reflexivity|].
  destruct (Js.endsWith filename ".srt"); [discriminate|].
  destruct (Js.endsWith filename ".vtt"); [discriminate|].
  destruct (Js.endsWith filename ".xml" || Js.endsWith filename ".ttml")%bool;
    [discriminate|].
  destruct (Js.endsWith filename ".json"); [discriminate|].
  destruct (Js.endsWith filename ".txt"); [discriminate|].
  cbv zeta.
  destruct (test lrcHeadPattern content) eqn:E.
  - rewrite (lrc_sniff_is_json content E), orb_true_r. discriminate.
  - destruct (_ || _)%bool; [discriminate|].
    destruct (Js.startsWith _ _); [discriminate|].
    destruct (Js.includes _ _); discriminate.
Qed.

(** ** The decoder on text that only looks like a suffix form *)

(** C3.  The decoder is meant to answer every text with a finite
    number, 0 when no rule applies.  The two suffix rules break this:
    they hand whatever precedes [ms] or [s] to [parseFloat] without
    checking it, so the texts below decode to [NaN] or to infinity. *)
Theorem timeToMs_suffix_NaN :
  TimeUtils.timeToMs "s" = NaN
  /\ TimeUtils.timeToMs "ms" = NaN
  /\ TimeUtils.timeToMs "minutes" = NaN
  /\ TimeUtils.timeToMs "Infinitys" = Infinity.
Proof. repeat split; vm_compute; reflexivity. Qed.

(** When no rule matches the result is 0. *)
Lemma timeToMs_no_rule (timeStr : string) :
  Js.endsWith (Js.trim timeStr) "ms" = false ->
  Js.endsWith (Js.trim timeStr) "s" = false ->
  Regex.exec TimeUtils.lrcPattern (Js.trim timeStr) = None ->
  Regex.exec TimeUtils.fullPattern (Js.trim timeStr) = None ->
  Regex.test TimeUtils.numericPattern (Js.trim timeStr) = false ->
  TimeUtils.timeToMs timeStr = ofZ 0.
Proof.
  intros H1 H2 H3 H4 H5. unfold TimeUtils.timeToMs.
  destruct (negb (Js.truthy timeStr)); [reflexivity|].
  cbv zeta. rewrite H1, H2, H3, H4, H5. reflexivity.
Qed.

(* ================================================================= *)
(** * Further properties

    Properties of the code beyond the statements above: the rest of the
    time codec, the earlier revision, the serializers and parsers taken
    together, and the handlers of the cue list. *)

Import Written.

(** ** The encoders in closed form *)


Lemma pad2_checked : forallb (sameAsPad 2) (upTo 100) = true.
Proof. vm_compute. reflexivity. Qed.

Lemma pad3_checked : forallb (sameAsPad 3) (upTo 1000) = true.
Proof. vm_compute. reflexivity. Qed.

Lemma field_pad2 (k : Z) : 0 <= k < 100 -> field 2 k = pad2 k.
Proof.
  intros H. pose proof pad2_checked as Hall. rewrite forallb_forall in Hall.
  specialize (Hall k (upTo_In 100 k ltac:(lia))).
  now apply String.eqb_eq in Hall.
Qed.

Lemma field_pad3 (k : Z) : 0 <= k < 1000 -> field 3 k = pad3 k.
Proof.
  intros H. pose proof pad3_checked as Hall. rewrite forallb_forall in Hall.
  specialize (Hall k (upTo_In 1000 k ltac:(lia))).
  now apply String.eqb_eq in Hall.
Qed.

Lemma hms_fields (sep : string) (x : number) (ms : Z) :
  0 <= ms < 2 ^ 51 -> x = ofZ ms ->
  Js.padStart 2 "0" (toString (Math_floor (div x (ofZ 3600000)))) ++ ":"
  ++ Js.padStart 2 "0"
       (toString (Math_floor (div (rem x (ofZ 3600000)) (ofZ 60000)))) ++ ":"
  ++ Js.padStart 2 "0"
       (toString (Math_floor (div (rem x (ofZ 60000)) (ofZ 1000)))) ++ sep
  ++ Js.padStart 3 "0" (toString (rem x (ofZ 1000)))
  = field 2 (ms / 3600000) ++ ":" ++ field 2 (ms mod 3600000 / 60000) ++ ":"
    ++ field 2 (ms mod 60000 / 1000) ++ sep ++ field 3 (ms mod 1000).
Proof.
  intros H ->. unfold field.
  pose proof (Z.mod_pos_bound ms 3600000 ltac:(lia)).
  pose proof (Z.mod_pos_bound ms 60000 ltac:(lia)).
  pose proof (Z.mod_pos_bound ms 1000 ltac:(lia)).
  rewrite !rem_ofZ by lia.
  rewrite !floor_div_ofZ; try lia; reflexivity.
Qed.

Lemma hms_clock (sep : ascii) (ms : Z) :
  0 <= ms < 360000000 ->
  field 2 (ms / 3600000) ++ ":" ++ field 2 (ms mod 3600000 / 60000) ++ ":"
  ++ field 2 (ms mod 60000 / 1000) ++ String sep "" ++ field 3 (ms mod 1000)
  = clock sep ms.
Proof.
  intros H. unfold clock.
  pose proof (Z.mod_pos_bound ms 1000 ltac:(lia)).
  replace (ms mod 3600000 / 60000) with (ms / 60000 mod 60) by divlia.
  replace (ms mod 60000 / 1000) with (ms / 1000 mod 60) by divlia.
  rewrite !field_pad2, field_pad3 by divlia. reflexivity.
Qed.

Lemma msToSrt_clock (ms : Z) :
  0 <= ms < 360000000 -> msToSrt (ofZ ms) = clock "," ms.
Proof.
  intros H. unfold msToSrt. cbv zeta. rewrite round_ofZ by lia.
  rewrite (hms_fields "," (ofZ ms) ms) by (try reflexivity; lia).
  apply (hms_clock "," ms H).
Qed.

Lemma msToVtt_clock (ms : Z) :
  0 <= ms < 360000000 -> msToVtt (ofZ ms) = clock "." ms.
Proof.
  intros H. unfold msToVtt. cbv zeta. rewrite round_ofZ by lia.
  rewrite (hms_fields "." (ofZ ms) ms) by (try reflexivity; lia).
  apply (hms_clock "." ms H).
Qed.

(** X1.  What [msToSrt] and [msToVtt] write: for every whole number of
    milliseconds below 100 hours, two digits of hours, of minutes and
    of seconds and three digits of milliseconds, with a comma before
    the milliseconds for SRT and a dot for VTT. *)
Theorem msToSrt_msToVtt_clock (ms : Z) :
  0 <= ms < 360000000 ->
  msToSrt (ofZ ms) = clock "," ms /\ msToVtt (ofZ ms) = clock "." ms.
Proof.
  intros H. split; [now apply msToSrt_clock|now apply msToVtt_clock].
Qed.

Lemma msToSrt_msToVtt_clock_witness :
  msToSrt (ofZ 3661001) = "01:01:01,001" /\ msToVtt (ofZ 3661001) = "01:01:01.001".
Proof.
  destruct (msToSrt_msToVtt_clock 3661001 ltac:(lia)) as [Hs Hv].
  rewrite Hs, Hv. split; reflexivity.
Defined.

(** ** Round trips beyond the first day *)

Lemma timeToMs_fields (ms : Z) (sep : ascii) :
  0 <= ms < 360000000 -> sep = "."%char \/ sep = ","%char ->
  timeToMs (field 2 (ms / 3600000) ++ ":" ++ field 2 (ms mod 3600000 / 60000) ++ ":"
            ++ field 2 (ms mod 60000 / 1000) ++ String sep "" ++ field 3 (ms mod 1000))
  = ofZ ms.
Proof.
  intros H Hsep.
  pose proof (Z.mod_pos_bound ms 3600000 ltac:(lia)).
  pose proof (Z.mod_pos_bound ms 60000 ltac:(lia)).
  pose proof (Z.mod_pos_bound ms 1000 ltac:(lia)).
  assert (Bh : 0 <= ms / 3600000 < 100) by divlia.
  assert (Bm : 0 <= ms mod 3600000 / 60000 < 100) by divlia.
  assert (Bs : 0 <= ms mod 60000 / 1000 < 100) by divlia.
  destruct (field_two _ Bh) as (Dh & Lh & Vh).
  destruct (field_two _ Bm) as (Dm & Lm & Vm).
  destruct (field_two _ Bs) as (Ds & Ls & Vs).
  destruct (field_three (ms mod 1000) ltac:(lia)) as (Df & Lf & Vf).
  change (String sep "" ++ field 3 (ms mod 1000)) with (String sep (field 3 (ms mod 1000))).
  rewrite colonText_hours by (eapply length_nonempty; exact Lh).
  rewrite timeToMs_colon_formats; try assumption; try lia.
  unfold colonValue, fractionScale. rewrite Vh, Vm, Vs, Vf, Lf.
  f_equal. divlia.
Qed.

Lemma timeToMs_msToSrt_wide (ms : Z) :
  0 <= ms < 360000000 -> timeToMs (msToSrt (ofZ ms)) = ofZ ms.
Proof.
  intros H. unfold msToSrt. cbv zeta. rewrite round_ofZ by lia.
  rewrite (hms_fields "," (ofZ ms) ms) by (try reflexivity; lia).
  apply timeToMs_fields; [exact H|now right].
Qed.

Lemma timeToMs_msToVtt_wide (ms : Z) :
  0 <= ms < 360000000 -> timeToMs (msToVtt (ofZ ms)) = ofZ ms.
Proof.
  intros H. unfold msToVtt. cbv zeta. rewrite round_ofZ by lia.
  rewrite (hms_fields "." (ofZ ms) ms) by (try reflexivity; lia).
  apply timeToMs_fields; [exact H|now left].
Qed.

(** X2.  The round trip of SRT and VTT time stamps holds past the first
    day: for every whole number of milliseconds below 100 hours,
    decoding the SRT text gives the number back, and so does decoding
    the VTT text. *)
Theorem round_trip_below_100_hours (ms : Z) :
  0 <= ms < 360000000 ->
  timeToMs (msToSrt (ofZ ms)) = ofZ ms /\ timeToMs (msToVtt (ofZ ms)) = ofZ ms.
Proof.
  intros H. split; [now apply timeToMs_msToSrt_wide|now apply timeToMs_msToVtt_wide].
Qed.

Lemma round_trip_below_100_hours_witness :
  timeToMs (msToSrt (ofZ 359999999)) = ofZ 359999999
  /\ timeToMs (msToVtt (ofZ 359999999)) = ofZ 359999999.
Proof. apply (round_trip_below_100_hours 359999999). lia. Defined.

(** The first time that does not come back. *)
Lemma timeToMs_msToSrt_at_100_hours :
  msToSrt (ofZ 360000000) = "100:00:00,000"
  /\ timeToMs (msToSrt (ofZ 360000000)) = ofZ 0
  /\ timeToMs (msToVtt (ofZ 360000000)) = ofZ 0.
Proof. repeat split; vm_compute; reflexivity. Qed.

(** ** The encoder of the time inputs *)

Lemma msToMmSsMmm_fields (ms : Z) :
  0 <= ms < 2 ^ 51 ->
  msToMmSsMmm (ofZ ms)
  = field 2 (ms / 60000) ++ ":" ++ field 2 (ms mod 60000 / 1000) ++ "."
    ++ field 3 (ms mod 1000).
Proof.
  intros H. unfold msToMmSsMmm, field. cbv zeta.
  pose proof (Z.mod_pos_bound ms 60000 ltac:(lia)).
  pose proof (Z.mod_pos_bound ms 1000 ltac:(lia)).
  rewrite round_ofZ by lia.
  rewrite !rem_ofZ by lia.
  rewrite !floor_div_ofZ; try lia; reflexivity.
Qed.

(** X3.  [msToMmSsMmm] writes minutes, seconds and three digits of
    milliseconds, and [timeToMs] reads the time back, for every whole
    number of milliseconds below 100 minutes. *)
Theorem timeToMs_msToMmSsMmm (ms : Z) :
  0 <= ms < 6000000 ->
  msToMmSsMmm (ofZ ms) = minuteClock ms
  /\ timeToMs (msToMmSsMmm (ofZ ms)) = ofZ ms.
Proof.
  intros H. rewrite msToMmSsMmm_fields by lia.
  pose proof (Z.mod_pos_bound ms 60000 ltac:(lia)).
  pose proof (Z.mod_pos_bound ms 1000 ltac:(lia)).
  assert (Bm : 0 <= ms / 60000 < 100) by divlia.
  assert (Bs : 0 <= ms mod 60000 / 1000 < 100) by divlia.
  split.
  - unfold minuteClock.
    replace (ms / 1000 mod 60) with (ms mod 60000 / 1000) by divlia.
    rewrite !field_pad2, field_pad3 by lia. reflexivity.
  - destruct (field_two _ Bm) as (Dm & Lm & Vm).
    destruct (field_two _ Bs) as (Ds & Ls & Vs).
    destruct (field_three (ms mod 1000) ltac:(lia)) as (Df & Lf & Vf).
    change (field 2 (ms / 60000) ++ ":" ++ field 2 (ms mod 60000 / 1000) ++ "."
            ++ field 3 (ms mod 1000))
      with (colonText "" (field 2 (ms / 60000)) (field 2 (ms mod 60000 / 1000)) "."
              (field 3 (ms mod 1000))).
    rewrite timeToMs_colon_formats; try assumption; try reflexivity; try lia;
      [|simpl; lia|now left].
    unfold colonValue, fractionScale. rewrite Vm, Vs, Vf, Lf.
    f_equal. cbn [Js.digitsValue]. divlia.
Qed.

Lemma timeToMs_msToMmSsMmm_witness :
  msToMmSsMmm (ofZ 83456) = "01:23.456"
  /\ timeToMs (msToMmSsMmm (ofZ 83456)) = ofZ 83456.
Proof.
  destruct (timeToMs_msToMmSsMmm 83456 ltac:(lia)) as [Hw Hr].
  split; [rewrite Hw; reflexivity|exact Hr].
Defined.

(** X4.  What [msToLrc] writes: the time rounded to the nearest multiple
    of 10 ms, a tie going up, as minutes, seconds and centiseconds; the
    rounding carries into the seconds and the minutes. *)
Theorem msToLrc_lrcClock (ms : Z) :
  0 <= ms < 5999995 ->
  msToLrc (ofZ ms) = lrcClock (Stated.roundToTen ms).
Proof.
  intros H. rewrite msToLrc_fields by lia. cbv zeta.
  set (r := Stated.roundToTen ms).
  assert (Hr : 0 <= r < 6000000 /\ r mod 10 = 0)
    by (unfold r, Stated.roundToTen; divlia).
  pose proof (Z.mod_pos_bound r 60000 ltac:(lia)).
  pose proof (Z.mod_pos_bound r 1000 ltac:(lia)).
  unfold lrcClock.
  replace (r / 1000 mod 60) with (r mod 60000 / 1000) by divlia.
  rewrite !field_pad2 by divlia. reflexivity.
Qed.

Lemma msToLrc_lrcClock_witness :
  msToLrc (ofZ 59999) = "01:00.00".
Proof.
  rewrite (msToLrc_lrcClock 59999 ltac:(lia)). reflexivity.
Defined.

(** ** Strings *)

Lemma rev_append (a b : string) : Js.rev (a ++ b) = Js.rev b ++ Js.rev a.
Proof.
  unfold Js.rev at 1. rewrite rev_onto_append. rewrite rev_onto_acc.
  reflexivity.
Qed.

Lemma rev_involutive (s : string) : Js.rev (Js.rev s) = s.
Proof.
  induction s as [|c s IH]; [reflexivity|].
  change (String c s) with (String c "" ++ s) at 1.
  rewrite rev_append, rev_append, IH. reflexivity.
Qed.

Lemma length_append (a b : string) :
  String.length (a ++ b) = (String.length a + String.length b)%nat.
Proof. induction a as [|c a IH]; [reflexivity|]. cbn. now rewrite IH. Qed.

Lemma substring_prefix (a b : string) :
  String.substring 0 (String.length a) (a ++ b) = a.
Proof. induction a as [|c a IH]; [destruct b; reflexivity|]. cbn. now rewrite IH. Qed.

Lemma dropLast_append (a b : string) :
  Js.dropLast (String.length b) (a ++ b) = a.
Proof.
  unfold Js.dropLast. rewrite length_append.
  replace (String.length a + String.length b - String.length b)%nat
    with (String.length a) by lia.
  apply substring_prefix.
Qed.

Lemma endsWith_append (a b : string) : Js.endsWith (a ++ b) b = true.
Proof.
  unfold Js.endsWith. rewrite rev_append.
  induction (Js.rev b) as [|c r IH]; [reflexivity|].
  cbn. now rewrite Ascii.eqb_refl.
Qed.

(** A text whose first and last characters are not white space is
    its own trimmed form. *)
Lemma trimEnd_last (x : string) (d : ascii) :
  Js.isSpace d = false -> Js.trimEnd (x ++ String d "") = x ++ String d "".
Proof.
  intros Hd. unfold Js.trimEnd. rewrite rev_append.
  change (Js.rev (String d "")) with (String d ""). cbn [append Js.dropWhile].
  rewrite Hd. change (String d (Js.rev x)) with (Js.rev (String d "") ++ Js.rev x).
  rewrite <- rev_append. apply rev_involutive.
Qed.

Lemma trim_clean (c d : ascii) (x : string) :
  Js.isSpace c = false -> Js.isSpace d = false ->
  Js.trim (String c (x ++ String d "")) = String c (x ++ String d "").
Proof.
  intros Hc Hd. unfold Js.trim, Js.trimStart. cbn [Js.dropWhile]. rewrite Hc.
  apply (trimEnd_last (String c x) d Hd).
Qed.

(** ** Whole numbers with and without a unit *)

Lemma allDigits_append (a b : string) :
  allDigits (a ++ b) = (allDigits a && allDigits b)%bool.
Proof.
  induction a as [|c a IH]; [reflexivity|]. cbn. rewrite IH.
  now rewrite andb_assoc.
Qed.

Lemma digitsValue_bounds (ds : string) (acc : Z) :
  allDigits ds = true -> 0 <= acc ->
  acc * 10 ^ Z.of_nat (String.length ds) <= Js.digitsValue acc ds
  < (acc + 1) * 10 ^ Z.of_nat (String.length ds).
Proof.
  revert acc. induction ds as [|c ds IH]; intros acc Hd Hacc.
  - cbn. lia.
  - cbn [allDigits] in Hd. apply andb_prop in Hd as [Hc Hd].
    destruct (digit_tests c Hc) as (_ & _ & _ & _ & _ & _ & _ & _ & _ & Hv).
    cbn [Js.digitsValue String.length].
    specialize (IH (10 * acc + Js.digitVal c) Hd ltac:(lia)).
    rewrite Nat2Z.inj_succ, Z.pow_succ_r by lia.
    assert (0 < 10 ^ Z.of_nat (String.length ds)) by (apply Z.pow_pos_nonneg; lia).
    nia.
Qed.

Lemma parseFloat_allDigits (ds : string) :
  allDigits ds = true -> ds <> "" ->
  parseFloat ds = ofZ (Js.digitsValue 0 ds).
Proof.
  intros Hd Hne. destruct ds as [|c ds]; [congruence|].
  pose proof Hd as Hd'. cbn in Hd'. apply andb_prop in Hd' as [Hc _].
  destruct (digit_tests c Hc) as (Hs & _ & _ & _ & _ & _ & _ & Hm & Hp & _).
  unfold parseFloat, Js.trimStart. cbn [Js.dropWhile]. rewrite Hs.
  assert (Hsign : signOf (String c ds) = (false, String c ds)).
  { unfold signOf. destruct c as [[] [] [] [] [] [] [] []]; try reflexivity;
      vm_compute in Hm, Hp; congruence. }
  assert (Hinf : Js.startsWith (String c ds) "Infinity" = false).
  { unfold Js.startsWith. cbn [Js.isPrefix].
    destruct c as [[] [] [] [] [] [] [] []]; try reflexivity;
      vm_compute in Hc; discriminate. }
  rewrite Hsign, Hinf, (span_allDigits _ Hd). cbv iota beta.
  rewrite append_empty. unfold ofDecimal, exponentPart. cbn [String.length Z.of_nat Z.sub Z.leb Z.compare].
  change (10 ^ 0) with 1. rewrite Z.mul_1_r. reflexivity.
Qed.

Lemma last_digit (ds : string) :
  allDigits ds = true -> ds <> "" ->
  exists x d, ds = x ++ String d "" /\ Js.isDigit d = true.
Proof.
  induction ds as [|c ds IH]; [congruence|]. intros Hd _.
  cbn in Hd. apply andb_prop in Hd as [Hc Hd].
  destruct ds as [|c' ds'].
  - exists "", c. now split.
  - destruct (IH Hd ltac:(discriminate)) as (x & d & -> & Hx).
    exists (String c x), d. now split.
Qed.

Lemma timeToMs_suffixed_ms (ds : string) :
  allDigits ds = true -> ds <> "" ->
  timeToMs (ds ++ "ms") = ofZ (Js.digitsValue 0 ds).
Proof.
  intros Hd Hne.
  assert (Htrim : Js.trim (ds ++ "ms") = ds ++ "ms").
  { destruct ds as [|c ds]; [congruence|].
    cbn in Hd. apply andb_prop in Hd as [Hc _].
    destruct (digit_tests c Hc) as (Hs & _).
    cbn [append].
    replace (ds ++ "ms") with ((ds ++ "m") ++ "s")
      by (rewrite append_assoc; reflexivity).
    apply trim_clean; [exact Hs|reflexivity]. }
  rewrite timeToMs_suffix_ms; rewrite Htrim.
  - change 2%nat with (String.length "ms"). rewrite dropLast_append.
    now apply parseFloat_allDigits.
  - apply endsWith_append.
Qed.

Lemma timeToMs_suffixed_s (ds : string) :
  allDigits ds = true -> ds <> "" ->
  timeToMs (ds ++ "s") = mul (ofZ (Js.digitsValue 0 ds)) (ofZ 1000).
Proof.
  intros Hd Hne.
  assert (Htrim : Js.trim (ds ++ "s") = ds ++ "s").
  { destruct ds as [|c ds]; [congruence|].
    cbn in Hd. apply andb_prop in Hd as [Hc _].
    destruct (digit_tests c Hc) as (Hs & _).
    cbn [append]. apply trim_clean; [exact Hs|reflexivity]. }
  rewrite timeToMs_suffix_s; rewrite Htrim.
  - change 1%nat with (String.length "s"). rewrite dropLast_append.
    now rewrite parseFloat_allDigits.
  - destruct (last_digit ds Hd Hne) as (x & d & -> & Hx).
    destruct (digit_tests d Hx) as (_ & _ & _ & _ & _ & _ & Hm & _).
    unfold Js.endsWith. rewrite !rev_append.
    change (Js.rev "s") with "s". change (Js.rev (String d "")) with (String d "").
    cbn [append Js.rev Js.rev_onto Js.isPrefix]. change ("s" =? "s")%char with true.
    cbv iota. rewrite Hm. reflexivity.
  - apply endsWith_append.
Qed.

Ltac by_length_12 s H :=
  destruct s as [|? [|? [|? [|? [|? [|? [|? [|? [|? [|? [|? [|? [|? ?]]]]]]]]]]]]];
  cbn [String.length] in H; try lia; clear H.

Lemma timeToMs_bare (ds : string) :
  allDigits ds = true -> (1 <= String.length ds <= 12)%nat ->
  timeToMs ds = mul (parseFloat ds) (ofZ 1000).
Proof.
  intros Hd L. by_length_12 ds L; split_digits; all_digit_facts;
    (rewrite timeToMs_unsuffixed;
     [ eval_patterns; reflexivity
     | reflexivity
     | unfold Js.trim, Js.trimStart, Js.trimEnd, Js.rev;
       repeat (cbn [Js.dropWhile Js.rev_onto]; rw_facts); reflexivity
     | unfold Js.endsWith, Js.rev; cbn [Js.rev_onto Js.isPrefix]; rw_facts; reflexivity
     | unfold Js.endsWith, Js.rev; cbn [Js.rev_onto Js.isPrefix]; rw_facts; reflexivity ]).
Qed.

(** X5.  Whole numbers with and without a unit: a run of digits followed
    by [ms] decodes to that number; followed by [s], or on its own, to
    1000 times that number (up to twelve digits, where the product is
    exact). *)
Theorem timeToMs_whole_numbers (ds : string) :
  allDigits ds = true -> ds <> "" ->
  timeToMs (ds ++ "ms") = ofZ (Js.digitsValue 0 ds)
  /\ ((String.length ds <= 12)%nat ->
      timeToMs (ds ++ "s") = ofZ (1000 * Js.digitsValue 0 ds)
      /\ timeToMs ds = ofZ (1000 * Js.digitsValue 0 ds)).
Proof.
  intros Hd Hne. split; [now apply timeToMs_suffixed_ms|]. intros L.
  pose proof (digitsValue_bounds ds 0 Hd ltac:(lia)) as B.
  assert (P : 10 ^ Z.of_nat (String.length ds) <= 10 ^ 12)
    by (apply Z.pow_le_mono_r; lia).
  assert (M : mul (ofZ (Js.digitsValue 0 ds)) (ofZ 1000)
              = ofZ (1000 * Js.digitsValue 0 ds)).
  { rewrite mul_ofZ by lia. f_equal. lia. }
  split.
  - rewrite timeToMs_suffixed_s by assumption. exact M.
  - rewrite timeToMs_bare, parseFloat_allDigits; try assumption.
    destruct ds; [congruence|cbn [String.length] in *; lia].
Qed.

Lemma timeToMs_whole_numbers_witness :
  timeToMs "1500ms" = ofZ 1500 /\ timeToMs "90s" = ofZ 90000 /\ timeToMs "90" = ofZ 90000.
Proof.
  destruct (timeToMs_whole_numbers "1500" eq_refl ltac:(discriminate)) as [Hms _].
  destruct (timeToMs_whole_numbers "90" eq_refl ltac:(discriminate)) as [_ Hs].
  destruct (Hs ltac:(simpl; lia)) as [Hs1 Hs2].
  split; [exact Hms|]. split; [exact Hs1|exact Hs2].
Defined.

(** ** White space around a time *)

Lemma dropWhile_idempotent (p : ascii -> bool) (s : string) :
  Js.dropWhile p (Js.dropWhile p s) = Js.dropWhile p s.
Proof.
  induction s as [|c s IH]; [reflexivity|]. cbn [Js.dropWhile].
  destruct (p c) eqn:E; [exact IH|]. cbn [Js.dropWhile]. now rewrite E.
Qed.

Lemma trimEnd_idempotent (s : string) : Js.trimEnd (Js.trimEnd s) = Js.trimEnd s.
Proof. unfold Js.trimEnd. now rewrite rev_involutive, dropWhile_idempotent. Qed.

Lemma trimStart_trimEnd (s : string) :
  Js.trimStart (Js.trimEnd (Js.trimStart s)) = Js.trimEnd (Js.trimStart s).
Proof.
  change (Js.trimStart s) with (Js.dropWhile Js.isSpace s).
  assert (H : Js.dropWhile Js.isSpace s = ""
              \/ exists c x, Js.dropWhile Js.isSpace s = String c x /\ Js.isSpace c = false).
  { induction s as [|c s IH]; [now left|]. cbn [Js.dropWhile].
    destruct (Js.isSpace c) eqn:E; [exact IH|]. right. now exists c, s. }
  destruct H as [->|(c & x & -> & Hc)]; [reflexivity|].
  destruct (trimEnd_head c x Hc) as (u & ->).
  unfold Js.trimStart. cbn [Js.dropWhile]. now rewrite Hc.
Qed.

Lemma trim_idempotent (s : string) : Js.trim (Js.trim s) = Js.trim s.
Proof.
  unfold Js.trim. rewrite trimStart_trimEnd. apply trimEnd_idempotent.
Qed.

Lemma timeToMs_trimmed (timeStr : string) :
  timeToMs (Js.trim timeStr) = timeToMs timeStr.
Proof.
  destruct timeStr as [|c t]; [reflexivity|].
  unfold timeToMs at 2. cbn [Js.truthy negb]. cbv zeta.
  destruct (Js.trim (String c t)) as [|c' t'] eqn:E; [reflexivity|].
  unfold timeToMs. cbn [Js.truthy negb]. cbv zeta.
  rewrite <- E, trim_idempotent. reflexivity.
Qed.

(** X6.  White space around a time is ignored by the decoders of both
    revisions. *)
Theorem timeToMs_trim (timeStr : string) :
  timeToMs (Js.trim timeStr) = timeToMs timeStr
  /\ LegacyDecoder.timeToMs (Js.trim timeStr) = LegacyDecoder.timeToMs timeStr.
Proof.
  split; [apply timeToMs_trimmed|].
  destruct timeStr as [|c t]; [reflexivity|].
  unfold LegacyDecoder.timeToMs at 2. cbn [Js.truthy negb]. cbv zeta.
  destruct (Js.trim (String c t)) as [|c' t'] eqn:E; [reflexivity|].
  unfold LegacyDecoder.timeToMs. cbn [Js.truthy negb]. cbv zeta.
  rewrite <- E, trim_idempotent. reflexivity.
Qed.

(** ** Colon texts without a fraction *)

Ltac shape_facts :=
  all_digit_facts;
  rewrite timeToMs_unsuffixed;
  [ eval_patterns;
    cbn [option_map toFound slice String.substring map fst snd Nat.sub]
  | reflexivity
  | unfold Js.trim, Js.trimStart, Js.trimEnd, Js.rev;
    repeat (cbn [Js.dropWhile Js.rev_onto]; rw_facts); reflexivity
  | unfold Js.endsWith, Js.rev; cbn [Js.rev_onto Js.isPrefix]; rw_facts; reflexivity
  | unfold Js.endsWith, Js.rev; cbn [Js.rev_onto Js.isPrefix]; rw_facts; reflexivity ].

Ltac lrc_value :=
  unfold lrcValue, fullValue, captured, capturedOr, participated; cbv zeta;
  cbn [group groups Nat.eqb String.length Js.truthy];
  parse_ints; cbn [String.length Js.digitsValue];
  change (Js.digitVal "0") with 0; arith.

Lemma timeToMs_without_fraction_lemma (m s : string) :
  allDigits m = true -> allDigits s = true ->
  (1 <= String.length m <= 2)%nat ->
  (String.length s = 2%nat ->
   timeToMs (m ++ ":" ++ s)
   = ofZ (Js.digitsValue 0 m * 60000 + Js.digitsValue 0 s * 1000))
  /\ (String.length s = 1%nat -> timeToMs (m ++ ":" ++ s) = ofZ 0).
Proof.
  intros Dm Ds Lm.
  split; intros Ls; by_length m Lm;
    (destruct s as [|? [|? [|? ?]]]; cbn [String.length] in Ls; try lia; clear Ls);
    split_digits; cbn [append]; shape_facts; try reflexivity; lrc_value.
Qed.

Lemma timeToMs_three_fields (h m s : string) :
  allDigits h = true -> allDigits m = true -> allDigits s = true ->
  (1 <= String.length h <= 2)%nat ->
  (1 <= String.length m <= 2)%nat ->
  (1 <= String.length s <= 2)%nat ->
  timeToMs (h ++ ":" ++ m ++ ":" ++ s) = ofZ 0.
Proof.
  intros Dh Dm Ds Lh Lm Ls.
  by_length h Lh; by_length m Lm; by_length s Ls; split_digits;
    cbn [append]; shape_facts; reflexivity.
Qed.

(** X7.  Colon texts without a fraction: minutes and two digits of seconds
    decode to that time; with one digit of seconds the text matches no
    rule and decodes to 0, and so does every text of hours, minutes and
    seconds that lacks the fraction. *)
Theorem timeToMs_without_fraction (h m s : string) :
  allDigits h = true -> allDigits m = true -> allDigits s = true ->
  (1 <= String.length h <= 2)%nat ->
  (1 <= String.length m <= 2)%nat ->
  (1 <= String.length s <= 2)%nat ->
  (String.length s = 2%nat ->
   timeToMs (m ++ ":" ++ s)
   = ofZ (Js.digitsValue 0 m * 60000 + Js.digitsValue 0 s * 1000))
  /\ (String.length s = 1%nat -> timeToMs (m ++ ":" ++ s) = ofZ 0)
  /\ timeToMs (h ++ ":" ++ m ++ ":" ++ s) = ofZ 0.
Proof.
  intros Dh Dm Ds Lh Lm Ls.
  destruct (timeToMs_without_fraction_lemma m s Dm Ds Lm) as [H2 H1].
  split; [exact H2|]. split; [exact H1|].
  now apply timeToMs_three_fields.
Qed.

Lemma timeToMs_without_fraction_witness :
  timeToMs "02:03" = ofZ 123000 /\ timeToMs "2:3" = ofZ 0
  /\ timeToMs "01:02:03" = ofZ 0.
Proof.
  destruct (timeToMs_without_fraction "01" "02" "03") as (H2 & _ & H3);
    try reflexivity; try (simpl; lia).
  destruct (timeToMs_without_fraction "1" "2" "3") as (_ & H1 & _);
    try reflexivity; try (simpl; lia).
  split; [exact (H2 eq_refl)|]. split; [exact (H1 eq_refl)|exact H3].
Defined.

(** ** The earlier revision of the codec *)

Lemma legacy_hms_fields (sep : string) (ms : Z) :
  0 <= ms < 2 ^ 51 ->
  Js.padStart 2 "0" (toString (Math_floor (div (ofZ ms) (ofZ 3600000)))) ++ ":"
  ++ Js.padStart 2 "0" (toString (Legacy.getUTCMinutes (Legacy.newDate (ofZ ms)))) ++ ":"
  ++ Js.padStart 2 "0" (toString (Legacy.getUTCSeconds (Legacy.newDate (ofZ ms)))) ++ sep
  ++ Js.padStart 3 "0" (toString (Legacy.getUTCMilliseconds (Legacy.newDate (ofZ ms))))
  = field 2 (ms / 3600000) ++ ":" ++ field 2 (ms mod 3600000 / 60000) ++ ":"
    ++ field 2 (ms mod 60000 / 1000) ++ sep ++ field 3 (ms mod 1000).
Proof.
  intros H. unfold field. rewrite newDate_ofZ by lia.
  unfold Legacy.getUTCMinutes, Legacy.getUTCSeconds, Legacy.getUTCMilliseconds,
    Legacy.field.
  rewrite floor_div_ofZ by lia.
  replace (ms / 60000 mod 60) with (ms mod 3600000 / 60000) by divlia.
  replace (ms / 1000 mod 60) with (ms mod 60000 / 1000) by divlia.
  reflexivity.
Qed.

(** X8.  The encoders of the two revisions agree on every whole number of
    milliseconds below 2^51, for SRT and for VTT: the hours are never
    taken from the date, so nothing changes after 24 hours. *)
Theorem legacy_encoders_agree (ms : Z) :
  0 <= ms < 2 ^ 51 ->
  Legacy.msToSrt (ofZ ms) = msToSrt (ofZ ms)
  /\ Legacy.msToVtt (ofZ ms) = msToVtt (ofZ ms).
Proof.
  intros H. split.
  - unfold Legacy.msToSrt, msToSrt. cbv zeta. rewrite round_ofZ by lia.
    rewrite (legacy_hms_fields "," ms H).
    now rewrite (hms_fields "," (ofZ ms) ms H).
  - unfold Legacy.msToVtt, msToVtt. cbv zeta. rewrite round_ofZ by lia.
    rewrite (legacy_hms_fields "." ms H).
    now rewrite (hms_fields "." (ofZ ms) ms H).
Qed.

Lemma legacy_encoders_agree_witness :
  Legacy.msToSrt (ofZ 90061001) = msToSrt (ofZ 90061001)
  /\ Legacy.msToVtt (ofZ 90061001) = msToVtt (ofZ 90061001).
Proof. apply (legacy_encoders_agree 90061001). lia. Defined.

Lemma legacy_msToLrc_fields (ms : Z) :
  0 <= ms < 2 ^ 51 ->
  Legacy.msToLrc (ofZ ms)
  = field 2 (ms / 60000) ++ ":" ++ field 2 (ms mod 60000 / 1000) ++ "."
    ++ field 2 (ms mod 1000 / 10).
Proof.
  intros H. unfold Legacy.msToLrc, field. cbv zeta. rewrite newDate_ofZ by lia.
  unfold Legacy.getUTCSeconds, Legacy.getUTCMilliseconds, Legacy.field.
  pose proof (Z.mod_pos_bound ms 1000 ltac:(lia)).
  rewrite !floor_div_ofZ by lia.
  replace (ms / 1000 mod 60) with (ms mod 60000 / 1000) by divlia.
  reflexivity.
Qed.

(** X9.  The earlier [msToLrc] cuts the time to centiseconds where the
    current one rounds it: they agree when the last digit of the
    milliseconds is below 5, and otherwise the current text is the
    earlier one of the time 10 ms later. *)
Theorem legacy_msToLrc_truncates (ms : Z) :
  0 <= ms < 2 ^ 40 ->
  Legacy.msToLrc (ofZ ms) = msToLrc (ofZ (ms / 10 * 10))
  /\ (ms mod 10 < 5 -> Legacy.msToLrc (ofZ ms) = msToLrc (ofZ ms))
  /\ (5 <= ms mod 10 -> msToLrc (ofZ ms) = Legacy.msToLrc (ofZ (ms + 10))).
Proof.
  intros H.
  assert (E : forall x, 0 <= x < 2 ^ 40 ->
            msToLrc (ofZ x) = Legacy.msToLrc (ofZ (Stated.roundToTen x))).
  { intros x Hx. rewrite msToLrc_fields by lia. cbv zeta.
    assert (0 <= Stated.roundToTen x < 2 ^ 51)
      by (unfold Stated.roundToTen; divlia).
    now rewrite legacy_msToLrc_fields. }
  assert (F : forall x y, 0 <= x < 2 ^ 41 -> 0 <= y < 2 ^ 41 -> x / 10 = y / 10 ->
            Legacy.msToLrc (ofZ x) = Legacy.msToLrc (ofZ y)).
  { intros x y Hx Hy Hxy. rewrite !legacy_msToLrc_fields by lia.
    replace (x / 60000) with (x / 10 / 6000) by divlia.
    replace (y / 60000) with (y / 10 / 6000) by divlia.
    replace (x mod 60000 / 1000) with (x / 10 mod 6000 / 100) by divlia.
    replace (y mod 60000 / 1000) with (y / 10 mod 6000 / 100) by divlia.
    replace (x mod 1000 / 10) with (x / 10 mod 100) by divlia.
    replace (y mod 1000 / 10) with (y / 10 mod 100) by divlia.
    now rewrite Hxy. }
  split; [|split].
  - rewrite E by divlia. apply F; unfold Stated.roundToTen; divlia.
  - intros Hlt. rewrite E by lia. apply F; unfold Stated.roundToTen; divlia.
  - intros Hge. rewrite E by lia. apply F; unfold Stated.roundToTen; divlia.
Qed.

Lemma legacy_msToLrc_truncates_witness :
  Legacy.msToLrc (ofZ 1999) = "00:01.99" /\ msToLrc (ofZ 1999) = "00:02.00"
  /\ Legacy.msToLrc (ofZ 1994) = msToLrc (ofZ 1994).
Proof.
  destruct (legacy_msToLrc_truncates 1999 ltac:(lia)) as (H1 & _ & H3).
  destruct (legacy_msToLrc_truncates 1994 ltac:(lia)) as (_ & H2 & _).
  split; [rewrite H1; vm_compute; reflexivity|].
  split; [rewrite (H3 ltac:(reflexivity || (vm_compute; discriminate))); vm_compute; reflexivity|].
  apply H2. reflexivity.
Defined.

(** ** The earlier decoder *)

Lemma legacy_lrcPattern_respects : respects digitLike LegacyDecoder.lrcPattern.
Proof.
  cbv [LegacyDecoder.lrcPattern seq between times opt chr digit oneOf respects];
    repeat split; respects_class.
Qed.

Lemma legacy_fullPattern_respects : respects digitLike LegacyDecoder.fullPattern.
Proof.
  cbv [LegacyDecoder.fullPattern seq between times opt chr digit oneOf respects];
    repeat split; respects_class.
Qed.

Ltac legacy_patterns :=
  repeat match goal with
  | |- context [exec ?pat ?str] => unfold exec
  | |- context [searchFrom LegacyDecoder.lrcPattern 0 ?str] =>
      eval_search LegacyDecoder.lrcPattern legacy_lrcPattern_respects str
  | |- context [searchFrom LegacyDecoder.fullPattern 0 ?str] =>
      eval_search LegacyDecoder.fullPattern legacy_fullPattern_respects str
  end.

Ltac legacy_shape :=
  all_digit_facts;
  unfold LegacyDecoder.timeToMs; cbn [Js.truthy negb]; cbv zeta;
  match goal with
  | |- context [Js.trim ?t] =>
      replace (Js.trim t) with t
        by (unfold Js.trim, Js.trimStart, Js.trimEnd, Js.rev;
            repeat (cbn [Js.dropWhile Js.rev_onto]; rw_facts); reflexivity)
  end;
  legacy_patterns;
  cbn [option_map toFound slice String.substring map fst snd Nat.sub];
  unfold captured, capturedOr; cbv zeta;
  cbn [group groups Nat.eqb String.length Js.truthy Js.padEnd Js.fill append Nat.sub];
  parse_ints; unfold colonValue, fractionScale;
  cbn [String.length Js.digitsValue]; change (Js.digitVal "0") with 0; arith.

Lemma legacy_timeToMs_full (h m s f : string) (sep : ascii) :
  allDigits h = true -> allDigits m = true ->
  allDigits s = true -> allDigits f = true ->
  (1 <= String.length h <= 2)%nat ->
  String.length m = 2%nat -> String.length s = 2%nat ->
  (1 <= String.length f <= 3)%nat ->
  sep = "."%char \/ sep = ","%char ->
  LegacyDecoder.timeToMs (colonText h m s sep f) = ofZ (colonValue h m s f).
Proof.
  intros Dh Dm Ds Df Lh Lm Ls Lf Hsep.
  by_length h Lh; by_length m Lm; by_length s Ls; by_length f Lf;
    destruct Hsep as [-> | ->]; split_digits;
    unfold colonText; cbn [append]; legacy_shape.
Qed.

Lemma legacy_timeToMs_lrc (m s f : string) :
  allDigits m = true -> allDigits s = true -> allDigits f = true ->
  (1 <= String.length m <= 2)%nat -> String.length s = 2%nat ->
  (String.length f <= 3)%nat ->
  LegacyDecoder.timeToMs
    (m ++ ":" ++ s ++ match f with EmptyString => "" | _ => "." ++ f end)
  = ofZ (colonValue "" m s f).
Proof.
  intros Dm Ds Df Lm Ls Lf.
  by_length m Lm; by_length s Ls; by_length f Lf; split_digits;
    cbn [append]; legacy_shape.
Qed.

Lemma timeToMs_lrc_shapes (m s f : string) :
  allDigits m = true -> allDigits s = true -> allDigits f = true ->
  (1 <= String.length m <= 2)%nat -> String.length s = 2%nat ->
  (String.length f <= 3)%nat ->
  timeToMs (m ++ ":" ++ s ++ match f with EmptyString => "" | _ => "." ++ f end)
  = ofZ (colonValue "" m s f).
Proof.
  intros Dm Ds Df Lm Ls Lf. destruct f as [|c f].
  - rewrite append_empty.
    destruct (timeToMs_without_fraction_lemma m s Dm Ds Lm) as [H _].
    rewrite (H Ls). unfold colonValue. cbn [Js.digitsValue]. f_equal. lia.
  - change (m ++ ":" ++ s ++ "." ++ String c f)
      with (colonText "" m s "." (String c f)).
    apply timeToMs_colon_formats; try assumption; try reflexivity;
      cbn [String.length] in *; try lia.
    now left.
Qed.

(** X10.  The current decoder extends the earlier one: on the texts that
    the earlier rules read (hours of one or two digits with two digits
    of minutes and of seconds and a fraction; minutes with two digits of
    seconds and an optional fraction after a dot) both give the same
    value. *)
Theorem legacy_timeToMs_agrees :
  (forall h m s f sep,
      allDigits h = true -> allDigits m = true ->
      allDigits s = true -> allDigits f = true ->
      (1 <= String.length h <= 2)%nat ->
      String.length m = 2%nat -> String.length s = 2%nat ->
      (1 <= String.length f <= 3)%nat ->
      sep = "."%char \/ sep = ","%char ->
      LegacyDecoder.timeToMs (colonText h m s sep f) = timeToMs (colonText h m s sep f))
  /\ (forall m s f,
      allDigits m = true -> allDigits s = true -> allDigits f = true ->
      (1 <= String.length m <= 2)%nat -> String.length s = 2%nat ->
      (String.length f <= 3)%nat ->
      LegacyDecoder.timeToMs
        (m ++ ":" ++ s ++ match f with EmptyString => "" | _ => "." ++ f end)
      = timeToMs
          (m ++ ":" ++ s ++ match f with EmptyString => "" | _ => "." ++ f end)).
Proof.
  split.
  - intros h m s f sep Dh Dm Ds Df Lh Lm Ls Lf Hsep.
    rewrite legacy_timeToMs_full by assumption.
    rewrite timeToMs_colon_formats; try assumption; try lia. reflexivity.
  - intros m s f Dm Ds Df Lm Ls Lf.
    rewrite legacy_timeToMs_lrc, timeToMs_lrc_shapes by assumption. reflexivity.
Qed.

Lemma legacy_timeToMs_agrees_witness :
  LegacyDecoder.timeToMs "01:02:03,450" = timeToMs "01:02:03,450"
  /\ LegacyDecoder.timeToMs "1:02.5" = timeToMs "1:02.5"
  /\ LegacyDecoder.timeToMs "12:34" = timeToMs "12:34".
Proof.
  destruct legacy_timeToMs_agrees as [Hfull Hlrc].
  split; [|split].
  - apply (Hfull "01" "02" "03" "450" ","%char); try reflexivity; simpl; try lia.
    now right.
  - apply (Hlrc "1" "02" "5"); try reflexivity; simpl; lia.
  - apply (Hlrc "12" "34" ""); try reflexivity; simpl; lia.
Defined.

(** X11.  The round trips of the earlier revision: SRT and VTT give the
    time back below 100 hours, and LRC gives the time cut to a multiple
    of 10 ms on the whole range below 100 minutes. *)
Theorem legacy_round_trip (ms : Z) :
  (0 <= ms < 360000000 ->
   LegacyDecoder.timeToMs (Legacy.msToSrt (ofZ ms)) = ofZ ms
   /\ LegacyDecoder.timeToMs (Legacy.msToVtt (ofZ ms)) = ofZ ms)
  /\ (0 <= ms < 6000000 ->
      LegacyDecoder.timeToMs (Legacy.msToLrc (ofZ ms)) = ofZ (ms / 10 * 10)).
Proof.
  split; intros H.
  - assert (W : forall sep : ascii, sep = "."%char \/ sep = ","%char ->
        LegacyDecoder.timeToMs
          (field 2 (ms / 3600000) ++ ":" ++ field 2 (ms mod 3600000 / 60000) ++ ":"
           ++ field 2 (ms mod 60000 / 1000) ++ String sep "" ++ field 3 (ms mod 1000))
        = ofZ ms).
    { intros sep Hsep.
      pose proof (Z.mod_pos_bound ms 3600000 ltac:(lia)).
      pose proof (Z.mod_pos_bound ms 60000 ltac:(lia)).
      pose proof (Z.mod_pos_bound ms 1000 ltac:(lia)).
      assert (Bh : 0 <= ms / 3600000 < 100) by divlia.
      assert (Bm : 0 <= ms mod 3600000 / 60000 < 100) by divlia.
      assert (Bs : 0 <= ms mod 60000 / 1000 < 100) by divlia.
      destruct (field_two _ Bh) as (Dh & Lh & Vh).
      destruct (field_two _ Bm) as (Dm & Lm & Vm).
      destruct (field_two _ Bs) as (Ds & Ls & Vs).
      destruct (field_three (ms mod 1000) ltac:(lia)) as (Df & Lf & Vf).
      change (String sep "" ++ field 3 (ms mod 1000))
        with (String sep (field 3 (ms mod 1000))).
      rewrite colonText_hours by (eapply length_nonempty; exact Lh).
      rewrite legacy_timeToMs_full; try assumption; try lia.
      unfold colonValue, fractionScale. rewrite Vh, Vm, Vs, Vf, Lf.
      f_equal. divlia. }
    split.
    + unfold Legacy.msToSrt. cbv zeta.
      rewrite (legacy_hms_fields "," ms) by lia. apply W. now right.
    + unfold Legacy.msToVtt. cbv zeta.
      rewrite (legacy_hms_fields "." ms) by lia. apply W. now left.
  - rewrite legacy_msToLrc_fields by lia.
    pose proof (Z.mod_pos_bound ms 60000 ltac:(lia)).
    pose proof (Z.mod_pos_bound ms 1000 ltac:(lia)).
    assert (Bm : 0 <= ms / 60000 < 100) by divlia.
    assert (Bs : 0 <= ms mod 60000 / 1000 < 100) by divlia.
    assert (Bc : 0 <= ms mod 1000 / 10 < 100) by divlia.
    destruct (field_two _ Bm) as (Dm & Lm & Vm).
    destruct (field_two _ Bs) as (Ds & Ls & Vs).
    destruct (field_two _ Bc) as (Dc & Lc & Vc).
    pose proof (legacy_timeToMs_lrc (field 2 (ms / 60000)) (field 2 (ms mod 60000 / 1000))
                  (field 2 (ms mod 1000 / 10)) Dm Ds Dc ltac:(lia) Ls ltac:(lia)) as E.
    destruct (field 2 (ms mod 1000 / 10)) as [|c f] eqn:Ef; [discriminate Lc|].
    cbn [append] in E |- *. rewrite E.
    unfold colonValue, fractionScale. rewrite Vm, Vs, Vc, Lc.
    f_equal. cbn [Js.digitsValue]. divlia.
Qed.

Lemma legacy_round_trip_witness :
  LegacyDecoder.timeToMs (Legacy.msToSrt (ofZ 3661001)) = ofZ 3661001
  /\ LegacyDecoder.timeToMs (Legacy.msToLrc (ofZ 5999999)) = ofZ 5999990.
Proof.
  destruct (legacy_round_trip 3661001) as [H1 _].
  destruct (legacy_round_trip 5999999) as [_ H2].
  split; [apply H1; lia|apply H2; lia].
Defined.

(** ** What detectFormat makes of the serializers' output *)

Lemma detectFormat_sniff (filename content : string) :
  Stated.byExtension filename = None ->
  detectFormat filename content = Stated.sniff (Js.trim content) content.
Proof.
  unfold Stated.byExtension, detectFormat, Stated.sniff.
  destruct (Js.endsWith filename ".lrc"); [discriminate|].
  destruct (Js.endsWith filename ".srt"); [discriminate|].
  destruct (Js.endsWith filename ".vtt"); [discriminate|].
  destruct (Js.endsWith filename ".xml"); [discriminate|].
  destruct (Js.endsWith filename ".ttml"); [discriminate|].
  destruct (Js.endsWith filename ".json"); [discriminate|].
  destruct (Js.endsWith filename ".txt"); [discriminate|].
  reflexivity.
Qed.

Lemma dropWhile_keeps_tail (p : ascii -> bool) (c : ascii) (a b : string) :
  p c = false ->
  exists u, Js.dropWhile p (a ++ String c b) = u ++ String c b.
Proof.
  intros Hc. induction a as [|x a IH]; cbn [append Js.dropWhile].
  - rewrite Hc. now exists "".
  - destruct (p x); [exact IH|]. now exists (String x a).
Qed.

(** Trimming keeps a prefix that ends in a character other than white
    space, when the text starts with none either. *)
Lemma trimEnd_prefix (x : string) (d : ascii) (rest : string) :
  Js.isSpace d = false ->
  exists u, Js.trimEnd (x ++ String d rest) = x ++ String d u.
Proof.
  intros Hd. unfold Js.trimEnd.
  replace (x ++ String d rest) with ((x ++ String d "") ++ rest)
    by (rewrite append_assoc; reflexivity).
  rewrite rev_append, rev_append. change (Js.rev (String d "")) with (String d "").
  cbn [append].
  destruct (dropWhile_keeps_tail Js.isSpace d (Js.rev rest) (Js.rev x) Hd) as (u & ->).
  exists (Js.rev u).
  change (String d (Js.rev x)) with (Js.rev (String d "") ++ Js.rev x).
  rewrite <- rev_append, rev_append, rev_involutive, append_assoc. reflexivity.
Qed.

Lemma isPrefix_append (p s : string) : Js.isPrefix p (p ++ s) = true.
Proof. induction p as [|c p IH]; [reflexivity|]. cbn. now rewrite Ascii.eqb_refl. Qed.

Lemma includes_append (a s p : string) :
  Js.includes s p = true -> Js.includes (a ++ s) p = true.
Proof.
  intros H. induction a as [|c a IH]; [exact H|].
  cbn [append Js.includes]. rewrite IH. now destruct (Js.isPrefix p (String c (a ++ s))).
Qed.

Lemma includes_prefix (p s : string) : Js.includes (p ++ s) p = true.
Proof.
  destruct (p ++ s) eqn:E; cbn [Js.includes]; rewrite <- E, isPrefix_append;
    reflexivity.
Qed.

Lemma sniff_WEBVTT (rest : string) :
  Stated.sniff (Js.trim ("WEBVTT" ++ rest)) ("WEBVTT" ++ rest) = VTT.
Proof.
  destruct (trimEnd_prefix "WEBVT" "T" rest eq_refl) as (u & E).
  unfold Js.trim, Js.trimStart. cbn [append Js.dropWhile] in *.
  change (Js.isSpace "W") with false. cbv iota. rewrite E. reflexivity.
Qed.

Lemma sniffed_stringifyVTT
  (filename : string) (cues : list Cue) (karaoke : bool) (metadata : option Metadata) :
  Stated.byExtension filename = None ->
  detectFormat filename (stringifyVTT cues karaoke metadata) = VTT.
Proof.
  intros H. rewrite (detectFormat_sniff _ _ H). unfold stringifyVTT.
  destruct metadata as [md|]; [destruct (title md) as [t|]; [destruct (Js.truthy t)|]|];
    cbv zeta; rewrite ?append_assoc; apply sniff_WEBVTT.
Qed.


Lemma trim_head (c : ascii) (s : string) :
  Js.isSpace c = false -> exists u, Js.trim (String c s) = String c u.
Proof.
  intros Hc. unfold Js.trim, Js.trimStart. cbn [Js.dropWhile]. rewrite Hc.
  now apply trimEnd_head.
Qed.

Lemma sniffed_stringifyTTML
  (filename : string) (cues : list Cue) (karaoke : bool) :
  Stated.byExtension filename = None ->
  detectFormat filename (stringifyTTML cues karaoke) = TTML.
Proof.
  intros H. rewrite (detectFormat_sniff _ _ H). unfold stringifyTTML. cbv zeta.
  set (body := Js.join LF (map (ttmlParagraph karaoke) cues)).
  set (rest := quote ++ " lang=" ++ quote ++ "en" ++ quote ++ ">" ++ LF ++
               "  <body>" ++ LF ++ "    <div>" ++ LF ++ body ++ LF ++
               "    </div>" ++ LF ++ "  </body>" ++ LF ++ "</tt>").
  set (ns := "http://www.w3.org/ns/ttml").
  set (opening := "?xml version=" ++ quote ++ "1.0" ++ quote ++ " encoding=" ++ quote ++
               "UTF-8" ++ quote ++ "?>" ++ LF ++ "<tt xmlns=" ++ quote).
  change (Stated.sniff (Js.trim (String "<" (opening ++ ns ++ rest)))
            (String "<" opening ++ ns ++ rest) = TTML).
  assert (Hinc : Js.includes (String "<" opening ++ ns ++ rest) ns = true)
    by (apply includes_append, includes_prefix).
  destruct (trim_head "<" (opening ++ ns ++ rest) eq_refl) as (v & ->).
  unfold Stated.sniff. subst ns. rewrite Hinc. reflexivity.
Qed.


(** A text that is empty or starts with a bracket. *)
Lemma bracketed_append (a b : string) :
  (a = "" \/ exists r, a = String "[" r) ->
  (b = "" \/ exists r, b = String "[" r) ->
  a ++ b = "" \/ exists r, a ++ b = String "[" r.
Proof.
  intros [->|(r & ->)] Hb; [exact Hb|]. right. now exists (r ++ b).
Qed.

Lemma headerLine_bracketed (tag : string) (field : option string) :
  headerLine tag field = "" \/ exists r, headerLine tag field = String "[" r.
Proof.
  unfold headerLine. destruct field as [v|]; [|now left].
  destruct (Js.truthy v); [|now left]. right. eexists. reflexivity.
Qed.

Lemma stringifyLRC_bracketed
  (cues : list Cue) (enhanced : bool) (metadata : option Metadata) :
  stringifyLRC cues enhanced metadata = ""
  \/ exists r, stringifyLRC cues enhanced metadata = String "[" r.
Proof.
  unfold stringifyLRC. cbv zeta. apply bracketed_append.
  - destruct metadata as [md|]; [|now left].
    repeat apply bracketed_append; apply headerLine_bracketed.
  - destruct cues as [|c cs]; [now left|]. right.
    destruct cs; cbn [map Js.join]; unfold lrcLine at 1; cbv zeta;
      destruct (enhanced && hasWords c)%bool; cbn [append];
      eexists; reflexivity.
Qed.

Lemma sniffed_stringifyLRC
  (filename : string) (cues : list Cue) (enhanced : bool) (metadata : option Metadata) :
  Stated.byExtension filename = None ->
  stringifyLRC cues enhanced metadata <> "" ->
  detectFormat filename (stringifyLRC cues enhanced metadata) = JSON.
Proof.
  intros H Hne. rewrite (detectFormat_sniff _ _ H).
  destruct (stringifyLRC_bracketed cues enhanced metadata) as [E|(r & ->)];
    [congruence|].
  destruct (trim_head "[" r eq_refl) as (v & ->). reflexivity.
Qed.


(** X13.  What the serializers write is not always detected as what it
    is: without a known extension, the VTT text is detected as VTT and
    the TTML text as TTML, but the LRC text, as soon as it is not
    empty, is detected as JSON, since it starts with a bracket. *)
Theorem detectFormat_written
  (filename : string) (cues : list Cue) (flag : bool) (metadata : option Metadata) :
  Stated.byExtension filename = None ->
  detectFormat filename (stringifyVTT cues flag metadata) = VTT
  /\ detectFormat filename (stringifyTTML cues flag) = TTML
  /\ (stringifyLRC cues flag metadata <> "" ->
      detectFormat filename (stringifyLRC cues flag metadata) = JSON).
Proof.
  intros H. split; [|split].
  - now apply sniffed_stringifyVTT.
  - now apply sniffed_stringifyTTML.
  - now apply sniffed_stringifyLRC.
Qed.

Lemma detectFormat_written_witness :
  detectFormat "lyrics" (stringifyVTT [Samples.cueAtFive] false None) = VTT
  /\ detectFormat "lyrics" (stringifyTTML [Samples.cueAtFive] false) = TTML
  /\ (stringifyLRC [Samples.cueAtFive] false None <> "" ->
      detectFormat "lyrics" (stringifyLRC [Samples.cueAtFive] false None) = JSON).
Proof. apply (detectFormat_written "lyrics" [Samples.cueAtFive] false None). reflexivity. Defined.

(** X12.  A document is detected as LRC exactly when the file name ends
    in [.lrc]: the content alone never makes it LRC, since a text that
    starts with a bracketed time stamp starts with a bracket and is
    taken for JSON. *)
Theorem detectFormat_LRC_by_extension (filename content : string) :
  detectFormat filename content = LRC <-> Js.endsWith filename ".lrc" = true.
Proof.
  split.
  - apply detectFormat_LRC.
  - intros H. unfold detectFormat. rewrite H. reflexivity.
Qed.

(** ** Serializing cues that carry no words *)

(** X14.  When no cue has words, the enhanced and karaoke formats are
    written exactly as the plain ones. *)
Theorem karaoke_without_words
  (JSON_stringify : option Metadata -> list Cue -> string)
  (cues : list Cue) (metadata : option Metadata) :
  (forall c, In c cues -> hasWords c = false) ->
  stringifyContent JSON_stringify cues LRC_ENHANCED metadata
  = stringifyContent JSON_stringify cues LRC metadata
  /\ stringifyContent JSON_stringify cues VTT_KARAOKE metadata
     = stringifyContent JSON_stringify cues VTT metadata
  /\ stringifyContent JSON_stringify cues TTML_KARAOKE metadata
     = stringifyContent JSON_stringify cues TTML metadata.
Proof.
  intros H. unfold stringifyContent, stringifyLRC, stringifyVTT, stringifyTTML.
  cbv zeta.
  assert (Hl : map (lrcLine true) cues = map (lrcLine false) cues).
  { apply map_ext_in. intros c Hc. unfold lrcLine. now rewrite (H c Hc). }
  assert (Hv : map (vttBlock true) cues = map (vttBlock false) cues).
  { apply map_ext_in. intros c Hc. unfold vttBlock. now rewrite (H c Hc). }
  assert (Ht : map (ttmlParagraph true) cues = map (ttmlParagraph false) cues).
  { apply map_ext_in. intros c Hc. unfold ttmlParagraph. now rewrite (H c Hc). }
  rewrite Hl, Hv, Ht. repeat split.
Qed.

Lemma karaoke_without_words_witness :
  stringifyContent (fun _ _ => "") [mkCue "a" (ofZ 0) (ofZ 1000) "la la" (Some [])]
    VTT_KARAOKE None
  = stringifyContent (fun _ _ => "") [mkCue "a" (ofZ 0) (ofZ 1000) "la la" (Some [])]
      VTT None.
Proof.
  apply (karaoke_without_words (fun _ _ => "")
           [mkCue "a" (ofZ 0) (ofZ 1000) "la la" (Some [])] None).
  intros c [<-|[]]. reflexivity.
Defined.

(** ** Invariants of parseLRC *)

Lemma chainEnds_In (l : list Cue) (c : Cue) :
  In c (Stated.chainEnds l) ->
  exists c0, In c0 l /\ id c = id c0 /\ start c = start c0
             /\ text c = text c0 /\ words c = words c0.
Proof.
  induction l as [|x l IH]; [intros []|].
  destruct l as [|y l'].
  - intros [<-|[]]. exists x. repeat split. now left.
  - cbn [Stated.chainEnds]. intros [<-|Hc].
    + exists x. repeat split. now left.
    + destruct (IH Hc) as (c0 & Hin & E). exists c0. split; [now right|exact E].
Qed.

Lemma filterMap_In {A B : Type} (f : A -> option B) (l : list A) (y : B) :
  In y (filterMap f l) -> exists x, In x l /\ f x = Some y.
Proof.
  induction l as [|x l IH]; [intros []|]. cbn [filterMap].
  destruct (f x) eqn:E.
  - intros [<-|Hy]; [exists x; split; [now left|exact E]|].
    destruct (IH Hy) as (x' & Hin & Hf). exists x'. split; [now right|exact Hf].
  - intros Hy. destruct (IH Hy) as (x' & Hin & Hf). exists x'. split; [now right|exact Hf].
Qed.

(** X15.  The words of a cue read from LRC are absent or at least one,
    never an empty list, and a word has a start and no end. *)
Theorem parseLRC_words (content : string) (c : Cue) :
  In c (cues (parseLRC content)) ->
  words c <> Some []
  /\ (forall ws w, words c = Some ws -> In w ws ->
        w_end w = None /\ exists t, w_start w = Some t).
Proof.
  unfold parseLRC. cbn [cues]. rewrite inferEnds_chainEnds. intros Hc.
  destruct (chainEnds_In _ _ Hc) as (c0 & Hin & _ & _ & _ & ->).
  destruct (filterMap_In _ _ _ Hin) as ((index & line) & _ & Hf).
  unfold lrcCue in Hf.
  destruct (Regex.exec lrcLinePattern line) as [m|]; [|discriminate].
  destruct (Js.includes _ _ && Js.includes _ _)%bool.
  - injection Hf as <-. cbn [words].
    destruct (map (lrcWord index) (matches lrcWordPattern (captured 2 m))) as [|w0 ws0] eqn:E.
    + split; [discriminate|]. intros ws w Hw. discriminate.
    + split; [discriminate|]. intros ws w Hw Hin'. injection Hw as <-.
      rewrite <- E in Hin'. apply in_map_iff in Hin' as (wm & <- & _).
      split; [reflexivity|]. eexists. reflexivity.
  - injection Hf as <-. cbn [words]. split; [discriminate|]. intros ws w Hw. discriminate.
Qed.

Lemma parseLRC_words_witness :
  exists c ws,
    In c (cues (parseLRC Samples.lrcWithWords))
    /\ words c = Some ws /\ words c <> Some []
    /\ forall w, In w ws -> w_end w = None.
Proof.
  assert (Hin : In (mkCue "lrc-0" (ofZ 1000) (ofZ 4000) "la li"
                      (Some [mkWord "w-0-0" "la" (Some (ofZ 1000)) None;
                             mkWord "w-0-13" "li" (Some (ofZ 1500)) None]))
                   (cues (parseLRC Samples.lrcWithWords)))
    by (vm_compute; left; reflexivity).
  destruct (parseLRC_words _ _ Hin) as [Hne Hw].
  eexists. eexists. split; [exact Hin|]. split; [reflexivity|]. split; [exact Hne|].
  intros w Hwin. destruct (Hw _ w eq_refl Hwin) as [He _]. exact He.
Defined.

(** ** From LRC to plain text *)

Lemma gap_of_equal_times (x : number) :
  SFleb stanzaBreakThreshold (sub x x) = false.
Proof.
  destruct x as [s|s| |s m e]; try reflexivity.
  - destruct s; reflexivity.
  - destruct s; reflexivity.
  - unfold sub, SFsub. rewrite Z.sub_diag. reflexivity.
Qed.

Lemma chainEnds_head (c : Cue) (l : list Cue) :
  exists y t, Stated.chainEnds (c :: l) = y :: t
              /\ start y = start c /\ text y = text c.
Proof.
  destruct l as [|next rest]; cbn [Stated.chainEnds]; eexists; eexists;
    repeat split.
Qed.

Lemma txtLines_chainEnds (l : list Cue) :
  txtLines (Stated.chainEnds l) = plainLines l.
Proof.
  induction l as [|c l IH]; [reflexivity|].
  destruct l as [|next rest]; [reflexivity|].
  change (Stated.chainEnds (c :: next :: rest))
    with (setEnd (start next) c :: Stated.chainEnds (next :: rest)).
  change (plainLines (c :: next :: rest))
    with (text c ++ LF ++ plainLines (next :: rest)).
  destruct (chainEnds_head next rest) as (y & t & E & Hs & Ht).
  rewrite <- IH, E. cbn [txtLines]. unfold setEnd. cbn [end_ text].
  rewrite Hs, gap_of_equal_times. reflexivity.
Qed.

Lemma plainLines_chainEnds (l : list Cue) :
  plainLines (Stated.chainEnds l) = plainLines l.
Proof.
  induction l as [|c l IH]; [reflexivity|].
  destruct l as [|next rest]; [reflexivity|].
  change (Stated.chainEnds (c :: next :: rest))
    with (setEnd (start next) c :: Stated.chainEnds (next :: rest)).
  change (plainLines (c :: next :: rest))
    with (text c ++ LF ++ plainLines (next :: rest)).
  rewrite <- IH. reflexivity.
Qed.

(** X16.  Cues read from LRC are written to plain text without any
    stanza break: each cue ends where the next one starts, so no gap
    reaches the threshold. *)
Theorem stringifyTXT_parseLRC (content : string) :
  stringifyTXT (cues (parseLRC content))
  = Js.trim (plainLines (cues (parseLRC content))).
Proof.
  unfold stringifyTXT, parseLRC. cbn [cues]. rewrite inferEnds_chainEnds.
  now rewrite txtLines_chainEnds, plainLines_chainEnds.
Qed.

(** ** Plain text read as cues *)

Lemma ofNat_succ (i : nat) :
  Z.of_nat i < 2 ^ 52 -> add (ofNat i) (ofZ 1) = ofNat (S i).
Proof.
  intros H. unfold ofNat. rewrite add_ofZ by lia. f_equal. lia.
Qed.

(** X17.  Plain text read as cues: the parse never fails and has no
    metadata; the cue of rank i has the id [txt-i], no words and a text
    that is a line of the content trimmed and not empty, and it lasts
    from 2000 i to 2000 i + 2000 ms. *)
Theorem parseContent_TXT
  (parseXml : string -> list Dom.node)
  (JSON_parse : string -> option Json.value) (content : string) :
  exists r,
    parseContent parseXml JSON_parse content TXT = Some r
    /\ metadata r = noMetadata
    /\ forall i c,
         nth_error (cues r) i = Some c ->
         id c = "txt-" ++ Js.natToString i
         /\ text c <> "" /\ words c = None
         /\ (exists l, In l (split newlinePattern content) /\ text c = Js.trim l)
         /\ (Z.of_nat i < 2 ^ 40 ->
             start c = ofZ (2000 * Z.of_nat i)
             /\ end_ c = ofZ (2000 * Z.of_nat i + 2000)).
Proof.
  exists (mkResult
            (map txtCue
               (indexed
                  (filter (fun l => Js.truthy (Js.trim l))
                     (split newlinePattern content))))
            noMetadata).
  split; [reflexivity|]. split; [reflexivity|].
  intros i c. cbn [cues]. rewrite nth_error_map, nth_error_indexed.
  destruct (nth_error _ i) as [l|] eqn:E; [|discriminate].
  cbn [option_map]. intros H. injection H as <-. cbn [txtCue id text words start end_].
  apply nth_error_In, filter_In in E as [Hin Ht].
  split; [reflexivity|]. split; [destruct (Js.trim l); [discriminate|discriminate]|].
  split; [reflexivity|]. split; [now exists l|].
  intros Hi.
  change (binary_round prec emax false 2000 0) with (ofZ 2000).
  change (binary_round prec emax false 1 0) with (ofZ 1).
  rewrite ofNat_succ by lia. unfold ofNat.
  rewrite !mul_ofZ by lia. split; f_equal; lia.
Qed.

Lemma parseContent_TXT_witness :
  exists r c,
    parseContent (fun _ => []) Json.parse Samples.txtTwoLines TXT = Some r
    /\ nth_error (cues r) 1 = Some c
    /\ id c = "txt-1" /\ text c = "two"
    /\ start c = ofZ 2000 /\ end_ c = ofZ 4000.
Proof.
  destruct (parseContent_TXT (fun _ => []) Json.parse Samples.txtTwoLines)
    as (r & Hr & _ & Hc).
  assert (E : r = mkResult [mkCue "txt-0" (ofZ 0) (ofZ 2000) "one" None;
                            mkCue "txt-1" (ofZ 2000) (ofZ 4000) "two" None]
                           noMetadata)
    by (apply (f_equal (fun o => match o with Some x => x | None => r end)) in Hr;
        rewrite <- Hr; vm_compute; reflexivity).
  exists r. eexists. split; [exact Hr|].
  assert (H1 : nth_error (cues r) 1
               = Some (mkCue "txt-1" (ofZ 2000) (ofZ 4000) "two" None))
    by (rewrite E; reflexivity).
  split; [exact H1|].
  destruct (Hc 1%nat _ H1) as (Hid & _ & _ & _ & Ht).
  destruct (Ht ltac:(simpl; lia)) as [Hs He].
  split; [exact Hid|]. split; [reflexivity|]. split; [exact Hs|exact He].
Defined.

(** ** JSON documents that are not cue lists *)

Lemma each_thrown {A B : Type} (f : A -> attempt B) (l : list A) (x : A) :
  In x l -> f x = Thrown -> each f l = Thrown.
Proof.
  intros Hin Hx. induction l as [|y l IH]; [destruct Hin|].
  cbn [each]. unfold bind at 1. destruct Hin as [->|Hin].
  - now rewrite Hx.
  - destruct (f y); [reflexivity|]. rewrite (IH Hin). reflexivity.
Qed.

Lemma indexed_In {A : Type} (l : list A) (x : A) :
  In x l -> exists i, In (i, x) (indexed l).
Proof.
  intros Hin. apply In_nth_error in Hin as (i & Hi). exists i.
  apply (nth_error_In _ i). rewrite nth_error_indexed, Hi. reflexivity.
Qed.

Lemma jsonCue_null (i : nat) : jsonCue (i, Json.JNull) = Thrown.
Proof. reflexivity. Qed.

(** X18.  Valid JSON that is not a cue list gives the empty result: the
    document [null], an array with a [null] element, and an object
    whose [cues] is truthy and not an array. *)
Theorem parseJSON_unusable_document
  (parseXml : string -> list Dom.node)
  (JSON_parse : string -> option Json.value) (content : string) (v : Json.value) :
  JSON_parse content = Some v ->
  v = Json.JNull
  \/ (exists items, v = Json.JArray items /\ In Json.JNull items)
  \/ (exists ms x, v = Json.JObject ms /\ Json.member "cues" ms = Some x
                   /\ Json.truthy x = true /\ forall items, x <> Json.JArray items) ->
  parseContent parseXml JSON_parse content JSON = Some (mkResult [] noMetadata).
Proof.
  intros Hv Hcase. unfold parseContent. apply (parseJSON_thrown _ _ v Hv).
  destruct Hcase as [->|[(items & -> & Hin)|(ms & x & -> & Hm & Ht & Hx)]].
  - reflexivity.
  - unfold sanitize. cbn [bind].
    destruct (indexed_In items _ Hin) as (i & Hi).
    rewrite (each_thrown jsonCue _ _ Hi (jsonCue_null i)). reflexivity.
  - unfold sanitize, prop. cbn [bind]. rewrite Hm.
    destruct x; try discriminate Ht; try reflexivity;
      try (rewrite Ht; reflexivity).
    exfalso. now apply (Hx items).
Qed.

Lemma parseJSON_unusable_document_witness :
  parseContent (fun _ => []) Json.parse "[null]" JSON = Some (mkResult [] noMetadata)
  /\ parseContent (fun _ => []) Json.parse "null" JSON = Some (mkResult [] noMetadata).
Proof.
  split.
  - apply (parseJSON_unusable_document (fun _ => []) Json.parse "[null]"
             (Json.JArray [Json.JNull])); [reflexivity|].
    right. left. exists [Json.JNull]. split; [reflexivity|now left].
  - apply (parseJSON_unusable_document (fun _ => []) Json.parse "null" Json.JNull);
      [reflexivity|now left].
Defined.

(** X19.  Valid JSON without cues gives no cues and the default metadata
    of four empty texts (not the empty metadata of the failure case):
    the empty array, a boolean, a number, a text, and an object whose
    [cues] and [metadata] are absent or falsy. *)
Theorem parseJSON_without_cues
  (parseXml : string -> list Dom.node)
  (JSON_parse : string -> option Json.value) (content : string) (v : Json.value) :
  JSON_parse content = Some v ->
  v = Json.JArray []
  \/ (exists b, v = Json.JBool b) \/ (exists n, v = Json.JNumber n)
  \/ (exists s, v = Json.JString s)
  \/ (exists ms, v = Json.JObject ms
                 /\ truthyProp (Json.member "cues" ms) = false
                 /\ truthyProp (Json.member "metadata" ms) = false) ->
  parseContent parseXml JSON_parse content JSON
  = Some (mkResult [] (mkMetadata (Some "") (Some "") (Some "") (Some ""))).
Proof.
  intros Hv Hcase. unfold parseContent, parseJSON. rewrite Hv.
  destruct Hcase as [->|[(b & ->)|[(n & ->)|[(s & ->)|(ms & -> & Hc & Hm)]]]];
    try reflexivity.
  unfold sanitize, prop. cbn [bind].
  destruct (Json.member "cues" ms) as [x|]; destruct (Json.member "metadata" ms) as [y|];
    cbn [truthyProp] in Hc, Hm; rewrite ?Hc, ?Hm.
  - destruct x; try discriminate Hc; reflexivity.
  - destruct x; try discriminate Hc; reflexivity.
  - reflexivity.
  - reflexivity.
Qed.

Lemma parseJSON_without_cues_witness :
  parseContent (fun _ => []) Json.parse "{}" JSON
  = Some (mkResult [] (mkMetadata (Some "") (Some "") (Some "") (Some ""))).
Proof.
  apply (parseJSON_without_cues (fun _ => []) Json.parse "{}" (Json.JObject []));
    [reflexivity|].
  do 4 right. exists []. repeat split.
Defined.

(** ** The ids of parsed cues *)

Lemma digitsValue_shift (s : string) (k : Z) :
  Js.digitsValue k s
  = k * 10 ^ Z.of_nat (String.length s) + Js.digitsValue 0 s.
Proof.
  revert k. induction s as [|c s IH]; intros k.
  - cbn. lia.
  - cbn [Js.digitsValue String.length]. rewrite IH, (IH (10 * 0 + Js.digitVal c)).
    rewrite Nat2Z.inj_succ, Z.pow_succ_r by lia. ring.
Qed.

Lemma digitVal_digitChar (d : Z) : 0 <= d < 10 -> Js.digitVal (Js.digitChar d) = d.
Proof.
  intros H. assert (E : d = 0 \/ d = 1 \/ d = 2 \/ d = 3 \/ d = 4 \/ d = 5 \/ d = 6
                     \/ d = 7 \/ d = 8 \/ d = 9) by lia.
  repeat destruct E as [->|E]; try subst d; reflexivity.
Qed.

Lemma digitsOnto_value (fuel : nat) (n : Z) (acc : string) :
  0 <= n < 2 ^ Z.of_nat fuel ->
  Js.digitsValue 0 (Js.digitsOnto fuel n acc)
  = n * 10 ^ Z.of_nat (String.length acc) + Js.digitsValue 0 acc.
Proof.
  revert n acc. induction fuel as [|fuel IH]; intros n acc H.
  - cbn in H. assert (n = 0) by lia. subst n. cbn [Js.digitsOnto]. lia.
  - cbn [Js.digitsOnto].
    assert (Hd : 0 <= n mod 10 < 10) by (apply Z.mod_pos_bound; lia).
    destruct (n <? 10) eqn:E.
    + apply Z.ltb_lt in E. cbn [Js.digitsValue]. rewrite digitsValue_shift.
      rewrite digitVal_digitChar by lia. rewrite Z.mod_small by lia. lia.
    + apply Z.ltb_ge in E. rewrite IH.
      * cbn [Js.digitsValue String.length]. rewrite (digitsValue_shift acc).
        rewrite digitVal_digitChar by lia.
        rewrite Nat2Z.inj_succ, Z.pow_succ_r by lia.
        pose proof (Z.div_mod n 10 ltac:(lia)). nia.
      * rewrite Nat2Z.inj_succ, Z.pow_succ_r in H by lia.
        split; [apply Z.div_pos; lia|].
        apply Z.div_lt_upper_bound; lia.
Qed.

Lemma digits_value (n : Z) : 0 <= n -> Js.digitsValue 0 (Js.digits n) = n.
Proof.
  intros H. unfold Js.digits. rewrite digitsOnto_value.
  - cbn. lia.
  - split; [exact H|].
    rewrite Nat2Z.inj_succ, Z2Nat.id by apply Z.log2_nonneg.
    destruct (Z.eq_dec n 0) as [->|N]; [reflexivity|].
    apply Z.log2_spec. lia.
Qed.

Lemma natToString_injective (i j : nat) :
  Js.natToString i = Js.natToString j -> i = j.
Proof.
  intros H. apply (f_equal (Js.digitsValue 0)) in H.
  unfold Js.natToString in H. rewrite !digits_value in H by lia. lia.
Qed.

Lemma append_injective (p a b : string) : p ++ a = p ++ b -> a = b.
Proof. induction p as [|c p IH]; [auto|]. cbn. intros H. injection H as H. auto. Qed.

Section Ids.

Variable A : Type.
Variable f : nat * A -> option Cue.
Variable prefix : string.
Hypothesis f_id : forall i x c, f (i, x) = Some c -> id c = prefix ++ Js.natToString i.

Lemma ids_from (l : list A) (k : nat) (s : string) :
  In s (map id (filterMap f (combine (List.seq k (List.length l)) l))) ->
  exists j, (k <= j)%nat /\ s = prefix ++ Js.natToString j.
Proof.
  revert k. induction l as [|x l IH]; intros k; [intros []|].
  cbn [List.length List.seq combine filterMap].
  destruct (f (k, x)) as [c|] eqn:E.
  - cbn [map]. intros [<-|Hs].
    + exists k. split; [lia|]. now apply (f_id k x).
    + destruct (IH _ Hs) as (j & Hj & ->). exists j. split; [lia|reflexivity].
  - intros Hs. destruct (IH _ Hs) as (j & Hj & ->). exists j. split; [lia|reflexivity].
Qed.

Lemma ids_NoDup_from (l : list A) (k : nat) :
  NoDup (map id (filterMap f (combine (List.seq k (List.length l)) l))).
Proof.
  revert k. induction l as [|x l IH]; intros k; [constructor|].
  cbn [List.length List.seq combine filterMap].
  destruct (f (k, x)) as [c|] eqn:E; [|apply IH].
  cbn [map]. constructor; [|apply IH].
  intros Hin. destruct (ids_from _ _ _ Hin) as (j & Hj & Hs).
  rewrite (f_id k x c E) in Hs. apply append_injective, natToString_injective in Hs.
  lia.
Qed.

Lemma ids_NoDup (l : list A) : NoDup (map id (filterMap f (indexed l))).
Proof. apply ids_NoDup_from. Qed.

End Ids.

Lemma filterMap_Some {A B : Type} (g : A -> B) (l : list A) :
  filterMap (fun x => Some (g x)) l = map g l.
Proof. induction l as [|x l IH]; [reflexivity|]. cbn. now rewrite IH. Qed.

Lemma chainEnds_ids (l : list Cue) : map id (Stated.chainEnds l) = map id l.
Proof.
  induction l as [|c l IH]; [reflexivity|].
  destruct l as [|next rest]; [reflexivity|].
  change (Stated.chainEnds (c :: next :: rest))
    with (setEnd (start next) c :: Stated.chainEnds (next :: rest)).
  cbn [map]. rewrite IH. reflexivity.
Qed.

Lemma lrcCue_id (i : nat) (line : string) (c : Cue) :
  lrcCue (i, line) = Some c -> id c = "lrc-" ++ Js.natToString i.
Proof.
  unfold lrcCue. destruct (Regex.exec lrcLinePattern line); [|discriminate].
  destruct (_ && _)%bool; intros H; injection H as <-; reflexivity.
Qed.

Lemma srtCue_id (i : nat) (chunk : string) (c : Cue) :
  srtCue (i, chunk) = Some c -> id c = "srt-" ++ Js.natToString i.
Proof.
  unfold srtCue. destruct (Nat.ltb _ 2); [discriminate|].
  destruct (nth_error _ _) as [timeLine|]; [|discriminate].
  destruct (negb _); [discriminate|].
  destruct (Js.splitOn "-->" timeLine) as [|t0 [|t1 [|]]]; try discriminate.
  intros H; injection H as <-; reflexivity.
Qed.

Lemma idsBelow_weaken (k k' : nat) (ids : list string) :
  (k <= k')%nat -> idsBelow k ids -> idsBelow k' ids.
Proof.
  intros Hk [Hn Hb]. split; [exact Hn|]. intros s Hs.
  destruct (Hb s Hs) as (j & Hj & ->). exists j. split; [lia|reflexivity].
Qed.

Lemma idsBelow_prefix (k : nat) (a b : list string) :
  idsBelow k (a ++ b) -> idsBelow k a.
Proof.
  intros [Hn Hb]. split.
  - now apply NoDup_app_remove_r in Hn.
  - intros s Hs. apply Hb, in_or_app. now left.
Qed.

Lemma idsBelow_push (k : nat) (ids : list string) :
  idsBelow k ids -> idsBelow (S k) (ids ++ ["vtt-" ++ Js.natToString k]).
Proof.
  intros [Hn Hb]. split.
  - apply NoDup_app; [exact Hn|repeat constructor; intros []|].
    intros s Hs [<-|[]]. destruct (Hb _ Hs) as (j & Hj & E).
    apply append_injective, natToString_injective in E. lia.
  - intros s Hs. apply in_app_or in Hs as [Hs|[<-|[]]].
    + destruct (Hb s Hs) as (j & Hj & ->). exists j. split; [lia|reflexivity].
    + exists k. split; [lia|reflexivity].
Qed.

Lemma flush_ids (cur : Pending) (st : VttState) :
  map id (flush cur st) = (map id (v_cues st) ++ [p_id cur])%list.
Proof. unfold flush. rewrite map_app. reflexivity. Qed.

Lemma vttStep_ids (st : VttState) (i : nat) (line : string) :
  idsBelow i (heldIds st) -> idsBelow (S i) (heldIds (vttStep st (i, line))).
Proof.
  unfold vttStep, heldIds.
  destruct (currentCue st) as [cur|] eqn:E; intros H;
    destruct (Js.includes (Js.trim line) "-->").
  - cbn [v_cues currentCue p_id]. apply idsBelow_push.
    destruct (Nat.ltb 0 (List.length (textBuffer st))); cbn [v_cues].
    + now rewrite flush_ids.
    + now apply (idsBelow_prefix i _ [p_id cur]).
  - apply (idsBelow_weaken i); [lia|].
    destruct (negb (Js.truthy (Js.trim line))).
    + destruct (Nat.ltb 0 (List.length (textBuffer st))).
      * cbn [v_cues currentCue]. now rewrite app_nil_r, flush_ids.
      * rewrite E. exact H.
    + destruct (test vttStampPattern (Js.trim line)); cbn [v_cues currentCue];
        rewrite ?E; exact H.
  - cbn [v_cues currentCue p_id]. apply idsBelow_push.
    now rewrite app_nil_r in H.
  - apply (idsBelow_weaken i); [lia|]. rewrite E. exact H.
Qed.

Lemma vttScan_ids (l : list string) (k : nat) (st : VttState) :
  idsBelow k (heldIds st) ->
  idsBelow (k + List.length l)
    (heldIds (fold_left vttStep (combine (List.seq k (List.length l)) l) st)).
Proof.
  revert k st. induction l as [|x l IH]; intros k st H.
  - cbn. now rewrite Nat.add_0_r.
  - cbn [List.length List.seq combine fold_left].
    replace (k + S (List.length l))%nat with (S k + List.length l)%nat by lia.
    apply IH, vttStep_ids, H.
Qed.

Lemma skipn_indexed {A : Type} (first : nat) (l : list A) :
  (first <= 1)%nat ->
  exists k l', List.skipn first (indexed l) = combine (List.seq k (List.length l')) l'.
Proof.
  intros H. destruct first as [|[|n]]; [| |lia].
  - now exists 0%nat, l.
  - destruct l as [|x l]; [now exists 0%nat, []|]. now exists 1%nat, l.
Qed.

Lemma parseVTT_ids (content : string) : NoDup (map id (cues (parseVTT content))).
Proof.
  unfold parseVTT. cbv zeta. cbn [cues].
  set (lines := Js.splitOn LF (replaceAll (lit CRLF) LF (Js.trim content))).
  set (first := if Js.startsWith (nth 0 lines EmptyString) "WEBVTT" then 1%nat else 0%nat).
  destruct (skipn_indexed first lines) as (k & l' & ->);
    [subst first; destruct (Js.startsWith _ _); lia|].
  assert (H0 : idsBelow k (heldIds (mkVtt [] None [] [])))
    by (split; [constructor|intros s []]).
  pose proof (vttScan_ids l' k _ H0) as H. revert H.
  set (st := fold_left vttStep _ _). unfold heldIds.
  destruct (currentCue st) as [cur|]; intros [Hn _].
  - destruct (Nat.ltb 0 (List.length (textBuffer st))).
    + now rewrite flush_ids.
    + now apply NoDup_app_remove_r in Hn.
  - now rewrite app_nil_r in Hn.
Qed.

(** X20.  For every format but JSON, the parse succeeds and the ids of
    its cues are pairwise distinct. *)
Theorem parsed_ids_distinct
  (parseXml : string -> list Dom.node)
  (JSON_parse : string -> option Json.value)
  (content : string) (format : SubtitleFormat) :
  format <> JSON ->
  exists r,
    parseContent parseXml JSON_parse content format = Some r
    /\ NoDup (map id (cues r)).
Proof.
  intros Hf.
  assert (Hlrc : NoDup (map id (cues (parseLRC content)))).
  { unfold parseLRC. cbn [cues]. rewrite inferEnds_chainEnds, chainEnds_ids.
    apply (ids_NoDup _ lrcCue "lrc-"). intros i x c. apply lrcCue_id. }
  assert (Hsrt : NoDup (map id (cues (parseSRT content)))).
  { unfold parseSRT. cbn [cues].
    apply (ids_NoDup _ srtCue "srt-"). intros i x c. apply srtCue_id. }
  destruct format; try congruence; eexists; (split; [reflexivity|]);
    try exact Hlrc; try exact Hsrt.
  - apply parseVTT_ids.
  - unfold parseTTML, parseTTMLDocument. cbn [cues].
    rewrite <- (filterMap_Some ttmlCue).
    apply (ids_NoDup _ (fun e => Some (ttmlCue e)) "ttml-").
    intros i x c H. injection H as <-. reflexivity.
  - cbn [cues]. rewrite <- (filterMap_Some txtCue).
    apply (ids_NoDup _ (fun e => Some (txtCue e)) "txt-").
    intros i x c H. injection H as <-. reflexivity.
Qed.

Lemma parsed_ids_distinct_witness :
  exists r,
    parseContent (fun _ => []) Json.parse Samples.lrcTwoLines LRC = Some r
    /\ NoDup (map id (cues r)).
Proof.
  apply (parsed_ids_distinct (fun _ => []) Json.parse Samples.lrcTwoLines LRC).
  discriminate.
Defined.

(** ** The handlers of the cue list *)

Import CueList.

(** *** The active cue *)








Lemma filter_other_index (cues : list Cue) (k t : nat) :
  (t < k)%nat ->
  map snd
    (filter (fun e => negb (Nat.eqb (fst e) t))
       (combine (List.seq k (List.length cues)) cues))
  = cues.
Proof.
  revert k. induction cues as [|c cues IH]; intros k H; [reflexivity|].
  cbn [List.length List.seq combine filter fst].
  replace (Nat.eqb k t) with false by (symmetry; apply Nat.eqb_neq; lia).
  cbn [negb map snd]. rewrite IH by lia. reflexivity.
Qed.

Lemma removeCue_from (cues : list Cue) (k index : nat) :
  map snd
    (filter (fun e => negb (Nat.eqb (fst e) (k + index)))
       (combine (List.seq k (List.length cues)) cues))
  = removeAt index cues.
Proof.
  revert k index. induction cues as [|c cues IH]; intros k index.
  - unfold removeAt. now destruct index.
  - cbn [List.length List.seq combine filter fst]. destruct index as [|index].
    + rewrite Nat.add_0_r, Nat.eqb_refl. cbn [negb].
      rewrite filter_other_index by lia. reflexivity.
    + replace (Nat.eqb k (k + S index)) with false
        by (symmetry; apply Nat.eqb_neq; lia).
      cbn [negb map snd].
      replace (k + S index)%nat with (S k + index)%nat by lia.
      rewrite IH. reflexivity.
Qed.

(** X22.  [removeCue] takes out the cue at the index and nothing else:
    the list gets one shorter, the cues before keep their rank, those
    after move up by one; an index past the end leaves the list as it
    is. *)
Theorem removeCue_removes_one (cues : list Cue) (index : nat) :
  removeCue cues index = removeAt index cues
  /\ ((index < List.length cues)%nat ->
      S (List.length (removeCue cues index)) = List.length cues
      /\ forall i,
           nth_error (removeCue cues index) i
           = nth_error cues (if Nat.ltb i index then i else S i))
  /\ ((List.length cues <= index)%nat -> removeCue cues index = cues).
Proof.
  assert (E : removeCue cues index = removeAt index cues)
    by apply (removeCue_from cues 0 index).
  split; [exact E|]. rewrite E. unfold removeAt. split.
  - intros H. split.
    + rewrite length_app, length_firstn, length_skipn. lia.
    + intros i. destruct (Nat.ltb i index) eqn:L.
      * apply Nat.ltb_lt in L.
        rewrite nth_error_app1 by (rewrite length_firstn; lia).
        rewrite nth_error_firstn.
        now replace (Nat.ltb i index) with true by (symmetry; apply Nat.ltb_lt; lia).
      * apply Nat.ltb_ge in L.
        rewrite nth_error_app2 by (rewrite length_firstn; lia).
        rewrite length_firstn, nth_error_skipn. f_equal. lia.
  - intros H. rewrite firstn_all2 by lia. rewrite skipn_all2 by lia.
    apply app_nil_r.
Qed.

Lemma removeAt_map {A B : Type} (g : A -> B) (k : nat) (l : list A) :
  removeAt k (map g l) = map g (removeAt k l).
Proof. unfold removeAt. now rewrite map_app, firstn_map, skipn_map. Qed.

Lemma insertAt_map {A B : Type} (g : A -> B) (k : nat) (x : A) (l : list A) :
  insertAt k (g x) (map g l) = map g (insertAt k x l).
Proof. unfold insertAt. now rewrite map_app, firstn_map, skipn_map. Qed.

Lemma removeCue_removes_one_witness :
  removeCue [Samples.cueAtZero; Samples.cueAtFive] 0 = [Samples.cueAtFive]
  /\ removeCue [Samples.cueAtZero; Samples.cueAtFive] 2
     = [Samples.cueAtZero; Samples.cueAtFive].
Proof.
  destruct (removeCue_removes_one [Samples.cueAtZero; Samples.cueAtFive] 0)
    as (E0 & _ & _).
  destruct (removeCue_removes_one [Samples.cueAtZero; Samples.cueAtFive] 2)
    as (_ & _ & E2).
  split; [rewrite E0; reflexivity|apply E2; simpl; lia].
Defined.

(** X23.  Dropping row [dragged] on another row permutes the cues: the
    dragged cue lands at the drop index and the other cues keep their
    order. *)
Theorem handleDrop_moves (cues : list Cue) (dragged dropIndex : nat) (c : Cue) :
  nth_error cues dragged = Some c -> dragged <> dropIndex ->
  exists moved,
    handleDrop cues (Some dragged) dropIndex = Some (map Some moved)
    /\ Permutation cues moved
    /\ ((dropIndex < List.length cues)%nat ->
        nth_error moved dropIndex = Some c
        /\ removeAt dropIndex moved = removeAt dragged cues).
Proof.
  intros Hc Hne. exists (insertAt dropIndex c (removeAt dragged cues)).
  assert (Hlen : (dragged < List.length cues)%nat)
    by (apply nth_error_Some; congruence).
  assert (Hr : List.length (removeAt dragged cues) = (List.length cues - 1)%nat).
  { unfold removeAt. rewrite length_app, length_firstn, length_skipn. lia. }
  split; [|split].
  - unfold handleDrop.
    replace (Nat.eqb dragged dropIndex) with false
      by (symmetry; now apply Nat.eqb_neq).
    cbv zeta. rewrite nth_error_map, Hc. cbn [option_map].
    now rewrite removeAt_map, insertAt_map.
  - rewrite <- (firstn_skipn_middle dragged cues Hc) at 1.
    unfold insertAt. set (r := removeAt dragged cues).
    apply Permutation_trans with (c :: r).
    + symmetry. apply Permutation_middle.
    + rewrite <- (firstn_skipn dropIndex r) at 1. apply Permutation_middle.
  - intros L. set (r := removeAt dragged cues) in *. unfold insertAt. split.
    + rewrite nth_error_app2 by (rewrite length_firstn; lia).
      rewrite length_firstn, Nat.min_l by lia. now rewrite Nat.sub_diag.
    + unfold removeAt.
      rewrite firstn_app, length_firstn, Nat.min_l by lia.
      rewrite Nat.sub_diag. cbn [List.firstn]. rewrite app_nil_r, firstn_firstn, Nat.min_id.
      rewrite skipn_app, length_firstn, Nat.min_l by lia.
      rewrite skipn_all2 by (rewrite length_firstn; lia).
      replace (S dropIndex - dropIndex)%nat with 1%nat by lia.
      cbn [List.skipn app]. apply firstn_skipn.
Qed.

Lemma handleDrop_unchanged (cues : list Cue) (dropIndex : nat) :
  handleDrop cues None dropIndex = None
  /\ handleDrop cues (Some dropIndex) dropIndex = None.
Proof. split; [reflexivity|]. unfold handleDrop. now rewrite Nat.eqb_refl. Qed.

Lemma handleDrop_moves_witness :
  exists moved,
    handleDrop [Samples.cueAtZero; Samples.cueAtFive] (Some 0%nat) 1
    = Some (map Some moved)
    /\ Permutation [Samples.cueAtZero; Samples.cueAtFive] moved
    /\ nth_error moved 1 = Some Samples.cueAtZero.
Proof.
  destruct (handleDrop_moves [Samples.cueAtZero; Samples.cueAtFive] 0 1
              Samples.cueAtZero eq_refl ltac:(discriminate))
    as (moved & H & Hp & Hd).
  exists moved. split; [exact H|]. split; [exact Hp|].
  apply Hd. simpl. lia.
Defined.

(** X24.  The words shown for a cue are its own when it has some;
    otherwise they are made from its text, each with the id
    [gen-<cue id>-<rank>] and a text that is not empty, and each ends
    where the next one starts. *)
Theorem getDisplayWords_generated (cue : Cue) :
  (hasWords cue = true -> getDisplayWords cue = wordsOf cue)
  /\ (hasWords cue = false ->
      forall i w,
        nth_error (getDisplayWords cue) i = Some w ->
        w_id w = "gen-" ++ id cue ++ "-" ++ Js.natToString i
        /\ w_text w <> ""
        /\ (Z.of_nat i < 2 ^ 52 ->
            forall w', nth_error (getDisplayWords cue) (S i) = Some w' ->
                       w_end w = w_start w')).
Proof.
  unfold getDisplayWords. split; intros H; rewrite H; [reflexivity|].
  intros i w. rewrite nth_error_map, nth_error_indexed.
  destruct (nth_error _ i) as [t|] eqn:E; [|discriminate].
  cbn [option_map]. intros Hw. injection Hw as <-. cbn [generatedWord w_id w_text w_end].
  apply nth_error_In, filter_In in E as [_ Ht].
  split; [reflexivity|]. split; [destruct t; [discriminate|discriminate]|].
  intros Hi w'. rewrite nth_error_map, nth_error_indexed.
  destruct (nth_error _ (S i)) as [t'|]; [|discriminate].
  cbn [option_map]. intros Hw. injection Hw as <-. cbn [generatedWord w_start].
  now rewrite ofNat_succ.
Qed.

Lemma getDisplayWords_generated_witness :
  exists w w',
    nth_error (getDisplayWords Samples.cueTwoWords) 0 = Some w
    /\ nth_error (getDisplayWords Samples.cueTwoWords) 1 = Some w'
    /\ w_id w = "gen-c-0" /\ w_text w <> "" /\ w_end w = w_start w'.
Proof.
  destruct (getDisplayWords_generated Samples.cueTwoWords) as [_ H].
  assert (H0 : nth_error (getDisplayWords Samples.cueTwoWords) 0
               = Some (mkWord "gen-c-0" "la" (Some (ofZ 1000)) (Some (ofZ 1200))))
    by (vm_compute; reflexivity).
  assert (H1 : nth_error (getDisplayWords Samples.cueTwoWords) 1
               = Some (mkWord "gen-c-1" "li" (Some (ofZ 1200)) (Some (ofZ 1400))))
    by (vm_compute; reflexivity).
  destruct (H eq_refl 0%nat _ H0) as (Hid & Ht & Hn).
  eexists. eexists. split; [exact H0|]. split; [exact H1|].
  split; [exact Hid|]. split; [exact Ht|].
  apply (Hn ltac:(simpl; lia) _ H1).
Defined.

(** X25.  Leaving a time input without editing it keeps the value: the
    text that the input shows for a whole number of milliseconds below
    100 hours commits that same number. *)
Theorem commitChange_unchanged_text (ms : Z) :
  0 <= ms < 360000000 ->
  commitChange (msToVtt (ofZ ms)) (ofZ ms) = Changed (ofZ ms).
Proof.
  intros H. unfold commitChange. cbv zeta.
  rewrite (timeToMs_msToVtt_wide ms H).
  destruct (isZero (ofZ ms)); reflexivity.
Qed.

Lemma commitChange_unchanged_text_witness :
  commitChange (msToVtt (ofZ 83450)) (ofZ 83450) = Changed (ofZ 83450).
Proof. apply (commitChange_unchanged_text 83450). lia. Defined.

(** ** SRT written and read back *)

(** *** Splitting at a separator *)

Lemma rev_cons (c : ascii) (s : string) : Js.rev (String c s) = Js.rev s ++ String c "".
Proof. exact (rev_append (String c "") s). Qed.

Lemma splitOnFrom_skip (sep u rest cur : string) :
  Js.splitOnFrom sep (u ++ rest) (String.length u) cur
  = Js.splitOnFrom sep rest 0 cur.
Proof.
  induction u as [|c u IH]; [reflexivity|]. cbn [append String.length Js.splitOnFrom].
  exact IH.
Qed.

Lemma splitOnFrom_piece (sep x rest cur : string) :
  sep <> "" -> clearOf sep x ->
  Js.splitOnFrom sep (x ++ sep ++ rest) 0 cur
  = (Js.rev cur ++ x) :: Js.splitOnFrom sep rest 0 "".
Proof.
  intros Hsep. revert cur. induction x as [|c x IH]; intros cur Hx.
  - cbn [append]. rewrite append_empty.
    destruct sep as [|c0 sep']; [congruence|].
    cbn [append Js.splitOnFrom].
    change (String c0 (sep' ++ rest)) with (String c0 sep' ++ rest).
    rewrite isPrefix_append. cbn [String.length Nat.sub].
    rewrite Nat.sub_0_r. now rewrite splitOnFrom_skip.
  - destruct Hx as [Hc Hx]. cbn [append Js.splitOnFrom].
    change (String c (x ++ sep ++ rest)) with (String c x ++ sep ++ rest).
    rewrite Hc, (IH _ Hx), rev_cons, append_assoc. reflexivity.
Qed.

Lemma splitOnFrom_last (sep x cur : string) :
  clearOf sep x -> Js.splitOnFrom sep x 0 cur = [Js.rev cur ++ x].
Proof.
  revert cur. induction x as [|c x IH]; intros cur Hx.
  - cbn. now rewrite append_empty.
  - destruct Hx as [Hc Hx]. cbn [Js.splitOnFrom].
    pose proof (Hc "") as E. rewrite append_empty in E. rewrite E.
    rewrite (IH _ Hx), rev_cons, append_assoc. reflexivity.
Qed.

Lemma splitOn_join (sep : string) (pieces : list string) :
  sep <> "" -> pieces <> [] -> Forall (clearOf sep) pieces ->
  Js.splitOn sep (Js.join sep pieces) = pieces.
Proof.
  intros Hsep Hne Hall. unfold Js.splitOn.
  induction pieces as [|x pieces IH]; [congruence|].
  inversion Hall as [|? ? Hx Hrest]; subst.
  destruct pieces as [|y pieces'].
  - cbn [Js.join]. now rewrite splitOnFrom_last.
  - change (Js.join sep (x :: y :: pieces')) with (x ++ sep ++ Js.join sep (y :: pieces')).
    rewrite splitOnFrom_piece by assumption. cbn [Js.rev Js.rev_onto append].
    f_equal. apply IH; [discriminate|exact Hrest].
Qed.

Lemma clearOf_first (c0 : ascii) (sep' x : string) :
  noneOf (Ascii.eqb c0) x = true -> clearOf (String c0 sep') x.
Proof.
  induction x as [|c x IH]; [constructor|]. cbn [noneOf clearOf].
  intros H. apply andb_prop in H as [Hc Hx]. split; [|now apply IH].
  intros rest. cbn [append Js.isPrefix]. apply negb_true_iff in Hc. now rewrite Hc.
Qed.

Lemma clearOf_append (c0 : ascii) (sep' a y : string) :
  noneOf (Ascii.eqb c0) a = true -> clearOf (String c0 sep') y ->
  clearOf (String c0 sep') (a ++ y).
Proof.
  induction a as [|c a IH]; [auto|]. cbn [noneOf append clearOf].
  intros H Hy. apply andb_prop in H as [Hc Ha]. split; [|now apply IH].
  intros rest. cbn [append Js.isPrefix]. apply negb_true_iff in Hc. now rewrite Hc.
Qed.

(** A line break between two pieces is not a blank line when the
    second piece starts with something else. *)
Lemma clearOf_break (d : ascii) (y : string) :
  Ascii.eqb "010" d = false -> clearOf (LF ++ LF) (String d y) ->
  clearOf (LF ++ LF) (LF ++ String d y).
Proof.
  intros Hd Hy. cbn [LF append clearOf]. split; [|exact Hy].
  intros rest. cbn [append Js.isPrefix LF]. rewrite Hd. reflexivity.
Qed.

(** *** The patterns of parseSRT *)

Lemma searchFrom_CRLF (s : string) (pos : nat) :
  noneOf (Ascii.eqb "013") s = true -> searchFrom (lit CRLF) pos s = None.
Proof.
  revert pos. induction s as [|a s IH]; intros pos H; [reflexivity|].
  cbn [noneOf] in H. apply andb_prop in H as [Ha Hs]. apply negb_true_iff in Ha.
  cbn [searchFrom]. unfold matchAt, lit, CRLF, chr, Js.isChar. cbn [run].
  rewrite Ha. now apply IH.
Qed.

Lemma replaceAll_CRLF (s : string) :
  noneOf (Ascii.eqb "013") s = true -> replaceAll (lit CRLF) LF s = s.
Proof.
  intros H. unfold replaceAll, matches. cbn [allMatches].
  now rewrite searchFrom_CRLF.
Qed.

(** A greedy run of a class over a text made of that class takes all
    of it. *)
Lemma repeat_all (p : ascii -> bool)
  (step : nat -> string -> captures -> cont -> option result) :
  (forall pos a s c k, step pos (String a s) c k = if p a then k (S pos) s c else None) ->
  (forall pos c k, step pos "" c k = None) ->
  forall s, noneOf (fun c => negb (p c)) s = true ->
  forall fuel lo pos c k r,
    (String.length s < fuel)%nat -> (lo <= String.length s)%nat ->
    k (pos + String.length s)%nat "" c = Some r ->
    repeat step fuel true lo None pos s c k = Some r.
Proof.
  intros Hstep Hend. induction s as [|a s IH]; intros Hs fuel lo pos c k r Hf Hlo Hk.
  - destruct fuel as [|fuel]; [cbn in Hf; lia|].
    cbn [String.length] in *. assert (lo = 0%nat) by lia. subst lo.
    cbn [repeat canRepeat]. rewrite Hend. cbn [orElse].
    now rewrite Nat.add_0_r in Hk.
  - cbn [noneOf] in Hs. apply andb_prop in Hs as [Ha Hs].
    apply negb_true_iff, negb_false_iff in Ha.
    destruct fuel as [|fuel]; [cbn in Hf; lia|].
    cbn [String.length] in *. cbn [repeat canRepeat]. rewrite Hstep, Ha.
    replace (Nat.eqb (S pos) pos) with false by (symmetry; apply Nat.eqb_neq; lia).
    cbn [option_map].
    rewrite (IH Hs fuel (Nat.pred lo) (S pos) c k r); try lia.
    + destruct lo; reflexivity.
    + now replace (S pos + String.length s)%nat with (pos + S (String.length s))%nat by lia.
Qed.

Lemma repeat_class_all (p : ascii -> bool) (s : string) :
  noneOf (fun c => negb (p c)) s = true ->
  forall fuel lo pos c k r,
    (String.length s < fuel)%nat -> (lo <= String.length s)%nat ->
    k (pos + String.length s)%nat "" c = Some r ->
    repeat (run (Cls p)) fuel true lo None pos s c k = Some r.
Proof. apply repeat_all; reflexivity. Qed.

Lemma allDigits_noneOf (ds : string) :
  allDigits ds = true -> noneOf (fun c => negb (Js.isDigit c)) ds = true.
Proof.
  induction ds as [|c ds IH]; [reflexivity|]. cbn. intros H.
  apply andb_prop in H as [Hc Hd]. rewrite Hc, (IH Hd). reflexivity.
Qed.

Lemma indexPattern_digits (ds : string) :
  allDigits ds = true -> ds <> "" -> test indexPattern ds = true.
Proof.
  intros Hd Hne. unfold test.
  assert (E : exists r, matchAt indexPattern 0 ds = Some r).
  { unfold matchAt, indexPattern, seq, plus, digit. cbn [run Nat.eqb].
    eexists. apply repeat_class_all.
    - now apply allDigits_noneOf.
    - lia.
    - destruct ds; [congruence|cbn; lia].
    - reflexivity. }
  destruct E as (r & E). destruct ds; cbn [searchFrom]; now rewrite E.
Qed.

Lemma digitChar_digit (d : Z) : 0 <= d < 10 -> Js.isDigit (Js.digitChar d) = true.
Proof.
  intros H. assert (E : d = 0 \/ d = 1 \/ d = 2 \/ d = 3 \/ d = 4 \/ d = 5 \/ d = 6
                     \/ d = 7 \/ d = 8 \/ d = 9) by lia.
  repeat destruct E as [->|E]; try subst d; reflexivity.
Qed.

Lemma digitsOnto_allDigits (fuel : nat) (n : Z) (acc : string) :
  0 <= n -> allDigits acc = true -> allDigits (Js.digitsOnto fuel n acc) = true.
Proof.
  revert n acc. induction fuel as [|fuel IH]; intros n acc Hn Hacc; [exact Hacc|].
  cbn [Js.digitsOnto].
  assert (Hd : 0 <= n mod 10 < 10) by (apply Z.mod_pos_bound; lia).
  assert (Hc : allDigits (String (Js.digitChar (n mod 10)) acc) = true)
    by (cbn [allDigits]; now rewrite digitChar_digit, Hacc).
  destruct (n <? 10); [exact Hc|]. apply IH; [apply Z.div_pos; lia|exact Hc].
Qed.

Lemma digitsOnto_nonempty (fuel : nat) (n : Z) (acc : string) :
  Js.digitsOnto (S fuel) n acc <> "".
Proof.
  revert n acc. induction fuel as [|fuel IH]; intros n acc.
  - cbn. destruct (n <? 10); discriminate.
  - change (Js.digitsOnto (S (S fuel)) n acc)
      with (let acc' := String (Js.digitChar (n mod 10)) acc in
            if n <? 10 then acc' else Js.digitsOnto (S fuel) (n / 10) acc').
    cbv zeta. destruct (n <? 10); [discriminate|apply IH].
Qed.

Lemma natToString_digits (i : nat) :
  allDigits (Js.natToString i) = true /\ Js.natToString i <> "".
Proof.
  unfold Js.natToString, Js.digits. split.
  - apply digitsOnto_allDigits; [lia|reflexivity].
  - apply digitsOnto_nonempty.
Qed.

(** *** The time stamps in a block *)

Lemma clock_shape (sep : ascii) (ms : Z) :
  0 <= ms < 360000000 ->
  exists a1 a2 a3 a4 a5 a6 a7 a8 a9 : ascii,
    clock sep ms
    = String a1 (String a2 (String ":" (String a3 (String a4 (String ":"
        (String a5 (String a6 (String sep (String a7 (String a8 (String a9 "")))))))))))
    /\ Js.isDigit a1 = true /\ Js.isDigit a2 = true /\ Js.isDigit a3 = true
    /\ Js.isDigit a4 = true /\ Js.isDigit a5 = true /\ Js.isDigit a6 = true
    /\ Js.isDigit a7 = true /\ Js.isDigit a8 = true /\ Js.isDigit a9 = true.
Proof.
  intros H. unfold clock, pad3, pad2. cbn [append].
  pose proof (Z.mod_pos_bound (ms / 60000) 60 ltac:(lia)).
  pose proof (Z.mod_pos_bound (ms / 1000) 60 ltac:(lia)).
  pose proof (Z.mod_pos_bound ms 1000 ltac:(lia)).
  do 9 eexists. split; [reflexivity|].
  repeat split; apply digitChar_digit; divlia.
Qed.

(** Word for word what [times[k].trim()] leaves of the two halves of a
    time line. *)
Lemma trim_padded (c d : ascii) (x : string) :
  Js.isSpace c = false -> Js.isSpace d = false ->
  Js.trim (String c (x ++ String d "") ++ " ") = String c (x ++ String d "")
  /\ Js.trim (" " ++ String c (x ++ String d "")) = String c (x ++ String d "").
Proof.
  intros Hc Hd. split.
  - unfold Js.trim, Js.trimStart. cbn [append Js.dropWhile]. rewrite Hc.
    unfold Js.trimEnd.
    change (String c ((x ++ String d "") ++ " ")) with (String c (x ++ String d "") ++ " ").
    rewrite rev_append. change (Js.rev " ") with " ". cbn [append Js.dropWhile].
    change (Js.isSpace " ") with true. cbv iota.
    change (Js.rev (Js.dropWhile Js.isSpace (Js.rev (String c (x ++ String d "")))))
      with (Js.trimEnd (String c x ++ String d "")).
    apply (trimEnd_last (String c x) d Hd).
  - unfold Js.trim, Js.trimStart. cbn [append Js.dropWhile].
    change (Js.isSpace " ") with true. cbv iota. rewrite Hc.
    apply (trimEnd_last (String c x) d Hd).
Qed.

(** A line break before a line that is not empty is not a blank
    line. *)
Lemma clearOf_line (y rest : string) :
  y <> "" -> noneOf (Ascii.eqb "010") y = true ->
  clearOf (LF ++ LF) (y ++ rest) -> clearOf (LF ++ LF) (LF ++ y ++ rest).
Proof.
  intros Hy Hn Hc. destruct y as [|d y']; [congruence|].
  cbn [noneOf] in Hn. apply andb_prop in Hn as [Hd _]. apply negb_true_iff in Hd.
  now apply clearOf_break.
Qed.

Lemma noneOf_weaken (p q : ascii -> bool) (s : string) :
  (forall c, p c = false -> q c = false) ->
  noneOf p s = true -> noneOf q s = true.
Proof.
  intros Hpq. induction s as [|c s IH]; [reflexivity|]. cbn [noneOf].
  intros H. apply andb_prop in H as [Hc Hs]. apply negb_true_iff in Hc.
  now rewrite (Hpq c Hc), (IH Hs).
Qed.

Lemma noneOf_append (p : ascii -> bool) (a b : string) :
  noneOf p (a ++ b) = (noneOf p a && noneOf p b)%bool.
Proof.
  induction a as [|c a IH]; [reflexivity|]. cbn [append noneOf].
  now rewrite IH, andb_assoc.
Qed.

Lemma lineTerminator_tests (c : ascii) :
  Js.isLineTerminator c = false ->
  Ascii.eqb "010" c = false /\ Ascii.eqb "013" c = false.
Proof.
  destruct c as [[] [] [] [] [] [] [] []]; vm_compute; intuition congruence.
Qed.

Lemma digits_plain (p : ascii -> bool) (ds : string) :
  (forall c, Js.isDigit c = true -> p c = false) ->
  allDigits ds = true -> noneOf p ds = true.
Proof.
  intros Hp. induction ds as [|c ds IH]; [reflexivity|]. cbn [allDigits noneOf].
  intros H. apply andb_prop in H as [Hc Hd]. now rewrite (Hp c Hc), (IH Hd).
Qed.

Lemma digit_not_LF (c : ascii) : Js.isDigit c = true -> Ascii.eqb "010" c = false.
Proof. destruct c as [[] [] [] [] [] [] [] []]; vm_compute; congruence. Qed.

Lemma digit_not_CR (c : ascii) : Js.isDigit c = true -> Ascii.eqb "013" c = false.
Proof. destruct c as [[] [] [] [] [] [] [] []]; vm_compute; congruence. Qed.

Lemma srtCue_chunk (i : nat) (N t : string) (s e : Z) :
  allDigits N = true -> N <> "" ->
  0 <= s < 360000000 -> 0 <= e < 360000000 ->
  noneOf (Ascii.eqb "010") t = true ->
  srtCue (i, N ++ LF ++ timeLine (msToSrt (ofZ s)) (msToSrt (ofZ e)) ++ LF ++ t)
  = Some (mkCue ("srt-" ++ Js.natToString i) (ofZ s) (ofZ e) t None).
Proof.
  intros HN HNe Hs He Ht.
  pose proof (timeToMs_msToSrt_wide s Hs) as Rs.
  pose proof (timeToMs_msToSrt_wide e He) as Re.
  rewrite (msToSrt_clock s Hs) in *. rewrite (msToSrt_clock e He) in *.
  destruct (clock_shape "," s Hs)
    as (a1 & a2 & a3 & a4 & a5 & a6 & a7 & a8 & a9 & Es & A).
  destruct (clock_shape "," e He)
    as (b1 & b2 & b3 & b4 & b5 & b6 & b7 & b8 & b9 & Ee & B).
  destruct A as (? & ? & ? & ? & ? & ? & ? & ? & ?).
  destruct B as (? & ? & ? & ? & ? & ? & ? & ? & ?).
  set (T1 := clock "," s) in *. set (T2 := clock "," e) in *.
  assert (L1 : clearOf LF N)
    by (apply clearOf_first, digits_plain; [exact digit_not_LF|exact HN]).
  assert (L3 : clearOf LF t) by (now apply clearOf_first).
  assert (Hline : noneOf (Ascii.eqb "010") (timeLine T1 T2) = true
                  /\ Js.truthy (timeLine T1 T2) = true
                  /\ Js.splitOn "-->" (timeLine T1 T2) = [T1 ++ " "; " " ++ T2]
                  /\ Js.trim (T1 ++ " ") = T1 /\ Js.trim (" " ++ T2) = T2).
  { all_digit_facts.
    assert (D1 : noneOf (Ascii.eqb "-") (T1 ++ " ") = true)
      by (rewrite Es; cbn [append noneOf]; rw_facts; reflexivity).
    assert (D2 : noneOf (Ascii.eqb "-") (" " ++ T2) = true)
      by (rewrite Ee; cbn [append noneOf]; rw_facts; reflexivity).
    split; [|split; [|split; [|split]]].
    - unfold timeLine. rewrite Es, Ee. cbn [append noneOf].
      repeat match goal with
             | Hd : Js.isDigit ?c = true |- context [Ascii.eqb "010" ?c] =>
                 rewrite (digit_not_LF c Hd)
             end. reflexivity.
    - unfold timeLine. rewrite Es. reflexivity.
    - unfold timeLine, Js.splitOn.
      replace (T1 ++ " --> " ++ T2) with ((T1 ++ " ") ++ "-->" ++ (" " ++ T2))
        by (rewrite append_assoc; reflexivity).
      rewrite splitOnFrom_piece;
        [|discriminate|now apply clearOf_first].
      rewrite splitOnFrom_last by (now apply clearOf_first). reflexivity.
    - rewrite Es.
      apply (trim_padded a1 a9
               (String a2 (String ":" (String a3 (String a4 (String ":"
                  (String a5 (String a6 (String "," (String a7 (String a8 "")))))))))));
        assumption.
    - rewrite Ee.
      apply (trim_padded b1 b9
               (String b2 (String ":" (String b3 (String b4 (String ":"
                  (String b5 (String b6 (String "," (String b7 (String b8 "")))))))))));
        assumption. }
  destruct Hline as (L2 & Htr & Hsp & Ht1 & Ht2).
  unfold srtCue.
  assert (Hlines : Js.splitOn LF (N ++ LF ++ timeLine T1 T2 ++ LF ++ t)
                   = [N; timeLine T1 T2; t]).
  { unfold Js.splitOn.
    rewrite splitOnFrom_piece; [|discriminate|exact L1].
    rewrite splitOnFrom_piece; [|discriminate|now apply clearOf_first].
    rewrite splitOnFrom_last by exact L3. reflexivity. }
  rewrite Hlines. cbn [List.length Nat.ltb Nat.leb nth].
  rewrite (indexPattern_digits N HN HNe). cbn [nth_error]. rewrite Htr. cbn [negb].
  rewrite Hsp, Ht1, Ht2, Rs, Re. reflexivity.
Qed.

(** *** The blocks of a document *)

Lemma srtBlock_chunkOf (entry : nat * Cue) : srtBlock entry = chunkOf entry ++ LF.
Proof.
  destruct entry as [index cue]. unfold srtBlock, chunkOf, timeLine.
  now rewrite !append_assoc.
Qed.

Lemma join_blocks (chunks : list string) :
  chunks <> [] ->
  Js.join LF (map (fun x => x ++ LF) chunks) = Js.join (LF ++ LF) chunks ++ LF.
Proof.
  induction chunks as [|x chunks IH]; [congruence|]. intros _.
  destruct chunks as [|y chunks']; [reflexivity|].
  change (Js.join LF (map (fun x => x ++ LF) (x :: y :: chunks')))
    with ((x ++ LF) ++ LF ++ Js.join LF (map (fun x => x ++ LF) (y :: chunks'))).
  change (Js.join (LF ++ LF) (x :: y :: chunks'))
    with (x ++ (LF ++ LF) ++ Js.join (LF ++ LF) (y :: chunks')).
  rewrite IH by discriminate. now rewrite !append_assoc.
Qed.

Lemma endsClean_append (a b : string) :
  b <> "" -> endsClean (a ++ b) = endsClean b.
Proof.
  intros Hb. unfold endsClean. rewrite rev_append.
  destruct (Js.rev b) as [|d r] eqn:E; [|reflexivity].
  apply (f_equal Js.rev) in E. rewrite rev_involutive in E. now subst b.
Qed.

Lemma endsClean_nonempty (t : string) : endsClean t = true -> t <> "".
Proof. intros H ->. discriminate. Qed.

Lemma trim_document (J : string) :
  (exists c r, J = String c r /\ Js.isSpace c = false) ->
  endsClean J = true ->
  Js.trim (J ++ LF) = J.
Proof.
  intros (c & r & -> & Hc) He. unfold Js.trim, Js.trimStart.
  cbn [append Js.dropWhile]. rewrite Hc. unfold Js.trimEnd.
  change (String c (r ++ LF)) with (String c r ++ LF).
  rewrite rev_append. change (Js.rev LF) with LF. cbn [LF append Js.dropWhile].
  change (Js.isSpace "010") with true. cbv iota.
  unfold endsClean in He. destruct (Js.rev (String c r)) as [|d x] eqn:E; [discriminate|].
  cbn [Js.dropWhile]. apply negb_true_iff in He. rewrite He.
  rewrite <- E. apply rev_involutive.
Qed.

Lemma oneLine_facts (t : string) :
  oneLine t = true ->
  noneOf (Ascii.eqb "010") t = true /\ noneOf (Ascii.eqb "013") t = true
  /\ endsClean t = true
  /\ exists d t', t = String d t' /\ Ascii.eqb "010" d = false.
Proof.
  unfold oneLine. intros H. apply andb_prop in H as [Hl He].
  assert (H10 : noneOf (Ascii.eqb "010") t = true)
    by (apply (noneOf_weaken Js.isLineTerminator); [|exact Hl];
        intros c Hc; now apply lineTerminator_tests).
  assert (H13 : noneOf (Ascii.eqb "013") t = true)
    by (apply (noneOf_weaken Js.isLineTerminator); [|exact Hl];
        intros c Hc; now apply lineTerminator_tests).
  repeat split; try assumption.
  destruct t as [|d t']; [discriminate He|]. exists d, t'. split; [reflexivity|].
  cbn [noneOf] in H10. apply andb_prop in H10 as [Hd _]. now apply negb_true_iff.
Qed.

Lemma chunkOf_facts (index : nat) (cue : Cue) :
  srtSafe cue -> chunkFacts (chunkOf (index, cue)).
Proof.
  intros ((s & Hs & Es) & (e & He & Ee) & Ht).
  destruct (oneLine_facts _ Ht) as (T10 & T13 & Tend & d & t' & Et & Hd).
  destruct (natToString_digits (index + 1)) as [HN HNe].
  unfold chunkOf. rewrite Es, Ee, (msToSrt_clock s Hs), (msToSrt_clock e He).
  destruct (clock_shape "," s Hs)
    as (a1 & a2 & a3 & a4 & a5 & a6 & a7 & a8 & a9 & Hcs & A).
  destruct (clock_shape "," e He)
    as (b1 & b2 & b3 & b4 & b5 & b6 & b7 & b8 & b9 & Hce & B).
  destruct A as (? & ? & ? & ? & ? & ? & ? & ? & ?).
  destruct B as (? & ? & ? & ? & ? & ? & ? & ? & ?).
  set (N := Js.natToString (index + 1)) in *.
  set (L := timeLine (clock "," s) (clock "," e)).
  assert (L10 : noneOf (Ascii.eqb "010") L = true).
  { unfold L, timeLine. rewrite Hcs, Hce. cbn [append noneOf].
    repeat match goal with
           | Hx : Js.isDigit ?c = true |- context [Ascii.eqb "010" ?c] =>
               rewrite (digit_not_LF c Hx)
           end. reflexivity. }
  assert (L13 : noneOf (Ascii.eqb "013") L = true).
  { unfold L, timeLine. rewrite Hcs, Hce. cbn [append noneOf].
    repeat match goal with
           | Hx : Js.isDigit ?c = true |- context [Ascii.eqb "013" ?c] =>
               rewrite (digit_not_CR c Hx)
           end. reflexivity. }
  assert (Lhead : exists r, L = String a1 r)
    by (unfold L, timeLine; rewrite Hcs; eexists; reflexivity).
  constructor.
  - destruct N as [|c r] eqn:EN; [congruence|]. exists c. eexists.
    split; [reflexivity|]. cbn [allDigits] in HN. apply andb_prop in HN as [Hc _].
    now destruct (digit_tests c Hc).
  - replace (N ++ LF ++ L ++ LF ++ text cue)
      with ((N ++ LF ++ L ++ LF) ++ text cue) by (now rewrite !append_assoc).
    rewrite endsClean_append by (now apply endsClean_nonempty). exact Tend.
  - rewrite !noneOf_append.
    rewrite (digits_plain _ N digit_not_CR HN), L13, T13. reflexivity.
  - apply clearOf_append;
      [apply digits_plain; [exact digit_not_LF|exact HN]|].
    apply (clearOf_line L (LF ++ text cue));
      [destruct Lhead as (r & ->); discriminate|exact L10|].
    apply clearOf_append; [exact L10|].
    rewrite <- (append_empty (text cue)).
    apply (clearOf_line (text cue) ""); [rewrite Et; discriminate|exact T10|].
    rewrite append_empty. now apply clearOf_first.
Qed.

Lemma join_facts (chunks : list string) :
  chunks <> [] -> Forall chunkFacts chunks ->
  (exists c r, Js.join (LF ++ LF) chunks = String c r /\ Js.isSpace c = false)
  /\ endsClean (Js.join (LF ++ LF) chunks) = true
  /\ noneOf (Ascii.eqb "013") (Js.join (LF ++ LF) chunks) = true.
Proof.
  induction chunks as [|x chunks IH]; [congruence|]. intros _ Hall.
  inversion Hall as [|? ? Hx Hrest]; subst. destruct Hx as [Hs He Hcr _].
  destruct chunks as [|y chunks']; [now repeat split|].
  destruct (IH ltac:(discriminate) Hrest) as ((c' & r' & EJ & _) & He' & Hcr').
  change (Js.join (LF ++ LF) (x :: y :: chunks'))
    with (x ++ (LF ++ LF) ++ Js.join (LF ++ LF) (y :: chunks')).
  set (J' := Js.join (LF ++ LF) (y :: chunks')) in *.
  split; [|split].
  - destruct Hs as (c & r & -> & Hc). exists c. eexists. split; [reflexivity|exact Hc].
  - replace (x ++ (LF ++ LF) ++ J') with ((x ++ LF ++ LF) ++ J')
      by (now rewrite !append_assoc).
    rewrite endsClean_append by (rewrite EJ; discriminate). exact He'.
  - rewrite !noneOf_append, Hcr, Hcr'. reflexivity.
Qed.

Lemma length_indexed {A : Type} (l : list A) :
  List.length (indexed l) = List.length l.
Proof. unfold indexed. rewrite length_combine, length_seq. apply Nat.min_id. Qed.

Lemma parse_chunks (cues : list Cue) (k : nat) :
  Forall srtSafe cues ->
  filterMap srtCue
    (combine (List.seq k (List.length cues))
       (map chunkOf (combine (List.seq k (List.length cues)) cues)))
  = map (renumbered "srt-") (combine (List.seq k (List.length cues)) cues).
Proof.
  revert k. induction cues as [|c cues IH]; intros k Hall; [reflexivity|].
  inversion Hall as [|? ? Hc Hrest]; subst.
  cbn [List.length List.seq combine map filterMap].
  destruct Hc as ((s & Hs & Es) & (e & He & Ee) & Ht).
  destruct (oneLine_facts _ Ht) as (T10 & _).
  destruct (natToString_digits (k + 1)) as [HN HNe].
  unfold chunkOf at 1. rewrite Es, Ee.
  rewrite (srtCue_chunk k _ _ s e HN HNe Hs He T10).
  rewrite (IH (S k) Hrest). unfold renumbered at 2. now rewrite Es, Ee.
Qed.

Lemma chunks_facts (cues : list Cue) (k : nat) :
  Forall srtSafe cues ->
  Forall chunkFacts (map chunkOf (combine (List.seq k (List.length cues)) cues)).
Proof.
  revert k. induction cues as [|c cues IH]; intros k Hall; [constructor|].
  inversion Hall as [|? ? Hc Hrest]; subst.
  cbn [List.length List.seq combine map]. constructor; [now apply chunkOf_facts|].
  now apply IH.
Qed.

Lemma parseSRT_stringifySRT (cues : list Cue) :
  Forall srtSafe cues ->
  parseSRT (stringifySRT cues)
  = mkResult (map (renumbered "srt-") (indexed cues)) noMetadata.
Proof.
  intros Hall. destruct cues as [|c0 cues0] eqn:Ecues; [reflexivity|].
  rewrite <- Ecues in *. assert (Hne : cues <> []) by (rewrite Ecues; discriminate).
  clear Ecues. unfold parseSRT, stringifySRT. f_equal.
  set (chunks := map chunkOf (indexed cues)).
  assert (Hchunks : chunks <> [])
    by (unfold chunks, indexed; destruct cues; [congruence|discriminate]).
  assert (E : map srtBlock (indexed cues) = map (fun x => x ++ LF) chunks).
  { unfold chunks. rewrite map_map. apply map_ext. intros entry.
    apply srtBlock_chunkOf. }
  pose proof (chunks_facts cues 0 Hall) as Hfacts. fold (indexed cues) in Hfacts.
  fold chunks in Hfacts.
  destruct (join_facts chunks Hchunks Hfacts) as (Hs & He & Hcr).
  rewrite E, (join_blocks chunks Hchunks), (trim_document _ Hs He).
  rewrite (replaceAll_CRLF _ Hcr).
  rewrite splitOn_join.
  - unfold indexed at 1, chunks. rewrite length_map, length_indexed.
    now apply parse_chunks.
  - discriminate.
  - exact Hchunks.
  - eapply Forall_impl; [|exact Hfacts]. intros x Hx. now destruct Hx.
Qed.

(** X26.  SRT written and read back: for cues with whole times below 100
    hours and a text of one line that is not empty and does not end in
    white space, parsing what [stringifyContent] writes gives the same
    times and texts in the same order, with the ids [srt-0], [srt-1],
    ... and without words. *)
Theorem srt_round_trip
  (parseXml : string -> list Dom.node)
  (JSON_parse : string -> option Json.value)
  (JSON_stringify : option Metadata -> list Cue -> string)
  (cues : list Cue) (metadata : option Metadata) :
  Forall srtSafe cues ->
  parseContent parseXml JSON_parse
    (stringifyContent JSON_stringify cues SRT metadata) SRT
  = Some (mkResult (map (renumbered "srt-") (indexed cues)) noMetadata).
Proof.
  intros H. unfold parseContent, stringifyContent. f_equal.
  now apply parseSRT_stringifySRT.
Qed.

Lemma srt_round_trip_witness :
  parseContent (fun _ => []) Json.parse
    (stringifyContent (fun _ _ => "") [Samples.cueAtZero; Samples.cueAtFive] SRT None)
    SRT
  = Some (mkResult [mkCue "srt-0" (ofZ 0) (ofZ 2000) "la" None;
                    mkCue "srt-1" (ofZ 5000) (ofZ 7000) "la" None] noMetadata).
Proof.
  apply (srt_round_trip (fun _ => []) Json.parse (fun _ _ => "")
           [Samples.cueAtZero; Samples.cueAtFive] None).
  repeat constructor.
  - exists 0. split; [lia|reflexivity].
  - exists 2000. split; [lia|reflexivity].
  - exists 5000. split; [lia|reflexivity].
  - exists 7000. split; [lia|reflexivity].
Defined.

(** ** VTT written and read back *)

(** *** Texts without white space around them *)

Lemma trim_tail (J w : string) :
  startsClean J = true -> endsClean J = true ->
  noneOf (fun c => negb (Js.isSpace c)) w = true ->
  Js.trim (J ++ w) = J.
Proof.
  intros Hs He Hw. destruct J as [|c r]; [discriminate|].
  cbn [startsClean] in Hs. apply negb_true_iff in Hs.
  unfold Js.trim, Js.trimStart. cbn [append Js.dropWhile]. rewrite Hs.
  unfold Js.trimEnd. change (String c (r ++ w)) with (String c r ++ w).
  rewrite rev_append.
  assert (D : forall x, Js.dropWhile Js.isSpace (Js.rev w ++ x) = Js.dropWhile Js.isSpace x).
  { clear - Hw. induction w as [|a w IH]; intros x; [reflexivity|].
    cbn [noneOf] in Hw. apply andb_prop in Hw as [Ha Hw].
    apply negb_true_iff, negb_false_iff in Ha.
    rewrite rev_cons, append_assoc, (IH Hw). cbn [append Js.dropWhile].
    now rewrite Ha. }
  rewrite D. unfold endsClean in He.
  destruct (Js.rev (String c r)) as [|d x] eqn:E; [discriminate|].
  cbn [Js.dropWhile]. apply negb_true_iff in He. rewrite He.
  rewrite <- E. apply rev_involutive.
Qed.

Lemma trim_plain (t : string) :
  startsClean t = true -> endsClean t = true -> Js.trim t = t.
Proof.
  intros Hs He. rewrite <- (append_empty t) at 1. now apply trim_tail.
Qed.

(** *** Patterns that start with an angle bracket *)

Lemma searchFrom_tagPattern (s : string) (pos : nat) :
  noneOf (Ascii.eqb "<") s = true -> searchFrom tagPattern pos s = None.
Proof.
  revert pos. induction s as [|a s IH]; intros pos H; [reflexivity|].
  cbn [noneOf] in H. apply andb_prop in H as [Ha Hs]. apply negb_true_iff in Ha.
  cbn [searchFrom]. unfold matchAt, tagPattern, seq, chr, Js.isChar. cbn [run fold_right].
  rewrite Ha. now apply IH.
Qed.

Lemma searchFrom_vttStampPattern (s : string) (pos : nat) :
  noneOf (Ascii.eqb "<") s = true -> searchFrom vttStampPattern pos s = None.
Proof.
  revert pos. induction s as [|a s IH]; intros pos H; [reflexivity|].
  cbn [noneOf] in H. apply andb_prop in H as [Ha Hs]. apply negb_true_iff in Ha.
  cbn [searchFrom]. unfold matchAt, vttStampPattern, seq, chr, Js.isChar.
  cbn [run fold_right].
  rewrite Ha. now apply IH.
Qed.

Lemma replaceAll_tagPattern (s : string) :
  noneOf (Ascii.eqb "<") s = true -> replaceAll tagPattern "" s = s.
Proof.
  intros H. unfold replaceAll, matches. cbn [allMatches].
  now rewrite searchFrom_tagPattern.
Qed.

(** *** The time line of a cue *)

Lemma digit_other (c0 c : ascii) :
  Js.isDigit c0 = false -> Js.isDigit c = true -> Ascii.eqb c0 c = false.
Proof.
  intros H0 Hc. destruct (Ascii.eqb c0 c) eqn:E; [|reflexivity].
  apply Ascii.eqb_eq in E. subst c. congruence.
Qed.

Lemma clock_noneOf (c0 sep : ascii) (ms : Z) :
  0 <= ms < 360000000 ->
  Js.isDigit c0 = false -> Ascii.eqb c0 ":" = false -> Ascii.eqb c0 sep = false ->
  noneOf (Ascii.eqb c0) (clock sep ms) = true.
Proof.
  intros H H0 Hcolon Hsep.
  destruct (clock_shape sep ms H)
    as (a1 & a2 & a3 & a4 & a5 & a6 & a7 & a8 & a9 & E & A).
  destruct A as (? & ? & ? & ? & ? & ? & ? & ? & ?).
  rewrite E. cbn [noneOf]. rewrite Hcolon, Hsep.
  repeat match goal with
         | Hd : Js.isDigit ?c = true |- context [Ascii.eqb c0 ?c] =>
             rewrite (digit_other c0 c H0 Hd)
         end. reflexivity.
Qed.

Lemma clock_clean (sep : ascii) (ms : Z) :
  0 <= ms < 360000000 ->
  startsClean (clock sep ms) = true /\ endsClean (clock sep ms) = true
  /\ Js.startsWith (clock sep ms) "Note Title:" = false.
Proof.
  intros H.
  destruct (clock_shape sep ms H)
    as (a1 & a2 & a3 & a4 & a5 & a6 & a7 & a8 & a9 & E & A).
  destruct A as (H1 & _ & _ & _ & _ & _ & _ & _ & H9).
  destruct (digit_tests a1 H1) as (S1 & _). destruct (digit_tests a9 H9) as (S9 & _).
  rewrite E. repeat split.
  - cbn [startsClean]. now rewrite S1.
  - unfold endsClean. cbn. now rewrite S9.
  - unfold Js.startsWith. cbn [Js.isPrefix].
    now rewrite (digit_other "N" a1 eq_refl H1).
Qed.

Lemma startsClean_append (a b : string) :
  startsClean a = true -> startsClean (a ++ b) = true.
Proof. destruct a; [discriminate|exact (fun H => H)]. Qed.

Lemma timeLine_clocks (s e : Z) :
  0 <= s < 360000000 -> 0 <= e < 360000000 ->
  let T1 := clock "." s in
  let T2 := clock "." e in
  let L := timeLine T1 T2 in
  Js.trim L = L
  /\ Js.includes L "-->" = true
  /\ Js.splitOn "-->" L = [T1 ++ " "; " " ++ T2]
  /\ nth 0 (Js.splitOn " " (Js.trim (T1 ++ " "))) "" = T1
  /\ nth 0 (Js.splitOn " " (Js.trim (" " ++ T2))) "" = T2
  /\ noBreak L = true
  /\ endsClean L = true
  /\ Js.startsWith L "Note Title:" = false.
Proof.
  intros Hs He T1 T2 L.
  destruct (clock_clean "." s Hs) as (S1 & E1 & N1).
  destruct (clock_clean "." e He) as (S2 & E2 & _).
  fold T1 in S1, E1, N1. fold T2 in S2, E2.
  assert (Hne2 : T2 <> "") by (intros E; rewrite E in S2; discriminate).
  assert (D1 : noneOf (Ascii.eqb "-") T1 = true) by (now apply clock_noneOf).
  assert (D2 : noneOf (Ascii.eqb "-") T2 = true) by (now apply clock_noneOf).
  assert (P1 : noneOf (Ascii.eqb " ") T1 = true) by (now apply clock_noneOf).
  assert (P2 : noneOf (Ascii.eqb " ") T2 = true) by (now apply clock_noneOf).
  assert (Hend : endsClean L = true).
  { unfold L, timeLine.
    replace (T1 ++ " --> " ++ T2) with ((T1 ++ " --> ") ++ T2)
      by (now rewrite append_assoc).
    now rewrite endsClean_append. }
  repeat split.
  - apply trim_plain; [|exact Hend]. unfold L, timeLine. now apply startsClean_append.
  - unfold L, timeLine.
    replace (T1 ++ " --> " ++ T2) with ((T1 ++ " ") ++ "-->" ++ (" " ++ T2))
      by (rewrite append_assoc; reflexivity).
    apply includes_append, includes_prefix.
  - unfold L, timeLine, Js.splitOn.
    replace (T1 ++ " --> " ++ T2) with ((T1 ++ " ") ++ "-->" ++ (" " ++ T2))
      by (rewrite append_assoc; reflexivity).
    rewrite splitOnFrom_piece;
      [|discriminate|apply clearOf_first; rewrite noneOf_append, D1; reflexivity].
    rewrite splitOnFrom_last by (apply clearOf_first; cbn [append noneOf]; exact D2).
    reflexivity.
  - rewrite (trim_tail T1 " " S1 E1 eq_refl). unfold Js.splitOn.
    rewrite splitOnFrom_last by (now apply clearOf_first). reflexivity.
  - change (Js.trim (" " ++ T2)) with (Js.trim T2).
    rewrite (trim_plain T2 S2 E2). unfold Js.splitOn.
    rewrite splitOnFrom_last by (now apply clearOf_first). reflexivity.
  - unfold noBreak, L, timeLine. rewrite !noneOf_append. cbn [noneOf].
    unfold T1, T2. rewrite !clock_noneOf by (first [assumption|reflexivity]).
    reflexivity.
  - exact Hend.
  - destruct (clock_shape "." s Hs)
      as (a1 & a2 & a3 & a4 & a5 & a6 & a7 & a8 & a9 & E & A).
    destruct A as (A1 & _). unfold L, timeLine, T1. rewrite E.
    unfold Js.startsWith. cbn [append Js.isPrefix].
    now rewrite (digit_other "N" a1 eq_refl A1).
Qed.

(** *** The turns of the scan *)

Lemma vttStep_timeLine (done : list Cue) (i : nat) (c : Cue) :
  wholeTime (start c) -> wholeTime (end_ c) ->
  vttStep (mkVtt done None [] []) (i, vttTimeLine c)
  = mkVtt done
      (Some (mkPending ("vtt-" ++ Js.natToString i) (start c) (end_ c))) [] [].
Proof.
  intros (s & Hs & Es) (e & He & Ee). unfold vttTimeLine. rewrite Es, Ee.
  pose proof (timeToMs_msToVtt_wide s Hs) as Rs.
  pose proof (timeToMs_msToVtt_wide e He) as Re.
  rewrite (msToVtt_clock s Hs) in *. rewrite (msToVtt_clock e He) in *.
  destruct (timeLine_clocks s e Hs He) as (Lt & La & Lh & L1 & L2 & _).
  unfold vttStep. rewrite Lt, La. cbn [currentCue v_cues textBuffer wordBuffer].
  rewrite Lh. cbn [nth]. rewrite L1, L2, Rs, Re. reflexivity.
Qed.

Lemma plainText_facts (t : string) :
  plainText t = true ->
  oneLine t = true /\ Js.trim t = t /\ noneOf (Ascii.eqb "<") t = true
  /\ Js.includes t "-->" = false /\ Js.truthy t = true.
Proof.
  unfold plainText. intros H.
  apply andb_prop in H as [H Ha]. apply andb_prop in H as [H Hb].
  apply andb_prop in H as [Hl Hs]. apply negb_true_iff in Ha.
  assert (He : endsClean t = true)
    by (unfold oneLine in Hl; now apply andb_prop in Hl as [_ He]).
  repeat split; try assumption.
  - now apply trim_plain.
  - destruct t; [discriminate|reflexivity].
Qed.

Lemma vttStep_text (done : list Cue) (cur : Pending) (i : nat) (t : string) :
  plainText t = true ->
  vttStep (mkVtt done (Some cur) [] []) (i, t) = mkVtt done (Some cur) [t] [].
Proof.
  intros H. destruct (plainText_facts t H) as (_ & Ht & Hb & Ha & Hy).
  unfold vttStep. rewrite Ht, Ha. cbn [currentCue v_cues textBuffer wordBuffer].
  rewrite Hy. cbn [negb]. rewrite (replaceAll_tagPattern t Hb), Ht.
  unfold test. rewrite (searchFrom_vttStampPattern t 0 Hb). reflexivity.
Qed.

Lemma vttStep_blank (done : list Cue) (cur : Pending) (i : nat) (t : string) :
  vttStep (mkVtt done (Some cur) [t] []) (i, "")
  = mkVtt (done ++ [mkCue (p_id cur) (p_start cur) (p_end cur) t (Some [])])
      None [] [].
Proof. reflexivity. Qed.

Lemma vttStep_idle (done : list Cue) (i : nat) (line : string) :
  Js.includes (Js.trim line) "-->" = false ->
  vttStep (mkVtt done None [] []) (i, line) = mkVtt done None [] [].
Proof. intros H. unfold vttStep. now rewrite H. Qed.

(** The scan of the lines of the cues, from a state that holds no cue
    under construction. *)
Lemma scan_bodyLines (first : nat) (cues : list Cue) :
  Forall vttSafe cues -> cues <> [] ->
  forall (j : nat) (done : list Cue),
    vttFinish
      (fold_left vttStep
         (combine (List.seq (first + 3 * j) (List.length (bodyLines cues)))
                  (bodyLines cues))
         (mkVtt done None [] []))
    = (done ++ map (vttRead first) (combine (List.seq j (List.length cues)) cues))%list.
Proof.
  induction cues as [|c cues IH]; [congruence|]. intros Hall _ j done.
  inversion Hall as [|? ? (Hs & He & Ht) Hrest]; subst.
  destruct cues as [|c' rest].
  - cbn [bodyLines List.length List.seq combine fold_left map].
    rewrite (vttStep_timeLine done _ c Hs He), (vttStep_text _ _ _ _ Ht).
    reflexivity.
  - change (bodyLines (c :: c' :: rest))
      with (vttTimeLine c :: text c :: "" :: bodyLines (c' :: rest)).
    cbn [List.length List.seq combine fold_left].
    rewrite (vttStep_timeLine done _ c Hs He), (vttStep_text _ _ _ _ Ht),
      vttStep_blank.
    replace (S (S (S (first + 3 * j)))) with (first + 3 * S j)%nat by lia.
    rewrite (IH Hrest ltac:(discriminate) (S j)).
    cbn [p_id p_start p_end map]. rewrite <- app_assoc. reflexivity.
Qed.

(** *** The lines of a document *)

Lemma join_cons (sep x : string) (l : list string) :
  l <> [] -> Js.join sep (x :: l) = x ++ sep ++ Js.join sep l.
Proof. destruct l; [congruence|reflexivity]. Qed.

Lemma bodyLines_nonempty (c : Cue) (cues : list Cue) : bodyLines (c :: cues) <> [].
Proof. discriminate. Qed.

Lemma join_bodyLines (cues : list Cue) :
  cues <> [] ->
  Js.join LF (map (vttBlock false) cues) = Js.join LF (bodyLines cues) ++ LF.
Proof.
  induction cues as [|c cues IH]; [congruence|]. intros _.
  destruct cues as [|c' rest].
  - cbn [map Js.join bodyLines]. unfold vttBlock, timeLine, vttTimeLine, timeLine.
    cbn [andb]. now rewrite !append_assoc.
  - change (bodyLines (c :: c' :: rest))
      with (vttTimeLine c :: text c :: "" :: bodyLines (c' :: rest)).
    change (map (vttBlock false) (c :: c' :: rest))
      with (vttBlock false c :: map (vttBlock false) (c' :: rest)).
    rewrite join_cons by discriminate.
    rewrite IH by discriminate.
    rewrite !join_cons by (first [discriminate|apply bodyLines_nonempty]).
    unfold vttBlock, vttTimeLine, timeLine. cbn [andb].
    rewrite !append_assoc. reflexivity.
Qed.

Lemma stringifyVTT_lines (cues : list Cue) (metadata : option Metadata) :
  stringifyVTT cues false metadata
  = Js.join LF (vttLines metadata cues)
    ++ match cues with [] => LF ++ LF | _ :: _ => LF end.
Proof.
  unfold stringifyVTT, vttLines, titleLines, writtenTitle. cbv zeta.
  destruct cues as [|c cues].
  - cbn [map Js.join]. rewrite !app_nil_r.
    destruct metadata as [md|]; [destruct (title md) as [t|]|];
      [destruct (Js.truthy t)| |]; cbn [Js.join app]; rewrite ?append_assoc;
      rewrite ?append_empty; reflexivity.
  - rewrite (join_bodyLines (c :: cues)) by discriminate.
    set (B := bodyLines (c :: cues)).
    assert (HB : B <> []) by apply bodyLines_nonempty.
    destruct metadata as [md|]; [destruct (title md) as [t|]|];
      [destruct (Js.truthy t)| |]; cbn [app];
      rewrite !join_cons by (first [discriminate|exact HB]);
      rewrite ?append_assoc; reflexivity.
Qed.

Lemma endsClean_join (ls : list string) :
  endsClean (last ls "") = true -> endsClean (Js.join LF ls) = true.
Proof.
  induction ls as [|x ls IH]; [discriminate|].
  destruct ls as [|y l]; [exact (fun H => H)|].
  change (last (x :: y :: l) "") with (last (y :: l) "").
  intros H. specialize (IH H). rewrite join_cons by discriminate.
  replace (x ++ LF ++ Js.join LF (y :: l)) with ((x ++ LF) ++ Js.join LF (y :: l))
    by (now rewrite append_assoc).
  rewrite endsClean_append by (now apply endsClean_nonempty). exact IH.
Qed.

Lemma noneOf_join (p : ascii -> bool) (sep : string) (ls : list string) :
  noneOf p sep = true -> Forall (fun x => noneOf p x = true) ls ->
  noneOf p (Js.join sep ls) = true.
Proof.
  intros Hsep. induction ls as [|x ls IH]; [reflexivity|]. intros Hall.
  inversion Hall as [|? ? Hx Hrest]; subst.
  destruct ls as [|y l]; [exact Hx|].
  rewrite join_cons by discriminate. rewrite !noneOf_append, Hx, Hsep.
  now rewrite (IH Hrest).
Qed.

Lemma plainTitle_facts (t : string) :
  plainTitle t = true ->
  noBreak ("Note Title: " ++ t) = true
  /\ endsClean ("Note Title: " ++ t) = true
  /\ Js.includes (Js.trim ("Note Title: " ++ t)) "-->" = false.
Proof.
  unfold plainTitle. intros H. apply andb_prop in H as [Hl Ha].
  apply negb_true_iff in Ha.
  destruct (oneLine_facts t Hl) as (T10 & T13 & Te & _).
  assert (He : endsClean ("Note Title: " ++ t) = true)
    by (rewrite endsClean_append; [exact Te|now apply endsClean_nonempty]).
  repeat split.
  - unfold noBreak. rewrite !noneOf_append, T10, T13. reflexivity.
  - exact He.
  - rewrite (trim_plain ("Note Title: " ++ t) eq_refl He). exact Ha.
Qed.

Lemma bodyLines_facts (cues : list Cue) :
  Forall vttSafe cues ->
  Forall (fun x => noBreak x = true) (bodyLines cues)
  /\ (cues <> [] -> endsClean (last (bodyLines cues) "") = true).
Proof.
  induction cues as [|c cues IH]; [split; [constructor|congruence]|].
  intros Hall. inversion Hall as [|? ? (Hs & He & Ht) Hrest]; subst.
  destruct (IH Hrest) as [Hb Hl].
  destruct Hs as (s & Hs & Es). destruct He as (e & He & Ee).
  destruct (plainText_facts _ Ht) as (Hone & _).
  destruct (oneLine_facts _ Hone) as (T10 & T13 & Te & _).
  assert (HL : noBreak (vttTimeLine c) = true).
  { unfold vttTimeLine. rewrite Es, Ee, (msToVtt_clock s Hs), (msToVtt_clock e He).
    now destruct (timeLine_clocks s e Hs He) as (_ & _ & _ & _ & _ & Hn & _). }
  assert (HT : noBreak (text c) = true) by (unfold noBreak; now rewrite T10, T13).
  destruct cues as [|c' rest].
  - cbn [bodyLines].
    split; [constructor; [exact HL|constructor; [exact HT|constructor]]|].
    intros _. exact Te.
  - change (bodyLines (c :: c' :: rest))
      with (vttTimeLine c :: text c :: "" :: bodyLines (c' :: rest)).
    split;
      [constructor; [exact HL|constructor; [exact HT|constructor; [reflexivity|]]];
       exact Hb|].
    intros _.
    change (last (vttTimeLine c :: text c :: "" :: bodyLines (c' :: rest)) "")
      with (last (bodyLines (c' :: rest)) "").
    apply Hl. discriminate.
Qed.

Lemma vttLines_facts (metadata : option Metadata) (cues : list Cue) :
  Forall vttSafe cues ->
  (forall t, writtenTitle metadata = Some t -> plainTitle t = true) ->
  Forall (fun x => noBreak x = true) (vttLines metadata cues)
  /\ endsClean (last (vttLines metadata cues) "") = true.
Proof.
  intros Hall Htitle. destruct (bodyLines_facts cues Hall) as [Hb Hl].
  unfold vttLines, titleLines.
  destruct (writtenTitle metadata) as [t|] eqn:Et.
  - destruct (plainTitle_facts t (Htitle t eq_refl)) as (Tn & Te & _).
    destruct cues as [|c cs]; cbn [app].
    + split; [constructor; [reflexivity|constructor; [exact Tn|constructor]]|exact Te].
    + split; [constructor; [reflexivity|constructor; [exact Tn|
               constructor; [reflexivity|exact Hb]]]|].
      change (last ("WEBVTT" :: ("Note Title: " ++ t) :: "" :: bodyLines (c :: cs)) "")
        with (last (bodyLines (c :: cs)) "").
      apply Hl. discriminate.
  - destruct cues as [|c cs]; cbn [app].
    + split; [constructor; [reflexivity|constructor]|reflexivity].
    + split; [constructor; [reflexivity|constructor; [reflexivity|exact Hb]]|].
      change (last ("WEBVTT" :: "" :: bodyLines (c :: cs)) "")
        with (last (bodyLines (c :: cs)) "").
      apply Hl. discriminate.
Qed.

Lemma parseVTT_lines (cues : list Cue) (metadata : option Metadata) :
  Forall vttSafe cues ->
  (forall t, writtenTitle metadata = Some t -> plainTitle t = true) ->
  parseVTT (stringifyVTT cues false metadata)
  = mkResult
      (vttFinish
         (fold_left vttStep (List.skipn 1 (indexed (vttLines metadata cues)))
            (mkVtt [] None [] [])))
      (mkMetadata (noteTitle (vttLines metadata cues)) None None None).
Proof.
  intros Hall Htitle.
  destruct (vttLines_facts metadata cues Hall Htitle) as [Hn He].
  assert (Hne : vttLines metadata cues <> []) by discriminate.
  assert (H10 : Forall (fun x => noneOf (Ascii.eqb "010") x = true)
                  (vttLines metadata cues)).
  { eapply Forall_impl; [|exact Hn]. intros x Hx. unfold noBreak in Hx.
    now apply andb_prop in Hx as [Hx _]. }
  assert (H13 : Forall (fun x => noneOf (Ascii.eqb "013") x = true)
                  (vttLines metadata cues)).
  { eapply Forall_impl; [|exact Hn]. intros x Hx. unfold noBreak in Hx.
    now apply andb_prop in Hx as [_ Hx]. }
  assert (Hs : startsClean (Js.join LF (vttLines metadata cues)) = true).
  { unfold vttLines. destruct (titleLines metadata ++ _)%list; reflexivity. }
  unfold parseVTT. rewrite stringifyVTT_lines.
  rewrite (trim_tail (Js.join LF (vttLines metadata cues)));
    [|exact Hs|now apply endsClean_join|destruct cues; reflexivity].
  rewrite replaceAll_CRLF by (apply noneOf_join; [reflexivity|exact H13]).
  rewrite splitOn_join;
    [|discriminate|exact Hne|
     eapply Forall_impl; [|exact H10]; intros x Hx; now apply clearOf_first].
  cbv zeta. reflexivity.
Qed.

Lemma scan_vttLines (cues : list Cue) (metadata : option Metadata) :
  Forall vttSafe cues ->
  (forall t, writtenTitle metadata = Some t -> plainTitle t = true) ->
  vttFinish
    (fold_left vttStep (List.skipn 1 (indexed (vttLines metadata cues)))
       (mkVtt [] None [] []))
  = map (vttRead (firstCueLine metadata)) (indexed cues).
Proof.
  intros Hall Htitle. unfold vttLines, titleLines, firstCueLine.
  destruct (writtenTitle metadata) as [t|] eqn:Et.
  - destruct (plainTitle_facts t (Htitle t eq_refl)) as (_ & _ & Ha).
    destruct cues as [|c cs].
    + unfold indexed. cbn [List.length app List.seq combine List.skipn fold_left].
      rewrite (vttStep_idle [] 1 _ Ha). reflexivity.
    + unfold indexed at 1.
      cbn [List.length app List.seq combine List.skipn fold_left].
      rewrite (vttStep_idle [] 1 _ Ha), (vttStep_idle [] 2 "" eq_refl).
      exact (scan_bodyLines 3 (c :: cs) Hall ltac:(discriminate) 0 []).
  - destruct cues as [|c cs]; [reflexivity|].
    unfold indexed at 1.
    cbn [List.length app List.seq combine List.skipn fold_left].
    rewrite (vttStep_idle [] 1 "" eq_refl).
    exact (scan_bodyLines 2 (c :: cs) Hall ltac:(discriminate) 0 []).
Qed.

(** *** The title *)

Lemma substring_all (t : string) (m : nat) :
  (String.length t <= m)%nat -> String.substring 0 m t = t.
Proof.
  revert m. induction t as [|c t IH]; intros m H; [now destruct m|].
  destruct m as [|m]; [cbn in H; lia|]. cbn [String.substring].
  rewrite IH; [reflexivity|cbn in H; lia].
Qed.

Lemma noteTitle_idle (ls : list string) (acc : option string) :
  Forall (fun x => Js.startsWith x "Note Title:" = false) ls ->
  fold_left
    (fun t line =>
       if Js.startsWith line "Note Title:"
       then Some (Js.trim (Js.replaceFirst "Note Title:" "" line))
       else t)
    ls acc = acc.
Proof.
  intros H. revert acc. induction H as [|x ls Hx _ IH]; intros acc; [reflexivity|].
  cbn [fold_left]. rewrite Hx. apply IH.
Qed.

Lemma bodyLines_untitled (cues : list Cue) :
  Forall vttSafe cues ->
  Forall (fun c => Js.startsWith (text c) "Note Title:" = false) cues ->
  Forall (fun x => Js.startsWith x "Note Title:" = false) (bodyLines cues).
Proof.
  induction cues as [|c cues IH]; [constructor|]. intros Hall Hun.
  inversion Hall as [|? ? ((s & Hs & Es) & (e & He & Ee) & _) Hrest]; subst.
  inversion Hun as [|? ? Hc Hun']; subst.
  assert (HL : Js.startsWith (vttTimeLine c) "Note Title:" = false).
  { unfold vttTimeLine. rewrite Es, Ee, (msToVtt_clock s Hs), (msToVtt_clock e He).
    now destruct (timeLine_clocks s e Hs He) as (_ & _ & _ & _ & _ & _ & _ & Hn). }
  destruct cues as [|c' rest].
  - cbn [bodyLines]. constructor; [exact HL|constructor; [exact Hc|constructor]].
  - change (bodyLines (c :: c' :: rest))
      with (vttTimeLine c :: text c :: "" :: bodyLines (c' :: rest)).
    constructor; [exact HL|constructor; [exact Hc|constructor; [reflexivity|]]].
    now apply IH.
Qed.

Lemma noteTitle_vttLines (cues : list Cue) (metadata : option Metadata) :
  Forall vttSafe cues ->
  Forall (fun c => Js.startsWith (text c) "Note Title:" = false) cues ->
  noteTitle (vttLines metadata cues) = option_map Js.trim (writtenTitle metadata).
Proof.
  intros Hall Hun. pose proof (bodyLines_untitled cues Hall Hun) as Hb.
  assert (Hrest : Forall (fun x => Js.startsWith x "Note Title:" = false)
                    (match cues with [] => [] | _ :: _ => "" :: bodyLines cues end)).
  { destruct cues; [constructor|constructor; [reflexivity|exact Hb]]. }
  unfold noteTitle, vttLines, titleLines.
  destruct (writtenTitle metadata) as [t|].
  - cbn [app fold_left].
    change (Js.startsWith "WEBVTT" "Note Title:") with false. cbv iota.
    change (Js.startsWith ("Note Title: " ++ t) "Note Title:") with true. cbv iota.
    rewrite noteTitle_idle by exact Hrest. cbn [option_map]. f_equal.
    change (Js.replaceFirst "Note Title:" "" ("Note Title: " ++ t))
      with (String " " (String.substring 0 (11 + String.length t) t)).
    rewrite substring_all by lia. reflexivity.
  - cbn [app fold_left].
    change (Js.startsWith "WEBVTT" "Note Title:") with false. cbv iota.
    now rewrite noteTitle_idle by exact Hrest.
Qed.

(** X27.  VTT written and read back: for cues with whole times below
    100 hours and a text of one line without white space around it,
    without the character [<] and without an arrow, and a title (if
    any) of one line without an arrow, parsing what [stringifyContent]
    writes gives the same times and texts in the same order; the cue of
    rank i is named after the line of its time line, [vtt-] and
    first + 3 i with first 2 or, with a title, 3, and has an empty list
    of words.  The title comes back trimmed when no text starts with
    [Note Title:]; the rest of the metadata is lost. *)
Theorem vtt_round_trip
  (parseXml : string -> list Dom.node)
  (JSON_parse : string -> option Json.value)
  (JSON_stringify : option Metadata -> list Cue -> string)
  (cues : list Cue) (metadata : option Metadata) :
  Forall vttSafe cues ->
  (forall t, writtenTitle metadata = Some t -> plainTitle t = true) ->
  exists r,
    parseContent parseXml JSON_parse
      (stringifyContent JSON_stringify cues VTT metadata) VTT = Some r
    /\ Parser.cues r = map (vttRead (firstCueLine metadata)) (indexed cues)
    /\ (Forall (fun c => Js.startsWith (text c) "Note Title:" = false) cues ->
        Parser.metadata r
        = mkMetadata (option_map Js.trim (writtenTitle metadata)) None None None).
Proof.
  intros Hall Htitle. unfold parseContent, stringifyContent.
  rewrite (parseVTT_lines cues metadata Hall Htitle).
  eexists. split; [reflexivity|]. cbn [Parser.cues Parser.metadata]. split.
  - now apply scan_vttLines.
  - intros Hun. now rewrite noteTitle_vttLines.
Qed.

Lemma vtt_round_trip_witness :
  exists r,
    parseContent (fun _ => []) Json.parse
      (stringifyContent (fun _ _ => "") [Samples.cueAtZero; Samples.cueAtFive] VTT
         (Some (mkMetadata (Some "Song") None None None))) VTT = Some r
    /\ Parser.cues r
       = [mkCue "vtt-3" (ofZ 0) (ofZ 2000) "la" (Some []);
          mkCue "vtt-6" (ofZ 5000) (ofZ 7000) "la" (Some [])]
    /\ (Forall (fun c => Js.startsWith (text c) "Note Title:" = false)
          [Samples.cueAtZero; Samples.cueAtFive] ->
        Parser.metadata r = mkMetadata (Some "Song") None None None).
Proof.
  apply (vtt_round_trip (fun _ => []) Json.parse (fun _ _ => "")
           [Samples.cueAtZero; Samples.cueAtFive]
           (Some (mkMetadata (Some "Song") None None None))).
  - repeat constructor.
    + exists 0. split; [lia|reflexivity].
    + exists 2000. split; [lia|reflexivity].
    + exists 5000. split; [lia|reflexivity].
    + exists 7000. split; [lia|reflexivity].
  - intros t E. injection E as <-. reflexivity.
Defined.

(** ** Lines written and read back *)

(** *** Splitting at line breaks *)

Lemma matchAt_newline_plain (a : ascii) (s : string) (pos : nat) :
  Ascii.eqb "013" a = false -> Ascii.eqb "010" a = false ->
  matchAt newlinePattern pos (String a s) = None.
Proof.
  intros H13 H10. unfold matchAt, newlinePattern, opt, chr, Js.isChar.
  cbn [run String.length repeat canRepeat]. rewrite H13, H10. reflexivity.
Qed.

Lemma matchAt_newline_LF (s : string) (pos : nat) :
  matchAt newlinePattern pos (LF ++ s) = Some (S pos, []).
Proof. reflexivity. Qed.

Lemma searchFrom_newline_none (x : string) (pos : nat) :
  noBreak x = true -> searchFrom newlinePattern pos x = None.
Proof.
  unfold noBreak. revert pos. induction x as [|a x IH]; intros pos H; [reflexivity|].
  cbn [noneOf] in H. apply andb_prop in H as [H10 H13].
  apply andb_prop in H10 as [A10 X10]. apply andb_prop in H13 as [A13 X13].
  apply negb_true_iff in A10, A13.
  cbn [searchFrom]. rewrite (matchAt_newline_plain a x pos A13 A10).
  apply IH. now rewrite X10, X13.
Qed.

Lemma searchFrom_newline_first (x rest : string) (pos : nat) :
  noBreak x = true ->
  searchFrom newlinePattern pos (x ++ LF ++ rest)
  = Some ((pos + String.length x)%nat, (S (pos + String.length x), [])).
Proof.
  unfold noBreak. revert pos. induction x as [|a x IH]; intros pos H.
  - cbn [append String.length]. rewrite Nat.add_0_r.
    destruct (LF ++ rest) eqn:E; [discriminate|]. cbn [searchFrom].
    rewrite <- E, matchAt_newline_LF. reflexivity.
  - cbn [noneOf] in H. apply andb_prop in H as [H10 H13].
    apply andb_prop in H10 as [A10 X10]. apply andb_prop in H13 as [A13 X13].
    apply negb_true_iff in A10, A13.
    cbn [append searchFrom]. rewrite (matchAt_newline_plain a _ pos A13 A10).
    rewrite IH by (now rewrite X10, X13). cbn [String.length].
    now rewrite Nat.add_succ_r.
Qed.

Lemma skip_append (x rest : string) : skip (String.length x) (x ++ rest) = rest.
Proof. induction x as [|a x IH]; [now destruct rest|exact IH]. Qed.

Lemma substring_middle (pre x rest : string) :
  String.substring (String.length pre) (String.length x) (pre ++ x ++ rest) = x.
Proof.
  induction pre as [|a pre IH]; [exact (substring_prefix x rest)|exact IH].
Qed.

Lemma split_lines_from (lines : list string) :
  lines <> [] -> Forall (fun x => noBreak x = true) lines ->
  forall (pre : string) (fuel : nat),
    (String.length (Js.join LF lines) < fuel)%nat ->
    splitWalk
      (map (toFound (pre ++ Js.join LF lines))
         (allMatches fuel newlinePattern (String.length pre) (Js.join LF lines)))
      (String.length pre) (Js.join LF lines)
    = lines.
Proof.
  induction lines as [|x lines IH]; [congruence|]. intros _ Hall pre fuel Hfuel.
  inversion Hall as [|? ? Hx Hrest]; subst.
  destruct fuel as [|fuel]; [lia|].
  destruct lines as [|y l].
  - cbn [Js.join allMatches]. rewrite (searchFrom_newline_none x _ Hx). reflexivity.
  - rewrite join_cons in * by discriminate.
    set (J := Js.join LF (y :: l)) in *.
    cbn [allMatches]. rewrite (searchFrom_newline_first x J _ Hx).
    rewrite !length_append in Hfuel. cbn [LF String.length] in Hfuel.
    replace (Nat.max (S (String.length pre + String.length x))
               (String.length pre + String.length x + 1))
      with (S (String.length pre + String.length x)) by lia.
    replace (Nat.ltb (String.length pre + String.length (x ++ LF ++ J))
               (S (String.length pre + String.length x))) with false
      by (symmetry; apply Nat.ltb_ge; rewrite !length_append; cbn [LF String.length]; lia).
    replace (S (String.length pre + String.length x) - String.length pre)%nat
      with (String.length (x ++ LF)) by (rewrite length_append; cbn [LF String.length]; lia).
    replace (x ++ LF ++ J) with ((x ++ LF) ++ J) at 2 by (now rewrite append_assoc).
    rewrite skip_append.
    cbn [map toFound splitWalk Regex.index matched].
    unfold slice.
    replace (S (String.length pre + String.length x) - (String.length pre + String.length x))%nat
      with (String.length LF) by (cbn [LF String.length]; lia).
    replace (String.substring (String.length pre + String.length x) (String.length LF)
               (pre ++ x ++ LF ++ J))
      with LF
      by (rewrite <- length_append;
          replace (pre ++ x ++ LF ++ J) with ((pre ++ x) ++ LF ++ J)
            by (now rewrite append_assoc);
          now rewrite substring_middle).
    replace (String.length pre + String.length x - String.length pre)%nat
      with (String.length x) by lia.
    rewrite substring_prefix. f_equal.
    replace (String.length pre + String.length x + String.length LF
             - String.length pre)%nat
      with (String.length (x ++ LF)) by (rewrite length_append; lia).
    replace (x ++ LF ++ J) with ((x ++ LF) ++ J) by (now rewrite append_assoc).
    rewrite skip_append.
    replace (pre ++ (x ++ LF) ++ J) with ((pre ++ x ++ LF) ++ J)
      by (now rewrite !append_assoc).
    replace (String.length pre + String.length x + String.length LF)%nat
      with (String.length (pre ++ x ++ LF)) by (rewrite !length_append; lia).
    replace (S (String.length pre + String.length x))
      with (String.length (pre ++ x ++ LF))
      by (rewrite !length_append; cbn [LF String.length]; lia).
    apply IH; [discriminate|exact Hrest|lia].
Qed.

Lemma split_lines (lines : list string) :
  lines <> [] -> Forall (fun x => noBreak x = true) lines ->
  split newlinePattern (Js.join LF lines) = lines.
Proof.
  intros Hne Hall. unfold split, matches.
  exact (split_lines_from lines Hne Hall "" _ (Nat.lt_succ_diag_r _)).
Qed.


(** *** Plain text *)

Lemma trimmedLine_facts (t : string) :
  trimmedLine t = true ->
  noBreak t = true /\ endsClean t = true /\ startsClean t = true /\ Js.trim t = t
  /\ Js.truthy t = true.
Proof.
  unfold trimmedLine. intros H. apply andb_prop in H as [Hl Hs].
  destruct (oneLine_facts t Hl) as (T10 & T13 & Te & _).
  repeat split; try assumption.
  - unfold noBreak. now rewrite T10, T13.
  - now apply trim_plain.
  - destruct t; [discriminate|reflexivity].
Qed.

Lemma txtDocument_nonempty (c : Cue) (cues : list Cue) : txtDocument (c :: cues) <> [].
Proof. discriminate. Qed.

Lemma txtLines_txtDocument (cues : list Cue) :
  cues <> [] -> txtLines cues = Js.join LF (txtDocument cues) ++ LF.
Proof.
  induction cues as [|c cues IH]; [congruence|]. intros _.
  destruct cues as [|next rest]; [reflexivity|].
  specialize (IH ltac:(discriminate)).
  change (txtLines (c :: next :: rest))
    with (text c ++ LF
          ++ (if SFleb stanzaBreakThreshold (sub (start next) (end_ c)) then LF else "")
          ++ txtLines (next :: rest)).
  change (txtDocument (c :: next :: rest))
    with (text c ::
          (if SFleb stanzaBreakThreshold (sub (start next) (end_ c))
           then "" :: txtDocument (next :: rest)
           else txtDocument (next :: rest))).
  rewrite IH. destruct (SFleb _ _).
  - rewrite !join_cons by (first [discriminate|apply txtDocument_nonempty]).
    now rewrite !append_assoc.
  - rewrite join_cons by apply txtDocument_nonempty.
    now rewrite !append_assoc.
Qed.

Lemma txtDocument_facts (cues : list Cue) :
  Forall (fun c => trimmedLine (text c) = true) cues ->
  Forall (fun x => noBreak x = true) (txtDocument cues)
  /\ filter (fun l => Js.truthy (Js.trim l)) (txtDocument cues) = map text cues
  /\ (cues <> [] ->
      endsClean (last (txtDocument cues) "") = true
      /\ startsClean (Js.join LF (txtDocument cues)) = true).
Proof.
  induction cues as [|c cues IH]; [repeat split; try constructor; congruence|].
  intros Hall. inversion Hall as [|? ? Hc Hrest]; subst.
  destruct (IH Hrest) as (Hn & Hf & Hl).
  destruct (trimmedLine_facts _ Hc) as (Tn & Te & Ts & Tt & Ty).
  destruct cues as [|next rest].
  - cbn [txtDocument filter map last Js.join]. rewrite Tt, Ty.
    repeat split; try assumption. constructor; [exact Tn|constructor].
  - change (txtDocument (c :: next :: rest))
      with (text c ::
            (if SFleb stanzaBreakThreshold (sub (start next) (end_ c))
             then "" :: txtDocument (next :: rest)
             else txtDocument (next :: rest))).
    destruct (Hl ltac:(discriminate)) as [Hlast _].
    pose proof (txtDocument_nonempty next rest) as Hne.
    destruct (SFleb _ _).
    + split; [constructor; [exact Tn|constructor; [reflexivity|exact Hn]]|].
      split.
      * cbn [filter]. rewrite Tt, Ty.
        change (Js.truthy (Js.trim "")) with false. cbv iota.
        rewrite Hf. reflexivity.
      * intros _. split.
        -- change (last (text c :: "" :: txtDocument (next :: rest)) "")
             with (last (txtDocument (next :: rest)) "").
           exact Hlast.
        -- rewrite join_cons by discriminate. now apply startsClean_append.
    + split; [constructor; [exact Tn|exact Hn]|].
      split.
      * cbn [filter]. rewrite Tt, Ty, Hf. reflexivity.
      * intros _. split.
        -- destruct (txtDocument (next :: rest)) as [|y l] eqn:E; [congruence|].
           exact Hlast.
        -- rewrite join_cons by exact Hne. now apply startsClean_append.
Qed.

Lemma txtCue_texts (cues : list Cue) (k : nat) :
  Forall (fun c => trimmedLine (text c) = true) cues ->
  map txtCue (combine (List.seq k (List.length (map text cues))) (map text cues))
  = map txtRead (combine (List.seq k (List.length cues)) cues).
Proof.
  revert k. induction cues as [|c cues IH]; intros k Hall; [reflexivity|].
  inversion Hall as [|? ? Hc Hrest]; subst.
  destruct (trimmedLine_facts _ Hc) as (_ & _ & _ & Tt & _).
  cbn [map List.length List.seq combine]. rewrite (IH (S k) Hrest).
  unfold txtCue at 1, txtRead at 2. now rewrite Tt.
Qed.

(** X28.  Plain text written and read back: for cues whose texts are
    one line each, not empty and without white space around them,
    parsing what [stringifyContent] writes gives the texts back in the
    same order, whatever the times were; the cue of rank i is named
    [txt-i] and lasts two seconds from 2000 i ms on, so the stanza
    breaks and the timing are lost. *)
Theorem txt_round_trip
  (parseXml : string -> list Dom.node)
  (JSON_parse : string -> option Json.value)
  (JSON_stringify : option Metadata -> list Cue -> string)
  (cues : list Cue) (metadata : option Metadata) :
  Forall (fun c => trimmedLine (text c) = true) cues ->
  parseContent parseXml JSON_parse
    (stringifyContent JSON_stringify cues TXT metadata) TXT
  = Some (mkResult (map txtRead (indexed cues)) noMetadata).
Proof.
  intros Hall. unfold parseContent, stringifyContent, stringifyTXT. f_equal. f_equal.
  destruct cues as [|c0 cues0] eqn:Ecues; [reflexivity|].
  rewrite <- Ecues in *. assert (Hne : cues <> []) by (rewrite Ecues; discriminate).
  clear Ecues.
  destruct (txtDocument_facts cues Hall) as (Hn & Hf & Hl).
  destruct (Hl Hne) as [Hlast Hstart].
  assert (Hdoc : txtDocument cues <> [])
    by (destruct cues; [congruence|apply txtDocument_nonempty]).
  rewrite (txtLines_txtDocument cues Hne).
  rewrite (trim_tail _ LF Hstart (endsClean_join _ Hlast) eq_refl).
  rewrite (split_lines _ Hdoc Hn), Hf.
  unfold indexed. now apply txtCue_texts.
Qed.

Lemma txt_round_trip_witness :
  parseContent (fun _ => []) Json.parse
    (stringifyContent (fun _ _ => "") [Samples.cueAtZero; Samples.cueAtFive] TXT None)
    TXT
  = Some (mkResult [mkCue "txt-0" (ofZ 0) (ofZ 2000) "la" None;
                    mkCue "txt-1" (ofZ 2000) (ofZ 4000) "la" None] noMetadata).
Proof.
  apply (txt_round_trip (fun _ => []) Json.parse (fun _ _ => "")
           [Samples.cueAtZero; Samples.cueAtFive] None).
  repeat constructor.
Defined.


(** *** LRC *)

Lemma nearestTen_ofZ (ms : Z) :
  0 <= ms < 2 ^ 40 -> nearestTen (ofZ ms) = ofZ (Stated.roundToTen ms).
Proof.
  intros H. unfold nearestTen. rewrite round_div_ofZ by lia.
  replace ((2 * ms + 10) / (2 * 10)) with ((ms + 5) / 10) by divlia.
  assert (Hq : 0 <= (ms + 5) / 10 < 2 ^ 40) by divlia.
  rewrite mul_ofZ by lia. reflexivity.
Qed.

Lemma lrc_stamp_decoded (ms : Z) :
  0 <= ms < 5999995 -> timeToMs (msToLrc (ofZ ms)) = ofZ (Stated.roundToTen ms).
Proof.
  intros H. rewrite msToLrc_fields by lia. cbv zeta.
  set (r := Stated.roundToTen ms).
  assert (Hr : 0 <= r < 6000000 /\ r mod 10 = 0)
    by (unfold r, Stated.roundToTen; divlia).
  pose proof (Z.mod_pos_bound r 60000 ltac:(lia)).
  pose proof (Z.mod_pos_bound r 1000 ltac:(lia)).
  assert (Bm : 0 <= r / 60000 < 100) by divlia.
  assert (Bs : 0 <= r mod 60000 / 1000 < 100) by divlia.
  assert (Bc : 0 <= r mod 1000 / 10 < 100) by divlia.
  destruct (field_two _ Bm) as (Dm & Lm & Vm).
  destruct (field_two _ Bs) as (Ds & Ls & Vs).
  destruct (field_two _ Bc) as (Dc & Lc & Vc).
  change (field 2 (r / 60000) ++ ":" ++ field 2 (r mod 60000 / 1000) ++ "."
          ++ field 2 (r mod 1000 / 10))
    with (colonText "" (field 2 (r / 60000)) (field 2 (r mod 60000 / 1000)) "."
            (field 2 (r mod 1000 / 10))).
  rewrite timeToMs_colon_formats; try assumption; try reflexivity; try lia;
    [|simpl; lia|now left].
  unfold colonValue, fractionScale. rewrite Vm, Vs, Vc, Lc.
  f_equal. cbn [Js.digitsValue]. divlia.
Qed.

Lemma lrc_stamp_shape (ms : Z) :
  0 <= ms < 5999995 ->
  exists a1 a2 a3 a4 a5 a6 : ascii,
    msToLrc (ofZ ms)
    = String a1 (String a2 (String ":" (String a3 (String a4 (String "."
        (String a5 (String a6 "")))))))
    /\ Js.isDigit a1 = true /\ Js.isDigit a2 = true /\ Js.isDigit a3 = true
    /\ Js.isDigit a4 = true /\ Js.isDigit a5 = true /\ Js.isDigit a6 = true.
Proof.
  intros H. rewrite msToLrc_fields by lia. cbv zeta.
  set (r := Stated.roundToTen ms).
  assert (Hr : 0 <= r < 6000000) by (unfold r, Stated.roundToTen; divlia).
  pose proof (Z.mod_pos_bound r 60000 ltac:(lia)).
  pose proof (Z.mod_pos_bound r 1000 ltac:(lia)).
  rewrite !field_pad2 by divlia. unfold pad2. cbn [append].
  do 6 eexists. split; [reflexivity|].
  repeat split; apply digitChar_digit; divlia.
Qed.

Lemma matchAt_lrcLine (a1 a2 a3 a4 a5 a6 : ascii) (t : string) :
  Js.isDigit a1 = true -> Js.isDigit a2 = true -> Js.isDigit a3 = true ->
  Js.isDigit a4 = true -> Js.isDigit a5 = true -> Js.isDigit a6 = true ->
  noneOf Js.isLineTerminator t = true ->
  matchAt lrcLinePattern 0
    (String "[" (String a1 (String a2 (String ":" (String a3 (String a4 (String "."
      (String a5 (String a6 (String "]" t))))))))))
  = Some ((10 + String.length t)%nat,
          [(2, (10, 10 + String.length t)); (1, (1, 9))]%nat).
Proof.
  intros H1 H2 H3 H4 H5 H6 Ht.
  unfold matchAt, lrcLinePattern.
  remember (Grp 2 (star dot)) as tail eqn:Etail.
  unfold lrcStamp, seq, times, opt, between, chr, digit, Js.isChar.
  cbn [fold_right run].
  change (Ascii.eqb "[" "[") with true. cbv iota.
  cbn [repeat canRepeat String.length Nat.eqb Nat.pred option_map run].
  rewrite H1. cbn [Nat.eqb].
  cbn [repeat canRepeat String.length Nat.eqb Nat.pred option_map run].
  rewrite H2. cbn [Nat.eqb].
  cbn [repeat canRepeat String.length Nat.eqb Nat.pred option_map orElse run].
  rewrite H3, H4, H5, H6.
  change (Ascii.eqb ":" ":") with true. change (Ascii.eqb "." ".") with true.
  change (Ascii.eqb "]" "]") with true. change (Js.isDigit "]") with false.
  cbv iota. cbn [orElse].
  subst tail. unfold star, dot. cbn [run].
  erewrite repeat_all.
  - cbn [orElse]. reflexivity.
  - reflexivity.
  - reflexivity.
  - eapply noneOf_weaken; [|exact Ht]. intros c Hc. now rewrite Hc.
  - lia.
  - lia.
  - reflexivity.
Qed.

Lemma includes_char (c0 : ascii) (t : string) :
  noneOf (Ascii.eqb c0) t = true -> Js.includes t (String c0 "") = false.
Proof.
  induction t as [|a t IH]; [reflexivity|]. cbn [noneOf]. intros H.
  apply andb_prop in H as [Ha Ht]. apply negb_true_iff in Ha.
  cbn [Js.includes Js.isPrefix]. rewrite Ha. now apply IH.
Qed.

Lemma plainLyric_facts (t : string) :
  plainLyric t = true ->
  noneOf Js.isLineTerminator t = true /\ noBreak t = true
  /\ Js.trim t = t /\ Js.includes t "<" = false.
Proof.
  unfold plainLyric. intros H. apply andb_prop in H as [H Hb].
  apply andb_prop in H as [Hl Ht].
  repeat split.
  - exact Hl.
  - unfold noBreak.
    rewrite (noneOf_weaken Js.isLineTerminator (Ascii.eqb "010") t), 
      (noneOf_weaken Js.isLineTerminator (Ascii.eqb "013") t);
      try exact Hl; try reflexivity; intros c Hc; now apply lineTerminator_tests.
  - destruct t as [|a t']; [reflexivity|]. cbn [trimmed] in Ht.
    apply andb_prop in Ht as [Hs He]. now apply trim_plain.
  - now apply includes_char.
Qed.

Lemma lrcCue_lrcLine (first i : nat) (c : Cue) :
  lrcSafe c ->
  lrcCue ((first + i)%nat, lrcLine false c) = Some (lrcRead first (i, c)).
Proof.
  intros ((ms & Hms & Es) & Ht).
  destruct (plainLyric_facts _ Ht) as (Hl & _ & Htrim & Hinc).
  pose proof (lrc_stamp_decoded ms Hms) as Hdec.
  destruct (lrc_stamp_shape ms Hms) as (a1 & a2 & a3 & a4 & a5 & a6 & E & A).
  destruct A as (H1 & H2 & H3 & H4 & H5 & H6).
  unfold lrcRead, lrcLine. cbn [andb]. rewrite Es, (nearestTen_ofZ ms) by lia.
  rewrite E in *. cbn [append].
  unfold lrcCue, exec. cbn [searchFrom].
  rewrite (matchAt_lrcLine a1 a2 a3 a4 a5 a6 (text c) H1 H2 H3 H4 H5 H6 Hl).
  cbn [option_map toFound map fst snd slice].
  unfold captured. cbn [groups group Nat.eqb]. unfold slice.
  cbn [Nat.sub Nat.add String.substring].
  rewrite Hdec, Nat.sub_0_r, (substring_all (text c) _ (Nat.le_refl _)).
  rewrite Hinc. cbn [andb]. rewrite Htrim. reflexivity.
Qed.

Lemma lrcLine_shape (c : Cue) :
  lrcSafe c ->
  exists (a1 : ascii) (body : string),
    lrcLine false c = String "[" (String a1 body)
    /\ Js.isDigit a1 = true
    /\ noBreak (lrcLine false c) = true
    /\ (noneOf (Ascii.eqb "[") (text c) = true ->
        noneOf (Ascii.eqb "[") (String a1 body) = true).
Proof.
  intros ((ms & Hms & Es) & Ht).
  destruct (plainLyric_facts _ Ht) as (_ & Hn & _).
  destruct (lrc_stamp_shape ms Hms) as (a1 & a2 & a3 & a4 & a5 & a6 & E & A).
  destruct A as (H1 & H2 & H3 & H4 & H5 & H6).
  unfold lrcLine. cbn [andb]. rewrite Es, E. cbn [append].
  exists a1. eexists. split; [reflexivity|]. split; [exact H1|]. split.
  - unfold noBreak in *. apply andb_prop in Hn as [T10 T13]. cbn [noneOf].
    rewrite T10, T13.
    rewrite !(digit_not_LF _ H1), !(digit_not_LF _ H2), !(digit_not_LF _ H3),
      !(digit_not_LF _ H4), !(digit_not_LF _ H5), !(digit_not_LF _ H6).
    rewrite !(digit_not_CR _ H1), !(digit_not_CR _ H2), !(digit_not_CR _ H3),
      !(digit_not_CR _ H4), !(digit_not_CR _ H5), !(digit_not_CR _ H6).
    reflexivity.
  - intros Hb. cbn [noneOf]. rewrite Hb.
    rewrite !(digit_other "[" _ eq_refl H1), !(digit_other "[" _ eq_refl H2),
      !(digit_other "[" _ eq_refl H3), !(digit_other "[" _ eq_refl H4),
      !(digit_other "[" _ eq_refl H5), !(digit_other "[" _ eq_refl H6).
    reflexivity.
Qed.

Lemma lrcCue_lines (first : nat) (cues : list Cue) (k : nat) :
  Forall lrcSafe cues ->
  filterMap lrcCue
    (combine (List.seq (first + k) (List.length (map (lrcLine false) cues)))
       (map (lrcLine false) cues))
  = map (lrcRead first) (combine (List.seq k (List.length cues)) cues).
Proof.
  revert k. induction cues as [|c cues IH]; intros k Hall; [reflexivity|].
  inversion Hall as [|? ? Hc Hrest]; subst.
  cbn [map List.length List.seq combine filterMap].
  rewrite (lrcCue_lrcLine first k c Hc).
  rewrite <- Nat.add_succ_r, (IH (S k) Hrest). reflexivity.
Qed.

(** *** The header of an LRC document *)

Lemma searchFrom_lrcLine_none (s : string) (pos : nat) :
  noneOf (Ascii.eqb "[") s = true -> searchFrom lrcLinePattern pos s = None.
Proof.
  revert pos. induction s as [|a s IH]; intros pos H; [reflexivity|].
  cbn [noneOf] in H. apply andb_prop in H as [Ha Hs]. apply negb_true_iff in Ha.
  cbn [searchFrom]. unfold matchAt, lrcLinePattern, seq, chr, Js.isChar.
  cbn [run]. rewrite Ha. now apply IH.
Qed.

Lemma lrcCue_fieldLine (tag v : string) (i : nat) (c0 : ascii) (r : string) :
  tag = String c0 r -> Js.isDigit c0 = false ->
  noneOf (Ascii.eqb "[") tag = true -> noneOf (Ascii.eqb "[") v = true ->
  lrcCue (i, "[" ++ tag ++ ":" ++ v ++ "]") = None.
Proof.
  intros -> Hd Htag Hv. unfold lrcCue, exec.
  set (rest := r ++ ":" ++ v ++ "]").
  change ("[" ++ String c0 r ++ ":" ++ v ++ "]") with (String "[" (String c0 rest)).
  assert (E : matchAt lrcLinePattern 0 (String "[" (String c0 rest)) = None).
  { unfold matchAt, lrcLinePattern.
    remember (Grp 2 (star dot)) as tail eqn:Etail.
    unfold lrcStamp, seq, times, opt, between, chr, digit, Js.isChar.
    cbn [run].
    change (Ascii.eqb "[" "[") with true. cbv iota.
    cbn [repeat canRepeat String.length Nat.eqb Nat.pred option_map run].
    rewrite Hd. reflexivity. }
  assert (N : searchFrom lrcLinePattern 1 (String c0 rest) = None).
  { apply searchFrom_lrcLine_none.
    change (String c0 rest) with (String c0 r ++ ":" ++ v ++ "]").
    rewrite !noneOf_append, Htag, Hv. reflexivity. }
  change (searchFrom lrcLinePattern 0 (String "[" (String c0 rest)))
    with (match matchAt lrcLinePattern 0 (String "[" (String c0 rest)) with
          | Some res => Some (0%nat, res)
          | None => searchFrom lrcLinePattern 1 (String c0 rest)
          end).
  rewrite E, N. reflexivity.
Qed.

Lemma run_lit (p : string) :
  forall pos s c k,
    run (lit p) pos s c k
    = if Js.isPrefix p s
      then k (pos + String.length p)%nat (skip (String.length p) s) c
      else None.
Proof.
  induction p as [|a p IH]; intros pos s c k.
  - cbn [lit run Js.isPrefix String.length skip]. rewrite Nat.add_0_r.
    destruct s; reflexivity.
  - destruct s as [|x s].
    + destruct p; reflexivity.
    + destruct p as [|b p'].
      * cbn [lit]. unfold chr, Js.isChar. cbn [run Js.isPrefix String.length skip].
        destruct (Ascii.eqb a x); [|reflexivity]. rewrite Nat.add_1_r.
        destruct s; reflexivity.
      * change (lit (String a (String b p'))) with (Cat (chr a) (lit (String b p'))).
        unfold chr, Js.isChar. cbn [run]. cbn [Js.isPrefix].
        destruct (Ascii.eqb a x); [|reflexivity].
        rewrite IH. cbn [String.length skip]. rewrite !Nat.add_succ_r.
        reflexivity.
Qed.

Lemma matchAt_header_fail (key s : string) (pos : nat) :
  Js.isPrefix ("[" ++ key ++ ":") s = false ->
  matchAt (headerPattern key) pos s = None.
Proof.
  intros H. unfold matchAt, headerPattern, seq. cbn [run].
  now rewrite run_lit, H.
Qed.

Lemma repeat_lazy_until (p : ascii -> bool) (stop : ascii)
  (step : nat -> string -> captures -> cont -> option result) (k : cont) :
  (forall pos a s c k', step pos (String a s) c k'
                        = if p a then k' (S pos) s c else None) ->
  (forall pos a s c, Ascii.eqb stop a = false -> k pos (String a s) c = None) ->
  forall (v rest : string) (fuel pos : nat) (c : captures) (r : result),
    noneOf (fun a => negb (p a)) v = true ->
    noneOf (Ascii.eqb stop) v = true ->
    (String.length v < fuel)%nat ->
    k (pos + String.length v)%nat (String stop rest) c = Some r ->
    repeat step fuel false 0 None pos (v ++ String stop rest) c k = Some r.
Proof.
  intros Hstep Hfail. induction v as [|a v IH]; intros rest fuel pos c r Hp Hs Hf Hk.
  - destruct fuel as [|fuel]; [cbn in Hf; lia|].
    cbn [append String.length] in *. rewrite Nat.add_0_r in Hk.
    cbn [repeat]. now rewrite Hk.
  - cbn [noneOf] in Hp, Hs. apply andb_prop in Hp as [Pa Pv].
    apply andb_prop in Hs as [Sa Sv].
    apply negb_true_iff, negb_false_iff in Pa. apply negb_true_iff in Sa.
    destruct fuel as [|fuel]; [cbn in Hf; lia|].
    cbn [append String.length] in *. cbn [repeat canRepeat].
    rewrite (Hfail pos a _ c Sa). cbn [orElse]. rewrite Hstep, Pa.
    replace (Nat.eqb (S pos) pos) with false by (symmetry; apply Nat.eqb_neq; lia).
    cbn [option_map Nat.pred].
    apply IH; try assumption; [lia|].
    now replace (S pos + String.length v)%nat with (pos + S (String.length v))%nat by lia.
Qed.

Lemma matchAt_header_hit (key v rest : string) (pos : nat) :
  noneOf Js.isLineTerminator v = true -> noneOf (Ascii.eqb "]") v = true ->
  matchAt (headerPattern key) pos (("[" ++ key ++ ":") ++ v ++ String "]" rest)
  = Some ((pos + String.length ("[" ++ key ++ ":") + String.length v + 1)%nat,
          [(1%nat, ((pos + String.length ("[" ++ key ++ ":"))%nat,
                    (pos + String.length ("[" ++ key ++ ":") + String.length v)%nat))]).
Proof.
  intros Hl Hb. unfold matchAt, headerPattern, seq. cbn [run].
  rewrite run_lit, isPrefix_append, skip_append.
  unfold lazyStar, dot, chr, Js.isChar. cbn [run].
  erewrite repeat_lazy_until with (stop := "]"%char).
  - reflexivity.
  - reflexivity.
  - intros pos0 a s c Ha. cbn beta. now rewrite Ha.
  - eapply noneOf_weaken; [|exact Hl]. intros c Hc. now rewrite Hc.
  - exact Hb.
  - rewrite length_append. cbn [String.length]. lia.
  - cbn beta. rewrite Ascii.eqb_refl. f_equal. f_equal. lia.
Qed.

Lemma searchFrom_header_skip (key x rest : string) (pos : nat) :
  clearOf ("[" ++ key ++ ":") x ->
  searchFrom (headerPattern key) pos (x ++ rest)
  = searchFrom (headerPattern key) (pos + String.length x) rest.
Proof.
  revert pos. induction x as [|c x IH]; intros pos H.
  - cbn [append String.length]. now rewrite Nat.add_0_r.
  - destruct H as [Hc Hx]. cbn [append searchFrom].
    change (String c (x ++ rest)) with (String c x ++ rest).
    rewrite (matchAt_header_fail key _ pos (Hc rest)).
    rewrite (IH (S pos) Hx). cbn [String.length]. now rewrite Nat.add_succ_r.
Qed.

Lemma searchFrom_header_none (key x : string) (pos : nat) :
  clearOf ("[" ++ key ++ ":") x -> searchFrom (headerPattern key) pos x = None.
Proof.
  intros H. rewrite <- (append_empty x), (searchFrom_header_skip key x "" pos H).
  cbn [searchFrom]. now rewrite matchAt_header_fail.
Qed.

Lemma header_absent (key content : string) :
  clearOf ("[" ++ key ++ ":") content -> header key content = None.
Proof.
  intros H. unfold header, exec. now rewrite searchFrom_header_none.
Qed.

Lemma header_present (key x v rest : string) :
  clearOf ("[" ++ key ++ ":") x ->
  noneOf Js.isLineTerminator v = true -> noneOf (Ascii.eqb "]") v = true ->
  header key (x ++ ("[" ++ key ++ ":" ++ v ++ "]") ++ rest) = Some (Js.trim v).
Proof.
  intros Hx Hl Hb. unfold header, exec.
  set (P := "[" ++ key ++ ":").
  replace (("[" ++ key ++ ":" ++ v ++ "]") ++ rest) with (P ++ v ++ String "]" rest)
    by (unfold P; repeat (cbn [append]; rewrite ?append_assoc); reflexivity).
  rewrite (searchFrom_header_skip key x _ 0 Hx). cbn [Nat.add].
  assert (E : searchFrom (headerPattern key) (String.length x) (P ++ v ++ String "]" rest)
              = Some (String.length x,
                      ((String.length x + String.length P + String.length v + 1)%nat,
                       [(1%nat, ((String.length x + String.length P)%nat,
                                 (String.length x + String.length P
                                  + String.length v)%nat))]))).
  { unfold P at 1. cbn [append searchFrom]. fold (append key ":").
    change (String "[" (key ++ ":")) with P.
    change (String "[" ((key ++ ":") ++ v ++ String "]" rest))
      with (P ++ v ++ String "]" rest).
    unfold P. now rewrite (matchAt_header_hit key v rest _ Hl Hb). }
  rewrite E. cbn [option_map toFound map fst snd]. unfold captured.
  cbn [groups group Nat.eqb]. unfold slice. f_equal. f_equal.
  replace (String.length x + String.length P + String.length v
           - (String.length x + String.length P))%nat
    with (String.length v) by lia.
  rewrite <- length_append.
  replace (x ++ P ++ v ++ String "]" rest) with ((x ++ P) ++ v ++ String "]" rest)
    by (now rewrite append_assoc).
  apply substring_middle.
Qed.

(** *** The lines of an LRC document *)

Lemma app_nonempty {A : Type} (a b : list A) : b <> [] -> (a ++ b)%list <> [].
Proof. destruct a; [auto|discriminate]. Qed.

Lemma headerLine_join (tag : string) (field : option string) (L : list string) :
  L <> [] ->
  headerLine tag field ++ Js.join LF L = Js.join LF (fieldLine tag field ++ L).
Proof.
  intros HL. unfold headerLine, fieldLine, writtenField.
  destruct field as [v|]; [|reflexivity]. destruct (Js.truthy v); [|reflexivity].
  cbn [app]. rewrite join_cons by exact HL. now rewrite !append_assoc.
Qed.

Lemma stringifyLRC_lines (cues : list Cue) (metadata : option Metadata) :
  stringifyLRC cues false metadata = Js.join LF (lrcDocument metadata cues).
Proof.
  unfold stringifyLRC, lrcDocument, headerLines. cbv zeta.
  set (B := match cues with [] => [""] | _ :: _ => map (lrcLine false) cues end).
  assert (HB : B <> []) by (unfold B; destruct cues; discriminate).
  assert (EB : Js.join LF (map (lrcLine false) cues) = Js.join LF B)
    by (unfold B; destruct cues; reflexivity).
  rewrite EB. destruct metadata as [m|]; [|reflexivity].
  rewrite !append_assoc.
  rewrite (headerLine_join "by" _ B HB).
  rewrite (headerLine_join "al" _ _ (app_nonempty _ _ HB)).
  rewrite (headerLine_join "ar" _ _ (app_nonempty _ _ (app_nonempty _ _ HB))).
  rewrite (headerLine_join "ti" _ _
             (app_nonempty _ _ (app_nonempty _ _ (app_nonempty _ _ HB)))).
  now rewrite <- !app_assoc.
Qed.

Lemma plainValue_facts (v : string) :
  plainValue v = true ->
  noneOf Js.isLineTerminator v = true /\ noneOf (Ascii.eqb "[") v = true
  /\ noneOf (Ascii.eqb "]") v = true /\ noBreak v = true.
Proof.
  unfold plainValue. intros H. apply andb_prop in H as [H Hc].
  apply andb_prop in H as [Hl Ho]. repeat split; try assumption.
  unfold noBreak.
  rewrite (noneOf_weaken Js.isLineTerminator (Ascii.eqb "010") v),
    (noneOf_weaken Js.isLineTerminator (Ascii.eqb "013") v);
    try exact Hl; try reflexivity; intros c Hc'; now apply lineTerminator_tests.
Qed.

Lemma fieldLine_facts (tag : string) (field : option string) (c0 : ascii) (r : string) :
  tag = String c0 r -> Js.isDigit c0 = false ->
  noneOf (Ascii.eqb "[") tag = true -> noBreak tag = true ->
  plainField field ->
  forall h, In h (fieldLine tag field) ->
    noBreak h = true /\ forall i, lrcCue (i, h) = None.
Proof.
  intros Etag Hd Hb Hn Hf h Hin. unfold fieldLine in Hin.
  destruct (writtenField field) as [v|] eqn:E; [|contradiction].
  destruct Hin as [<-|[]].
  destruct (plainValue_facts v (Hf v E)) as (_ & Vo & _ & Vn).
  split.
  - unfold noBreak in *. apply andb_prop in Hn as [N10 N13].
    apply andb_prop in Vn as [V10 V13].
    rewrite !noneOf_append, N10, N13, V10, V13. reflexivity.
  - intros i. now apply (lrcCue_fieldLine tag v i c0 r).
Qed.

Lemma headerLines_facts (metadata : option Metadata) :
  plainHeader metadata ->
  forall h, In h (headerLines metadata) ->
    noBreak h = true /\ forall i, lrcCue (i, h) = None.
Proof.
  intros Hp h Hin. unfold headerLines in Hin.
  destruct metadata as [m|]; [|contradiction].
  destruct Hp as (Pt & Pa & Pl & Pb).
  repeat (apply in_app_or in Hin; destruct Hin as [Hin|Hin]).
  - now apply (fieldLine_facts "ti" (title m) "t" "i").
  - now apply (fieldLine_facts "ar" (artist m) "a" "r").
  - now apply (fieldLine_facts "al" (album m) "a" "l").
  - now apply (fieldLine_facts "by" (by_ m) "b" "y").
Qed.

Lemma filterMap_skip {A B : Type} (f : nat * A -> option B) (hs L : list A) (k : nat) :
  (forall i h, In h hs -> f (i, h) = None) ->
  filterMap f (combine (List.seq k (List.length (hs ++ L))) (hs ++ L))
  = filterMap f (combine (List.seq (k + List.length hs) (List.length L)) L).
Proof.
  revert k. induction hs as [|h hs IH]; intros k H.
  - cbn [app List.length]. now rewrite Nat.add_0_r.
  - cbn [app List.length List.seq combine filterMap].
    rewrite (H k h (or_introl eq_refl)).
    rewrite IH by (intros i x Hx; apply H; now right).
    now rewrite Nat.add_succ_r.
Qed.

Lemma lrcDocument_cues (metadata : option Metadata) (cues : list Cue) :
  Forall lrcSafe cues -> plainHeader metadata ->
  filterMap lrcCue (indexed (lrcDocument metadata cues))
  = map (lrcRead (List.length (headerLines metadata))) (indexed cues).
Proof.
  intros Hall Hp. unfold indexed, lrcDocument.
  rewrite filterMap_skip
    by (intros i h Hin; now apply (headerLines_facts metadata Hp h Hin)).
  cbn [Nat.add]. destruct cues as [|c cs]; [reflexivity|].
  rewrite <- (Nat.add_0_r (List.length (headerLines metadata))) at 1.
  now apply lrcCue_lines.
Qed.

Lemma lrcDocument_noBreak (metadata : option Metadata) (cues : list Cue) :
  Forall lrcSafe cues -> plainHeader metadata ->
  Forall (fun x => noBreak x = true) (lrcDocument metadata cues).
Proof.
  intros Hall Hp. unfold lrcDocument. apply Forall_app. split.
  - apply Forall_forall. intros h Hin.
    now apply (headerLines_facts metadata Hp h Hin).
  - destruct cues as [|c cs]; [constructor; [reflexivity|constructor]|].
    apply Forall_map. eapply Forall_impl; [|exact Hall].
    intros x Hx. now destruct (lrcLine_shape x Hx) as (a1 & body & _ & _ & Hn & _).
Qed.

(** *** The header read back *)

Lemma clearOf_lineClear (P' l tail : string) :
  lineClear (String "[" P') l -> clearOf (String "[" P') tail ->
  clearOf (String "[" P') (l ++ tail).
Proof.
  intros [->|(body & -> & Hb & Hh)] Ht; [exact Ht|].
  cbn [append clearOf]. split.
  - intros rest. specialize (Hh (tail ++ rest)).
    cbn [append] in Hh. cbn [append]. now rewrite append_assoc.
  - now apply clearOf_append.
Qed.

Lemma linesBefore_clear (P' : string) (pre : list string) :
  Forall (lineClear (String "[" P')) pre ->
  clearOf (String "[" P') (linesBefore pre).
Proof.
  induction 1 as [|l pre Hl _ IH]; [exact I|]. cbn [linesBefore].
  apply clearOf_lineClear; [exact Hl|].
  now apply (clearOf_append "[" P' LF).
Qed.

Lemma join_clear (P' : string) (lines : list string) :
  Forall (lineClear (String "[" P')) lines ->
  clearOf (String "[" P') (Js.join LF lines).
Proof.
  induction 1 as [|l lines Hl _ IH]; [exact I|].
  destruct lines as [|y rest].
  - cbn [Js.join]. rewrite <- (append_empty l). now apply clearOf_lineClear.
  - rewrite join_cons by discriminate.
    apply clearOf_lineClear; [exact Hl|].
    now apply (clearOf_append "[" P' LF).
Qed.

Lemma join_around (pre : list string) (l : string) (post : list string) :
  Js.join LF (pre ++ l :: post) = linesBefore pre ++ l ++ linesAfter post.
Proof.
  induction pre as [|x pre IH].
  - cbn [app linesBefore append]. destruct post; [now rewrite append_empty|reflexivity].
  - cbn [app linesBefore]. rewrite join_cons by (apply app_nonempty; discriminate).
    now rewrite IH, !append_assoc.
Qed.

Lemma header_field (key : string) (pre : list string) (field : option string)
  (post : list string) :
  Forall (lineClear ("[" ++ key ++ ":")) pre ->
  Forall (lineClear ("[" ++ key ++ ":")) post ->
  plainField field ->
  header key (Js.join LF (pre ++ fieldLine key field ++ post)) = readField field.
Proof.
  intros Hpre Hpost Hf. unfold fieldLine, readField.
  destruct (writtenField field) as [v|] eqn:E.
  - destruct (plainValue_facts v (Hf v E)) as (Vl & _ & Vc & _).
    cbn [app option_map]. rewrite join_around.
    apply header_present; try assumption.
    now apply (linesBefore_clear (key ++ ":")).
  - cbn [app option_map]. apply header_absent.
    apply (join_clear (key ++ ":")). apply Forall_app. now split.
Qed.

Lemma fieldLine_clear (key tag : string) (field : option string) :
  (forall v rest,
      Js.isPrefix ("[" ++ key ++ ":") (("[" ++ tag ++ ":" ++ v ++ "]") ++ rest) = false) ->
  noneOf (Ascii.eqb "[") tag = true ->
  plainField field ->
  Forall (lineClear ("[" ++ key ++ ":")) (fieldLine tag field).
Proof.
  intros Hh Ht Hf. unfold fieldLine.
  destruct (writtenField field) as [v|] eqn:E; [|constructor].
  destruct (plainValue_facts v (Hf v E)) as (_ & Vo & _).
  constructor; [|constructor]. right. exists (tag ++ ":" ++ v ++ "]").
  split; [reflexivity|]. split.
  - rewrite !noneOf_append, Ht, Vo. reflexivity.
  - intros rest. apply Hh.
Qed.

Lemma lrcLines_clear (key : string) (k1 : ascii) (kr : string) (cues : list Cue) :
  key = String k1 kr -> Js.isDigit k1 = false ->
  Forall lrcSafe cues ->
  Forall (fun c => noneOf (Ascii.eqb "[") (text c) = true) cues ->
  Forall (lineClear ("[" ++ key ++ ":"))
    (match cues with [] => [""] | _ :: _ => map (lrcLine false) cues end).
Proof.
  intros -> Hk Hall Hopen.
  destruct cues as [|c0 cs] eqn:Ecues; [constructor; [now left|constructor]|].
  rewrite <- Ecues in *. clear Ecues. apply Forall_map.
  apply Forall_forall. intros c Hin.
  rewrite Forall_forall in Hall, Hopen.
  destruct (lrcLine_shape c (Hall c Hin)) as (a1 & body & E & H1 & _ & Hb).
  right. exists (String a1 body). split; [exact E|]. split; [exact (Hb (Hopen c Hin))|].
  intros rest. rewrite E. cbn [append Js.isPrefix].
  change (Ascii.eqb "[" "[") with true. cbv iota.
  now rewrite (digit_other k1 a1 Hk H1).
Qed.

Lemma lrcDocument_metadata (metadata : option Metadata) (cues : list Cue) :
  Forall lrcSafe cues -> plainHeader metadata ->
  Forall (fun c => noneOf (Ascii.eqb "[") (text c) = true) cues ->
  Parser.metadata (parseLRC (Js.join LF (lrcDocument metadata cues)))
  = readHeader metadata.
Proof.
  intros Hall Hp Hopen. unfold parseLRC. cbn [Parser.metadata].
  unfold lrcDocument, headerLines, readHeader.
  set (B := match cues with [] => [""] | _ :: _ => map (lrcLine false) cues end).
  assert (Bti : Forall (lineClear ("[" ++ "ti" ++ ":")) B)
    by (now apply (lrcLines_clear "ti" "t" "i")).
  assert (Bar : Forall (lineClear ("[" ++ "ar" ++ ":")) B)
    by (now apply (lrcLines_clear "ar" "a" "r")).
  assert (Bal : Forall (lineClear ("[" ++ "al" ++ ":")) B)
    by (now apply (lrcLines_clear "al" "a" "l")).
  assert (Bby : Forall (lineClear ("[" ++ "by" ++ ":")) B)
    by (now apply (lrcLines_clear "by" "b" "y")).
  destruct metadata as [m|].
  - destruct Hp as (Pt & Pa & Pl & Pb).
    set (Fti := fieldLine "ti" (title m)). set (Far := fieldLine "ar" (artist m)).
    set (Fal := fieldLine "al" (album m)). set (Fby := fieldLine "by" (by_ m)).
    f_equal.
    + replace ((Fti ++ Far ++ Fal ++ Fby) ++ B)%list
        with ([] ++ Fti ++ (Far ++ Fal ++ Fby ++ B))%list
        by (cbn [app]; now rewrite <- !app_assoc).
      apply header_field; [constructor| |exact Pt].
      repeat (apply Forall_app; split); try exact Bti;
        apply fieldLine_clear; try assumption; reflexivity.
    + replace ((Fti ++ Far ++ Fal ++ Fby) ++ B)%list
        with (Fti ++ Far ++ (Fal ++ Fby ++ B))%list
        by (now rewrite <- !app_assoc).
      apply header_field; [| |exact Pa].
      * apply fieldLine_clear; try assumption; reflexivity.
      * repeat (apply Forall_app; split); try exact Bar;
          apply fieldLine_clear; try assumption; reflexivity.
    + replace ((Fti ++ Far ++ Fal ++ Fby) ++ B)%list
        with ((Fti ++ Far) ++ Fal ++ (Fby ++ B))%list
        by (now rewrite <- !app_assoc).
      apply header_field; [| |exact Pl].
      * repeat (apply Forall_app; split);
          apply fieldLine_clear; try assumption; reflexivity.
      * repeat (apply Forall_app; split); try exact Bal;
          apply fieldLine_clear; try assumption; reflexivity.
    + replace ((Fti ++ Far ++ Fal ++ Fby) ++ B)%list
        with ((Fti ++ Far ++ Fal) ++ Fby ++ B)%list
        by (now rewrite <- !app_assoc).
      apply header_field; [| |exact Pb].
      * repeat (apply Forall_app; split);
          apply fieldLine_clear; try assumption; reflexivity.
      * exact Bby.
  - cbn [app]. unfold noMetadata.
    rewrite !header_absent; [reflexivity| | | |];
      first [apply (join_clear ("by" ++ ":")); exact Bby
            |apply (join_clear ("al" ++ ":")); exact Bal
            |apply (join_clear ("ar" ++ ":")); exact Bar
            |apply (join_clear ("ti" ++ ":")); exact Bti].
Qed.

(** X29.  LRC written and read back: for cues with a whole start
    time below 5999995 ms and a text of one line, possibly empty,
    without white space around it and without the character [<], and
    header values of one line without square brackets, parsing what
    [stringifyContent] writes gives the texts back in the same order,
    each start rounded to the nearest 10 ms, every cue ending where the
    next one starts and the last one 3000 ms after its start, named
    [lrc-] and the number of its line, without words.  The header
    fields come back trimmed when no text holds an opening bracket. *)
Theorem lrc_round_trip
  (parseXml : string -> list Dom.node)
  (JSON_parse : string -> option Json.value)
  (JSON_stringify : option Metadata -> list Cue -> string)
  (cues : list Cue) (metadata : option Metadata) :
  Forall lrcSafe cues -> plainHeader metadata ->
  exists r,
    parseContent parseXml JSON_parse
      (stringifyContent JSON_stringify cues LRC metadata) LRC = Some r
    /\ Parser.cues r
       = Stated.chainEnds
           (map (lrcRead (List.length (headerLines metadata))) (indexed cues))
    /\ (Forall (fun c => noneOf (Ascii.eqb "[") (text c) = true) cues ->
        Parser.metadata r = readHeader metadata)
    /\ forall ms, 0 <= ms < 5999995 ->
         nearestTen (ofZ ms) = ofZ (Stated.roundToTen ms).
Proof.
  intros Hall Hp. unfold parseContent, stringifyContent.
  eexists. split; [reflexivity|].
  rewrite stringifyLRC_lines. split; [|split].
  - unfold parseLRC. cbn [Parser.cues].
    rewrite inferEnds_chainEnds. f_equal.
    rewrite split_lines.
    + now apply lrcDocument_cues.
    + unfold lrcDocument. apply app_nonempty. destruct cues; discriminate.
    + now apply lrcDocument_noBreak.
  - intros Hopen. now apply lrcDocument_metadata.
  - intros ms H. apply nearestTen_ofZ. lia.
Qed.

Lemma lrc_round_trip_witness :
  exists r,
    parseContent (fun _ => []) Json.parse
      (stringifyContent (fun _ _ => "")
         [mkCue "a" (ofZ 1234) (ofZ 2000) "la" None;
          mkCue "b" (ofZ 5005) (ofZ 7000) "" None] LRC
         (Some (mkMetadata (Some " Song ") None (Some "") (Some "me")))) LRC = Some r
    /\ Parser.cues r
       = [mkCue "lrc-2" (ofZ 1230) (ofZ 5010) "la" None;
          mkCue "lrc-3" (ofZ 5010) (ofZ 8010) "" None]
    /\ (Forall (fun c => noneOf (Ascii.eqb "[") (text c) = true)
          [mkCue "a" (ofZ 1234) (ofZ 2000) "la" None;
           mkCue "b" (ofZ 5005) (ofZ 7000) "" None] ->
        Parser.metadata r = mkMetadata (Some "Song") None None (Some "me"))
    /\ forall ms, 0 <= ms < 5999995 ->
         nearestTen (ofZ ms) = ofZ (Stated.roundToTen ms).
Proof.
  apply (lrc_round_trip (fun _ => []) Json.parse (fun _ _ => "")
           [mkCue "a" (ofZ 1234) (ofZ 2000) "la" None;
            mkCue "b" (ofZ 5005) (ofZ 7000) "" None]
           (Some (mkMetadata (Some " Song ") None (Some "") (Some "me")))).
  - repeat constructor.
    + exists 1234. split; [lia|reflexivity].
    + exists 5005. split; [lia|reflexivity].
  - repeat split; intros v E; cbn in E;
      first [discriminate E|injection E as <-; reflexivity].
Defined.
